(* ===== verification/_CoqProject ===== *)
-Q . S2P
Prelude.v
Common.v
Json.v
JsonLaws.v
JsonSize.v
External.v
Accounts.v
Merkle.v
Txs.v
Blocks.v
Rpc.v
Memory.v
MemoryFacts.v
MempoolFacts.v
StateHash.v
Ledger.v
Storage.v
StorageFacts.v
StorageProps.v
Executers.v
ExecuterFacts.v
BlockExec.v
Settlement.v
ExecutionProps.v
Replay.v
Supply.v
Producer.v
ProducerProps.v
P2p.v
P2pProps.v
Node.v
Sync.v
NodeFacts.v
SyncProps.v
Server.v
ServerProps.v
ConsensusMsgs.v
Consensus.v
ConsensusFacts.v
ConsensusProps.v
ConsensusInv.v
RoundProps.v
QuorumProps.v
FullNode.v
FullNodeProps.v
NetworkProps.v
Cli.v
CliProps.v
Wires.v
WiresProps.v
Service.v
ServiceProps.v
