(* ===== verification/Prelude.v ===== *)
(** * A blockchain node: model and correctness

    This library models the Go program under src/ (a prototype blockchain:
    nodes that exchange transactions, agree on a block producer, execute and
    store blocks, and a client that talks to them) and proves what its parts
    promise each other.  Definitions keep the names of the code; a definition
    of a method is named after its receiver where names would clash
    ([Block_Verify], [Storage_Put]).

    ** The program and the files

    - [Prelude]: byte strings, integers of fixed width, outcomes, the state
      monad [M S A] and generic lemmas.
    - [Json], [JsonLaws], [JsonSize]: encoding/json as the program uses it: a
      printer and a parser, a codec per type built field by field from the
      struct, the round-trip law of each (class [JSONLaws]) and size bounds.
    - [Common] (common/), [Merkle] (common/merkle), [Accounts] (accounts/),
      [Txs] (txs/, accounts/keys, accounts/wallets), [Blocks] (blocks/,
      blockchain/), [Rpc] (rpc/).
    - [External]: interfaces for what is not under src/, see below.
    - [Memory] (memory/): the pool and the account states, the channels to the
      goroutine that serves them, and the state hash; [MemoryFacts],
      [MempoolFacts], [StateHash] hold their theorems.
    - [Storage] (storage/): the bolt database and the copies of account states
      between it and memory; [StorageFacts], [StorageProps].  [Service] is its
      request channel under concurrency: the callers' goroutines, the loop of
      the service and the accounts' transactions as a step relation, and the
      specification, calls that take effect at once, which the other files use;
      [ServiceProps] proves the simulation and that everyone is served.
    - [Executers], [Producer] (executers/): the faucet, the execution of blocks
      with revert and finality, making and checking blocks.  [Ledger] is the
      specification: blocks as a pure function of a finite map of states
      ([spec_block]).  [ExecuterFacts] and [BlockExec] prove the simulation,
      [Settlement] the invariant between blocks ([settled]: memory and database
      agree) and during one ([pending]); [ExecutionProps], [ProducerProps], and
      [Replay] and [Supply]: the effect of blocks on accounts and on the supply.
    - [P2p] (p2p/): addresses, messages, the peer list, discovery, the dispatch
      of inbound messages; [P2pProps].  Services above it have a [P2pService]
      in their state (class [HasP2p]).
    - [Node] (nodes/node.go), [Sync] (nodes/sync), [Server] (nodes/rpc,
      clients/), with [NodeFacts], [SyncProps], [ServerProps], and [NetworkProps]
      on whatever may arrive at the RPC and the sync port.
    - [ConsensusMsgs], [Consensus] (consensus/): messages, committee, proposal,
      votes, timeout and finality; [ConsensusFacts], [ConsensusProps],
      [ConsensusInv]; [RoundProps] runs a round of two nodes, [QuorumProps] one
      of any number.
    - [FullNode] (genesis/, fullnode/): first start and restart; [FullNodeProps].
    - [Cli] (cli/, main.go): the arguments, the flags, and every command over
      the files, the databases and the nodes it dials; [CliProps].
    - [Wires] (p2p/server.go, p2p/transporter.go, the [catch] methods and the
      goroutine of [FullNode.Run]): how an error travels up to [FullNode.Run],
      which starts the node before it receives; [WiresProps].

    ** How the code is represented

    A method with effects is a function of the state monad.  An [outcome] is a
    value ([Done]), a panic, or [Blocked]: the goroutine waits for ever on a
    channel.  Errors are [result]s or [option error]s, as in the code.
    Integers are [Z] with their wrap-around written out ([u64], [s32], ...); a
    [[]byte] that the code compares with nil is [gobytes] (an option).
    Pointers to account states, which the memory goroutine and its clients
    share, are locations of a heap in [MemoryService].

    The buffered request channels of the memory service are queues, which its
    goroutine empties when a client waits; a reply channel is unbuffered, so a
    reply that nobody reads stops the goroutine, and with it the pool requests,
    of which ten find room in their queue.  A goroutine that waits on a
    channel is represented by the data it captured: the executed keys for
    [Execute], the block for [NewBlock], the channel of a timer for [timeout],
    the awaited heights for [sync].  The handler of a block response waits until
    a sync receives it; what it would hand over is in [n_replies].  Handlers run
    one after another, each in a goroutine of its own ([detach]), so that one
    which waits does not keep the next from running; the code does not
    synchronize them.  The clock is an argument.

    What is sent to another node is appended to [sent]; delivering it is
    applying [handleInbound] of the other node to it, which is how the theorems
    on several nodes compose them.  Errors that a goroutine of the node or of
    the consensus service sends on its channel are recorded ([n_errs],
    [cs_errs]); [Wires] is the model of these channels.

    ** What is not under src/

    SHA3, Ed25519, base58, golang.org/x/exp/slices, the iteration order of
    maps and bbolt are classes of operations ([Sha3], [Ed25519], [Base58],
    [ExpSlices], [MapOrder], [Bolt]) with separate classes of laws that state
    their documented behaviour: lengths, a signature made with a key verifies,
    decoding inverts encoding, sorting permutes and sorts, a transaction's
    puts are visible after commit.  Collision resistance is not assumed:
    theorems on hashes conclude "equal, or here is a collision".  The module
    [Toy] instantiates all classes and laws, and the witnesses run on it.

    ** What the theorems show

    - Data: JSON round trips; [Subtract]/[Add]; powers of two; Merkle roots
      against a recursive reference, and their binding; block hashes; wallets
      and verification of transactions and blocks, including what a signature
      does not cover.
    - Memory and storage: the pool's choice for a block, order of requests,
      order independence and binding of the state hash, put and get of blocks,
      loading of accounts and its limit of eleven; the storage service is
      linearizable and serves every goroutine.
    - Execution refines [spec_block], also when it hangs; the supply of money is
      constant over blocks that are final or rejected; the effect of a block on
      each account, and that it cannot be replayed;
      what finality, rejection and failed transactions leave (a rejection gives
      every account its state back, but may leave entries of empty accounts,
      which change the state hash: [empty_accounts_fork]); what producers make,
      verifiers accept, and what they accept is sound.
    - Network: the discovery handshake, the invariant of the peer list; a client
      that is answered by a server; a node that catches up; no input at the RPC
      port or the sync port changes ledger, database or chain, and all but two
      messages there are handled without a panic.  The consensus port is not
      part of this: its messages drive the rounds, and short keys panic.
    - Consensus: agreement on the committee, how votes decide, the invariant of
      the service over all its events, a whole round of any number of nodes
      with votes in any order, and the weak points: forgeable verdicts, repeated
      votes, short keys, timeouts, empty accounts that fork the chain.
    - Life cycle: genesis on a first start, recovery on a restart, the one error
      that stops a node that has started, and the one that leaves a node hanging
      whose start-up fails.
    - Command line: commands are read back as they are written; what a wrong
      line does; the commands that start a chain, and those of a client, with
      a node at the other end.

    ** Bounds and fuel

    Loops of the code that end are structural recursions, except the two loops
    on powers of two (fuel 64: an [int] has no more bits, and running out is
    proved to be divergence), the levels of a Merkle tree (fuel: the number of
    leaves, proved enough), the JSON parser (fuel: the length of its input,
    proved enough on printed values) and the outer loop of [sync] (one unit
    per height and event).

    ** Not modelled

    Sockets, the terminal and the files themselves: what they answer is an
    argument.  Logging.  The exact interleaving of goroutines between two
    channel operations, except for the channels of errors, whose exchanges
    happen in any order, and the requests to the storage service; the start-up
    of a node is one step.  The packages flag and strconv are modelled as far as
    the command line uses them. *)

From stdpp Require Export base tactics option list gmap strings.
From Stdlib Require Export ZArith Lia Strings.Byte.

#[global] Set Default Goal Selector "!".
#[global] Set Warnings "-clear-no-such-hyp".

(** ** Bytes *)

(** A Go [byte]; a [[]byte] without its nil/non-nil distinction is a list. *)
Abbreviation bytes := (list byte).

#[export] Instance byte_eq_dec : EqDecision byte := Byte.byte_eq_dec.
#[export] Program Instance byte_countable : Countable byte :=
  inj_countable Byte.to_N Byte.of_N _.
Next Obligation. intros b. apply Byte.of_to_N. Qed.

Definition Z_of_byte (b : byte) : Z := Z.of_N (Byte.to_N b).

(** The conversion [byte(z)]: truncation to the low eight bits. *)
Definition byte_of_Z (z : Z) : byte :=
  match Byte.of_N (Z.to_N (z mod 256)) with Some b => b | None => x00 end.

Lemma Z_of_byte_range b : (0 <= Z_of_byte b < 256)%Z.
Proof. unfold Z_of_byte. pose proof (Byte.to_N_bounded b). lia. Qed.

Lemma byte_of_Z_of_byte b : byte_of_Z (Z_of_byte b) = b.
Proof. destruct b; reflexivity. Qed.

Lemma Z_of_byte_of_Z z : Z_of_byte (byte_of_Z z) = (z mod 256)%Z.
Proof.
  unfold byte_of_Z, Z_of_byte.
  pose proof (Z.mod_pos_bound z 256 ltac:(lia)) as Hm.
  destruct (Byte.of_N (Z.to_N (z mod 256))) as [b|] eqn:E.
  - apply Byte.to_of_N in E. rewrite E. lia.
  - apply Byte.of_N_None_iff in E. lia.
Qed.

Lemma Z_of_byte_inj a b : Z_of_byte a = Z_of_byte b -> a = b.
Proof.
  intros H. rewrite <- (byte_of_Z_of_byte a), <- (byte_of_Z_of_byte b). by rewrite H.
Qed.

(** ** Slices that can be nil

    A Go [[]byte] is nil, or a (possibly empty) sequence of bytes.  [len],
    [append(dst, s...)] and [bytes.Equal] see a nil slice as an empty one;
    only the comparison [s == nil] and [encoding/json] tell them apart. *)
Abbreviation gobytes := (option (list byte)).

Definition raw (s : gobytes) : bytes := default [] s.

Definition is_nil {A} (s : option A) : bool :=
  match s with None => true | Some _ => false end.

(** [len(s)] as a Go [int]. *)
Definition len {A} (s : list A) : Z := Z.of_nat (length s).

(** [bytes.Equal(a, b)]. *)
Definition bytes_Equal (a b : gobytes) : bool := bool_decide (raw a = raw b).

Lemma bytes_Equal_spec a b : bytes_Equal a b = true <-> raw a = raw b.
Proof. unfold bytes_Equal. apply bool_decide_eq_true. Qed.

Lemma bytes_Equal_refl a : bytes_Equal a a = true.
Proof. by apply bytes_Equal_spec. Qed.

(** ** Machine integers: a w-bit integer is a [Z] in range, and each
    operation that can leave the range wraps around explicitly. *)
Definition u32 (z : Z) : Z := (z mod 2 ^ 32)%Z.
Definition u64 (z : Z) : Z := (z mod 2 ^ 64)%Z.
Definition s32 (z : Z) : Z := ((z + 2 ^ 31) mod 2 ^ 32 - 2 ^ 31)%Z.
Definition s64 (z : Z) : Z := ((z + 2 ^ 63) mod 2 ^ 64 - 2 ^ 63)%Z.

Definition in_u8 (z : Z) : Prop := (0 <= z < 2 ^ 8)%Z.
Definition in_u32 (z : Z) : Prop := (0 <= z < 2 ^ 32)%Z.
Definition in_u64 (z : Z) : Prop := (0 <= z < 2 ^ 64)%Z.
Definition in_s64 (z : Z) : Prop := (- 2 ^ 63 <= z < 2 ^ 63)%Z.

Lemma u64_small z : in_u64 z -> u64 z = z.
Proof. unfold in_u64, u64. apply Z.mod_small. Qed.

Lemma u64_range z : in_u64 (u64 z).
Proof. unfold in_u64, u64. apply Z.mod_pos_bound. lia. Qed.

Lemma s64_small z : in_s64 z -> s64 z = z.
Proof. unfold in_s64, s64. intros H. rewrite Z.mod_small; lia. Qed.

(** ** Big-endian byte strings of a fixed width *)
Fixpoint be_encode (n : nat) (z : Z) : bytes :=
  match n with
  | O => []
  | S n' => byte_of_Z (z / 256 ^ Z.of_nat n') :: be_encode n' z
  end.

Definition be_decode (l : bytes) : Z :=
  fold_left (fun acc b => acc * 256 + Z_of_byte b)%Z l 0%Z.

Lemma length_be_encode n z : length (be_encode n z) = n.
Proof. induction n; simpl; auto. Qed.

Lemma be_decode_acc l acc :
  fold_left (fun acc b => acc * 256 + Z_of_byte b)%Z l acc
  = (acc * 256 ^ Z.of_nat (length l) + be_decode l)%Z.
Proof.
  unfold be_decode. revert acc.
  induction l as [|b l IH]; intros acc; cbn [fold_left length]; [cbn; lia|].
  rewrite (IH (acc * 256 + Z_of_byte b)%Z), (IH (0 * 256 + Z_of_byte b)%Z).
  rewrite Nat2Z.inj_succ, Z.pow_succ_r by lia. lia.
Qed.

Lemma be_decode_cons b l :
  be_decode (b :: l) = (Z_of_byte b * 256 ^ Z.of_nat (length l) + be_decode l)%Z.
Proof. unfold be_decode at 1. simpl. by rewrite be_decode_acc. Qed.

Lemma be_decode_range l : (0 <= be_decode l < 256 ^ Z.of_nat (length l))%Z.
Proof.
  induction l as [|b l IH]; [cbv; split; congruence|].
  rewrite be_decode_cons. cbn [length].
  rewrite Nat2Z.inj_succ, Z.pow_succ_r by lia.
  pose proof (Z_of_byte_range b). nia.
Qed.

Lemma be_decode_encode n z : be_decode (be_encode n z) = (z mod 256 ^ Z.of_nat n)%Z.
Proof.
  induction n as [|n IH].
  - cbn. by rewrite Z.mod_1_r.
  - cbn [be_encode]. rewrite be_decode_cons, length_be_encode, IH, Z_of_byte_of_Z.
    rewrite Nat2Z.inj_succ, Z.pow_succ_r by lia.
    set (p := (256 ^ Z.of_nat n)%Z).
    assert (0 < p)%Z by (apply Z.pow_pos_nonneg; lia).
    rewrite (Z.mul_comm 256 p), Z.rem_mul_r by lia. lia.
Qed.

Lemma be_encode_decode l : be_encode (length l) (be_decode l) = l.
Proof.
  assert (Hmod : forall n z k, (0 <= k)%Z ->
            be_encode n (z + k * 256 ^ Z.of_nat n) = be_encode n z).
  { induction n as [|n IHn]; intros z k Hk; cbn [be_encode]; [done|].
    rewrite Nat2Z.inj_succ, Z.pow_succ_r by lia.
    replace (z + k * (256 * 256 ^ Z.of_nat n))%Z
      with (z + (k * 256) * 256 ^ Z.of_nat n)%Z by lia.
    f_equal; [|apply IHn; lia].
    rewrite Z.div_add by (apply Z.pow_nonzero; lia).
    unfold byte_of_Z. by rewrite Z.mod_add by lia. }
  induction l as [|b l IH]; [done|]. cbn [length be_encode].
  rewrite be_decode_cons. pose proof (be_decode_range l). f_equal.
  - rewrite Z.add_comm, Z.div_add by lia. rewrite Z.div_small by lia.
    apply byte_of_Z_of_byte.
  - rewrite Z.add_comm, Hmod; [done|]. apply Z_of_byte_range.
Qed.

Lemma be_decode_inj l l' :
  length l = length l' -> be_decode l = be_decode l' -> l = l'.
Proof.
  intros Hl Hd. rewrite <- (be_encode_decode l), <- (be_encode_decode l').
  by rewrite Hl, Hd.
Qed.

(** ** Errors and control

    A Go function returning [(T, error)] is a [result T]; [error] values are
    their message.  [outcome] is the control part: the call returns, panics,
    or its goroutine does not proceed: it loops, or waits on a channel that
    nobody serves now (and, unless a definition says otherwise, ever). *)
Definition error := string.

Inductive result (A : Type) : Type :=
| Ok (a : A)
| Err (e : error).
Arguments Ok {A} a.
Arguments Err {A} e.

Inductive outcome (A : Type) : Type :=
| Done (a : A)
| Panicked (why : string)
| Blocked (why : string).
Arguments Done {A} a.
Arguments Panicked {A} why.
Arguments Blocked {A} why.

Definition result_bind {A B} (r : result A) (k : A -> result B) : result B :=
  match r with Ok a => k a | Err e => Err e end.

Definition outcome_bind {A B} (o : outcome A) (k : A -> outcome B) : outcome B :=
  match o with
  | Done a => k a
  | Panicked w => Panicked w
  | Blocked w => Blocked w
  end.

(** Code over a state [S]: every outcome comes with the state it leaves. *)
Definition M (S A : Type) : Type := S -> outcome A * S.

Definition ret {S A} (a : A) : M S A := fun s => (Done a, s).
Definition bind {S A B} (m : M S A) (k : A -> M S B) : M S B :=
  fun s => match m s with
           | (Done a, s') => k a s'
           | (Panicked w, s') => (Panicked w, s')
           | (Blocked w, s') => (Blocked w, s')
           end.
Definition get {S} : M S S := fun s => (Done s, s).
Definition gets {S A} (f : S -> A) : M S A := fun s => (Done (f s), s).
Definition modify {S} (f : S -> S) : M S unit := fun s => (Done tt, f s).
Definition panic {S A} (w : string) : M S A := fun s => (Panicked w, s).
Definition block {S A} (w : string) : M S A := fun s => (Blocked w, s).
Definition lift {S A} (o : outcome A) : M S A := fun s => (o, s).

(** Run code of a component inside a larger state. *)
Definition zoom {S T A} (proj : S -> T) (upd : T -> S -> S) (m : M T A) : M S A :=
  fun s => let '(o, t) := m (proj s) in (o, upd t s).

(** [detach a m]: [m] runs in a goroutine of its own, to its end or until it waits;
    then [a] stands for its result.  A panic ends the program. *)
Definition detach {S A} (a : A) (m : M S A) : M S A :=
  fun s => match m s with
           | (Blocked _, s') => (Done a, s')
           | r => r
           end.
Definition spawn {S} (m : M S unit) : M S unit := detach tt m.

Declare Scope go_scope.
Delimit Scope go_scope with go.
Notation "'let*' x ':=' m 'in' k" := (bind m (fun x => k))
  (at level 10, x pattern, m at level 100, k at level 200) : go_scope.
Notation "'let?' x ':=' r 'in' k" := (result_bind r (fun x => k))
  (at level 10, x pattern, r at level 100, k at level 200) : go_scope.
Notation "'let^' x ':=' o 'in' k" := (outcome_bind o (fun x => k))
  (at level 10, x pattern, o at level 100, k at level 200) : go_scope.
Open Scope go_scope.

Lemma bind_done {S A B} (m : M S A) (k : A -> M S B) s a s' :
  m s = (Done a, s') -> bind m k s = k a s'.
Proof. unfold bind. by intros ->. Qed.

Lemma bind_blocked {S A B} (m : M S A) (k : A -> M S B) s w s' :
  m s = (Blocked w, s') -> bind m k s = (Blocked w, s').
Proof. unfold bind. by intros ->. Qed.

Lemma bind_assoc {S A B C} (m : M S A) (k : A -> M S B) (h : B -> M S C) s :
  bind (bind m k) h s = bind m (fun a => bind (k a) h) s.
Proof. unfold bind. by destruct (m s) as [[] ?]. Qed.

Lemma bind_ret_l {S A B} (a : A) (k : A -> M S B) s : bind (ret a) k s = k a s.
Proof. done. Qed.

(** ** Short-circuit conjunction on code that may panic: [a && b]. *)
Definition outcome_and (a : outcome bool) (b : outcome bool) : outcome bool :=
  let^ x := a in if x then b else Done false.

(** ** Generic list lemmas *)
Lemma existsb_bool_decide {A} `{EqDecision A} (x : A) l :
  existsb (fun y => bool_decide (x = y)) l = true <-> x ∈ l.
Proof.
  rewrite existsb_exists, list_elem_of_In. split.
  - intros (y & Hin & Heq%bool_decide_eq_true). by subst.
  - intros Hin. exists x. split; [done|]. by apply bool_decide_eq_true.
Qed.

Lemma fold_left_app_concat {A B} (f : B -> A -> B) l1 l2 b :
  fold_left f (l1 ++ l2) b = fold_left f l2 (fold_left f l1 b).
Proof. apply fold_left_app. Qed.

(** ** Automation shared by the components *)
Create HintDb go discriminated.
#[export] Hint Resolve Z_of_byte_range u64_range bytes_Equal_refl : go.

(** Destruct the scrutinee of the first [match] of the goal. *)
Ltac case_goal :=
  match goal with |- context [match ?x with _ => _ end] => destruct x eqn:? end.

Ltac split_andb :=
  repeat match goal with
         | H : (_ && _)%bool = true |- _ => apply andb_prop in H as [? ?]
         | H : (_ =? _)%Z = true |- _ => apply Z.eqb_eq in H
         | H : (_ <? _)%Z = true |- _ => apply Z.ltb_lt in H
         | H : (_ <=? _)%Z = true |- _ => apply Z.leb_le in H
         | H : bool_decide _ = true |- _ => apply bool_decide_eq_true in H
         end.
