(* ===== verification/Common.v ===== *)
(** Package [common]: constants, fixed-width integer encoding, the slice and
    power-of-two helpers (common/constants.go, common/shortcut.go). *)
From S2P Require Import Prelude.
Open Scope Z_scope.

Definition Ip4Format (port : string) : string := ("localhost:" ++ port)%string.
Definition MaxPayloadSize : Z := 2048.
Definition PublicKeySize : Z := 32.
Definition HashSize : Z := 32.
Definition GeneratorBalance : Z := 10000000000000000000.
Definition SyncTimeoutSeconds : Z := 1.
Definition FinalityTimeoutMilSec : Z := 400.

(** [common.Result[T]], what services send back on a result channel. *)
Record Result (T : Type) := mkResult { Value : T; ResErr : option error }.
Arguments mkResult {T} _ _.
Arguments Value {T} _.
Arguments ResErr {T} _.

(** ** [ToHex] and [FromHex]: [binary.Write]/[binary.Read] in big-endian order

    The type parameter is one of the fixed-size integers the program uses. *)
Inductive IntKind := Uint64 | Int64 | Int32.

Definition IntKind_width (k : IntKind) : nat :=
  match k with Uint64 | Int64 => 8 | Int32 => 4 end.

Definition IntKind_in (k : IntKind) (z : Z) : Prop :=
  match k with
  | Uint64 => in_u64 z
  | Int64 => in_s64 z
  | Int32 => - 2 ^ 31 <= z < 2 ^ 31
  end.

(** The value of a [width]-byte two's complement or unsigned pattern. *)
Definition IntKind_wrap (k : IntKind) (z : Z) : Z :=
  match k with Uint64 => u64 z | Int64 => s64 z | Int32 => s32 z end.

Definition ToHex (k : IntKind) (num : Z) : result bytes :=
  Ok (be_encode (IntKind_width k) num).

Definition FromHex (k : IntKind) (hex : bytes) : result Z :=
  match hex with
  | [] => Err "EOF"
  | _ => if (length hex <? IntKind_width k)%nat then Err "unexpected EOF"
         else Ok (IntKind_wrap k (be_decode (take (IntKind_width k) hex)))
  end.

Fixpoint FindAll {T} (s : list T) (f : T -> bool) : list T :=
  match s with
  | [] => []
  | elem :: s' => if f elem then elem :: FindAll s' f else FindAll s' f
  end.

(** ** Powers of two on a 64-bit [int] *)
Definition IsPowerOf2 (n : Z) : bool :=
  negb (n =? 0) && (Z.land n (s64 (n - 1)) =? 0).

(** [1 << i] on a 64-bit [int]: shifting by 64 or more gives 0. *)
Definition shl1 (i : Z) : Z := if i <? 64 then s64 (Z.shiftl 1 i) else 0.

Fixpoint NextPowerOf2_loop (fuel : nat) (i n : Z) : option Z :=
  match fuel with
  | O => None
  | S fuel' =>
      let m := shl1 i in
      if n <=? m then Some m else NextPowerOf2_loop fuel' (i + 1) n
  end.

Definition NextPowerOf2 (n : Z) : outcome Z :=
  match NextPowerOf2_loop 64 0 n with
  | Some m => Done m
  | None => Blocked "NextPowerOf2: the loop does not end"
  end.

Fixpoint LastPowerOf2_loop (fuel : nat) (i l n : Z) : option Z :=
  match fuel with
  | O => None
  | S fuel' =>
      let m := shl1 i in
      if n <? m then Some l else LastPowerOf2_loop fuel' (i + 1) m n
  end.

Definition LastPowerOf2 (n : Z) : outcome Z :=
  match LastPowerOf2_loop 64 0 0 n with
  | Some m => Done m
  | None => Blocked "LastPowerOf2: the loop does not end"
  end.

(** ** Lemmas *)
Lemma IntKind_wrap_mod k z :
  IntKind_in k z -> IntKind_wrap k (z mod 256 ^ Z.of_nat (IntKind_width k)) = z.
Proof.
  destruct k; cbn [IntKind_in IntKind_wrap IntKind_width].
  - intros H. change (256 ^ Z.of_nat 8) with (2 ^ 64). unfold u64.
    rewrite Z.mod_mod by done. by apply u64_small.
  - intros H. change (256 ^ Z.of_nat 8) with (2 ^ 64). unfold s64.
    rewrite Z.add_mod_idemp_l by done. by apply s64_small.
  - intros H. change (256 ^ Z.of_nat 4) with (2 ^ 32). unfold s32.
    rewrite Z.add_mod_idemp_l by done. rewrite Z.mod_small; lia.
Qed.

Lemma length_ToHex k num h : ToHex k num = Ok h -> length h = IntKind_width k.
Proof. intros [= <-]. apply length_be_encode. Qed.

Lemma shl1_small i : 0 <= i < 63 -> shl1 i = 2 ^ i.
Proof.
  intros H. unfold shl1. rewrite (proj2 (Z.ltb_lt _ _)) by lia.
  rewrite Z.shiftl_mul_pow2, Z.mul_1_l by lia. apply s64_small.
  unfold in_s64. pose proof (Z.pow_le_mono_r 2 i 62 ltac:(lia) ltac:(lia)).
  pose proof (Z.pow_pos_nonneg 2 i ltac:(lia) ltac:(lia)). lia.
Qed.

Lemma shl1_le_max i : 0 <= i -> shl1 i <= 2 ^ 62.
Proof.
  intros Hi. destruct (decide (i < 63)) as [H|H].
  - rewrite shl1_small by lia. apply Z.pow_le_mono_r; lia.
  - destruct (decide (i = 63)) as [->|]; [by vm_compute|].
    unfold shl1. rewrite (proj2 (Z.ltb_ge _ _)) by lia. lia.
Qed.

Lemma land_pred_pow2 k : 0 <= k -> Z.land (2 ^ k) (2 ^ k - 1) = 0.
Proof.
  intros Hk. rewrite Z.sub_1_r, <- Z.ones_equiv, Z.land_ones by lia.
  apply Z.mod_same. apply Z.pow_nonzero; lia.
Qed.

(** Between two consecutive powers of two the top bit survives the mask. *)
Lemma land_pred_zero n :
  0 < n -> Z.land n (n - 1) = 0 -> n = 2 ^ Z.log2 n.
Proof.
  intros Hn Hl. pose proof (Z.log2_spec n Hn) as [Hlo Hhi].
  pose proof (Z.log2_nonneg n) as Hk. set (k := Z.log2 n) in *.
  destruct (decide (n = 2 ^ k)) as [|Hne]; [done|].
  exfalso. assert (Z.testbit (Z.land n (n - 1)) k = true) as Ht.
  { rewrite Z.land_spec. apply andb_true_intro. split.
    - subst k. by apply Z.bit_log2.
    - pose proof (Z.pow_pos_nonneg 2 k ltac:(lia) Hk).
      assert (Z.log2 (n - 1) = k) as Hlog by (apply Z.log2_unique; lia).
      rewrite <- Hlog. apply Z.bit_log2. lia. }
  rewrite Hl, Z.testbit_0_l in Ht. done.
Qed.

Lemma IsPowerOf2_pow2 k : 0 <= k < 63 -> IsPowerOf2 (2 ^ k) = true.
Proof.
  intros Hk. unfold IsPowerOf2.
  pose proof (Z.pow_pos_nonneg 2 k ltac:(lia) ltac:(lia)) as Hpos.
  assert (in_s64 (2 ^ k - 1)) as Hin.
  { unfold in_s64. pose proof (Z.pow_lt_mono_r 2 k 63 ltac:(lia) ltac:(lia)). lia. }
  rewrite s64_small, land_pred_pow2 by (done || lia).
  by rewrite (proj2 (Z.eqb_neq _ _)) by lia.
Qed.

Lemma NextPowerOf2_loop_spec j : forall fuel n,
  0 <= j < 63 -> n <= 2 ^ j ->
  forall i, 0 <= i <= j -> (forall i', 0 <= i' < i -> 2 ^ i' < n) ->
  (Z.to_nat (j - i) < fuel)%nat ->
  exists k, NextPowerOf2_loop fuel i n = Some (2 ^ k) /\ 0 <= k <= j /\ n <= 2 ^ k
            /\ forall i', 0 <= i' < k -> 2 ^ i' < n.
Proof.
  induction fuel as [|fuel IH]; intros n Hj Hn i Hi Hbelow Hf; [lia|].
  cbn [NextPowerOf2_loop]. rewrite shl1_small by lia.
  destruct (n <=? 2 ^ i) eqn:E.
  - apply Z.leb_le in E. exists i. split_and!; auto; lia.
  - apply Z.leb_gt in E. assert (i < j).
    { destruct (decide (i = j)) as [->|]; lia. }
    apply IH; [lia..| |lia]. intros i' Hi'.
    destruct (decide (i' = i)) as [->|]; [lia|]. apply Hbelow. lia.
Qed.

Lemma LastPowerOf2_loop_spec : forall fuel n i l,
  1 <= n -> n < 2 ^ 62 -> 0 <= i <= 62 ->
  (i = 0 \/ (l = 2 ^ (i - 1) /\ l <= n)) -> (Z.to_nat (62 - i) < fuel)%nat ->
  exists k, LastPowerOf2_loop fuel i l n = Some (2 ^ k) /\ 0 <= k < 62
            /\ 2 ^ k <= n < 2 ^ (k + 1).
Proof.
  induction fuel as [|fuel IH]; intros n i l Hn Hmax Hi Hl Hf; [lia|].
  cbn [LastPowerOf2_loop]. rewrite shl1_small by lia.
  destruct (n <? 2 ^ i) eqn:E.
  - apply Z.ltb_lt in E. destruct Hl as [->|[-> Hl]]; [cbn in E; lia|].
    assert (i <> 0) by (intros ->; cbn in E; lia).
    exists (i - 1). split_and!; [done|lia..|].
    by replace (i - 1 + 1) with i by lia.
  - apply Z.ltb_ge in E. assert (i < 62).
    { destruct (decide (i = 62)) as [->|]; lia. }
    apply IH; [lia..| |lia]. right. split; [f_equal; lia|done].
Qed.

(** [1 << i] never reaches beyond the largest power of two of an [int]. *)
Lemma NextPowerOf2_loop_diverges n fuel : forall i, 0 <= i -> 2 ^ 62 < n ->
  NextPowerOf2_loop fuel i n = None.
Proof.
  induction fuel as [|fuel IH]; intros i Hi Hn; [done|]. cbn [NextPowerOf2_loop].
  pose proof (shl1_le_max i Hi). rewrite (proj2 (Z.leb_gt _ _)) by lia. apply IH; lia.
Qed.

Lemma LastPowerOf2_loop_diverges n fuel : forall i l, 0 <= i -> 2 ^ 62 <= n ->
  LastPowerOf2_loop fuel i l n = None.
Proof.
  induction fuel as [|fuel IH]; intros i l Hi Hn; [done|]. cbn [LastPowerOf2_loop].
  pose proof (shl1_le_max i Hi). rewrite (proj2 (Z.ltb_ge _ _)) by lia. apply IH; lia.
Qed.

Lemma land_pred_negative n : - 2 ^ 63 <= n < 0 ->
  Z.land n (s64 (n - 1)) = 0 <-> n = - 2 ^ 63.
Proof.
  intros Hn. destruct (decide (n = - 2 ^ 63)) as [->|Hne]; [by vm_compute|].
  rewrite s64_small by (unfold in_s64; lia).
  assert (Z.land n (n - 1) < 0) by (apply Z.land_neg; lia). split; [lia|done].
Qed.

Lemma IsPowerOf2_iff n : in_s64 n ->
  IsPowerOf2 n = true <-> (exists k, 0 <= k < 63 /\ n = 2 ^ k) \/ n = - 2 ^ 63.
Proof.
  intros Hn. split.
  - unfold IsPowerOf2. intros Hp. split_andb. destruct (decide (n < 0)) as [Hneg|Hpos].
    + right. apply land_pred_negative; [|done]. unfold in_s64 in Hn. lia.
    + left. assert (n <> 0) by (intros ->; done).
      rewrite s64_small in * by (unfold in_s64 in *; lia).
      exists (Z.log2 n). split; [|apply land_pred_zero; [lia|done]].
      split; [apply Z.log2_nonneg|]. apply Z.log2_lt_pow2; [lia|]. unfold in_s64 in Hn. lia.
  - intros [(k & Hk & ->)| ->]; [by apply IsPowerOf2_pow2|by vm_compute].
Qed.

(** * Properties *)

(** [IsPowerOf2] accepts, of the 64-bit integers, the powers of two and the
    smallest negative number (whose predecessor wraps around). *)
Theorem IsPowerOf2_correct n : in_s64 n ->
  IsPowerOf2 n = true <-> (exists k, 0 <= k < 63 /\ n = 2 ^ k) \/ n = - 2 ^ 63.
Proof. apply IsPowerOf2_iff. Qed.

Lemma IsPowerOf2_correct_witness : in_s64 64 /\
  (IsPowerOf2 64 = true <-> (exists k, 0 <= k < 63 /\ 64 = 2 ^ k) \/ 64 = - 2 ^ 63).
Proof.
  assert (in_s64 64) as Hin by (unfold in_s64; lia).
  split; [exact Hin|exact (IsPowerOf2_correct 64 Hin)].
Defined.

(** Up to [2^62], [NextPowerOf2] terminates with the least power of two
    that is not below its argument; above, no number of iterations is enough. *)
Theorem NextPowerOf2_correct n :
  if decide (n <= 2 ^ 62)
  then exists k, NextPowerOf2 n = Done (2 ^ k) /\ 0 <= k <= 62 /\ n <= 2 ^ k
                 /\ forall i, 0 <= i < k -> 2 ^ i < n
  else forall fuel, NextPowerOf2_loop fuel 0 n = None.
Proof.
  case_decide.
  - destruct (NextPowerOf2_loop_spec 62 64 n ltac:(lia) ltac:(lia) 0) as (k & Hk & Hr);
      [lia..|]. exists k. unfold NextPowerOf2. by rewrite Hk.
  - intros fuel. apply NextPowerOf2_loop_diverges; lia.
Qed.

(** Below [2^62], [LastPowerOf2] terminates with the greatest power of two
    that is not above a positive argument, and with 0 for the others; from
    [2^62] on, no number of iterations is enough. *)
Theorem LastPowerOf2_correct n :
  if decide (n < 1) then LastPowerOf2 n = Done 0
  else if decide (n < 2 ^ 62)
  then exists k, LastPowerOf2 n = Done (2 ^ k) /\ 0 <= k < 62 /\ 2 ^ k <= n < 2 ^ (k + 1)
  else forall fuel, LastPowerOf2_loop fuel 0 0 n = None.
Proof.
  repeat case_decide.
  - unfold LastPowerOf2. cbn [LastPowerOf2_loop]. rewrite shl1_small by lia.
    by rewrite (proj2 (Z.ltb_lt _ _)) by (cbn; lia).
  - destruct (LastPowerOf2_loop_spec 64 n 0 0) as (k & Hk & Hr); [lia..|by left|lia|].
    exists k. unfold LastPowerOf2. by rewrite Hk.
  - intros fuel. apply LastPowerOf2_loop_diverges; lia.
Qed.

(** [FromHex] reads back what [ToHex] wrote, whatever bytes follow. *)
Theorem FromHex_ToHex k num h rest : IntKind_in k num -> ToHex k num = Ok h ->
  FromHex k (h ++ rest) = Ok num.
Proof.
  intros Hin Hh. pose proof (length_ToHex _ _ _ Hh) as Hl. injection Hh as <-.
  unfold FromHex. destruct (be_encode (IntKind_width k) num ++ rest) eqn:E.
  { apply (f_equal length) in E. rewrite length_app, Hl in E. by destruct k. }
  rewrite <- E. rewrite length_app, Hl.
  rewrite (proj2 (Nat.ltb_ge _ _)) by lia.
  rewrite take_app_length', be_decode_encode by done. by rewrite IntKind_wrap_mod.
Qed.

Lemma FromHex_ToHex_witness :
  IntKind_in Int64 (-5) /\ FromHex Int64 (be_encode 8 (-5) ++ [x01]) = Ok (-5).
Proof.
  assert (IntKind_in Int64 (-5)) as Hin by (cbn; unfold in_s64; lia).
  split; [exact Hin|exact (FromHex_ToHex Int64 (-5) _ [x01] Hin eq_refl)].
Defined.
