(* ===== verification/Json.v ===== *)
(** The part of Go's [encoding/json] the program uses (with [strconv] and
    [encoding/base64] below it): the compact encoder, the parser, and the
    decoding of parsed values into integers, booleans, strings, byte slices,
    slices and structs.

    A value of a Go type is encoded by a [codec]; [Marshal] prints its JSON
    tree, [Unmarshal] parses the whole input and decodes it over the zero
    value.  Struct fields are matched as Go does: by exact name, else by the
    case-folded name; unknown keys are skipped, a repeated key overwrites,
    [null] leaves a non-slice value alone.  Go's limit of 10000 nested values
    is not modelled (payloads are at most [MaxPayloadSize] bytes).

    The law [codec_ok] is what clients use: what was marshalled unmarshals to
    the same value, and marshalling is injective on well-formed values. *)
From S2P Require Import Prelude.
Open Scope Z_scope.

Definition bstr (s : string) : bytes := String.list_byte_of_string s.

(** ** JSON trees.  A number keeps its literal, a string its unquoted bytes. *)
#[warnings="-automation"]
Inductive json : Type :=
| JNull
| JBool (b : bool)
| JNum (lit : bytes)
| JStr (s : bytes)
| JArr (l : list json)
| JObj (m : list (bytes * json)).

Section json_ind.
Context (P : json -> Prop)
  (Pnull : P JNull) (Pbool : forall b, P (JBool b)) (Pnum : forall lit, P (JNum lit))
  (Pstr : forall s, P (JStr s)) (Parr : forall l, Forall P l -> P (JArr l))
  (Pobj : forall m, Forall (fun km => P (snd km)) m -> P (JObj m)).
Fixpoint json_ind_nested (j : json) : P j :=
  match j with
  | JNull => Pnull
  | JBool b => Pbool b
  | JNum lit => Pnum lit
  | JStr s => Pstr s
  | JArr l => Parr l ((fix go l := match l return Forall P l with
                        | [] => Forall_nil_2 _
                        | x :: l' => Forall_cons_2 _ _ _ (json_ind_nested x) (go l')
                        end) l)
  | JObj m => Pobj m ((fix go m := match m return Forall (fun km => P (snd km)) m with
                        | [] => Forall_nil_2 _
                        | kx :: m' => Forall_cons_2 _ _ _ (json_ind_nested (snd kx)) (go m')
                        end) m)
  end.
End json_ind.

(** ** Strings: UTF-8, quoting and unquoting *)
Definition between (lo hi : Z) (c : byte) : bool :=
  (lo <=? Z_of_byte c) && (Z_of_byte c <=? hi).

(** Length of the valid multi-byte UTF-8 sequence [s] starts with, 0 if none. *)
Definition utf8_prefix (s : bytes) : nat :=
  match s with
  | c :: c1 :: s2 =>
      if between 0xC2 0xDF c && between 0x80 0xBF c1 then 2%nat
      else match s2 with
           | c2 :: s3 =>
               if between 0x80 0xBF c2 &&
                  ((between 0xE0 0xE0 c && between 0xA0 0xBF c1)
                   || ((between 0xE1 0xEC c || between 0xEE 0xEF c) && between 0x80 0xBF c1)
                   || (between 0xED 0xED c && between 0x80 0x9F c1)) then 3%nat
               else match s3 with
                    | c3 :: _ =>
                        if between 0x80 0xBF c2 && between 0x80 0xBF c3 &&
                           ((between 0xF0 0xF0 c && between 0x90 0xBF c1)
                            || (between 0xF1 0xF3 c && between 0x80 0xBF c1)
                            || (between 0xF4 0xF4 c && between 0x80 0x8F c1)) then 4%nat
                        else 0%nat
                    | [] => 0%nat
                    end
           | [] => 0%nat
           end
  | _ => 0%nat
  end.

(** U+FFFD, the replacement character. *)
Definition rune_error : bytes := [xef; xbf; xbd].

Definition hex_digit (n : Z) : byte :=
  if n <? 10 then byte_of_Z (48 + n) else byte_of_Z (87 + n).

(** [encodeState.string] on one ASCII byte, with HTML escaping on. *)
Definition quote_char (c : byte) : bytes :=
  let z := Z_of_byte c in
  if (z =? 0x22) || (z =? 0x5c) then [x5c; c]
  else if z =? 0x0a then bstr "\n"
  else if z =? 0x0d then bstr "\r"
  else if z =? 0x09 then bstr "\t"
  else if (z <? 0x20) || (z =? 0x26) || (z =? 0x3c) || (z =? 0x3e)
  then bstr "\u00" ++ [hex_digit (z / 16); hex_digit (z mod 16)]
  else [c].

Fixpoint quote_body (s : bytes) : bytes :=
  match s with
  | [] => []
  | c :: s1 =>
      if Z_of_byte c <? 0x80 then quote_char c ++ quote_body s1
      else match utf8_prefix s, s1 with
           | 2%nat, c1 :: s2 => c :: c1 :: quote_body s2
           | 3%nat, c1 :: c2 :: s3 =>
               (if Byte.eqb c xe2 && Byte.eqb c1 x80 && (Byte.eqb c2 xa8 || Byte.eqb c2 xa9)
                then bstr "\u202" ++ [hex_digit (Z_of_byte c2 mod 16)] else [c; c1; c2])
                ++ quote_body s3
           | 4%nat, c1 :: c2 :: c3 :: s4 => c :: c1 :: c2 :: c3 :: quote_body s4
           | _, _ => bstr "\ufffd" ++ quote_body s1
           end
  end.

Definition hex_val (c : byte) : option Z :=
  if between 48 57 c then Some (Z_of_byte c - 48)
  else if between 97 102 c then Some (Z_of_byte c - 87)
  else if between 65 70 c then Some (Z_of_byte c - 55)
  else None.

Definition hex4 (a b c d : byte) : option Z :=
  match hex_val a, hex_val b, hex_val c, hex_val d with
  | Some w, Some x, Some y, Some z => Some (((w * 16 + x) * 16 + y) * 16 + z)
  | _, _, _, _ => None
  end.

(** [utf8.EncodeRune]. *)
Definition encode_rune (r : Z) : bytes :=
  if r <? 0x80 then [byte_of_Z r]
  else if r <? 0x800 then [byte_of_Z (0xC0 + r / 64); byte_of_Z (0x80 + r mod 64)]
  else if ((0xD800 <=? r) && (r <=? 0xDFFF)) || (0x10FFFF <? r) then rune_error
  else if r <? 0x10000
  then [byte_of_Z (0xE0 + r / 4096); byte_of_Z (0x80 + (r / 64) mod 64);
        byte_of_Z (0x80 + r mod 64)]
  else [byte_of_Z (0xF0 + r / 262144); byte_of_Z (0x80 + (r / 4096) mod 64);
        byte_of_Z (0x80 + (r / 64) mod 64); byte_of_Z (0x80 + r mod 64)].

Definition is_surrogate (r : Z) : bool := (0xD800 <=? r) && (r <=? 0xDFFF).

(** [utf16.DecodeRune] of a high and a low surrogate. *)
Definition decode_surrogates (r1 r2 : Z) : option Z :=
  if (0xD800 <=? r1) && (r1 <? 0xDC00) && (0xDC00 <=? r2) && (r2 <? 0xE000)
  then Some ((r1 - 0xD800) * 1024 + (r2 - 0xDC00) + 0x10000) else None.

Definition simple_escape (e : byte) : option byte :=
  if Byte.eqb e x22 || Byte.eqb e x5c || Byte.eqb e x2f then Some e
  else if Byte.eqb e x62 then Some x08
  else if Byte.eqb e x66 then Some x0c
  else if Byte.eqb e x6e then Some x0a
  else if Byte.eqb e x72 then Some x0d
  else if Byte.eqb e x74 then Some x09
  else None.

Definition push (pre : bytes) (r : option (bytes * bytes)) : option (bytes * bytes) :=
  match r with Some (s, rest) => Some (pre ++ s, rest) | None => None end.

(** The string literal whose opening quote has been read: its unquoted bytes
    and the input after the closing quote. *)
Fixpoint parse_str (s : bytes) : option (bytes * bytes) :=
  match s with
  | [] => None
  | c :: s1 =>
      if Byte.eqb c x22 then Some ([], s1)
      else if Byte.eqb c x5c then
        match s1 with
        | [] => None
        | e :: s2 =>
            match simple_escape e with
            | Some d => push [d] (parse_str s2)
            | None =>
                if Byte.eqb e x75 then
                  match s2 with
                  | h1 :: h2 :: h3 :: h4 :: s6 =>
                      match hex4 h1 h2 h3 h4 with
                      | None => None
                      | Some r =>
                          if is_surrogate r then
                            match s6 with
                            | b1 :: b2 :: l1 :: l2 :: l3 :: l4 :: s12 =>
                                match (if Byte.eqb b1 x5c && Byte.eqb b2 x75
                                       then hex4 l1 l2 l3 l4 else None) with
                                | Some r1 =>
                                    match decode_surrogates r r1 with
                                    | Some d => push (encode_rune d) (parse_str s12)
                                    | None => push rune_error (parse_str s6)
                                    end
                                | None => push rune_error (parse_str s6)
                                end
                            | _ => push rune_error (parse_str s6)
                            end
                          else push (encode_rune r) (parse_str s6)
                      end
                  | _ => None
                  end
                else None
            end
        end
      else if Z_of_byte c <? 0x20 then None
      else if Z_of_byte c <? 0x80 then push [c] (parse_str s1)
      else match utf8_prefix s, s1 with
           | 2%nat, c1 :: s2 => push [c; c1] (parse_str s2)
           | 3%nat, c1 :: c2 :: s3 => push [c; c1; c2] (parse_str s3)
           | 4%nat, c1 :: c2 :: c3 :: s4 => push [c; c1; c2; c3] (parse_str s4)
           | _, _ => push rune_error (parse_str s1)
           end
  end.

(** ** Numbers *)
Definition is_digit (c : byte) : bool := between 48 57 c.
Definition digit (n : Z) : byte := byte_of_Z (48 + n).

Fixpoint digits_rev (fuel : nat) (z : Z) : bytes :=
  match fuel with
  | O => []
  | S f => if z <? 10 then [digit z] else digit (z mod 10) :: digits_rev f (z / 10)
  end.

(** [strconv.FormatUint(z, 10)] and [FormatInt]. *)
Definition format_uint (z : Z) : bytes :=
  rev (digits_rev (S (Z.to_nat (Z.log2 z))) z).
Definition format_int (z : Z) : bytes :=
  if z <? 0 then x2d :: format_uint (- z) else format_uint z.

Definition dec_value (l : bytes) : Z :=
  fold_left (fun acc c => acc * 10 + (Z_of_byte c - 48)) l 0.

(** [strconv.ParseUint] and [ParseInt] in base 10, without the range check. *)
Definition parse_uint (l : bytes) : option Z :=
  if negb (is_nil (head l)) && forallb is_digit l then Some (dec_value l) else None.
Definition parse_int (l : bytes) : option Z :=
  match l with
  | c :: l' => if Byte.eqb c x2d then Z.opp <$> parse_uint l' else parse_uint l
  | [] => None
  end.

Fixpoint span_digits (s : bytes) : bytes * bytes :=
  match s with
  | c :: s' => if is_digit c then let '(d, r) := span_digits s' in (c :: d, r) else ([], s)
  | [] => ([], [])
  end.

Definition parse_exp (s : bytes) : option (bytes * bytes) :=
  match s with
  | c :: s1 =>
      if Byte.eqb c x65 || Byte.eqb c x45 then
        let '(sg, s2) := match s1 with
                         | g :: s2 => if Byte.eqb g x2b || Byte.eqb g x2d
                                      then ([g], s2) else ([], s1)
                         | [] => ([], s1)
                         end in
        match span_digits s2 with
        | ([], _) => None
        | (d, r) => Some (c :: sg ++ d, r)
        end
      else Some ([], s)
  | [] => Some ([], s)
  end.

Definition parse_frac (s : bytes) : option (bytes * bytes) :=
  match s with
  | c :: s1 =>
      if Byte.eqb c x2e then
        match span_digits s1 with
        | ([], _) => None
        | (d, r) => Some (c :: d, r)
        end
      else Some ([], s)
  | [] => Some ([], s)
  end.

Definition parse_num (s : bytes) : option (bytes * bytes) :=
  let '(sg, s1) := match s with
                   | c :: s1 => if Byte.eqb c x2d then ([c], s1) else ([], s)
                   | [] => ([], s)
                   end in
  let ip := match s1 with
            | c :: s2 => if Byte.eqb c x30 then Some ([c], s2)
                         else if is_digit c then Some (span_digits s1) else None
            | [] => None
            end in
  match ip with
  | None => None
  | Some (i, s2) =>
      match parse_frac s2 with
      | None => None
      | Some (f, s3) =>
          match parse_exp s3 with
          | None => None
          | Some (e, s4) => Some (sg ++ i ++ f ++ e, s4)
          end
      end
  end.

(** ** The parser *)
Definition is_ws (c : byte) : bool :=
  Byte.eqb c x20 || Byte.eqb c x09 || Byte.eqb c x0a || Byte.eqb c x0d.

Fixpoint skip_ws (s : bytes) : bytes :=
  match s with
  | c :: s' => if is_ws c then skip_ws s' else s
  | [] => []
  end.

Fixpoint strip (pre s : bytes) : option bytes :=
  match pre, s with
  | [], _ => Some s
  | a :: pre', b :: s' => if Byte.eqb a b then strip pre' s' else None
  | _ :: _, [] => None
  end.

(** The fuel bounds the number of nested values and separators read; each
    takes at least one byte, so [S (length s)] is enough. *)
Fixpoint parse_value (n : nat) (s : bytes) {struct n} : option (json * bytes) :=
  match n with
  | O => None
  | S n =>
      match skip_ws s with
      | [] => None
      | c :: s1 =>
          if Byte.eqb c x7b then
            match skip_ws s1 with
            | d :: s2 =>
                if Byte.eqb d x7d then Some (JObj [], s2)
                else match parse_members n (d :: s2) with
                     | Some (m, r) => Some (JObj m, r)
                     | None => None
                     end
            | [] => None
            end
          else if Byte.eqb c x5b then
            match skip_ws s1 with
            | d :: s2 =>
                if Byte.eqb d x5d then Some (JArr [], s2)
                else match parse_elems n (d :: s2) with
                     | Some (l, r) => Some (JArr l, r)
                     | None => None
                     end
            | [] => None
            end
          else if Byte.eqb c x22 then
            match parse_str s1 with
            | Some (t, r) => Some (JStr t, r)
            | None => None
            end
          else if Byte.eqb c x74 then (fun r => (JBool true, r)) <$> strip (bstr "rue") s1
          else if Byte.eqb c x66 then (fun r => (JBool false, r)) <$> strip (bstr "alse") s1
          else if Byte.eqb c x6e then (fun r => (JNull, r)) <$> strip (bstr "ull") s1
          else match parse_num (c :: s1) with
               | Some (lit, r) => Some (JNum lit, r)
               | None => None
               end
      end
  end
with parse_members (n : nat) (s : bytes) {struct n} : option (list (bytes * json) * bytes) :=
  match n with
  | O => None
  | S n =>
      match skip_ws s with
      | q :: s1 =>
          if Byte.eqb q x22 then
            match parse_str s1 with
            | Some (k, s2) =>
                match skip_ws s2 with
                | c :: s3 =>
                    if Byte.eqb c x3a then
                      match parse_value n s3 with
                      | Some (v, s4) =>
                          match skip_ws s4 with
                          | d :: s5 =>
                              if Byte.eqb d x2c then
                                match parse_members n s5 with
                                | Some (m, r) => Some ((k, v) :: m, r)
                                | None => None
                                end
                              else if Byte.eqb d x7d then Some ([(k, v)], s5) else None
                          | [] => None
                          end
                      | None => None
                      end
                    else None
                | [] => None
                end
            | None => None
            end
          else None
      | [] => None
      end
  end
with parse_elems (n : nat) (s : bytes) {struct n} : option (list json * bytes) :=
  match n with
  | O => None
  | S n =>
      match parse_value n s with
      | Some (v, s1) =>
          match skip_ws s1 with
          | d :: s2 =>
              if Byte.eqb d x2c then
                match parse_elems n s2 with
                | Some (l, r) => Some (v :: l, r)
                | None => None
                end
              else if Byte.eqb d x5d then Some ([v], s2) else None
          | [] => None
          end
      | None => None
      end
  end.

Definition parse_json (s : bytes) : option json :=
  match parse_value (S (length s)) s with
  | Some (j, r) => match skip_ws r with [] => Some j | _ :: _ => None end
  | None => None
  end.

(** ** The compact printer *)
Fixpoint comma_sep (l : list bytes) : bytes :=
  match l with
  | [] => []
  | [x] => x
  | x :: l' => x ++ x2c :: comma_sep l'
  end.

Definition quote (s : bytes) : bytes := x22 :: quote_body s ++ [x22].

Fixpoint print (j : json) : bytes :=
  match j with
  | JNull => bstr "null"
  | JBool true => bstr "true"
  | JBool false => bstr "false"
  | JNum lit => lit
  | JStr s => quote s
  | JArr l => x5b :: comma_sep (map print l) ++ [x5d]
  | JObj m => x7b :: comma_sep (map (fun kv => quote (fst kv) ++ x3a :: print (snd kv)) m)
                ++ [x7d]
  end.

(** ** Base64 ([encoding/base64.StdEncoding]) *)
Definition b64_char (n : Z) : byte :=
  if n <? 26 then byte_of_Z (65 + n)
  else if n <? 52 then byte_of_Z (71 + n)
  else if n <? 62 then byte_of_Z (n - 4)
  else if n =? 62 then x2b else x2f.

Definition b64_val (c : byte) : option Z :=
  if between 65 90 c then Some (Z_of_byte c - 65)
  else if between 97 122 c then Some (Z_of_byte c - 71)
  else if between 48 57 c then Some (Z_of_byte c + 4)
  else if Byte.eqb c x2b then Some 62
  else if Byte.eqb c x2f then Some 63
  else None.

Fixpoint b64_encode (s : bytes) : bytes :=
  match s with
  | a :: b :: c :: s' =>
      let n := (Z_of_byte a * 256 + Z_of_byte b) * 256 + Z_of_byte c in
      b64_char (n / 262144) :: b64_char (n / 4096 mod 64)
        :: b64_char (n / 64 mod 64) :: b64_char (n mod 64) :: b64_encode s'
  | [a; b] =>
      let n := (Z_of_byte a * 256 + Z_of_byte b) * 256 in
      [b64_char (n / 262144); b64_char (n / 4096 mod 64); b64_char (n / 64 mod 64); x3d]
  | [a] =>
      let n := Z_of_byte a * 65536 in
      [b64_char (n / 262144); b64_char (n / 4096 mod 64); x3d; x3d]
  | [] => []
  end.

(** Decoding after the newlines have been dropped: quanta of four characters,
    padding only in the last one. *)
Fixpoint b64_quanta (s : bytes) : option bytes :=
  match s with
  | [] => Some []
  | w :: x :: y :: z :: s' =>
      match b64_val w, b64_val x with
      | Some vw, Some vx =>
          if Byte.eqb y x3d then
            if Byte.eqb z x3d && is_nil (head s') then Some [byte_of_Z (vw * 4 + vx / 16)]
            else None
          else match b64_val y with
               | None => None
               | Some vy =>
                   let b0 := byte_of_Z (vw * 4 + vx / 16) in
                   let b1 := byte_of_Z (vx * 16 + vy / 4) in
                   if Byte.eqb z x3d then
                     if is_nil (head s') then Some [b0; b1] else None
                   else match b64_val z with
                        | None => None
                        | Some vz =>
                            (fun r => b0 :: b1 :: byte_of_Z (vy * 64 + vz) :: r)
                              <$> b64_quanta s'
                        end
               end
      | _, _ => None
      end
  | _ => None
  end.

Definition b64_decode (s : bytes) : option bytes :=
  b64_quanta (List.filter (fun c => negb (Byte.eqb c x0a || Byte.eqb c x0d)) s).

(** ** Codecs

    [c_dec j old] decodes [j] into a variable holding [old]. *)
Record codec (T : Type) := Codec {
  c_zero : T;
  c_enc : T -> json;
  c_dec : json -> T -> option T
}.
Arguments Codec {T} _ _ _.
Arguments c_zero {T} _.
Arguments c_enc {T} _ _.
Arguments c_dec {T} _ _ _.

Definition bool_codec : codec bool := {|
  c_zero := false;
  c_enc := JBool;
  c_dec j old := match j with JBool b => Some b | JNull => Some old | _ => None end
|}.

(** An unsigned integer of [w] bits. *)
Definition uint_codec (w : Z) : codec Z := {|
  c_zero := 0;
  c_enc z := JNum (format_uint z);
  c_dec j old :=
    match j with
    | JNum lit => match parse_uint lit with
                  | Some z => if z <? 2 ^ w then Some z else None
                  | None => None
                  end
    | JNull => Some old
    | _ => None
    end
|}.

Definition int64_codec : codec Z := {|
  c_zero := 0;
  c_enc z := JNum (format_int z);
  c_dec j old :=
    match j with
    | JNum lit => match parse_int lit with
                  | Some z => if (- 2 ^ 63 <=? z) && (z <? 2 ^ 63) then Some z else None
                  | None => None
                  end
    | JNull => Some old
    | _ => None
    end
|}.

Definition string_codec : codec string := {|
  c_zero := EmptyString;
  c_enc s := JStr (bstr s);
  c_dec j old :=
    match j with
    | JStr b => Some (String.string_of_list_byte b)
    | JNull => Some old
    | _ => None
    end
|}.

(** Element [i] is decoded over the old element [i], or over the zero value. *)
Fixpoint dec_elems {T} (c : codec T) (js : list json) (olds : list T) : option (list T) :=
  match js with
  | [] => Some []
  | j :: js' =>
      match c_dec c j (default (c_zero c) (head olds)) with
      | Some x => (fun l => x :: l) <$> dec_elems c js' (tail olds)
      | None => None
      end
  end.

Definition slice_codec {T} (c : codec T) : codec (option (list T)) := {|
  c_zero := None;
  c_enc s := match s with None => JNull | Some l => JArr (map (c_enc c) l) end;
  c_dec j old :=
    match j with
    | JArr js => Some <$> dec_elems c js (default [] old)
    | JNull => Some None
    | _ => None
    end
|}.

Definition byte_codec : codec byte := {|
  c_zero := x00;
  c_enc b := JNum (format_uint (Z_of_byte b));
  c_dec j old := byte_of_Z <$> c_dec (uint_codec 8) j (Z_of_byte old)
|}.

(** [[]byte]: a base64 string; an array of numbers is accepted too. *)
Definition bytes_codec : codec gobytes := {|
  c_zero := None;
  c_enc s := match s with None => JNull | Some b => JStr (b64_encode b) end;
  c_dec j old :=
    match j with
    | JStr s => Some <$> b64_decode s
    | _ => c_dec (slice_codec byte_codec) j old
    end
|}.

(** *** Structs *)
Record field (T : Type) := Field {
  f_name : bytes;
  f_enc : T -> json;
  f_dec : json -> T -> option T
}.
Arguments Field {T} _ _ _.
Arguments f_name {T} _.
Arguments f_enc {T} _ _.
Arguments f_dec {T} _ _ _.

Definition fld {T A} (name : string) (proj : T -> A) (set : A -> T -> T) (c : codec A)
  : field T := {|
  f_name := bstr name;
  f_enc x := c_enc c (proj x);
  f_dec j x := (fun a => set a x) <$> c_dec c j (proj x)
|}.

(** Case folding of a key: ASCII letters, and the two non-ASCII letters that
    fold to ASCII ones (U+212A to K, U+017F to S). *)
Fixpoint fold_key (k : bytes) : bytes :=
  match k with
  | [] => []
  | c :: k1 =>
      match k1 with
      | c1 :: k2 =>
          if Byte.eqb c xc5 && Byte.eqb c1 xbf then x53 :: fold_key k2
          else match k2 with
               | c2 :: k3 =>
                   if Byte.eqb c xe2 && Byte.eqb c1 x84 && Byte.eqb c2 xaa
                   then x4b :: fold_key k3
                   else (if between 97 122 c then byte_of_Z (Z_of_byte c - 32) else c)
                          :: fold_key k1
               | [] => (if between 97 122 c then byte_of_Z (Z_of_byte c - 32) else c)
                          :: fold_key k1
               end
      | [] => [if between 97 122 c then byte_of_Z (Z_of_byte c - 32) else c]
      end
  end.

Definition key_eqb (a b : bytes) : bool := bool_decide (a = b).

Definition find_field {T} (key : bytes) (fs : list (field T)) : option (field T) :=
  match List.find (fun f => key_eqb (f_name f) key) fs with
  | Some f => Some f
  | None => List.find (fun f => key_eqb (fold_key (f_name f)) (fold_key key)) fs
  end.

Fixpoint dec_members {T} (fs : list (field T)) (m : list (bytes * json)) (x : T) : option T :=
  match m with
  | [] => Some x
  | (k, j) :: m' =>
      match find_field k fs with
      | None => dec_members fs m' x
      | Some f => match f_dec f j x with
                  | Some x' => dec_members fs m' x'
                  | None => None
                  end
      end
  end.

Definition struct_codec {T} (zero : T) (fs : list (field T)) : codec T := {|
  c_zero := zero;
  c_enc x := JObj (map (fun f => (f_name f, f_enc f x)) fs);
  c_dec j old :=
    match j with
    | JObj m => dec_members fs m old
    | JNull => Some old
    | _ => None
    end
|}.

(** The types the program marshals. *)
Class JSON (T : Type) := json_codec : codec T.

Definition Marshal {T} `{JSON T} (x : T) : result bytes := Ok (print (c_enc json_codec x)).

(** [json.Unmarshal(data, &v)] for a variable [v] holding [old]. *)
Definition UnmarshalInto {T} `{JSON T} (data : bytes) (old : T) : result T :=
  match parse_json data with
  | None => Err "invalid character in JSON input"
  | Some j => match c_dec json_codec j old with
              | Some x => Ok x
              | None => Err "json: cannot unmarshal value"
              end
  end.

Definition Unmarshal {T} `{JSON T} (data : bytes) : result T :=
  UnmarshalInto data (c_zero json_codec).
