(* ===== verification/JsonLaws.v ===== *)
(** Laws of the JSON model: the parser inverts the printer on canonical trees,
    base64 and decimal round trips, and the codec laws the struct codecs of
    the other files are assembled from. *)
From S2P Require Import Prelude Json.
Open Scope Z_scope.

(** ** Canonical trees: what [Marshal] produces *)
Definition ascii (s : bytes) : Prop := Forall (fun c => Z_of_byte c < 128) s.

Definition canonical_num (lit : bytes) : Prop := exists z, lit = format_int z.

Fixpoint canonical (j : json) : Prop :=
  match j with
  | JNull | JBool _ => True
  | JNum lit => canonical_num lit
  | JStr s => ascii s
  | JArr l => foldr (fun x P => canonical x /\ P) True l
  | JObj m => foldr (fun kv P => (ascii (fst kv) /\ canonical (snd kv)) /\ P) True m
  end.

(** The next byte after a value inside a container. *)
Definition delim (s : bytes) : Prop :=
  match s with
  | [] => True
  | c :: _ => c = x2c \/ c = x5d \/ c = x7d
  end.

(** ** Decimal numbers *)
Lemma digit_val d : 0 <= d < 10 -> Z_of_byte (digit d) - 48 = d.
Proof. intros H. unfold digit. rewrite Z_of_byte_of_Z, Z.mod_small; lia. Qed.

Lemma digit_is_digit d : 0 <= d < 10 -> is_digit (digit d) = true.
Proof.
  intros H. unfold is_digit, between, digit. rewrite Z_of_byte_of_Z, Z.mod_small by lia.
  apply andb_true_intro. split; apply Z.leb_le; lia.
Qed.

Lemma digits_rev_spec fuel z :
  0 <= z -> z < 10 ^ Z.of_nat fuel -> (0 < fuel)%nat ->
  Forall (fun c => is_digit c = true) (digits_rev fuel z)
  /\ digits_rev fuel z <> []
  /\ (forall acc, fold_right (fun c acc => acc * 10 + (Z_of_byte c - 48)) acc (digits_rev fuel z)
      = acc * 10 ^ Z.of_nat (length (digits_rev fuel z)) + z)
  /\ (z <> 0 -> last (digits_rev fuel z) <> Some x30).
Proof.
  revert z. induction fuel as [|fuel IH]; intros z Hz Hb Hf; [lia|].
  cbn [digits_rev]. destruct (z <? 10) eqn:E.
  - apply Z.ltb_lt in E. split_and!.
    + constructor; [by apply digit_is_digit|constructor].
    + done.
    + intros acc. cbn. rewrite digit_val by lia. lia.
    + intros Hnz. cbn. intros [= Hd]. pose proof (digit_val z ltac:(lia)) as Hv.
      rewrite Hd in Hv. cbn in Hv. lia.
  - apply Z.ltb_ge in E.
    rewrite Nat2Z.inj_succ, Z.pow_succ_r in Hb by lia.
    assert (fuel <> 0%nat) by (intros ->; cbn in Hb; lia).
    destruct (IH (z / 10)) as (Hall & Hne & Hval & Hlast);
      [apply Z.div_pos; lia | apply Z.div_lt_upper_bound; lia | lia |].
    pose proof (Z.mod_pos_bound z 10 ltac:(lia)). split_and!.
    + constructor; [by apply digit_is_digit|done].
    + done.
    + intros acc. cbn [fold_right length]. rewrite Hval, digit_val by lia.
      rewrite Nat2Z.inj_succ, Z.pow_succ_r by lia.
      pose proof (Z.div_mod z 10 ltac:(lia)). nia.
    + intros _. destruct (digits_rev fuel (z / 10)) as [|c l] eqn:El; [done|].
      cbn [last]. apply Hlast. intros Hq. apply Z.div_small_iff in Hq; lia.
Qed.

Lemma log2_fuel z : 0 <= z -> z < 10 ^ Z.of_nat (S (Z.to_nat (Z.log2 z))).
Proof.
  intros Hz. rewrite Nat2Z.inj_succ, Z2Nat.id by apply Z.log2_nonneg.
  pose proof (Z.log2_nonneg z).
  destruct (decide (z = 0)) as [->|]; [cbn; lia|].
  pose proof (Z.log2_spec z ltac:(lia)) as [_ Hhi].
  eapply Z.lt_le_trans; [exact Hhi|]. apply Z.pow_le_mono_l. lia.
Qed.

Lemma format_uint_spec z :
  0 <= z ->
  Forall (fun c => is_digit c = true) (format_uint z)
  /\ (exists c l, format_uint z = c :: l /\ (c = x30 -> l = []))
  /\ dec_value (format_uint z) = z.
Proof.
  intros Hz. unfold format_uint, dec_value.
  set (fuel := S (Z.to_nat (Z.log2 z))).
  destruct (digits_rev_spec fuel z Hz (log2_fuel z Hz) ltac:(lia))
    as (Hall & Hne & Hval & Hlast).
  split_and!.
  - by apply Forall_rev.
  - destruct (decide (z = 0)) as [->|Hnz]; [by exists x30, []|].
    specialize (Hlast Hnz).
    destruct (digits_rev fuel z) as [|a l] using rev_ind; [done|].
    rewrite last_snoc in Hlast. rewrite rev_unit.
    exists a, (rev l). split; [done|]. by intros ->.
  - rewrite <- fold_left_rev_right, rev_involutive. rewrite Hval. lia.
Qed.

Lemma forallb_Forall {A} (f : A -> bool) l :
  forallb f l = true <-> Forall (fun x => f x = true) l.
Proof. rewrite forallb_forall, List.Forall_forall. done. Qed.

Lemma parse_format_uint z : 0 <= z -> parse_uint (format_uint z) = Some z.
Proof.
  intros Hz. destruct (format_uint_spec z Hz) as (Hall & (c & l & Heq & _) & Hval).
  unfold parse_uint. rewrite Hval, (proj2 (forallb_Forall _ _) Hall), Heq. done.
Qed.

Lemma digit_not c : is_digit c = true -> Byte.eqb c x2d = false /\ Byte.eqb c x2e = false
  /\ Byte.eqb c x22 = false.
Proof. destruct c; done. Qed.

Lemma parse_format_int z : parse_int (format_int z) = Some z.
Proof.
  unfold format_int. destruct (z <? 0) eqn:E.
  - apply Z.ltb_lt in E.
    change (Z.opp <$> parse_uint (format_uint (- z)) = Some z).
    rewrite parse_format_uint by lia. cbn. f_equal. lia.
  - apply Z.ltb_ge in E.
    destruct (format_uint_spec z E) as (Hall & (c & l & Heq & _) & _).
    unfold parse_int. rewrite Heq in Hall |- *. inversion Hall as [|?? Hc _]; subst.
    destruct (digit_not c Hc) as (-> & _). rewrite <- Heq. by apply parse_format_uint.
Qed.

Lemma span_digits_app d rest :
  Forall (fun c => is_digit c = true) d -> delim rest ->
  span_digits (d ++ rest) = (d, rest).
Proof.
  intros Hd Hr. induction Hd as [|c d Hc Hd IH]; cbn.
  - destruct rest as [|c r]; [done|]. cbn. by destruct Hr as [->|[->| ->]].
  - by rewrite Hc, IH.
Qed.

Lemma parse_num_canonical lit rest :
  canonical_num lit -> delim rest -> parse_num (lit ++ rest) = Some (lit, rest).
Proof.
  intros [z ->] Hr.
  assert (Hint : forall n, 0 <= n -> exists c l, format_uint n = c :: l
    /\ is_digit c = true
    /\ (if Byte.eqb c x30 then Some ([c], l ++ rest)
        else if is_digit c then Some (span_digits (c :: l ++ rest)) else None)
       = Some (c :: l, rest)).
  { intros n Hn. destruct (format_uint_spec n Hn) as (Hall & (c & l & Heq & H0) & _).
    rewrite Heq in Hall. inversion Hall as [|?? Hc Hl]; subst.
    exists c, l. split_and!; [done..|].
    destruct (Byte.eqb c x30) eqn:E.
    - apply Byte.byte_dec_bl in E. by rewrite (H0 E).
    - rewrite Hc. f_equal. by apply (span_digits_app (c :: l)). }
  assert (Htail : forall p : bytes, match parse_frac rest with
    | None => None
    | Some (f, s3) => match parse_exp s3 with
        | None => None | Some (e, s4) => Some (p ++ f ++ e, s4) end end = Some (p, rest)).
  { intros p. destruct rest as [|c r]; cbn; [by rewrite app_nil_r|].
    destruct Hr as [->|[->| ->]]; cbn; by rewrite app_nil_r. }
  unfold format_int. destruct (z <? 0) eqn:E.
  - apply Z.ltb_lt in E. destruct (Hint (- z) ltac:(lia)) as (c & l & -> & _ & Hi).
    unfold parse_num. cbn -[span_digits parse_frac parse_exp is_digit].
    rewrite Hi. apply (Htail (x2d :: c :: l)).
  - apply Z.ltb_ge in E. destruct (Hint z E) as (c & l & -> & Hc & Hi).
    unfold parse_num. cbn -[span_digits parse_frac parse_exp is_digit].
    destruct (digit_not c Hc) as (-> & _). rewrite Hi. apply (Htail (c :: l)).
Qed.

(** ** Strings *)
Lemma parse_quote_char c t :
  Z_of_byte c < 128 -> parse_str (quote_char c ++ t) = push [c] (parse_str t).
Proof. intros H. destruct c; try reflexivity; by vm_compute in H. Qed.

Lemma push_push a b r : push a (push b r) = push (a ++ b) r.
Proof. destruct r as [[s t]|]; cbn; [by rewrite app_assoc|done]. Qed.

Lemma parse_str_quote s rest :
  ascii s -> parse_str (quote_body s ++ x22 :: rest) = Some (s, rest).
Proof.
  intros H. induction H as [|c s Hc Hs IH]; [done|].
  cbn [quote_body]. rewrite (proj2 (Z.ltb_lt _ _) Hc), <- app_assoc.
  by rewrite parse_quote_char, IH.
Qed.

Lemma parse_quote s rest :
  ascii s -> exists l, quote s ++ rest = x22 :: l /\ parse_str l = Some (s, rest).
Proof.
  intros H. exists (quote_body s ++ x22 :: rest). split; [|by apply parse_str_quote].
  unfold quote. cbn. by rewrite <- app_assoc.
Qed.

(** ** The parser inverts the printer *)
Fixpoint jsize (j : json) : nat :=
  match j with
  | JNull | JBool _ | JNum _ | JStr _ => 1
  | JArr l => S (foldr (fun x n => S (jsize x + n)) 0 l)
  | JObj m => S (foldr (fun kv n => S (jsize (snd kv) + n)) 0 m)
  end%nat.

Definition plain_head (s : bytes) : Prop :=
  match s with
  | [] => False
  | c :: _ => is_ws c = false /\ c <> x5d /\ c <> x7d
  end.

Lemma plain_skip s rest : plain_head s -> skip_ws (s ++ rest) = s ++ rest.
Proof. destruct s as [|c s]; [done|]. cbn. by intros [-> _]. Qed.

Lemma num_head lit : canonical_num lit ->
  exists c l, lit = c :: l /\ (is_digit c = true \/ c = x2d).
Proof.
  intros [z ->]. unfold format_int. destruct (z <? 0) eqn:E; [by eauto|].
  apply Z.ltb_ge in E. destruct (format_uint_spec z E) as (Hall & (c & l & Heq & _) & _).
  rewrite Heq in *. inversion Hall; subst. eauto.
Qed.

Lemma num_head_plain c :
  is_digit c = true \/ c = x2d ->
  is_ws c = false /\ c <> x5d /\ c <> x7d
  /\ Byte.eqb c x7b = false /\ Byte.eqb c x5b = false /\ Byte.eqb c x22 = false
  /\ Byte.eqb c x74 = false /\ Byte.eqb c x66 = false /\ Byte.eqb c x6e = false.
Proof. intros [H| ->]; [|done]. destruct c; done. Qed.

Lemma print_head j : canonical j -> plain_head (print j).
Proof.
  destruct j as [|[]|lit|s|l|m]; try done. cbn.
  intros (c & l & -> & Hc)%num_head. cbn. by destruct (num_head_plain c Hc) as (?&?&?&_).
Qed.

Lemma comma_sep_cons (x : bytes) l : l <> [] -> comma_sep (x :: l) = x ++ x2c :: comma_sep l.
Proof. by destruct l. Qed.

Lemma parse_elems_print l rest n :
  Forall (fun j => canonical j -> forall n rest, (jsize j <= n)%nat -> delim rest ->
    parse_value n (print j ++ rest) = Some (j, rest)) l ->
  canonical (JArr l) -> l <> [] ->
  (foldr (fun x n => S (jsize x + n)) 0 l <= n)%nat ->
  parse_elems n (comma_sep (map print l) ++ x5d :: rest) = Some (l, rest).
Proof.
  intros HF. revert n. induction HF as [|j l Hj HF IH]; intros n Hc Hne Hn; [done|].
  cbn in Hc, Hn. destruct Hc as [Hcj Hcl].
  destruct n as [|n]; [lia|]. cbn [parse_elems].
  destruct l as [|j' l].
  - cbn [map comma_sep]. rewrite Hj; [done|done|lia|cbn; auto].
  - cbn [map]. rewrite comma_sep_cons by done. rewrite <- app_assoc.
    rewrite Hj by (done || lia || (cbn; auto)). cbn [skip_ws is_ws Byte.eqb app].
    cbn -[parse_elems foldr print map comma_sep].
    rewrite IH; [done|done|done|lia].
Qed.

Lemma parse_members_print m rest n :
  Forall (fun kv => canonical (snd kv) -> forall n rest, (jsize (snd kv) <= n)%nat ->
    delim rest -> parse_value n (print (snd kv) ++ rest) = Some (snd kv, rest)) m ->
  canonical (JObj m) -> m <> [] ->
  (foldr (fun kv n => S (jsize (snd kv) + n)) 0 m <= n)%nat ->
  parse_members n (comma_sep (map (fun kv => quote (fst kv) ++ x3a :: print (snd kv)) m)
                   ++ x7d :: rest) = Some (m, rest).
Proof.
  intros HF. revert n. induction HF as [|[k j] m Hj HF IH]; intros n Hc Hne Hn; [done|].
  cbn in Hc, Hn. destruct Hc as [[Hk Hcj] Hcl]. cbn [fst snd] in *.
  destruct n as [|n]; [lia|].
  assert (Hstep : forall tl, delim tl ->
    parse_members (S n) ((quote k ++ x3a :: print j) ++ tl)
    = match skip_ws tl with
      | d :: s5 => if Byte.eqb d x2c then
                     match parse_members n s5 with
                     | Some (m, r) => Some ((k, j) :: m, r) | None => None end
                   else if Byte.eqb d x7d then Some ([(k, j)], s5) else None
      | [] => None end).
  { intros tl Htl. rewrite <- app_assoc.
    destruct (parse_quote k ((x3a :: print j) ++ tl) Hk) as (q & -> & Hq).
    cbn [parse_members]. cbn -[parse_value parse_str skip_ws parse_members print].
    cbn [skip_ws is_ws]. cbn -[parse_value parse_str skip_ws parse_members print].
    rewrite Hq. cbn -[parse_value parse_str skip_ws parse_members print].
    cbn [skip_ws is_ws]. cbn -[parse_value parse_str skip_ws parse_members print].
    rewrite Hj by (done || lia). done. }
  destruct m as [|kv m].
  - cbn [map comma_sep fst snd]. rewrite Hstep by (cbn; auto). done.
  - cbn [map]. rewrite comma_sep_cons by done. rewrite <- app_assoc.
    cbn [fst snd]. rewrite Hstep by (cbn; auto).
    cbn -[parse_members foldr print map comma_sep].
    rewrite IH; [done|done|done|lia].
Qed.

Lemma parse_value_print j : canonical j -> forall n rest,
  (jsize j <= n)%nat -> delim rest -> parse_value n (print j ++ rest) = Some (j, rest).
Proof.
  induction j as [|b|lit|s|l IH|m IH] using json_ind_nested; intros Hc n rest Hn Hd;
    destruct n as [|n]; try (cbn in Hn; lia).
  - done.
  - by destruct b.
  - cbn [print]. pose proof (parse_num_canonical lit rest Hc Hd) as Hp.
    destruct (num_head lit Hc) as (c & l & -> & Hh).
    destruct (num_head_plain c Hh) as (Hw & _ & _ & E1 & E2 & E3 & E4 & E5 & E6).
    cbn [parse_value app skip_ws] in *. rewrite Hw, E1, E2, E3, E4, E5, E6.
    cbn [app] in Hp. by rewrite Hp.
  - cbn [print]. destruct (parse_quote s rest Hc) as (q & -> & Hq).
    cbn -[parse_str]. by rewrite Hq.
  - cbn [print]. destruct l as [|j l]; [done|].
    pose proof (parse_elems_print (j :: l) rest n IH Hc ltac:(done) ltac:(cbn in *; lia)) as He.
    assert (plain_head (comma_sep (map print (j :: l)))) as Hp.
    { cbn in Hc. destruct Hc as [Hj _]. pose proof (print_head j Hj).
      cbn [map]. destruct l; cbn [map]; [done|]. rewrite comma_sep_cons by done.
      by destruct (print j). }
    cbn [app]. rewrite <- app_assoc. cbn [app].
    cbn [parse_value]. cbn -[parse_elems skip_ws comma_sep map].
    cbn [skip_ws is_ws]. cbn -[parse_elems skip_ws comma_sep map].
    rewrite plain_skip by done.
    destruct (comma_sep (map print (j :: l))) as [|c t]; [done|].
    destruct Hp as (_ & Hp & _). cbn [app].
    destruct (Byte.eqb c x5d) eqn:E; [by apply Byte.byte_dec_bl in E|].
    cbn [app] in He. by rewrite He.
  - cbn [print]. destruct m as [|kv m]; [done|].
    pose proof (parse_members_print (kv :: m) rest n IH Hc ltac:(done)
                  ltac:(cbn in *; lia)) as He.
    assert (exists t, comma_sep (map (fun kv => quote (fst kv) ++ x3a :: print (snd kv))
                                   (kv :: m)) = x22 :: t) as [t Ht].
    { cbn [map]. destruct m; cbn [map]; [eexists; done|]. rewrite comma_sep_cons by done.
      eexists; done. }
    cbn [app]. rewrite <- app_assoc. cbn [app]. rewrite Ht in *.
    cbn [parse_value]. cbn -[parse_members skip_ws].
    cbn [skip_ws is_ws]. cbn -[parse_members skip_ws].
    cbn [skip_ws is_ws]. cbn -[parse_members skip_ws].
    cbn [app] in He. by rewrite He.
Qed.

Lemma jsize_print j : canonical j -> (jsize j <= length (print j))%nat.
Proof.
  induction j as [|b|lit|s|l IH|m IH] using json_ind_nested; intros Hc; cbn [jsize print].
  - cbn. lia.
  - destruct b; cbn; lia.
  - destruct (num_head lit Hc) as (c & l & -> & _). cbn. lia.
  - unfold quote. cbn. lia.
  - cbn [length]. rewrite length_app. cbn [length].
    assert (foldr (fun x n => S (jsize x + n)) 0 l <= S (length (comma_sep (map print l))))%nat;
      [|lia].
    cbn in Hc. induction IH as [|j l Hj _ IHl]; cbn [foldr]; [lia|].
    destruct Hc as [Hj' Hl]. specialize (IHl Hl). specialize (Hj Hj'). cbn [map].
    destruct l; cbn [map] in *; [cbn in *; lia|].
    rewrite comma_sep_cons by done. rewrite length_app. cbn [length] in *. lia.
  - cbn [length]. rewrite length_app. cbn [length].
    assert (foldr (fun kv n => S (jsize (snd kv) + n)) 0 m
      <= S (length (comma_sep (map (fun kv => quote (fst kv) ++ x3a :: print (snd kv)) m))))%nat;
      [|lia].
    cbn in Hc. induction IH as [|kv m Hj _ IHl]; cbn [foldr]; [lia|].
    destruct Hc as [[_ Hj'] Hl]. specialize (IHl Hl). specialize (Hj Hj'). cbn [map].
    assert (jsize (snd kv) <= length (quote (fst kv) ++ x3a :: print (snd kv)))%nat
      by (rewrite length_app; cbn; lia).
    destruct m; cbn [map] in *; [cbn in *; lia|].
    rewrite comma_sep_cons by done. rewrite length_app. cbn [length] in *. lia.
Qed.

Lemma parse_print j : canonical j -> parse_json (print j) = Some j.
Proof.
  intros Hc. unfold parse_json. pose proof (jsize_print j Hc).
  rewrite <- (app_nil_r (print j)) at 2.
  rewrite parse_value_print by (done || lia). done.
Qed.

(** ** Base64 *)
Lemma b64_char_spec n : 0 <= n < 64 ->
  b64_val (b64_char n) = Some n /\ Byte.eqb (b64_char n) x3d = false
  /\ Byte.eqb (b64_char n) x0a || Byte.eqb (b64_char n) x0d = false
  /\ Z_of_byte (b64_char n) < 128.
Proof.
  intros Hn.
  assert (forallb (fun n => bool_decide (b64_val (b64_char n) = Some n)
    && negb (Byte.eqb (b64_char n) x3d)
    && negb (Byte.eqb (b64_char n) x0a || Byte.eqb (b64_char n) x0d)
    && (Z_of_byte (b64_char n) <? 128)) (seqZ 0 64) = true) as HF by (by vm_compute).
  rewrite forallb_forall in HF. specialize (HF n).
  rewrite <- list_elem_of_In, elem_of_seqZ in HF. specialize (HF ltac:(lia)).
  split_andb. by repeat match goal with H : negb _ = true |- _ => apply negb_true_iff in H end.
Qed.

(** The four six-bit groups of a 24-bit number. *)
Lemma sextets n : 0 <= n < 16777216 ->
  let w := n / 262144 in let x := n / 4096 mod 64 in
  let y := n / 64 mod 64 in let z := n mod 64 in
  0 <= w < 64 /\ 0 <= x < 64 /\ 0 <= y < 64 /\ 0 <= z < 64
  /\ n = ((w * 64 + x) * 64 + y) * 64 + z.
Proof.
  intros Hn. cbv zeta.
  replace (n / 262144) with (n / 64 / 64 / 64) by (rewrite !Z.div_div by lia; done).
  replace (n / 4096) with (n / 64 / 64) by (rewrite !Z.div_div by lia; done).
  pose proof (Z.div_mod n 64 ltac:(lia)). pose proof (Z.mod_pos_bound n 64 ltac:(lia)).
  set (m := n / 64) in *.
  pose proof (Z.div_mod m 64 ltac:(lia)). pose proof (Z.mod_pos_bound m 64 ltac:(lia)).
  set (k := m / 64) in *.
  pose proof (Z.div_mod k 64 ltac:(lia)). pose proof (Z.mod_pos_bound k 64 ltac:(lia)).
  lia.
Qed.

Lemma byte_of_Z_eq z b : z mod 256 = Z_of_byte b -> byte_of_Z z = b.
Proof. intros H. apply Z_of_byte_inj. by rewrite Z_of_byte_of_Z. Qed.

(** The bytes of a 24-bit number, put together from its six-bit groups. *)
Lemma sextet_bytes a b c w x y z :
  (Z_of_byte a * 256 + Z_of_byte b) * 256 + Z_of_byte c = ((w * 64 + x) * 64 + y) * 64 + z ->
  0 <= w < 64 -> 0 <= x < 64 -> 0 <= y < 64 -> 0 <= z < 64 ->
  byte_of_Z (w * 4 + x / 16) = a /\ byte_of_Z (x * 16 + y / 4) = b
  /\ byte_of_Z (y * 64 + z) = c.
Proof.
  pose proof (Z_of_byte_range a). pose proof (Z_of_byte_range b).
  pose proof (Z_of_byte_range c). intros Hn Hw Hx Hy Hz.
  pose proof (Z.div_mod x 16 ltac:(lia)). pose proof (Z.mod_pos_bound x 16 ltac:(lia)).
  pose proof (Z.div_mod y 4 ltac:(lia)). pose proof (Z.mod_pos_bound y 4 ltac:(lia)).
  split_and!; apply byte_of_Z_eq.
  - rewrite Z.mod_small; lia.
  - replace (x * 16 + y / 4) with ((x mod 16) * 16 + y / 4 + (x / 16) * 256) by lia.
    rewrite Z.mod_add, Z.mod_small; lia.
  - replace (y * 64 + z) with ((y mod 4) * 64 + z + (y / 4) * 256) by lia.
    rewrite Z.mod_add, Z.mod_small; lia.
Qed.

(** Lists by blocks of three. *)
Lemma list_ind3 {A} (P : list A -> Prop) :
  P [] -> (forall a, P [a]) -> (forall a b, P [a; b]) ->
  (forall a b c l, P l -> P (a :: b :: c :: l)) -> forall l, P l.
Proof.
  intros H0 H1 H2 H3 l.
  enough (P l /\ (forall a, P (a :: l)) /\ (forall a b, P (a :: b :: l))) by tauto.
  induction l as [|x l (IH0 & IH1 & IH2)]; split_and!; auto.
Qed.

Lemma b64_quanta_encode s : b64_quanta (b64_encode s) = Some s.
Proof.
  induction s as [|a|a b|a b c s IH] using list_ind3; [done|..]; cbn [b64_encode];
    pose proof (Z_of_byte_range a); try pose proof (Z_of_byte_range b);
    try pose proof (Z_of_byte_range c).
  - replace (Z_of_byte a * 65536)
      with ((Z_of_byte a * 256 + Z_of_byte x00) * 256 + Z_of_byte x00) by (cbn; lia).
    set (n := _ + Z_of_byte x00).
    destruct (sextets n ltac:(cbn in n; lia)) as (Hw & Hx & Hy & Hz & Hn).
    destruct (sextet_bytes _ _ _ _ _ _ _ Hn Hw Hx Hy Hz) as (Ea & _).
    destruct (b64_char_spec _ Hw) as (Vw & _), (b64_char_spec _ Hx) as (Vx & _).
    cbn [b64_quanta]. rewrite Vw, Vx. cbn [Byte.eqb andb is_nil head]. by rewrite Ea.
  - replace ((Z_of_byte a * 256 + Z_of_byte b) * 256)
      with ((Z_of_byte a * 256 + Z_of_byte b) * 256 + Z_of_byte x00) by (cbn; lia).
    set (n := _ + Z_of_byte x00).
    destruct (sextets n ltac:(cbn in n; lia)) as (Hw & Hx & Hy & Hz & Hn).
    destruct (sextet_bytes _ _ _ _ _ _ _ Hn Hw Hx Hy Hz) as (Ea & Eb & _).
    destruct (b64_char_spec _ Hw) as (Vw & _), (b64_char_spec _ Hx) as (Vx & _),
      (b64_char_spec _ Hy) as (Vy & Py & _).
    cbn [b64_quanta]. rewrite Vw, Vx, Py, Vy. cbn [Byte.eqb andb is_nil head].
    by rewrite Ea, Eb.
  - set (n := _ + Z_of_byte c).
    destruct (sextets n ltac:(lia)) as (Hw & Hx & Hy & Hz & Hn).
    destruct (sextet_bytes _ _ _ _ _ _ _ Hn Hw Hx Hy Hz) as (Ea & Eb & Ec).
    destruct (b64_char_spec _ Hw) as (Vw & _), (b64_char_spec _ Hx) as (Vx & _),
      (b64_char_spec _ Hy) as (Vy & Py & _), (b64_char_spec _ Hz) as (Vz & Pz & _).
    cbn [b64_quanta]. rewrite Vw, Vx, Py, Vy, Pz, Vz, IH. cbn [fmap option_fmap option_map].
    by rewrite Ea, Eb, Ec.
Qed.

Lemma b64_encode_chars s :
  Forall (fun c => Byte.eqb c x0a || Byte.eqb c x0d = false /\ Z_of_byte c < 128)
    (b64_encode s).
Proof.
  induction s as [|a|a b|a b c s IH] using list_ind3; cbn [b64_encode];
    [done| |  |];
    pose proof (Z_of_byte_range a); try pose proof (Z_of_byte_range b);
    try pose proof (Z_of_byte_range c);
    match goal with |- context [b64_char (?n / 262144)] =>
      destruct (sextets n ltac:(lia)) as (Hw & Hx & Hy & Hz & _) end;
    repeat (apply Forall_cons_2); try done; by apply b64_char_spec.
Qed.

Lemma ascii_b64 s : ascii (b64_encode s).
Proof. eapply Forall_impl; [apply b64_encode_chars|]. by intros c []. Qed.

Lemma b64_decode_encode s : b64_decode (b64_encode s) = Some s.
Proof.
  unfold b64_decode. rewrite List.forallb_filter_id; [apply b64_quanta_encode|].
  apply forallb_Forall. eapply Forall_impl; [apply b64_encode_chars|].
  by intros c [-> _].
Qed.

(** Four characters for every three bytes, rounded up. *)
Lemma length_b64_encode s : len (b64_encode s) = 4 * ((len s + 2) / 3).
Proof.
  unfold len. induction s as [|a|a b|a b c s IH] using list_ind3; [done..|].
  cbn [b64_encode length]. rewrite !Nat2Z.inj_succ, IH.
  Z.div_mod_to_equations; lia.
Qed.

(** ** Codec laws *)
#[global] Arguments format_uint : simpl never.
#[global] Arguments format_int : simpl never.
#[global] Arguments parse_uint : simpl never.
#[global] Arguments parse_int : simpl never.
#[global] Arguments b64_encode : simpl never.
#[global] Arguments b64_decode : simpl never.
#[global] Arguments parse_json : simpl never.
#[global] Arguments print : simpl never.

Record codec_ok {T} (c : codec T) (P : T -> Prop) : Prop := {
  enc_canonical x : P x -> canonical (c_enc c x);
  dec_enc x old : P x -> c_dec c (c_enc c x) old = Some x
}.

Lemma bool_codec_ok : codec_ok bool_codec (fun _ => True).
Proof. by split. Qed.

Lemma canonical_uint z : 0 <= z -> canonical_num (format_uint z).
Proof. exists z. unfold format_int. by rewrite (proj2 (Z.ltb_ge _ _)) by done. Qed.

Lemma uint_codec_ok w : codec_ok (uint_codec w) (fun z => 0 <= z < 2 ^ w).
Proof.
  split; cbn.
  - intros z Hz. apply canonical_uint. lia.
  - intros z _ Hz. rewrite parse_format_uint by lia.
    by rewrite (proj2 (Z.ltb_lt _ _)) by lia.
Qed.

Lemma int64_codec_ok : codec_ok int64_codec in_s64.
Proof.
  unfold in_s64. split; cbn -[Z.pow].
  - intros z _. by exists z.
  - intros z _ Hz. rewrite parse_format_int.
    by rewrite (proj2 (Z.ltb_lt _ _)), (proj2 (Z.leb_le _ _)) by lia.
Qed.

Definition ascii_string (s : string) : Prop := ascii (bstr s).

Lemma string_codec_ok : codec_ok string_codec ascii_string.
Proof.
  split; cbn; [done|]. intros s _ _. unfold bstr.
  by rewrite String.string_of_list_byte_of_string.
Qed.

Lemma bytes_codec_ok : codec_ok bytes_codec (fun _ => True).
Proof.
  split; cbn.
  - intros [b|] _; [apply ascii_b64|done].
  - intros [b|] old _; [by rewrite b64_decode_encode|done].
Qed.

Definition opt_Forall {A} (P : A -> Prop) (s : option (list A)) : Prop :=
  match s with None => True | Some l => Forall P l end.

Lemma dec_elems_enc {T} (c : codec T) P l : codec_ok c P -> Forall P l ->
  forall olds, dec_elems c (map (c_enc c) l) olds = Some l.
Proof.
  intros Hc HF. induction HF as [|x l Hx HF IH]; intros olds; [done|].
  cbn [map dec_elems]. rewrite (dec_enc _ _ Hc) by done. by rewrite IH.
Qed.

Lemma slice_codec_ok {T} (c : codec T) P :
  codec_ok c P -> codec_ok (slice_codec c) (opt_Forall P).
Proof.
  intros Hc. split; cbn.
  - intros [l|] Hl; [|done]. cbn. induction Hl; cbn; [done|]. split; [|done].
    by apply (enc_canonical _ _ Hc).
  - intros [l|] old Hl; [|done]. by rewrite (dec_elems_enc c P).
Qed.

(** A struct: every field is encoded under its own name, and decoding the
    fields in order rebuilds the value. *)
Definition apply_fields {T} (fs : list (field T)) (x old : T) : option T :=
  foldl (fun acc f => match acc with Some y => f_dec f (f_enc f x) y | None => None end)
    (Some old) fs.

Lemma find_field_name {T} (fs : list (field T)) f :
  NoDup (map f_name fs) -> f ∈ fs -> find_field (f_name f) fs = Some f.
Proof.
  intros Hnd Hin. unfold find_field.
  assert (List.find (fun g => key_eqb (f_name g) (f_name f)) fs = Some f) as ->; [|done].
  induction fs as [|g fs IH]; [by apply not_elem_of_nil in Hin|].
  cbn in Hnd |- *. apply NoDup_cons in Hnd as [Hg Hnd].
  apply elem_of_cons in Hin as [->|Hin].
  - unfold key_eqb. by rewrite bool_decide_eq_true_2.
  - unfold key_eqb. rewrite bool_decide_eq_false_2; [by apply IH|].
    intros Heq. apply Hg. rewrite Heq. apply list_elem_of_In, in_map. by apply list_elem_of_In.
Qed.

Lemma foldl_fields_None {T} (fs : list (field T)) x :
  foldl (fun acc f => match acc with Some y => f_dec f (f_enc f x) y | None => None end)
    None fs = None.
Proof. induction fs; [done|]. cbn. done. Qed.

Lemma dec_members_fields {T} (fs0 fs : list (field T)) x old :
  NoDup (map f_name fs0) -> fs ⊆ fs0 ->
  dec_members fs0 (map (fun f => (f_name f, f_enc f x)) fs) old = apply_fields fs x old.
Proof.
  intros Hnd. unfold apply_fields.
  revert old. induction fs as [|f fs IH]; intros old Hsub; [done|].
  cbn [map dec_members foldl]. rewrite find_field_name by (done || set_solver).
  destruct (f_dec f (f_enc f x) old) as [y|].
  - apply IH. set_solver.
  - by rewrite foldl_fields_None.
Qed.

Lemma struct_codec_ok {T} (zero : T) (fs : list (field T)) P :
  bool_decide (NoDup (map f_name fs)) = true ->
  Forall (fun f => ascii (f_name f) /\ forall x, P x -> canonical (f_enc f x)) fs ->
  (forall x old, P x -> apply_fields fs x old = Some x) ->
  codec_ok (struct_codec zero fs) P.
Proof.
  intros Hnd%bool_decide_eq_true HF Ha. split; cbn.
  - intros x Hx. clear Hnd Ha. induction HF as [|f fs [Hn He] _ IH]; cbn; [done|].
    split; [split; [done|by apply He]|done].
  - intros x old Hx. by rewrite dec_members_fields, Ha.
Qed.

(** Discharge [struct_codec_ok] for a concrete struct, given the laws of its
    field codecs (hint database [codec]). *)
Create HintDb codec discriminated.
#[export] Hint Resolve bool_codec_ok uint_codec_ok int64_codec_ok string_codec_ok
  bytes_codec_ok slice_codec_ok : codec.

Lemma ascii_by_compute s : forallb (fun c => Z_of_byte c <? 128) s = true -> ascii s.
Proof.
  intros H%forallb_Forall. eapply Forall_impl; [exact H|]. cbn. intros c. apply Z.ltb_lt.
Qed.

Lemma dec_enc_rule {T} (c : codec T) P x old :
  codec_ok c P -> P x -> c_dec c (c_enc c x) old = Some x.
Proof. intros Hc. apply (dec_enc _ _ Hc). Qed.

Ltac field_side := cbn; unfold in_u8, in_u32, in_u64 in *; tauto || eauto.

Ltac field_law :=
  match goal with
  | |- context [c_dec ?c (c_enc ?c ?x) ?old] =>
      erewrite (dec_enc_rule c _ x old); [|eauto with codec|field_side]
  end.

Ltac solve_struct_codec :=
  apply struct_codec_ok;
  [ by vm_compute
  | repeat (apply Forall_cons_2; [split; [apply ascii_by_compute; by vm_compute|]|]);
    [..|apply Forall_nil_2]; intros x Hx; cbn [f_enc fld];
    (eapply enc_canonical; [eauto with codec|field_side])
  | intros x old Hx; unfold apply_fields; cbn [foldl f_enc f_dec fld];
    repeat (field_law; cbn [fmap option_fmap option_map foldl f_enc f_dec fld]);
    by destruct x ].

(** ** Laws of [Marshal] and [Unmarshal] *)
Class JSONLaws (T : Type) `{JSON T} := {
  wf_json : T -> Prop;
  json_ok : codec_ok json_codec wf_json
}.

Section marshal_laws.
Context {T : Type} `{JSONLaws T}.
Implicit Types x y : T.

Lemma UnmarshalInto_Marshal x b old :
  wf_json x -> Marshal x = Ok b -> UnmarshalInto b old = Ok x.
Proof.
  intros Hx [= <-]. unfold UnmarshalInto.
  rewrite parse_print by (by apply (enc_canonical _ _ json_ok)).
  by rewrite (dec_enc _ _ json_ok).
Qed.

Lemma Unmarshal_Marshal x b : wf_json x -> Marshal x = Ok b -> Unmarshal b = Ok x.
Proof. apply UnmarshalInto_Marshal. Qed.

Lemma Marshal_inj x y : wf_json x -> wf_json y -> Marshal x = Marshal y -> x = y.
Proof.
  intros Hx Hy He. destruct (Marshal x) as [b|] eqn:Ex; [|done].
  pose proof (Unmarshal_Marshal x b Hx Ex). pose proof (Unmarshal_Marshal y b Hy (eq_sym He)).
  congruence.
Qed.
End marshal_laws.

(** The bytes of a value; [Marshal] does not fail on the types of the program. *)
Definition bytes_of {A} `{JSON A} (x : A) : bytes := match Marshal x with Ok b => b | Err _ => [] end.
