(* ===== verification/JsonSize.v ===== *)
(** Sizes of encoded values: what fits in a payload, and what does not. *)
From S2P Require Import Prelude Json JsonLaws.
Open Scope Z_scope.

Lemma length_digits_rev fuel z : (length (digits_rev fuel z) <= fuel)%nat.
Proof. revert z. induction fuel as [|f IH]; intros z; cbn; [lia|]. destruct (z <? 10); cbn; [lia|]. specialize (IH (z / 10)). lia. Qed.

Lemma length_format_uint z : in_u64 z -> (length (format_uint z) <= 64)%nat.
Proof.
  intros Hz. unfold format_uint. rewrite length_rev.
  pose proof (length_digits_rev (S (Z.to_nat (Z.log2 z))) z).
  assert (Z.log2 z < 64); [|pose proof (Z.log2_nonneg z); lia].
  unfold in_u64 in Hz. destruct (decide (z = 0)) as [->|]; [done|]. apply Z.log2_lt_pow2; lia.
Qed.

Lemma length_format_int z : in_s64 z -> (length (format_int z) <= 65)%nat.
Proof.
  intros Hz. unfold in_s64 in Hz. unfold format_int. destruct (Z.ltb_spec z 0).
  - cbn [length]. pose proof (length_format_uint (- z)). unfold in_u64 in *. lia.
  - pose proof (length_format_uint z). unfold in_u64 in *. lia.
Qed.

Lemma length_quote_char c : (length (quote_char c) <= 6)%nat.
Proof. destruct c; vm_compute; lia. Qed.

Lemma length_quote_body s : ascii s -> (length (quote_body s) <= 6 * length s)%nat.
Proof.
  induction 1 as [|c s Hc Hs IH]; [done|]. cbn [quote_body]. rewrite (proj2 (Z.ltb_lt _ _) Hc), length_app.
  pose proof (length_quote_char c). cbn [length]. lia.
Qed.

Lemma length_bstr s : length (bstr s) = String.length s.
Proof.
  unfold bstr, String.list_byte_of_string. rewrite length_map.
  induction s as [|c s IH]; cbn; [done|]. by rewrite IH.
Qed.

(** Base64 needs no escapes. *)
Definition plain_char (c : byte) : bool := bool_decide (quote_char c = [c]) && (Z_of_byte c <? 128).

Lemma length_quote_plain s : Forall (fun c => plain_char c = true) s -> length (quote_body s) = length s.
Proof.
  induction 1 as [|c s Hc Hs IH]; [done|]. unfold plain_char in Hc. split_andb.
  cbn [quote_body]. rewrite (proj2 (Z.ltb_lt _ _)) by done. match goal with E : quote_char c = _ |- _ => rewrite E end.
  cbn. by rewrite IH.
Qed.

Lemma b64_char_plain n : 0 <= n < 64 -> plain_char (b64_char n) = true.
Proof.
  intros Hn. assert (forallb (fun n => plain_char (b64_char n)) (seqZ 0 64) = true) as HF by (by vm_compute).
  apply (proj1 (forallb_forall _ _) HF). apply list_elem_of_In, elem_of_seqZ. lia.
Qed.

Lemma b64_encode_plain s : Forall (fun c => plain_char c = true) (b64_encode s).
Proof.
  induction s as [|a|a b|a b c s IH] using list_ind3; unfold b64_encode; fold b64_encode;
    [done| |  |];
    pose proof (Z_of_byte_range a); try pose proof (Z_of_byte_range b);
    try pose proof (Z_of_byte_range c);
    repeat (apply Forall_cons_2); try done;
    apply b64_char_plain; (split; [|Z.div_mod_to_equations; lia]);
    try apply Z.mod_pos_bound; try apply Z.div_pos; lia.
Qed.

Lemma length_quote_b64 s : Z.of_nat (length (quote_body (b64_encode s))) = 4 * ((len s + 2) / 3).
Proof. rewrite length_quote_plain by apply b64_encode_plain. apply length_b64_encode. Qed.

Lemma quote_b64_32 s : length s = 32%nat -> length (quote_body (b64_encode s)) = 44%nat.
Proof. intros Hs. pose proof (length_quote_b64 s) as Hq. unfold len in Hq. rewrite Hs in Hq. apply Nat2Z.inj. exact Hq. Qed.

Lemma quote_b64_64 s : length s = 64%nat -> length (quote_body (b64_encode s)) = 88%nat.
Proof. intros Hs. pose proof (length_quote_b64 s) as Hq. unfold len in Hq. rewrite Hs in Hq. apply Nat2Z.inj. exact Hq. Qed.

(** An upper bound for the length of a printed value, without printing it. *)
Fixpoint json_size (j : json) : nat :=
  match j with
  | JNull => 4
  | JBool _ => 5
  | JNum lit => length lit
  | JStr s => 2 + length (quote_body s)
  | JArr l => 2 + List.list_sum (map (fun j => 1 + json_size j) l)
  | JObj m => 2 + List.list_sum (map (fun kv => 4 + length (quote_body (fst kv)) + json_size (snd kv)) m)
  end%nat.

Lemma length_quote s : length (quote s) = (2 + length (quote_body s))%nat.
Proof. unfold quote. cbn [length]. rewrite length_app. cbn. lia. Qed.

Lemma length_comma_sep l : (length (comma_sep l) <= List.list_sum (map (fun s => 1 + length s) l))%nat.
Proof.
  induction l as [|x [|y l] IH]; [done|cbn; lia|].
  change (comma_sep (x :: y :: l)) with (x ++ x2c :: comma_sep (y :: l)). rewrite length_app. cbn [length].
  cbn [map List.list_sum List.fold_right] in *. lia.
Qed.

Lemma list_sum_le {A} (f g : A -> nat) l : Forall (fun x => f x <= g x)%nat l ->
  (List.list_sum (map f l) <= List.list_sum (map g l))%nat.
Proof. induction 1 as [|x l Hx _ IH]; cbn; [done|]. unfold List.list_sum in *. lia. Qed.

Lemma length_print j : (length (print j) <= json_size j)%nat.
Proof.
  induction j as [|[]|lit|s|l IH|m IH] using json_ind_nested; cbn [json_size];
    [vm_compute; lia|vm_compute; lia|vm_compute; lia|done|..].
  - change (print (JStr s)) with (quote s). by rewrite length_quote.
  - change (print (JArr l)) with (x5b :: comma_sep (map print l) ++ [x5d]).
    cbn [length]. rewrite length_app. pose proof (length_comma_sep (map print l)) as Hc.
    rewrite map_map in Hc. cbn [length]. pose proof (list_sum_le (fun x => 1 + length (print x))%nat
      (fun j => 1 + json_size j)%nat l) as Hs. specialize (Hs ltac:(eapply Forall_impl; [exact IH|]; cbn; lia)). lia.
  - change (print (JObj m)) with (x7b :: comma_sep (map (fun kv => quote (fst kv) ++ x3a :: print (snd kv)) m) ++ [x7d]).
    cbn [length]. rewrite length_app. match goal with |- context [comma_sep ?l] => pose proof (length_comma_sep l) as Hc end.
    rewrite map_map in Hc. cbn [length]. match type of Hc with context [List.list_sum (map ?f m)] =>
      pose proof (list_sum_le f (fun kv => 4 + length (quote_body (fst kv)) + json_size (snd kv))%nat m) as Hs end.
    specialize (Hs ltac:(eapply Forall_impl; [exact IH|]; cbn -[quote]; intros [k v] Hv;
      rewrite length_app, length_quote; cbn in *; lia)). lia.
Qed.

Lemma Marshal_size {T} `{JSON T} (x : T) b : Marshal x = Ok b -> (length b <= json_size (c_enc json_codec x))%nat.
Proof. intros [= <-]. apply length_print. Qed.

(** Reduce the size of an encoded struct to those of its values. *)
Ltac size_of H :=
  lazy -[quote_body b64_encode format_uint format_int length Nat.add Nat.le bstr] in H;
  repeat match type of H with
  | context [quote_body (bstr (String.String ?a ?s))] =>
      let n := eval vm_compute in (length (quote_body (bstr (String.String a s)))) in
      change (length (quote_body (bstr (String.String a s)))) with n in H
  end.
