(* ===== verification/External.v ===== *)
(** Code the program calls but does not contain, as parameters with their
    documented behaviour: SHA3-256 (golang.org/x/crypto/sha3), Ed25519
    (crypto/ed25519), base58 (btcutil), the generic slice and map helpers of
    golang.org/x/exp, the order of a [range] over a map, and the bbolt
    key/value store.  Each has an operations class, a class of laws, and an
    executable instance in Module [Toy], which evaluates concrete inputs and
    shows that the laws can hold. *)
From S2P Require Import Prelude.
From stdpp Require Import sorting.
Open Scope Z_scope.

(** ** SHA3-256 *)
Class Sha3 := { Sum256 : bytes -> bytes }.

Class Sha3Laws `{Sha3} : Prop := {
  length_Sum256 x : length (Sum256 x) = 32%nat
}.

(** Two different strings with one digest, the first among the strings [X] that
    one party hashed and the second among the strings [Y] of another: what a
    security argument must rule out.  (Somewhere, collisions of a 32-byte
    digest exist, so what is hashed has to be named.) *)
Definition collision `{Sha3} (X Y : list bytes) : Prop :=
  exists x y, x ∈ X /\ y ∈ Y /\ x <> y /\ Sum256 x = Sum256 y.

Lemma collision_mono `{Sha3} X X' Y Y' : X ⊆ X' -> Y ⊆ Y' -> collision X Y -> collision X' Y'.
Proof. intros HX HY (x & y & Hx & Hy & Hne). exists x, y. split_and!; [by apply HX|by apply HY|apply Hne..]. Qed.

Lemma collision_here `{Sha3} x y X Y : x <> y -> Sum256 x = Sum256 y -> collision (x :: X) (y :: Y).
Proof. intros Hne He. exists x, y. split_and!; [by constructor|by constructor|done|done]. Qed.

(** A collision among some of the strings is one among all of them. *)
Ltac widen Hc := eapply collision_mono; [| |exact Hc]; clear; set_unfold; tauto.

(** ** Ed25519 *)
Class Ed25519 := {
  ed_keygen : bytes -> bytes * bytes;    (* seed -> private key, public key *)
  ed_sign : bytes -> bytes -> bytes;     (* private key, message *)
  ed_verify : bytes -> bytes -> bytes -> bool  (* public key, message, signature *)
}.

Class Ed25519Laws `{Ed25519} : Prop := {
  length_private seed : length (fst (ed_keygen seed)) = 64%nat;
  length_public seed : length (snd (ed_keygen seed)) = 32%nat;
  length_sign k m : length (ed_sign k m) = 64%nat;
  verify_sign seed m :
    ed_verify (snd (ed_keygen seed)) m (ed_sign (fst (ed_keygen seed)) m) = true
}.

(** [ed25519.Verify] and [ed25519.Sign] panic on a key of the wrong length. *)
Definition ed25519_Verify `{Ed25519} (pub msg sig : gobytes) : outcome bool :=
  if len (raw pub) =? 32 then Done (ed_verify (raw pub) (raw msg) (raw sig))
  else Panicked "ed25519: bad public key length".

Definition ed25519_Sign `{Ed25519} (priv msg : gobytes) : outcome gobytes :=
  if len (raw priv) =? 64 then Done (Some (ed_sign (raw priv) (raw msg)))
  else Panicked "ed25519: bad private key length".

(** ** Base58 *)
Class Base58 := { Encode : bytes -> string; Decode : string -> bytes }.

Class Base58Laws `{Base58} : Prop := {
  Decode_Encode b : Decode (Encode b) = b
}.

Lemma Encode_inj `{Base58Laws} a b : Encode a = Encode b -> a = b.
Proof. intros Heq. rewrite <- (Decode_Encode a), <- (Decode_Encode b). by rewrite Heq. Qed.

(** The length of a public key. *)
Abbreviation is_key := (fun pk : bytes => length pk = 32%nat).

(** ** golang.org/x/exp/slices *)
Definition strict_weak {A} (less : A -> A -> bool) : Prop :=
  (forall a, less a a = false)
  /\ (forall a b c, less a b = true -> less b c = true -> less a c = true)
  /\ (forall a b c, less a b = false -> less b c = false -> less a c = false).

Definition sorted_by {A} (less : A -> A -> bool) (l : list A) : Prop :=
  StronglySorted (fun a b => less b a = false) l.

Fixpoint index_from {A} (f : A -> bool) (s : list A) (i : Z) : Z :=
  match s with
  | [] => -1
  | x :: s' => if f x then i else index_from f s' (i + 1)
  end.

Class ExpSlices := {
  SortFunc : forall {A}, (A -> A -> bool) -> list A -> list A;
  ContainsFunc : forall {A}, list A -> (A -> bool) -> bool;
  IndexFunc : forall {A}, list A -> (A -> bool) -> Z;
  Delete : forall {A}, list A -> Z -> Z -> list A
}.

(** The sort is not documented to be stable: only the order is known. *)
Class ExpSlicesLaws `{ExpSlices} : Prop := {
  SortFunc_perm {A} (less : A -> A -> bool) l : SortFunc less l ≡ₚ l;
  SortFunc_sorted {A} (less : A -> A -> bool) l :
    strict_weak less -> sorted_by less (SortFunc less l);
  ContainsFunc_spec {A} (s : list A) f : ContainsFunc s f = existsb f s;
  IndexFunc_spec {A} (s : list A) f : IndexFunc s f = index_from f s 0;
  Delete_spec {A} (s : list A) i j :
    0 <= i <= j -> j <= len s -> Delete s i j = take (Z.to_nat i) s ++ drop (Z.to_nat j) s
}.

(** ** Map iteration: [range m] and [maps.Values] visit every entry once, in
    an order the language does not fix. *)
Class MapOrder := {
  map_range : forall {V}, gmap string V -> list (string * V);
  maps_Values : forall {V}, gmap string V -> list V
}.

Class MapOrderLaws `{MapOrder} : Prop := {
  map_range_perm {V} (m : gmap string V) : map_range m ≡ₚ map_to_list m;
  maps_Values_perm {V} (m : gmap string V) : maps_Values m ≡ₚ (map_to_list m).*2
}.

(** ** bbolt: buckets of key/value pairs.  [bolt_commit] is the error the
    commit of a read-write transaction returns, if any. *)
Class Bolt := {
  DB : Type;
  bolt_empty : DB;
  bolt_has_bucket : DB -> bytes -> bool;
  bolt_get : DB -> bytes -> bytes -> gobytes;
  bolt_put : DB -> bytes -> bytes -> bytes -> result DB;
  bolt_cursor : DB -> bytes -> list (bytes * bytes);
  bolt_create_bucket : DB -> bytes -> result DB;
  bolt_commit : DB -> option error
}.

Definition MaxKeySize : Z := 32768.
Definition MaxValueSize : Z := 2 ^ 31 - 2.

Class BoltLaws `{Bolt} : Prop := {
  bolt_empty_bucket b : bolt_has_bucket bolt_empty b = false;
  bolt_empty_get b k : bolt_get bolt_empty b k = None;
  bolt_get_put db db' b k v b' k' :
    bolt_put db b k v = Ok db' ->
    bolt_get db' b' k' = if decide (b = b' /\ k = k') then Some v else bolt_get db b' k';
  bolt_put_ok db b k v :
    bolt_has_bucket db b = true -> 0 < len k <= MaxKeySize -> len v <= MaxValueSize ->
    exists db', bolt_put db b k v = Ok db';
  bolt_put_bucket db db' b k v b' :
    bolt_put db b k v = Ok db' -> bolt_has_bucket db' b' = bolt_has_bucket db b';
  bolt_get_empty db b : bolt_get db b [] = None;
  bolt_cursor_spec db b k v : (k, v) ∈ bolt_cursor db b <-> bolt_get db b k = Some v;
  bolt_cursor_nodup db b : NoDup (bolt_cursor db b).*1;
  bolt_create_ok db b :
    bolt_has_bucket db b = false -> b <> [] ->
    exists db', bolt_create_bucket db b = Ok db'
      /\ (forall b', bolt_has_bucket db' b' = bool_decide (b = b') || bolt_has_bucket db b')
      /\ (forall b' k, bolt_get db' b' k = bolt_get db b' k)
}.

(** ** Executable instances *)
Module Toy.
(** A 16-bit checksum, spread over 32 bytes. *)
Definition hash (x : bytes) : bytes :=
  let h := fold_left (fun acc b => Z.land (acc * 33 + Z_of_byte b + 1) 0xffff) x 7 in
  replicate 30 (byte_of_Z h) ++ [byte_of_Z (Z.shiftr h 8); byte_of_Z h].

#[export] Instance sha3 : Sha3 := {| Sum256 := hash |}.
#[export] Instance sha3_laws : Sha3Laws.
Proof. by split. Qed.

Definition public (seed : bytes) : bytes := take 32 (seed ++ replicate 32 x00).

Lemma length_public_toy seed : length (public seed) = 32%nat.
Proof. unfold public. rewrite length_take, length_app, length_replicate. lia. Qed.

#[export] Instance ed25519 : Ed25519 := {|
  ed_keygen seed := (public seed ++ public seed, public seed);
  ed_sign k m := hash (drop 32 k ++ m) ++ hash (drop 32 k ++ m);
  ed_verify p m s := bool_decide (s = hash (p ++ m) ++ hash (p ++ m))
|}.
#[export] Instance ed25519_laws : Ed25519Laws.
Proof.
  split; cbn [ed_keygen ed_sign ed_verify ed25519 fst snd]; intros;
    rewrite ?length_app, ?length_public_toy; try done.
  apply bool_decide_eq_true.
  by rewrite drop_app_length' by (symmetry; apply length_public_toy).
Qed.

#[export] Instance base58 : Base58 := {|
  Encode := String.string_of_list_byte; Decode := String.list_byte_of_string
|}.
#[export] Instance base58_laws : Base58Laws.
Proof. split. apply String.list_byte_of_string_of_list_byte. Qed.

Fixpoint insert_by {A} (less : A -> A -> bool) (x : A) (l : list A) : list A :=
  match l with
  | [] => [x]
  | y :: l' => if less y x then y :: insert_by less x l' else x :: l
  end.
Definition sort_by {A} (less : A -> A -> bool) (l : list A) : list A :=
  foldr (insert_by less) [] l.

Lemma insert_by_perm {A} less (x : A) l : insert_by less x l ≡ₚ x :: l.
Proof.
  induction l as [|y l IH]; cbn; [done|]. destruct (less y x); [|done].
  rewrite IH. apply Permutation_swap.
Qed.

Lemma insert_by_sorted {A} less (x : A) l :
  strict_weak less -> sorted_by less l -> sorted_by less (insert_by less x l).
Proof.
  intros (Hirr & Htr & Hntr) Hs. induction Hs as [|y l Hl IH Hy]; cbn.
  - repeat constructor.
  - destruct (less y x) eqn:E.
    + constructor; [done|]. rewrite insert_by_perm. constructor; [|done].
      destruct (less x y) eqn:E'; [|done].
      by rewrite (Htr _ _ _ E E') in Hirr || (specialize (Htr _ _ _ E E'); rewrite Hirr in Htr).
    + repeat constructor; try done. eapply Forall_impl; [exact Hy|].
      cbn. intros z Hz. by apply (Hntr z y x).
Qed.

#[export] Instance exp_slices : ExpSlices := {|
  SortFunc := @sort_by;
  ContainsFunc _ s f := existsb f s;
  IndexFunc _ s f := index_from f s 0;
  Delete _ s i j := take (Z.to_nat i) s ++ drop (Z.to_nat j) s
|}.
#[export] Instance exp_slices_laws : ExpSlicesLaws.
Proof.
  split; cbn; try done.
  - intros A less l. induction l as [|x l IH]; cbn; [done|].
    by rewrite insert_by_perm, IH.
  - intros A less l Hw. induction l as [|x l IH]; cbn; [constructor|].
    by apply insert_by_sorted.
Qed.

#[export] Instance map_order : MapOrder := {|
  map_range _ m := map_to_list m; maps_Values _ m := (map_to_list m).*2
|}.
#[export] Instance map_order_laws : MapOrderLaws.
Proof. by split. Qed.

Definition db_bucket (db : gmap bytes (gmap bytes bytes)) (b : bytes) : gmap bytes bytes :=
  delete [] (default ∅ (db !! b)).

#[export] Instance bolt : Bolt := {|
  DB := gmap bytes (gmap bytes bytes);
  bolt_empty := ∅;
  bolt_has_bucket db b := bool_decide (is_Some (db !! b));
  bolt_get db b k := db_bucket db b !! k;
  bolt_put db b k v :=
    match db !! b with
    | None => Err "bucket not found"
    | Some m =>
        if len k =? 0 then Err "key required"
        else if MaxKeySize <? len k then Err "key too large"
        else if MaxValueSize <? len v then Err "value too large"
        else Ok (<[b := <[k := v]> m]> db)
    end;
  bolt_cursor db b := map_to_list (db_bucket db b);
  bolt_create_bucket db b :=
    if bool_decide (is_Some (db !! b)) then Err "bucket already exists"
    else if len b =? 0 then Err "bucket name required" else Ok (<[b := ∅]> db);
  bolt_commit _ := None
|}.

Lemma put_inv (db db' : gmap bytes (gmap bytes bytes)) b k v :
  bolt_put db b k v = Ok db' ->
  exists m, db !! b = Some m /\ k <> [] /\ db' = <[b := <[k := v]> m]> db.
Proof.
  cbn. destruct (db !! b) as [m|]; [|done].
  destruct (len k =? 0) eqn:E; [done|]. do 2 (case_match; [done|]).
  intros [= <-]. exists m. split_and!; [done| |done]. intros ->. by vm_compute in E.
Qed.

#[export] Instance bolt_laws : BoltLaws.
Proof.
  split.
  - done.
  - intros b k. cbn. unfold db_bucket. rewrite lookup_empty. apply lookup_delete_None.
    by right.
  - intros db db' b k v b' k' (m & Hm & Hk & ->)%put_inv. cbn. unfold db_bucket.
    destruct (decide (b = b')) as [<-|Hb].
    + rewrite lookup_insert_eq, Hm. cbn. destruct (decide (k = k')) as [<-|Hk'].
      * rewrite decide_True by done. rewrite lookup_delete_ne by done.
        apply lookup_insert_eq.
      * rewrite decide_False by tauto. destruct (decide ([] = k')) as [<-|].
        { by rewrite !lookup_delete_eq. }
        by rewrite !lookup_delete_ne, lookup_insert_ne.
    + rewrite lookup_insert_ne by done. by rewrite decide_False by (intros []; done).
  - cbn. intros db b k v [m Hm]%bool_decide_eq_true Hk Hv. rewrite Hm.
    rewrite (proj2 (Z.eqb_neq _ _)), !(proj2 (Z.ltb_ge _ _)) by lia. eauto.
  - intros db db' b k v b' (m & Hm & _ & ->)%put_inv. cbn.
    apply bool_decide_ext. rewrite lookup_insert_is_Some'.
    split; [intros [<-|]; [by rewrite Hm|done]|by right].
  - intros db b. cbn. unfold db_bucket. apply lookup_delete_eq.
  - intros db b k v. cbn. apply elem_of_map_to_list.
  - intros db b. cbn. apply NoDup_fst_map_to_list.
  - cbn. intros db b Hb%bool_decide_eq_false Hne.
    rewrite (bool_decide_eq_false_2 _ Hb).
    destruct (len b =? 0) eqn:E.
    { apply Z.eqb_eq in E. unfold len in E. by destruct b. }
    eexists. split_and!; [done|..].
    + intros b'. destruct (decide (b = b')) as [<-|Hbb].
      * by rewrite lookup_insert_eq, !bool_decide_eq_true_2 by eauto.
      * by rewrite lookup_insert_ne, (bool_decide_eq_false_2 (b = b')) by done.
    + intros b' k. unfold db_bucket. destruct (decide (b = b')) as [<-|Hbb].
      * rewrite lookup_insert_eq. apply eq_None_not_Some in Hb. by rewrite Hb.
      * by rewrite lookup_insert_ne.
Qed.
End Toy.
