(* ===== verification/Accounts.v ===== *)
(** Package [accounts]: account states with checked 64-bit balances
    (accounts/account.go). *)
From S2P Require Import Prelude Json JsonLaws JsonSize Common.
Open Scope Z_scope.

Record AccountState := mkAccountState { st_Nonce : Z; st_Balance : Z }.

#[export] Instance AccountState_eq_dec : EqDecision AccountState.
Proof. solve_decision. Defined.

Record Account := mkAccount {
  ac_PublicKey : gobytes;
  ac_State : AccountState;
  ac_Timestamp : Z
}.

#[export] Instance AccountState_json : JSON AccountState :=
  struct_codec (mkAccountState 0 0)
    [ fld "Nonce" st_Nonce (fun a x => mkAccountState a (st_Balance x)) (uint_codec 64);
      fld "Balance" st_Balance (fun a x => mkAccountState (st_Nonce x) a) (uint_codec 64) ].

(** The methods have pointer receivers: they return the updated state with
    their result. *)
Definition Subtract (amount : Z) (s : AccountState) : bool * AccountState :=
  if st_Balance s <? amount then (false, s)
  else (true, mkAccountState (st_Nonce s) (u64 (st_Balance s - amount))).

Definition Add (amount : Z) (s : AccountState) : bool * AccountState :=
  let max := u64 (GeneratorBalance - st_Balance s) in
  if max <? amount then (false, s)
  else (true, mkAccountState (st_Nonce s) (u64 (st_Balance s + amount))).

Definition CheckNonce (nonce : Z) (s : AccountState) : bool * AccountState :=
  let ok := st_Nonce s =? nonce in
  (ok, if ok then mkAccountState (u64 (st_Nonce s + 1)) (st_Balance s) else s).

Definition AccountState_ToBytes (s : AccountState) : result bytes := Marshal s.
Definition Account_ToBytes (a : Account) : result bytes := Marshal (ac_State a).
Definition Account_GetKey (a : Account) : result gobytes := Ok (ac_PublicKey a).
Definition Account_GetIndex (a : Account) : result bytes := ToHex Int64 (ac_Timestamp a).

(** ** Well-formed states: both fields are 64-bit, and no account holds more
    than was ever issued. *)
Definition wf_state (s : AccountState) : Prop :=
  in_u64 (st_Nonce s) /\ 0 <= st_Balance s <= GeneratorBalance.

Definition zero_state : AccountState := mkAccountState 0 0.

(** ** Lemmas *)
Definition u64_state (s : AccountState) : Prop :=
  in_u64 (st_Nonce s) /\ in_u64 (st_Balance s).

#[export] Program Instance AccountState_json_laws : JSONLaws AccountState :=
  {| wf_json := u64_state |}.
Next Obligation.
  unfold u64_state, in_u64. solve_struct_codec.
Qed.

(** An encoded state is small. *)
Lemma length_state_bytes s b : u64_state s -> Marshal s = Ok b -> (length b < 200)%nat.
Proof.
  intros [Hn Hb] [= <-]. unfold json_codec, AccountState_json, print. cbn -[format_uint].
  rewrite !length_app. cbn [length]. pose proof (length_format_uint _ Hn).
  pose proof (length_format_uint _ Hb). lia.
Qed.

Lemma wf_state_u64 s : wf_state s -> u64_state s.
Proof. unfold wf_state, u64_state, in_u64, GeneratorBalance. lia. Qed.

Lemma wf_zero : wf_state zero_state.
Proof. unfold wf_state, in_u64, GeneratorBalance. cbn. lia. Qed.

Lemma Subtract_spec amount s : wf_state s -> 0 <= amount ->
  Subtract amount s
  = if decide (amount <= st_Balance s)
    then (true, mkAccountState (st_Nonce s) (st_Balance s - amount)) else (false, s).
Proof.
  intros [_ Hb] Ha. unfold Subtract. case_decide.
  - rewrite (proj2 (Z.ltb_ge _ _)) by lia. rewrite u64_small; [done|].
    unfold in_u64, GeneratorBalance in *. lia.
  - by rewrite (proj2 (Z.ltb_lt _ _)) by lia.
Qed.

Lemma Add_spec amount s : wf_state s -> 0 <= amount ->
  Add amount s
  = if decide (st_Balance s + amount <= GeneratorBalance)
    then (true, mkAccountState (st_Nonce s) (st_Balance s + amount)) else (false, s).
Proof.
  intros [_ Hb] Ha. unfold Add, GeneratorBalance in *.
  rewrite (u64_small (_ - _)) by (unfold in_u64; lia). case_decide.
  - rewrite (proj2 (Z.ltb_ge _ _)) by lia. rewrite u64_small; [done|].
    unfold in_u64. lia.
  - by rewrite (proj2 (Z.ltb_lt _ _)) by lia.
Qed.

Lemma CheckNonce_fst nonce s : fst (CheckNonce nonce s) = (st_Nonce s =? nonce).
Proof. done. Qed.

Lemma CheckNonce_wf nonce s : wf_state s -> wf_state (snd (CheckNonce nonce s)).
Proof.
  intros [Hn Hb]. unfold CheckNonce. cbn. destruct (_ =? _); [|done].
  split; [apply u64_range|done].
Qed.

Lemma CheckNonce_balance nonce s : st_Balance (snd (CheckNonce nonce s)) = st_Balance s.
Proof. unfold CheckNonce. cbn. by destruct (_ =? _). Qed.

(** * Properties *)

(** C40: moving an amount between two well-formed states either fails and
    leaves the failing state as it was, exactly when the funds are too small
    or the receiver would exceed the issued total, or conserves the sum of
    the balances; every resulting state is well-formed, without wrap-around. *)
Theorem Subtract_Add_correct amount s1 s2 :
  wf_state s1 -> wf_state s2 -> in_u64 amount ->
  let '(ok1, s1') := Subtract amount s1 in
  let '(ok2, s2') := Add amount s2 in
  wf_state s1' /\ wf_state s2'
  /\ (ok1 = true <-> amount <= st_Balance s1)
  /\ (ok2 = true <-> st_Balance s2 + amount <= GeneratorBalance)
  /\ (ok1 = false -> s1' = s1) /\ (ok2 = false -> s2' = s2)
  /\ (ok1 = true -> ok2 = true ->
      st_Balance s1' + st_Balance s2' = st_Balance s1 + st_Balance s2
      /\ st_Nonce s1' = st_Nonce s1 /\ st_Nonce s2' = st_Nonce s2).
Proof.
  intros W1 W2 [Ha _]. rewrite (Subtract_spec _ _ W1 Ha), (Add_spec _ _ W2 Ha).
  pose proof W1 as [N1 B1]. pose proof W2 as [N2 B2].
  repeat case_decide; unfold wf_state; cbn; intuition (done || lia).
Qed.

Lemma Subtract_Add_correct_witness :
  let s1 := mkAccountState 4 100 in let s2 := mkAccountState 9 7 in
  wf_state s1 /\ wf_state s2 /\ wf_state (snd (Subtract 30 s1)) /\ wf_state (snd (Add 30 s2)).
Proof.
  assert (wf_state (mkAccountState 4 100)) as W1 by (unfold wf_state, in_u64, GeneratorBalance; cbn; lia).
  assert (wf_state (mkAccountState 9 7)) as W2 by (unfold wf_state, in_u64, GeneratorBalance; cbn; lia).
  assert (in_u64 30) as Ha by (unfold in_u64; lia).
  destruct (Subtract_Add_correct 30 _ _ W1 W2 Ha) as (W3 & W4 & _).
  split; [exact W1|]. split; [exact W2|]. split; [exact W3|exact W4].
Defined.

(** [CheckNonce] accepts the expected nonce exactly once: it moves the
    counter on (modulo [2^64]) when it accepts and only then, it never
    touches the balance, and the same nonce is refused the next time. *)
Theorem CheckNonce_correct nonce s :
  wf_state s ->
  let '(ok, s') := CheckNonce nonce s in
  (ok = true <-> st_Nonce s = nonce)
  /\ st_Balance s' = st_Balance s /\ wf_state s'
  /\ st_Nonce s' = (if ok then u64 (nonce + 1) else st_Nonce s)
  /\ (ok = true -> fst (CheckNonce nonce s') = false).
Proof.
  intros Hwf. pose proof (CheckNonce_wf nonce s Hwf) as Hw. pose proof (CheckNonce_balance nonce s) as Hb.
  destruct (CheckNonce nonce s) as [ok s'] eqn:E. cbn [snd] in *. unfold CheckNonce in *.
  destruct (st_Nonce s =? nonce) eqn:En; injection E as <- <-.
  - apply Z.eqb_eq in En. subst nonce. split_and!; try done. intros _. cbn.
    destruct Hwf as [Hn _]. unfold in_u64, u64 in *. apply Z.eqb_neq.
    destruct (decide (st_Nonce s + 1 < 2 ^ 64)).
    + rewrite Z.mod_small; lia.
    + replace (st_Nonce s + 1) with (1 * 2 ^ 64) by lia. rewrite Z_mod_mult. lia.
  - apply Z.eqb_neq in En. by split_and!.
Qed.

Lemma CheckNonce_correct_witness :
  wf_state (mkAccountState (2 ^ 64 - 1) 5)
  /\ fst (CheckNonce (2 ^ 64 - 1) (snd (CheckNonce (2 ^ 64 - 1) (mkAccountState (2 ^ 64 - 1) 5)))) = false.
Proof.
  assert (wf_state (mkAccountState (2 ^ 64 - 1) 5)) as W by (unfold wf_state, in_u64, GeneratorBalance; cbn; lia).
  split; [exact W|]. destruct (CheckNonce_correct (2 ^ 64 - 1) _ W) as (_ & _ & _ & _ & Hn).
  apply Hn. reflexivity.
Defined.
