(* ===== verification/Merkle.v ===== *)
(** Package [common/merkle]: bottom-up Merkle trees over SHA3-256
    (common/merkle/merkle_tree.go). *)
From S2P Require Import Prelude Common External.
Open Scope Z_scope.

#[warnings="-automation"]
Inductive MerkleNode : Type :=
| mkMerkleNode (Left Right : option MerkleNode) (Data : gobytes).

Definition Data (n : MerkleNode) : gobytes := match n with mkMerkleNode _ _ d => d end.

Record MerkleTree := mkMerkleTree { RootNode : option MerkleNode }.

Section merkle.
Context `{Sha3}.

(** A nil [left] or [right] with the other one present is dereferenced. *)
Definition NewMerkleNode (left right : option MerkleNode) (data : gobytes)
  : outcome MerkleNode :=
  match left, right with
  | None, None => Done (mkMerkleNode left right (Some (Sum256 (raw data))))
  | Some l, Some r =>
      let prevHash := raw (Data l) ++ raw (Data r) in
      Done (mkMerkleNode left right (Some (Sum256 prevHash)))
  | _, _ => Panicked "nil pointer dereference"
  end.

(** One pass of the [for j] loop: pairs up [level[j]] and [level[j+1]]. *)
Fixpoint newLevel (level : list (option MerkleNode)) : outcome (list (option MerkleNode)) :=
  match level with
  | [] => Done []
  | [_] => Panicked "index out of range"
  | a :: b :: level' =>
      let^ n := NewMerkleNode a b None in
      let^ r := newLevel level' in
      Done (Some n :: r)
  end.

(** The [for len(level) > 1] loop, then [level[0]].  A pass halves the
    level, so [length level] passes are enough. *)
Fixpoint levels (fuel : nat) (level : list (option MerkleNode)) : outcome MerkleTree :=
  match level with
  | [] => Panicked "index out of range"
  | [n] => Done (mkMerkleTree n)
  | _ => match fuel with
         | O => Blocked "levels: out of fuel"
         | S fuel' => let^ l := newLevel level in levels fuel' l
         end
  end.

Fixpoint leaf_level (data : list gobytes) : outcome (list (option MerkleNode)) :=
  match data with
  | [] => Done []
  | bs :: data' =>
      let^ n := NewMerkleNode None None bs in
      let^ r := leaf_level data' in
      Done (Some n :: r)
  end.

Definition NewMerkleTreeFromRaw (data : list gobytes) : outcome (result MerkleTree) :=
  if negb (IsPowerOf2 (len data))
  then Done (Err "data length has to be power of 2")
  else
    let^ level := leaf_level data in
    let^ t := levels (length level) level in
    Done (Ok t).

Definition NewMerkleTreeFromNodes (data : list (option MerkleNode)) : outcome MerkleTree :=
  levels (length data) data.

(** ** Reference definition: the hash of a perfect binary tree, top-down *)
Fixpoint tree_hash (depth : nat) (leaves : list bytes) : bytes :=
  match depth with
  | O => default [] (head leaves)
  | S d => Sum256 (tree_hash d (take (2 ^ d) leaves) ++ tree_hash d (drop (2 ^ d) leaves))
  end.

(** The strings hashed at the inner nodes, and those hashed in all for a list
    of items. *)
Fixpoint tree_inputs (depth : nat) (leaves : list bytes) : list bytes :=
  match depth with
  | O => []
  | S d =>
      let l := take (2 ^ d) leaves in
      let r := drop (2 ^ d) leaves in
      (tree_hash d l ++ tree_hash d r) :: tree_inputs d l ++ tree_inputs d r
  end.

Definition merkle_inputs (data : list gobytes) : list bytes :=
  map raw data
  ++ tree_inputs (Nat.log2 (length data)) (map (fun bs => Sum256 (raw bs)) data).

(** ** Lemmas *)
Definition node_hash (o : option MerkleNode) : bytes :=
  match o with Some n => raw (Data n) | None => [] end.

Definition all_nodes (l : list (option MerkleNode)) : Prop := Forall is_Some l.

(** The hashes of the level above. *)
Fixpoint pair_hashes (hs : list bytes) : list bytes :=
  match hs with
  | a :: b :: hs' => Sum256 (a ++ b) :: pair_hashes hs'
  | _ => []
  end.

Lemma newLevel_spec k : forall level, length level = (2 * k)%nat -> all_nodes level ->
  exists l, newLevel level = Done l /\ length l = k /\ all_nodes l
    /\ map node_hash l = pair_hashes (map node_hash level).
Proof.
  induction k as [|k IH]; intros level Hl Hn.
  - destruct level; [|cbn in Hl; lia]. exists []. by split_and!.
  - destruct level as [|a [|b level]]; try (cbn in Hl; lia).
    inversion Hn as [|?? [na ->] Hn']; subst. inversion Hn' as [|?? [nb ->] Hn'']; subst.
    destruct (IH level) as (l & Hnew & Hlen & Hall & Hh); [cbn in Hl; lia|done|].
    cbn. rewrite Hnew. eexists. split_and!; [done|cbn; lia|by constructor; eauto|].
    cbn. by rewrite Hh.
Qed.

Lemma pair_hashes_app l1 l2 n : length l1 = (2 * n)%nat ->
  pair_hashes (l1 ++ l2) = pair_hashes l1 ++ pair_hashes l2.
Proof.
  revert l1. induction n as [|n IH]; intros l1 Hl.
  - by destruct l1; [|cbn in Hl; lia].
  - destruct l1 as [|a [|b l1]]; try (cbn in Hl; lia). cbn. rewrite IH; [done|].
    cbn in Hl. lia.
Qed.

Lemma length_pair_hashes l n : length l = (2 * n)%nat -> length (pair_hashes l) = n.
Proof.
  revert l. induction n as [|n IH]; intros l Hl.
  - by destruct l; [|cbn in Hl; lia].
  - destruct l as [|a [|b l]]; try (cbn in Hl; lia). cbn. rewrite IH; [done|].
    cbn in Hl. lia.
Qed.

(** Hashing one level bottom-up or the whole tree top-down is the same. *)
Lemma tree_hash_pairs d : forall hs, length hs = (2 ^ S d)%nat ->
  tree_hash (S d) hs = tree_hash d (pair_hashes hs).
Proof.
  induction d as [|d IH]; intros hs Hl.
  - by destruct hs as [|a [|b [|c hs]]]; try (cbn in Hl; lia).
  - assert (length (take (2 ^ S d) hs) = 2 ^ S d)%nat as Ht
      by (rewrite length_take; cbn in *; lia).
    assert (length (drop (2 ^ S d) hs) = 2 ^ S d)%nat as Hd
      by (rewrite length_drop; cbn in *; lia).
    change (tree_hash (S (S d)) hs) with
      (Sum256 (tree_hash (S d) (take (2 ^ S d) hs) ++ tree_hash (S d) (drop (2 ^ S d) hs))).
    rewrite (IH _ Ht), (IH _ Hd).
    rewrite <- (take_drop (2 ^ S d) hs) at 3.
    rewrite (pair_hashes_app _ _ (2 ^ d)) by (rewrite Ht; cbn; lia).
    assert (length (pair_hashes (take (2 ^ S d) hs)) = 2 ^ d)%nat as Hp
      by (apply length_pair_hashes; rewrite Ht; cbn; lia).
    cbn [tree_hash].
    by rewrite <- Hp, take_app_length, drop_app_length.
Qed.

Lemma pow2_ge d : (d < 2 ^ d)%nat.
Proof. apply Nat.pow_gt_lin_r. lia. Qed.

Lemma levels_spec d : forall level fuel,
  length level = (2 ^ d)%nat -> (d <= fuel)%nat -> all_nodes level ->
  exists n, levels fuel level = Done (mkMerkleTree (Some n))
    /\ raw (Data n) = tree_hash d (map node_hash level).
Proof.
  induction d as [|d IH]; intros level fuel Hl Hf Hn.
  - destruct level as [|a [|]]; try (cbn in Hl; lia).
    inversion Hn as [|?? [n ->]]; subst. exists n. by destruct fuel.
  - destruct fuel as [|fuel]; [lia|].
    destruct (newLevel_spec (2 ^ d) level Hl Hn) as (l & Hnew & Hlen & Hall & Hh).
    destruct (IH l fuel Hlen ltac:(lia) Hall) as (n & Hlev & Hd).
    exists n. split.
    + pose proof (pow2_ge d).
      destruct level as [|a [|b level]]; try (cbn in Hl; lia).
      cbn [levels]. rewrite Hnew. done.
    + rewrite Hd, Hh, tree_hash_pairs; [done|]. by rewrite length_map.
Qed.

Lemma leaf_level_spec data :
  exists l, leaf_level data = Done l /\ length l = length data /\ all_nodes l
    /\ map node_hash l = map (fun bs => Sum256 (raw bs)) data.
Proof.
  induction data as [|bs data (l & Hl & Hlen & Hall & Hh)]; cbn.
  - exists []. split_and!; [done|done|constructor|done].
  - rewrite Hl. eexists. split_and!; [done|cbn; lia|by constructor; eauto|].
    cbn. by rewrite Hh.
Qed.

Lemma NewMerkleTreeFromNodes_spec d level :
  length level = (2 ^ d)%nat -> all_nodes level ->
  exists n, NewMerkleTreeFromNodes level = Done (mkMerkleTree (Some n))
    /\ raw (Data n) = tree_hash d (map node_hash level).
Proof.
  intros Hl Hn. apply levels_spec; [done| |done]. rewrite Hl. pose proof (pow2_ge d). lia.
Qed.

Lemma NewMerkleTreeFromRaw_spec d data :
  length data = (2 ^ d)%nat -> (d < 63)%nat ->
  exists n, NewMerkleTreeFromRaw data = Done (Ok (mkMerkleTree (Some n)))
    /\ raw (Data n) = tree_hash d (map (fun bs => Sum256 (raw bs)) data).
Proof.
  intros Hl Hd. unfold NewMerkleTreeFromRaw, len. rewrite Hl, Nat2Z.inj_pow.
  rewrite IsPowerOf2_pow2 by lia. cbn [negb].
  destruct (leaf_level_spec data) as (l & -> & Hlen & Hall & Hh). cbn [outcome_bind].
  rewrite Hlen, Hl. rewrite Hl in Hlen.
  destruct (levels_spec d l (2 ^ d) Hlen) as (n & -> & Hn); [|done|].
  - pose proof (pow2_ge d). lia.
  - exists n. by rewrite <- Hh.
Qed.

Context `{!Sha3Laws}.

Lemma length_tree_hash d l : length l = (2 ^ d)%nat ->
  Forall (fun h => length h = 32%nat) l -> length (tree_hash d l) = 32%nat.
Proof.
  destruct d as [|d]; intros Hl Hf; cbn; [|apply length_Sum256].
  destruct l as [|h l]; [cbn in Hl; lia|]. by inversion Hf.
Qed.

Lemma leaf_hashes_length (data : list gobytes) :
  Forall (fun h => length h = 32%nat) (map (fun bs => Sum256 (raw bs)) data).
Proof. apply Forall_map, Forall_true. intros. apply length_Sum256. Qed.

(** Equal roots: equal leaves, or two hashed strings collide. *)
Lemma tree_hash_binding d : forall l1 l2,
  length l1 = (2 ^ d)%nat -> length l2 = (2 ^ d)%nat ->
  Forall (fun h => length h = 32%nat) l1 -> Forall (fun h => length h = 32%nat) l2 ->
  tree_hash d l1 = tree_hash d l2 -> l1 = l2 \/ collision (tree_inputs d l1) (tree_inputs d l2).
Proof.
  induction d as [|d IH]; intros l1 l2 Hl1 Hl2 Hf1 Hf2 He.
  - destruct l1 as [|a [|]], l2 as [|b [|]]; try (cbn in *; lia). cbn in He. left. by subst.
  - cbn [tree_hash] in He.
    assert (Hspl : forall l : list bytes, length l = (2 ^ S d)%nat ->
      length (take (2 ^ d) l) = (2 ^ d)%nat /\ length (drop (2 ^ d) l) = (2 ^ d)%nat).
    { intros l Hl. rewrite length_take, length_drop. cbn in Hl. lia. }
    destruct (Hspl l1 Hl1) as [Ht1 Hd1], (Hspl l2 Hl2) as [Ht2 Hd2].
    pose proof (Forall_take _ (2 ^ d) l1 Hf1). pose proof (Forall_drop _ (2 ^ d) l1 Hf1).
    pose proof (Forall_take _ (2 ^ d) l2 Hf2). pose proof (Forall_drop _ (2 ^ d) l2 Hf2).
    match type of He with Sum256 ?a = Sum256 ?b => destruct (decide (a = b)) as [Ha|Ha] end;
      [|right; by apply collision_here].
    apply app_inj_1 in Ha as [Ha Hb]; [|by rewrite !length_tree_hash].
    destruct (IH _ _ Ht1 Ht2 ltac:(done) ltac:(done) Ha) as [E1|Hc].
    2:{ right. cbn [tree_inputs]. widen Hc. }
    destruct (IH _ _ Hd1 Hd2 ltac:(done) ltac:(done) Hb) as [E2|Hc].
    2:{ right. cbn [tree_inputs]. widen Hc. }
    left. rewrite <- (take_drop (2 ^ d) l1), <- (take_drop (2 ^ d) l2). by rewrite E1, E2.
Qed.

Lemma leaf_hash_binding (d1 d2 : list gobytes) :
  map (fun bs => Sum256 (raw bs)) d1 = map (fun bs => Sum256 (raw bs)) d2 ->
  map raw d1 = map raw d2 \/ collision (map raw d1) (map raw d2).
Proof.
  revert d2. induction d1 as [|a d1 IH]; intros [|b d2] He; try done; [by left|].
  cbn in He. injection He as He1 He2. destruct (IH _ He2) as [E|Hc].
  2:{ right. cbn [map]. widen Hc. }
  destruct (decide (raw a = raw b)) as [Hab|]; [|right; by apply collision_here].
  left. cbn. by rewrite Hab, E.
Qed.

(** The root of a tree over hashed items commits to the items. *)
Lemma merkle_binding d (d1 d2 : list gobytes) :
  length d1 = (2 ^ d)%nat -> length d2 = (2 ^ d)%nat ->
  tree_hash d (map (fun bs => Sum256 (raw bs)) d1) = tree_hash d (map (fun bs => Sum256 (raw bs)) d2) ->
  map raw d1 = map raw d2 \/ collision (merkle_inputs d1) (merkle_inputs d2).
Proof.
  intros L1 L2 He. unfold merkle_inputs. rewrite L1, L2, Nat.log2_pow2 by lia.
  apply tree_hash_binding in He as [He|Hc];
    [|right|by rewrite length_map|by rewrite length_map|apply leaf_hashes_length..].
  - destruct (leaf_hash_binding _ _ He) as [|Hc]; [by left|right].
    widen Hc.
  - widen Hc.
Qed.
End merkle.

Lemma pow2_length {A} (l : list A) : len l < 2 ^ 63 -> IsPowerOf2 (len l) = true ->
  exists d, length l = (2 ^ d)%nat /\ (d < 63)%nat.
Proof.
  intros Hlen E. apply IsPowerOf2_iff in E as [(k & Hk & Hd)|Hneg];
    [|unfold len in *; lia|unfold len, in_s64 in *; lia].
  exists (Z.to_nat k). split; [|lia].
  apply Nat2Z.inj. rewrite Nat2Z.inj_pow, Z2Nat.id by lia. exact Hd.
Qed.

(** * Properties *)
Section merkle_properties.
Context `{Sha3}.

(** C39: [NewMerkleTreeFromRaw] builds, for a number of items that is a power
    of two, the tree whose root is the top-down hash of the perfect binary
    tree over the hashed items, and refuses any other number of items; it
    neither panics nor runs for ever. *)
Theorem NewMerkleTreeFromRaw_correct data : len data < 2 ^ 63 ->
  (exists d n, length data = (2 ^ d)%nat
     /\ NewMerkleTreeFromRaw data = Done (Ok (mkMerkleTree (Some n)))
     /\ raw (Data n) = tree_hash d (map (fun bs => Sum256 (raw bs)) data))
  \/ ((forall d, length data <> (2 ^ d)%nat)
      /\ exists e, NewMerkleTreeFromRaw data = Done (Err e)).
Proof.
  intros Hlen. destruct (IsPowerOf2 (len data)) eqn:E.
  - left. destruct (pow2_length _ Hlen E) as (d & Hl & Hd).
    destruct (NewMerkleTreeFromRaw_spec d data Hl Hd) as (n & Hn & Hh). eauto.
  - right. split.
    + intros d Hd. assert (d < 63)%nat.
      { apply (Nat.pow_lt_mono_r_iff 2); [lia|]. unfold len in Hlen.
        apply Nat2Z.inj_lt. rewrite <- Hd, Nat2Z.inj_pow. lia. }
      unfold len in E. rewrite Hd, Nat2Z.inj_pow, IsPowerOf2_pow2 in E by lia. done.
    + unfold NewMerkleTreeFromRaw. rewrite E. eauto.
Qed.

(** The root commits to the items: two lists of the same length with one
    root are the same lists, or two of the strings hashed for them collide. *)
Theorem NewMerkleTreeFromRaw_binding `{!Sha3Laws} d1 d2 n1 n2 :
  length d1 = length d2 -> len d1 < 2 ^ 63 ->
  NewMerkleTreeFromRaw d1 = Done (Ok (mkMerkleTree (Some n1))) ->
  NewMerkleTreeFromRaw d2 = Done (Ok (mkMerkleTree (Some n2))) ->
  raw (Data n1) = raw (Data n2) ->
  map raw d1 = map raw d2 \/ collision (merkle_inputs d1) (merkle_inputs d2).
Proof.
  intros Hl Hmax H1 H2 He. destruct (IsPowerOf2 (len d1)) eqn:E.
  2:{ unfold NewMerkleTreeFromRaw in H1. by rewrite E in H1. }
  destruct (pow2_length _ Hmax E) as (d & Hd & Hd63).
  destruct (NewMerkleTreeFromRaw_spec d d1 Hd Hd63) as (m1 & Hm1 & Hh1).
  destruct (NewMerkleTreeFromRaw_spec d d2) as (m2 & Hm2 & Hh2); [congruence|done|].
  assert (m1 = n1 /\ m2 = n2) as [-> ->] by (split; congruence).
  rewrite Hh1, Hh2 in He. apply (merkle_binding d); [done|congruence|exact He].
Qed.

(** Leaves and inner nodes are hashed alike: the tree over two items
    that spell out the inner hashes of a four-item tree has its root. *)
Theorem NewMerkleTreeFromRaw_second_preimage (a b c d : gobytes) :
  let s (x : gobytes) := Sum256 (raw x) in
  exists n4 n2,
    NewMerkleTreeFromRaw [a; b; c; d] = Done (Ok (mkMerkleTree (Some n4)))
    /\ NewMerkleTreeFromRaw [Some (s a ++ s b); Some (s c ++ s d)]
       = Done (Ok (mkMerkleTree (Some n2)))
    /\ Data n4 = Data n2.
Proof. eexists _, _. split_and!; reflexivity. Qed.
End merkle_properties.

Section merkle_witnesses.
Import Toy.

Lemma NewMerkleTreeFromRaw_correct_witness :
  len [Some [x01]; Some [x02]; Some [x03]; None] < 2 ^ 63
  /\ exists n, NewMerkleTreeFromRaw [Some [x01]; Some [x02]; Some [x03]; None]
               = Done (Ok (mkMerkleTree (Some n))).
Proof.
  assert (len [Some [x01]; Some [x02]; Some [x03]; None] < 2 ^ 63) as Hl by done.
  split; [exact Hl|].
  destruct (NewMerkleTreeFromRaw_correct _ Hl) as [(d & n & _ & Hn & _)|[Hd _]].
  - exists n. exact Hn.
  - destruct (Hd 2%nat eq_refl).
Defined.

Lemma NewMerkleTreeFromRaw_binding_witness :
  let d1 := [None; Some [x02]] in let d2 := [Some []; Some [x02]] in
  exists n1 n2, NewMerkleTreeFromRaw d1 = Done (Ok (mkMerkleTree (Some n1)))
    /\ NewMerkleTreeFromRaw d2 = Done (Ok (mkMerkleTree (Some n2)))
    /\ (map raw d1 = map raw d2 \/ collision (merkle_inputs d1) (merkle_inputs d2)).
Proof.
  eexists _, _. split; [reflexivity|]. split; [reflexivity|].
  eapply (NewMerkleTreeFromRaw_binding [None; Some [x02]] [Some []; Some [x02]] _ _ eq_refl);
    [by vm_compute|reflexivity..].
Defined.
End merkle_witnesses.
