(* ===== verification/Txs.v ===== *)
(** Packages [txs], [accounts/keys] and [accounts/wallets]: transactions,
    bundles, signing keys and wallets (txs/transaction.go, txs/bundle.go,
    accounts/keys/keypair.go, accounts/wallets/wallet.go). *)
From S2P Require Import Prelude Json JsonLaws Common External Merkle.
Open Scope Z_scope.

(** ** Transactions *)
Record TransactionData := mkTransactionData {
  td_Data : gobytes;
  td_PublicKey : gobytes;
  td_Nonce : Z;
  td_Signature : gobytes;
  td_Timestamp : Z
}.

Record Transaction := mkTransaction {
  tx_Hash : gobytes;
  tx_InnerData : TransactionData;
  tx_Status : bool
}.

#[export] Instance TransactionData_json : JSON TransactionData :=
  struct_codec (mkTransactionData None None 0 None 0)
    [ fld "Data" td_Data (fun a x => mkTransactionData a (td_PublicKey x) (td_Nonce x)
        (td_Signature x) (td_Timestamp x)) bytes_codec;
      fld "PublicKey" td_PublicKey (fun a x => mkTransactionData (td_Data x) a (td_Nonce x)
        (td_Signature x) (td_Timestamp x)) bytes_codec;
      fld "Nonce" td_Nonce (fun a x => mkTransactionData (td_Data x) (td_PublicKey x) a
        (td_Signature x) (td_Timestamp x)) (uint_codec 64);
      fld "Signature" td_Signature (fun a x => mkTransactionData (td_Data x) (td_PublicKey x)
        (td_Nonce x) a (td_Timestamp x)) bytes_codec;
      fld "Timestamp" td_Timestamp (fun a x => mkTransactionData (td_Data x) (td_PublicKey x)
        (td_Nonce x) (td_Signature x) a) int64_codec ].

#[export] Instance Transaction_json : JSON Transaction :=
  struct_codec (mkTransaction None (c_zero TransactionData_json) false)
    [ fld "Hash" tx_Hash (fun a x => mkTransaction a (tx_InnerData x) (tx_Status x)) bytes_codec;
      fld "InnerData" tx_InnerData (fun a x => mkTransaction (tx_Hash x) a (tx_Status x))
        TransactionData_json;
      fld "Status" tx_Status (fun a x => mkTransaction (tx_Hash x) (tx_InnerData x) a)
        bool_codec ].

(** [now] is [time.Now().Unix()]. *)
Definition NewTransaction (now : Z) (data : gobytes) : Transaction :=
  mkTransaction None (mkTransactionData data None 0 None now) false.

Definition CheckContents (tx : Transaction) : bool :=
  let d := tx_InnerData tx in
  (0 <? td_Timestamp d) &&
  negb (is_nil (td_Data d)) && (0 <? len (raw (td_Data d))) &&
  (len (raw (td_Data d)) <=? MaxPayloadSize) &&
  negb (is_nil (td_PublicKey d)) &&
  (len (raw (td_PublicKey d)) =? PublicKeySize) &&
  negb (is_nil (td_Signature d)) && (0 <? len (raw (td_Signature d))) &&
  negb (is_nil (tx_Hash tx)) && (len (raw (tx_Hash tx)) =? HashSize).

Record TxBundle := mkTxBundle { Transactions : option (list Transaction) }.

#[export] Instance TxBundle_json : JSON TxBundle :=
  struct_codec (mkTxBundle None)
    [ fld "Transactions" Transactions (fun a _ => mkTxBundle a) (slice_codec Transaction_json) ].

Record KeyPair := mkKeyPair { PrivateKey : gobytes; PublicKey : gobytes }.

#[export] Instance KeyPair_json : JSON KeyPair :=
  struct_codec (mkKeyPair None None)
    [ fld "PrivateKey" PrivateKey (fun a x => mkKeyPair a (PublicKey x)) bytes_codec;
      fld "PublicKey" PublicKey (fun a x => mkKeyPair (PrivateKey x) a) bytes_codec ].

Record Wallet := mkWallet { keyPair : KeyPair; wallet_nonce : Z; wallet_balance : Z }.

Definition set_Signature (sig : gobytes) (tx : Transaction) : Transaction :=
  let d := tx_InnerData tx in
  mkTransaction (tx_Hash tx)
    (mkTransactionData (td_Data d) (td_PublicKey d) (td_Nonce d) sig (td_Timestamp d))
    (tx_Status tx).

Definition set_Hash (h : gobytes) (tx : Transaction) : Transaction :=
  mkTransaction h (tx_InnerData tx) (tx_Status tx).

Definition set_Status (st : bool) (tx : Transaction) : Transaction :=
  mkTransaction (tx_Hash tx) (tx_InnerData tx) st.

(** [tx.InnerData.PublicKey = pk; tx.InnerData.Nonce = n]. *)
Definition set_Sender (pk : gobytes) (n : Z) (tx : Transaction) : Transaction :=
  let d := tx_InnerData tx in
  mkTransaction (tx_Hash tx)
    (mkTransactionData (td_Data d) pk n (td_Signature d) (td_Timestamp d)) (tx_Status tx).

Section txs.
Context `{Sha3, Ed25519, Base58}.

Definition Transaction_Verify (tx : Transaction) : outcome (result bool) :=
  if negb (CheckContents tx) then Done (Ok false)
  else match Marshal (tx_InnerData tx) with
       | Err e => Done (Err e)
       | Ok enc =>
           if negb (bytes_Equal (Some (Sum256 enc)) (tx_Hash tx)) then Done (Ok false)
           else let^ ok := ed25519_Verify (td_PublicKey (tx_InnerData tx))
                             (td_Data (tx_InnerData tx)) (td_Signature (tx_InnerData tx)) in
                Done (Ok ok)
       end.

(** ** Bundles *)
Fixpoint marshal_all (l : list Transaction) : result (list gobytes) :=
  match l with
  | [] => Ok []
  | tx :: l' =>
      let? enc := Marshal tx in
      let? raws := marshal_all l' in
      Ok (Some enc :: raws)
  end.

Definition HashTransactions (txb : TxBundle) : outcome (result gobytes) :=
  match Transactions txb with
  | None | Some [] => Done (Err "emptry tx bundle")
  | Some l =>
      match marshal_all l with
      | Err e => Done (Err e)
      | Ok raws =>
          let^ r := NewMerkleTreeFromRaw raws in
          match r with
          | Err e => Done (Err e)
          | Ok t => match RootNode t with
                    | Some n => Done (Ok (Data n))
                    | None => Panicked "nil pointer dereference"
                    end
          end
      end
  end.

Definition ToKeys (txb : TxBundle) : list string :=
  map (fun tx => Encode (raw (tx_Hash tx))) (default [] (Transactions txb)).

Fixpoint verify_all (l : list Transaction) : outcome bool :=
  match l with
  | [] => Done true
  | tx :: l' =>
      let^ r := Transaction_Verify tx in
      match r with
      | Ok true => verify_all l'
      | _ => Done false
      end
  end.

Definition TxBundle_Verify (txb : TxBundle) : outcome bool :=
  match Transactions txb with
  | None | Some [] => Done false
  | Some l => verify_all l
  end.

(** ** Keys.  [seed] is what [rand.Reader] yields. *)
Definition GenerateKey (seed : result bytes) : result KeyPair :=
  let? s := seed in
  let '(pri, pub) := ed_keygen s in
  Ok (mkKeyPair (Some pri) (Some pub)).

Definition KeyPair_Sign (kp : KeyPair) (tx : Transaction) : outcome (result Transaction) :=
  let^ sig := ed25519_Sign (PrivateKey kp) (td_Data (tx_InnerData tx)) in
  let tx := set_Signature sig tx in
  match Marshal (tx_InnerData tx) with
  | Err e => Done (Err e)
  | Ok enc => Done (Ok (set_Hash (Some (Sum256 enc)) tx))
  end.

Definition KeyPair_SignRaw (kp : KeyPair) (data : gobytes) : outcome gobytes :=
  ed25519_Sign (PrivateKey kp) data.

(** ** Wallets.  [files] is the directory (file name to contents), and [io_err]
    the error [os.ReadFile] or [os.WriteFile] returns, if any. *)
Definition fromKeyPair (kp : KeyPair) : Wallet := mkWallet kp 0 0.

Definition NewWallet (seed : result bytes) (io_err : option error) (name : string)
  (files : gmap string bytes) : result Wallet * gmap string bytes :=
  let keyFile := (name ++ ".key")%string in
  match files !! keyFile with
  | Some f =>
      match io_err with
      | Some e => (Err e, files)
      | None => ((let? key := Unmarshal f in Ok (fromKeyPair key)), files)
      end
  | None =>
      match GenerateKey seed with
      | Err e => (Err e, files)
      | Ok key =>
          match Marshal key with
          | Err e => (Err e, files)
          | Ok enc =>
              match io_err with
              | Some e => (Err e, files)
              | None => (Ok (fromKeyPair key), <[keyFile := enc]> files)
              end
          end
      end
  end.

Definition Wallet_Init (w : Wallet) (nonce balance : Z) : Wallet :=
  mkWallet (keyPair w) nonce balance.

Definition Wallet_PublicKey (w : Wallet) : gobytes := PublicKey (keyPair w).

Definition Wallet_Sign (w : Wallet) (tx : Transaction) : outcome (result Transaction) :=
  KeyPair_Sign (keyPair w) (set_Sender (Wallet_PublicKey w) (wallet_nonce w) tx).

Definition Wallet_SignRaw (w : Wallet) (data : gobytes) : outcome gobytes :=
  KeyPair_SignRaw (keyPair w) data.

(** A wallet whose keys come from [GenerateKey]. *)
Definition wallet_ok (w : Wallet) : Prop := exists seed, GenerateKey (Ok seed) = Ok (keyPair w).
End txs.

(** ** JSON laws *)
Definition u64_tx_data (d : TransactionData) : Prop :=
  in_u64 (td_Nonce d) /\ in_s64 (td_Timestamp d).
Definition u64_tx (tx : Transaction) : Prop := u64_tx_data (tx_InnerData tx).
Definition u64_bundle (b : TxBundle) : Prop := opt_Forall u64_tx (Transactions b).

Lemma TransactionData_codec_ok : codec_ok TransactionData_json u64_tx_data.
Proof. unfold u64_tx_data. solve_struct_codec. Qed.
#[export] Hint Resolve TransactionData_codec_ok : codec.

Lemma Transaction_codec_ok : codec_ok Transaction_json u64_tx.
Proof. unfold u64_tx. solve_struct_codec. Qed.
#[export] Hint Resolve Transaction_codec_ok : codec.

Lemma TxBundle_codec_ok : codec_ok TxBundle_json u64_bundle.
Proof. unfold u64_bundle. solve_struct_codec. Qed.
#[export] Hint Resolve TxBundle_codec_ok : codec.

Lemma KeyPair_codec_ok : codec_ok KeyPair_json (fun _ => True).
Proof. solve_struct_codec. Qed.

#[export] Instance TransactionData_json_laws : JSONLaws TransactionData :=
  {| json_ok := TransactionData_codec_ok |}.
#[export] Instance Transaction_json_laws : JSONLaws Transaction :=
  {| json_ok := Transaction_codec_ok |}.
#[export] Instance TxBundle_json_laws : JSONLaws TxBundle :=
  {| json_ok := TxBundle_codec_ok |}.
#[export] Instance KeyPair_json_laws : JSONLaws KeyPair := {| json_ok := KeyPair_codec_ok |}.

(** ** Lemmas *)
Section tx_facts.
Context `{Sha3, Ed25519, Base58}.

Lemma nonempty_not_nil (s : gobytes) n : len (raw s) = n -> 0 < n -> is_nil s = false.
Proof. intros Hl Hn. destruct s; [done|]. unfold len in Hl. cbn in Hl. lia. Qed.

(** The nil tests of the code follow from the length tests. *)
Lemma CheckContents_spec tx : let d := tx_InnerData tx in
  CheckContents tx = true <->
  0 < td_Timestamp d /\ 0 < len (raw (td_Data d)) <= MaxPayloadSize
  /\ len (raw (td_PublicKey d)) = 32 /\ 0 < len (raw (td_Signature d))
  /\ len (raw (tx_Hash tx)) = 32.
Proof.
  cbv zeta. unfold CheckContents, PublicKeySize, HashSize. split.
  - intros Hc. split_andb. lia.
  - intros (Ht & Hd & Hp & Hs & Hh). rewrite !andb_true_iff, !negb_true_iff, !Z.ltb_lt, !Z.eqb_eq, Z.leb_le.
    rewrite !(nonempty_not_nil _ _ eq_refl) by lia. lia.
Qed.

(** A verified transaction never reaches the panic of the signature check. *)
Lemma CheckContents_key tx : CheckContents tx = true ->
  len (raw (td_PublicKey (tx_InnerData tx))) = 32.
Proof. rewrite CheckContents_spec. tauto. Qed.

(** The digest [Transaction_Verify] compares with. *)
Definition data_hash (d : TransactionData) : bytes :=
  match Marshal d with Ok enc => Sum256 enc | Err _ => [] end.

Lemma Transaction_Verify_run tx :
  Transaction_Verify tx
  = Done (Ok (CheckContents tx && bool_decide (data_hash (tx_InnerData tx) = raw (tx_Hash tx))
      && ed_verify (raw (td_PublicKey (tx_InnerData tx))) (raw (td_Data (tx_InnerData tx)))
           (raw (td_Signature (tx_InnerData tx))))).
Proof.
  unfold Transaction_Verify. destruct (CheckContents tx) eqn:E; [|done]. cbn [negb].
  unfold data_hash. destruct (Marshal (tx_InnerData tx)) as [enc|] eqn:Em; [|done].
  unfold bytes_Equal. cbn [raw default]. destruct (bool_decide _) eqn:Eh; [|done].
  cbn [negb andb]. apply CheckContents_key in E as Hk.
  unfold ed25519_Verify. by rewrite Hk.
Qed.

Lemma Transaction_Verify_true tx :
  Transaction_Verify tx = Done (Ok true) <->
  CheckContents tx = true /\ data_hash (tx_InnerData tx) = raw (tx_Hash tx)
  /\ ed_verify (raw (td_PublicKey (tx_InnerData tx))) (raw (td_Data (tx_InnerData tx)))
       (raw (td_Signature (tx_InnerData tx))) = true.
Proof.
  rewrite Transaction_Verify_run. split.
  - intros [= Hv]. apply andb_prop in Hv as [Hv Hs]. apply andb_prop in Hv as [Hc Hh].
    by apply bool_decide_eq_true in Hh.
  - intros (-> & Hh & ->). by rewrite bool_decide_eq_true_2.
Qed.

Lemma verify_all_true l : verify_all l = Done true <->
  Forall (fun tx => Transaction_Verify tx = Done (Ok true)) l.
Proof.
  induction l as [|tx l IH]; [by split; [constructor|]|]. cbn [verify_all].
  rewrite Forall_cons, <- IH, Transaction_Verify_run. cbn [outcome_bind].
  case_match; split; intros; intuition congruence.
Qed.

Lemma verify_all_total l : exists b, verify_all l = Done b.
Proof.
  induction l as [|tx l [b Hb]]; [by exists true|]. cbn [verify_all].
  rewrite Transaction_Verify_run. cbn [outcome_bind]. case_match; eauto.
Qed.

Lemma marshal_all_ok l : exists raws, marshal_all l = Ok raws
  /\ length raws = length l /\ Forall2 (fun tx r => Marshal tx = Ok (raw r)) l raws.
Proof.
  induction l as [|tx l (raws & Hr & Hl & Hf)]; [by exists []; repeat constructor|].
  cbn. rewrite Hr. eexists. split_and!; [done|cbn; lia|by constructor].
Qed.

Lemma marshal_all_inj l1 l2 r1 r2 : Forall u64_tx l1 -> Forall u64_tx l2 ->
  marshal_all l1 = Ok r1 -> marshal_all l2 = Ok r2 -> map raw r1 = map raw r2 -> l1 = l2.
Proof.
  destruct (marshal_all_ok l1) as (r1' & -> & _ & F1).
  destruct (marshal_all_ok l2) as (r2' & -> & _ & F2).
  intros Hw1 Hw2 [= ->] [= ->] He. revert l2 r2 F2 Hw2 He.
  induction F1 as [|t1 s1 l1 r1 Ht1 F1 IH]; intros l2 r2 F2 Hw2 He; destruct F2 as [|t2 s2 l2 r2 Ht2 F2];
    try done.
  apply Forall_cons in Hw1 as [Hw1 Hws1]. apply Forall_cons in Hw2 as [Hw2 Hws2].
  injection He as He Hes. f_equal; [|by eapply IH].
  apply (Marshal_inj t1 t2); [exact Hw1|exact Hw2|congruence].
Qed.

(** What [HashTransactions] computes. *)
Lemma HashTransactions_spec txb d l :
  Transactions txb = Some l -> length l = (2 ^ d)%nat -> (d < 63)%nat ->
  exists raws h, marshal_all l = Ok raws /\ HashTransactions txb = Done (Ok h)
    /\ raw h = tree_hash d (map (fun r => Sum256 (raw r)) raws).
Proof.
  intros Ht Hl Hd. destruct (marshal_all_ok l) as (raws & Hr & Hlr & _).
  destruct (NewMerkleTreeFromRaw_spec d raws) as (n & Hn & Hh); [congruence|done|].
  exists raws, (Data n). unfold HashTransactions. rewrite Ht.
  destruct l as [|t l]; [pose proof (pow2_ge d); cbn in Hl; lia|].
  by rewrite Hr, Hn.
Qed.
(** A hash that is returned is a tree hash. *)
Lemma HashTransactions_inv txb h :
  HashTransactions txb = Done (Ok h) -> len (default [] (Transactions txb)) < 2 ^ 63 ->
  exists l d raws, Transactions txb = Some l /\ length l = (2 ^ d)%nat /\ marshal_all l = Ok raws
    /\ length raws = (2 ^ d)%nat /\ raw h = tree_hash d (map (fun r => Sum256 (raw r)) raws).
Proof.
  intros Hh Hmax. destruct (Transactions txb) as [l|] eqn:Et.
  2:{ unfold HashTransactions in Hh. by rewrite Et in Hh. }
  cbn [default id] in Hmax. destruct (marshal_all_ok l) as (raws & Hr & Hlr & _).
  destruct (IsPowerOf2 (len l)) eqn:E.
  - destruct (pow2_length _ Hmax E) as (d & Hd & Hd63).
    destruct (HashTransactions_spec txb d l Et Hd Hd63) as (r & h' & Hr' & Hh' & Ht).
    exists l, d, raws. split_and!; [done|done|done|congruence|].
    assert (h' = h /\ r = raws) as [-> ->] by (split; congruence). done.
  - unfold HashTransactions, NewMerkleTreeFromRaw in Hh. rewrite Et, Hr in Hh.
    unfold len in *. rewrite Hlr, E in Hh. by destruct l.
Qed.

Context `{!Sha3Laws}.

Lemma HashTransactions_length txb h :
  HashTransactions txb = Done (Ok h) -> len (default [] (Transactions txb)) < 2 ^ 63 ->
  length (raw h) = 32%nat.
Proof.
  intros Hh Hmax. destruct (HashTransactions_inv _ _ Hh Hmax) as (l & d & raws & _ & _ & _ & Hr & ->).
  apply length_tree_hash; [by rewrite length_map|apply leaf_hashes_length].
Qed.

(** The strings hashed for a bundle. *)
Definition bundle_inputs (txb : TxBundle) : list bytes :=
  match marshal_all (default [] (Transactions txb)) with Ok raws => merkle_inputs raws | Err _ => [] end.

(** The hash of a bundle commits to its transactions. *)
Lemma HashTransactions_binding b1 b2 h1 h2 :
  HashTransactions b1 = Done (Ok h1) -> HashTransactions b2 = Done (Ok h2) ->
  u64_bundle b1 -> u64_bundle b2 ->
  length (default [] (Transactions b1)) = length (default [] (Transactions b2)) ->
  len (default [] (Transactions b1)) < 2 ^ 63 ->
  raw h1 = raw h2 -> b1 = b2 \/ collision (bundle_inputs b1) (bundle_inputs b2).
Proof.
  intros V1 V2 Hw1 Hw2 Hl Hmax He.
  destruct (HashTransactions_inv _ _ V1 Hmax) as (l1 & d & r1 & E1 & L1 & M1 & R1 & T1).
  destruct (HashTransactions_inv _ _ V2) as (l2 & d2 & r2 & E2 & L2 & M2 & R2 & T2);
    [unfold len in *; by rewrite <- Hl|].
  unfold u64_bundle in *. destruct b1 as [t1], b2 as [t2]. cbn [Transactions] in *. subst t1 t2.
  cbn [default id opt_Forall] in *.
  assert (d2 = d) as -> by (apply (Nat.pow_inj_r 2); [lia|congruence]).
  rewrite T1, T2 in He. unfold bundle_inputs. cbn [Transactions default id]. rewrite M1, M2.
  destruct (merkle_binding d _ _ R1 R2 He) as [Hr|]; [|by right]. left. do 2 f_equal.
  by eapply marshal_all_inj.
Qed.

(** What a wallet signs. *)
Lemma SignRaw_ok `{!Ed25519Laws} w data : wallet_ok w -> exists pk sig, Wallet_PublicKey w = Some pk /\ is_key pk
  /\ Wallet_SignRaw w data = Done (Some sig) /\ length sig = 64%nat /\ ed_verify pk (raw data) sig = true.
Proof.
  intros [seed Hk]. unfold GenerateKey in Hk. cbn [result_bind] in Hk.
  pose proof (length_public seed) as Lpub. pose proof (length_private seed) as Lpri.
  pose proof (verify_sign seed (raw data)) as Hv.
  destruct (ed_keygen seed) as [pri pub]. injection Hk as Hk. cbn [fst snd] in *.
  exists pub, (ed_sign pri (raw data)). unfold Wallet_PublicKey, Wallet_SignRaw, KeyPair_SignRaw, ed25519_Sign.
  rewrite <- Hk. unfold len. cbn [PublicKey PrivateKey raw default id]. rewrite Lpri.
  split_and!; try done. apply length_sign.
Qed.

(** The transaction that signing makes. *)
Lemma Wallet_Sign_run `{!Sha3Laws, !Ed25519Laws} w now data : wallet_ok w -> 0 < now ->
  0 < len (raw data) <= MaxPayloadSize ->
  exists pk sig enc, Wallet_PublicKey w = Some pk /\ is_key pk /\ length sig = 64%nat
    /\ let d := mkTransactionData data (Some pk) (wallet_nonce w) (Some sig) now in
       Marshal d = Ok enc
       /\ Wallet_Sign w (NewTransaction now data) = Done (Ok (mkTransaction (Some (Sum256 enc)) d false))
       /\ Transaction_Verify (mkTransaction (Some (Sum256 enc)) d false) = Done (Ok true).
Proof.
  intros Hw Hnow Hlen. destruct (SignRaw_ok w data Hw) as (pk & sig & Hpk & Kpk & Hs & Hl & Hv).
  assert (length pk = 32%nat) as Lpk by exact Kpk.
  set (d := mkTransactionData data (Some pk) (wallet_nonce w) (Some sig) now).
  destruct (Marshal d) as [enc|] eqn:Hm; [|done].
  exists pk, sig, enc. split_and!; try done.
  - unfold Wallet_Sign, KeyPair_Sign. unfold Wallet_SignRaw, KeyPair_SignRaw in Hs. rewrite Hpk.
    cbn [set_Sender NewTransaction tx_InnerData td_Data]. rewrite Hs. cbn [outcome_bind].
    change (Marshal (tx_InnerData _)) with (Marshal d). rewrite Hm. split; [exact Hm|]. split; [reflexivity|].
    apply Transaction_Verify_true. split; [|split; [by injection Hm as <-|]].
    + apply CheckContents_spec. cbn [tx_InnerData tx_Hash d td_Timestamp td_Data td_PublicKey td_Signature].
      unfold len in *. cbn [raw default id]. rewrite length_Sum256, Lpk, Hl. lia.
    + cbn [tx_InnerData d td_PublicKey td_Data td_Signature raw default id]. exact Hv.
Qed.
End tx_facts.

(** * Properties *)
Section tx_properties.
Context `{Sha3, Ed25519, Base58}.

(** A transaction signed by a wallet with generated keys carries the
    wallet's key and nonce and the data it was made with, and verifies. *)
Theorem Wallet_Sign_verifies `{!Sha3Laws, !Ed25519Laws} w now data :
  wallet_ok w -> 0 < now -> 0 < len (raw data) <= MaxPayloadSize ->
  exists tx, Wallet_Sign w (NewTransaction now data) = Done (Ok tx)
    /\ Transaction_Verify tx = Done (Ok true)
    /\ td_PublicKey (tx_InnerData tx) = Wallet_PublicKey w
    /\ td_Nonce (tx_InnerData tx) = wallet_nonce w
    /\ td_Data (tx_InnerData tx) = data.
Proof.
  intros Hw Hnow Hlen. destruct (Wallet_Sign_run w now data Hw Hnow Hlen) as (pk & sig & enc & Hpk & _ & _ & _ & Hs & Hv).
  eexists. split; [exact Hs|]. split; [exact Hv|]. by rewrite Hpk.
Qed.

(** C34: [Verify] always returns, never reaching the panic of the signature
    check, and accepts exactly the transactions with a positive time, at least
    one byte of data and at most 2048, a key of 32 bytes, a
    signature that is not empty, and a hash of 32 bytes, which is the digest of
    the encoded data, and such that the signature is one of the data under the
    key. *)
Theorem Transaction_Verify_correct tx :
  let d := tx_InnerData tx in
  exists b, Transaction_Verify tx = Done (Ok b) /\
  (b = true <->
    0 < td_Timestamp d /\ 0 < len (raw (td_Data d)) <= 2048
    /\ len (raw (td_PublicKey d)) = 32 /\ 0 < len (raw (td_Signature d)) /\ len (raw (tx_Hash tx)) = 32
    /\ (exists enc, Marshal d = Ok enc /\ raw (tx_Hash tx) = Sum256 enc)
    /\ ed25519_Verify (td_PublicKey d) (td_Data d) (td_Signature d) = Done true).
Proof.
  cbv zeta. eexists. split; [apply Transaction_Verify_run|]. unfold ed25519_Verify, data_hash.
  change 2048 with MaxPayloadSize. rewrite !andb_true_iff, CheckContents_spec, bool_decide_eq_true. split.
  - intros [[(Ht & Hd & Hk & Hs & Hl) He] Hv]. rewrite Hk, Hv. change (32 =? 32) with true.
    do 5 (split; [done|]). split; [|done].
    destruct (Marshal (tx_InnerData tx)) as [enc|] eqn:Em; [by exists enc|]. rewrite <- He in Hl. done.
  - intros (Ht & Hd & Hk & Hs & Hl & (enc & Hm & He) & Hv). rewrite Hk in Hv. change (32 =? 32) with true in Hv.
    injection Hv as ->. rewrite Hm. split; [split; [|by rewrite He]|done]. by do 4 (split; [done|]).
Qed.

(** Two accepted transactions with the same hash carry the same data, or
    the encodings of their data are a collision of the hash. *)
Theorem Transaction_hash_binding tx1 tx2 :
  u64_tx tx1 -> u64_tx tx2 ->
  Transaction_Verify tx1 = Done (Ok true) -> Transaction_Verify tx2 = Done (Ok true) ->
  raw (tx_Hash tx1) = raw (tx_Hash tx2) ->
  tx_InnerData tx1 = tx_InnerData tx2
  \/ exists e1 e2, Marshal (tx_InnerData tx1) = Ok e1 /\ Marshal (tx_InnerData tx2) = Ok e2
       /\ e1 <> e2 /\ Sum256 e1 = Sum256 e2.
Proof.
  intros Hw1 Hw2 (_ & V1 & _)%Transaction_Verify_true (_ & V2 & _)%Transaction_Verify_true He.
  unfold data_hash in *. destruct (Marshal (tx_InnerData tx1)) as [e1|] eqn:E1; [|done].
  destruct (Marshal (tx_InnerData tx2)) as [e2|] eqn:E2; [|done].
  destruct (decide (e1 = e2)) as [<-|]; [left|right; exists e1, e2; split_and!; congruence].
  apply Marshal_inj; [exact Hw1|exact Hw2|congruence].
Qed.

(** The signature does not cover the nonce: from any accepted
    transaction, an accepted one with any other nonce can be made without the
    signer, by recomputing the hash. *)
Theorem Transaction_nonce_malleable `{!Sha3Laws} tx nonce :
  Transaction_Verify tx = Done (Ok true) ->
  let d := tx_InnerData (set_Sender (td_PublicKey (tx_InnerData tx)) nonce tx) in
  let tx' := mkTransaction (Some (data_hash d)) d (tx_Status tx) in
  Transaction_Verify tx' = Done (Ok true)
  /\ td_Data d = td_Data (tx_InnerData tx) /\ td_PublicKey d = td_PublicKey (tx_InnerData tx)
  /\ td_Nonce d = nonce.
Proof.
  intros (Hc & Hh & Hs)%Transaction_Verify_true. cbv zeta. split; [|done].
  apply Transaction_Verify_true. split; [|by split].
  apply CheckContents_spec in Hc. apply CheckContents_spec. cbn in *. split_and!; try tauto.
  unfold len. by rewrite length_Sum256.
Qed.

(** A wallet that [NewWallet] created is loaded again under its name,
    with the same keys, and loading changes no file. *)
Theorem NewWallet_reload seed seed' name files w files' :
  NewWallet seed None name files = (Ok w, files') -> files !! (name ++ ".key")%string = None ->
  NewWallet seed' None name files' = (Ok w, files').
Proof.
  unfold NewWallet. intros Hn Hf. rewrite Hf in Hn.
  destruct (GenerateKey seed) as [key|]; [|done].
  destruct (Marshal key) as [enc|] eqn:Em; [|done]. injection Hn as <- <-.
  rewrite lookup_insert_eq. assert (Unmarshal enc = Ok key) as -> by (by apply Unmarshal_Marshal).
  done.
Qed.
End tx_properties.

Section tx_witnesses.
Import Toy.

Definition demo_wallet : Wallet :=
  match GenerateKey (Ok [x05]) with
  | Ok kp => Wallet_Init (fromKeyPair kp) 3 0
  | Err _ => fromKeyPair (mkKeyPair None None)
  end.

Definition demo_tx (data : bytes) : Transaction :=
  match Wallet_Sign demo_wallet (NewTransaction 7 (Some data)) with
  | Done (Ok tx) => tx
  | _ => NewTransaction 7 None
  end.

Lemma Wallet_Sign_verifies_witness :
  exists tx, Wallet_Sign demo_wallet (NewTransaction 7 (Some [x01; x02])) = Done (Ok tx)
    /\ Transaction_Verify tx = Done (Ok true) /\ td_Nonce (tx_InnerData tx) = 3.
Proof.
  destruct (Wallet_Sign_verifies demo_wallet 7 (Some [x01; x02])) as (tx & Hs & Hv & _ & Hn & _).
  - exists [x05]. reflexivity.
  - reflexivity.
  - by vm_compute.
  - exists tx. split; [exact Hs|]. split; [exact Hv|exact Hn].
Defined.

Lemma Transaction_hash_binding_witness :
  let tx1 := demo_tx [x01] in let tx2 := set_Status true (demo_tx [x01]) in
  tx_InnerData tx1 = tx_InnerData tx2
  \/ exists e1 e2, Marshal (tx_InnerData tx1) = Ok e1 /\ Marshal (tx_InnerData tx2) = Ok e2
       /\ e1 <> e2 /\ Sum256 e1 = Sum256 e2.
Proof.
  apply (Transaction_hash_binding (demo_tx [x01]) (set_Status true (demo_tx [x01])));
    vm_compute; done.
Defined.

Lemma Transaction_nonce_malleable_witness :
  exists tx', Transaction_Verify tx' = Done (Ok true) /\ td_Nonce (tx_InnerData tx') = 99
    /\ td_Signature (tx_InnerData tx') = td_Signature (tx_InnerData (demo_tx [x01])).
Proof.
  destruct (Transaction_nonce_malleable (demo_tx [x01]) 99) as (Hv & _).
  - vm_compute. reflexivity.
  - eexists. split; [exact Hv|]. split; vm_compute; reflexivity.
Defined.

Lemma NewWallet_reload_witness :
  match NewWallet (Ok [x05]) None "alice" ∅ with
  | (Ok w, files') => NewWallet (Err "no entropy"%string) None "alice" files' = (Ok w, files')
  | _ => False
  end.
Proof.
  destruct (NewWallet (Ok [x05]) None "alice" ∅) as [[w|e] files'] eqn:E.
  - eapply NewWallet_reload; [exact E|reflexivity].
  - vm_compute in E. discriminate E.
Defined.
End tx_witnesses.
