(* ===== verification/Blocks.v ===== *)
(** Packages [blocks] and [blockchain]: blocks, their hash and verification
    (blocks/block.go), and the height/epoch/slot counters
    (blockchain/blockchain.go). *)
From S2P Require Import Prelude Json JsonLaws Common External Merkle Txs.
Open Scope Z_scope.

Record BlockInfo := mkBlockInfo {
  bi_Height : Z;
  bi_Hash : gobytes;
  bi_Signature : gobytes;
  bi_PublicKey : gobytes;
  bi_Timestamp : Z
}.

Record Block := mkBlock {
  Info : BlockInfo;
  Bundle : TxBundle;
  PreviousBlockHash : gobytes;
  StateHash : gobytes
}.

#[export] Instance BlockInfo_json : JSON BlockInfo :=
  struct_codec (mkBlockInfo 0 None None None 0)
    [ fld "Height" bi_Height (fun a x => mkBlockInfo a (bi_Hash x) (bi_Signature x)
        (bi_PublicKey x) (bi_Timestamp x)) (uint_codec 64);
      fld "Hash" bi_Hash (fun a x => mkBlockInfo (bi_Height x) a (bi_Signature x)
        (bi_PublicKey x) (bi_Timestamp x)) bytes_codec;
      fld "Signature" bi_Signature (fun a x => mkBlockInfo (bi_Height x) (bi_Hash x) a
        (bi_PublicKey x) (bi_Timestamp x)) bytes_codec;
      fld "PublicKey" bi_PublicKey (fun a x => mkBlockInfo (bi_Height x) (bi_Hash x)
        (bi_Signature x) a (bi_Timestamp x)) bytes_codec;
      fld "Timestamp" bi_Timestamp (fun a x => mkBlockInfo (bi_Height x) (bi_Hash x)
        (bi_Signature x) (bi_PublicKey x) a) int64_codec ].

#[export] Instance Block_json : JSON Block :=
  struct_codec (mkBlock (c_zero BlockInfo_json) (c_zero TxBundle_json) None None)
    [ fld "Info" Info (fun a x => mkBlock a (Bundle x) (PreviousBlockHash x) (StateHash x))
        BlockInfo_json;
      fld "Bundle" Bundle (fun a x => mkBlock (Info x) a (PreviousBlockHash x) (StateHash x))
        TxBundle_json;
      fld "PreviousBlockHash" PreviousBlockHash
        (fun a x => mkBlock (Info x) (Bundle x) a (StateHash x)) bytes_codec;
      fld "StateHash" StateHash
        (fun a x => mkBlock (Info x) (Bundle x) (PreviousBlockHash x) a) bytes_codec ].

(** [now] is [time.Now().Unix()]. *)
Definition NewBlock (now height : Z) (pubKey : gobytes) (transactions : TxBundle)
  (prevHash stateHash : gobytes) : Block :=
  mkBlock (mkBlockInfo height None None pubKey now) transactions prevHash stateHash.

Definition set_Block_Hash (h : gobytes) (b : Block) : Block :=
  let i := Info b in
  mkBlock (mkBlockInfo (bi_Height i) h (bi_Signature i) (bi_PublicKey i) (bi_Timestamp i))
    (Bundle b) (PreviousBlockHash b) (StateHash b).

Definition set_Block_Signature (s : gobytes) (b : Block) : Block :=
  let i := Info b in
  mkBlock (mkBlockInfo (bi_Height i) (bi_Hash i) s (bi_PublicKey i) (bi_Timestamp i))
    (Bundle b) (PreviousBlockHash b) (StateHash b).

Section blocks.
Context `{Sha3, Ed25519}.

Definition HashBlock (b : Block) : outcome (result Block) :=
  let^ r := HashTransactions (Bundle b) in
  match r with
  | Err e => Done (Err e)
  | Ok txHash =>
      let add := raw txHash ++ raw (PreviousBlockHash b) ++ raw (StateHash b) in
      Done (Ok (set_Block_Hash (Some (Sum256 add)) b))
  end.

Definition BlockInfo_Verify (bi : BlockInfo) : outcome bool :=
  if negb (is_nil (bi_PublicKey bi)) && (len (raw (bi_PublicKey bi)) =? PublicKeySize) &&
     negb (is_nil (bi_Hash bi)) && (len (raw (bi_Hash bi)) =? HashSize) &&
     negb (is_nil (bi_Signature bi)) && (0 <? len (raw (bi_Signature bi))) &&
     (0 <? bi_Timestamp bi)
  then ed25519_Verify (bi_PublicKey bi) (bi_Hash bi) (bi_Signature bi)
  else Done false.

Definition Block_Verify (b : Block) : outcome bool :=
  let^ ok := TxBundle_Verify (Bundle b) in
  if ok &&
     negb (is_nil (StateHash b)) && (len (raw (StateHash b)) =? HashSize) &&
     negb (is_nil (PreviousBlockHash b)) && (len (raw (PreviousBlockHash b)) =? HashSize)
  then BlockInfo_Verify (Info b)
  else Done false.
End blocks.

Definition Block_ToBytes (b : Block) : result bytes := Marshal b.
Definition Block_GetKey (b : Block) : result gobytes := Ok (bi_Hash (Info b)).
Definition Block_GetIndex (b : Block) : result bytes := ToHex Uint64 (bi_Height (Info b)).

(** ** The chain's counters *)
Definition SlotsInEpoch : Z := 30.

Record Blockchain := mkBlockchain {
  nextHeight : Z;
  nextEpoch : Z;
  nextSlot : Z;
  previousBlockHash : gobytes
}.

Definition NewBlockchain : Blockchain := mkBlockchain 0 0 0 None.

Definition Blockchain_Init (height : Z) (prevHash : gobytes) (bc : Blockchain) : Blockchain :=
  mkBlockchain height (height / SlotsInEpoch) (u32 height mod SlotsInEpoch) prevHash.

Definition incrementHeight (bc : Blockchain) : Blockchain :=
  mkBlockchain (u64 (nextHeight bc + 1)) (nextEpoch bc) (nextSlot bc) (previousBlockHash bc).

Definition incrementEpoch (bc : Blockchain) : Blockchain :=
  mkBlockchain (nextHeight bc) (u64 (nextEpoch bc + 1)) (nextSlot bc) (previousBlockHash bc).

Definition icrementSlot (bc : Blockchain) : Blockchain :=
  let bc' := mkBlockchain (nextHeight bc) (nextEpoch bc)
               (u32 (nextSlot bc + 1) mod SlotsInEpoch) (previousBlockHash bc) in
  if nextSlot bc' =? 0 then incrementEpoch bc' else bc'.

Definition Increment (blockHash : gobytes) (bc : Blockchain) : Blockchain :=
  let bc' := icrementSlot (incrementHeight bc) in
  mkBlockchain (nextHeight bc') (nextEpoch bc') (nextSlot bc') blockHash.

(** ** JSON laws *)
Definition u64_block_info (i : BlockInfo) : Prop :=
  in_u64 (bi_Height i) /\ in_s64 (bi_Timestamp i).
Definition u64_block (b : Block) : Prop := u64_block_info (Info b) /\ u64_bundle (Bundle b).

Lemma BlockInfo_codec_ok : codec_ok BlockInfo_json u64_block_info.
Proof. unfold u64_block_info. solve_struct_codec. Qed.
#[export] Hint Resolve BlockInfo_codec_ok : codec.

Lemma Block_codec_ok : codec_ok Block_json u64_block.
Proof. unfold u64_block. solve_struct_codec. Qed.
#[export] Hint Resolve Block_codec_ok : codec.

#[export] Instance BlockInfo_json_laws : JSONLaws BlockInfo := {| json_ok := BlockInfo_codec_ok |}.
#[export] Instance Block_json_laws : JSONLaws Block := {| json_ok := Block_codec_ok |}.

(** ** Lemmas *)
Section block_facts.
Context `{Sha3, Ed25519}.

Definition wf_block_info (bi : BlockInfo) : Prop :=
  len (raw (bi_PublicKey bi)) = 32 /\ len (raw (bi_Hash bi)) = 32
  /\ 0 < len (raw (bi_Signature bi)) /\ 0 < bi_Timestamp bi.

Lemma BlockInfo_Verify_spec bi :
  exists v, BlockInfo_Verify bi = Done v /\
  (v = true <-> wf_block_info bi
     /\ ed_verify (raw (bi_PublicKey bi)) (raw (bi_Hash bi)) (raw (bi_Signature bi)) = true).
Proof.
  unfold BlockInfo_Verify, wf_block_info, PublicKeySize, HashSize, ed25519_Verify.
  match goal with |- context [if ?c then _ else _] => destruct c eqn:E end.
  - split_andb.
    match goal with K : len (raw (bi_PublicKey bi)) = 32 |- _ => rewrite K end.
    eexists. split; [reflexivity|]. tauto.
  - exists false. split; [done|]. split; [done|]. intros [(Hp & Hh & Hs & Ht) _].
    rewrite !(nonempty_not_nil _ _ eq_refl) in E by lia. cbn [negb andb] in E.
    rewrite !andb_false_iff, !Z.eqb_neq, !Z.ltb_ge in E. lia.
Qed.

Lemma Block_Verify_spec b :
  exists v, Block_Verify b = Done v /\
  (v = true <->
    (exists tx txs, Transactions (Bundle b) = Some (tx :: txs)
       /\ Forall (fun tx => Transaction_Verify tx = Done (Ok true)) (tx :: txs))
    /\ len (raw (StateHash b)) = 32 /\ len (raw (PreviousBlockHash b)) = 32
    /\ BlockInfo_Verify (Info b) = Done true).
Proof.
  unfold Block_Verify, TxBundle_Verify.
  destruct (Transactions (Bundle b)) as [[|tx txs]|];
    [exists false; split; [done|]; split; [done|]; by intros [(? & ? & ? & _) _]| |
     exists false; split; [done|]; split; [done|]; by intros [(? & ? & ? & _) _]].
  destruct (verify_all_total (tx :: txs)) as [v Hv]. rewrite Hv. cbn [outcome_bind].
  destruct (BlockInfo_Verify_spec (Info b)) as (w & Hw & _). rewrite Hw.
  match goal with |- context [if ?c then _ else _] => destruct c eqn:E end.
  - unfold HashSize in E. split_andb. exists w. split; [done|]. subst v. split.
    + intros ->. split_and!; try done. exists tx, txs. split; [done|]. by apply verify_all_true.
    + by intros (_ & _ & _ & [= ->]).
  - exists false. split; [done|]. split; [done|].
    intros ((? & ? & [= <- <-] & Hf) & Hs & Hp & _).
    apply verify_all_true in Hf. assert (v = true) as -> by congruence.
    rewrite !(nonempty_not_nil _ _ eq_refl) in E by lia. unfold HashSize in E.
    by rewrite Hs, Hp in E.
Qed.

(** The hash a block gets. *)
Lemma HashBlock_run b :
  HashBlock b = let^ r := HashTransactions (Bundle b) in
    Done (let? h := r in
          Ok (set_Block_Hash (Some (Sum256 (raw h ++ raw (PreviousBlockHash b) ++ raw (StateHash b)))) b)).
Proof. unfold HashBlock. by destruct (HashTransactions (Bundle b)) as [[]| |]. Qed.

Lemma HashBlock_inv b b' : HashBlock b = Done (Ok b') ->
  exists h, HashTransactions (Bundle b) = Done (Ok h)
    /\ b' = set_Block_Hash (Some (Sum256 (raw h ++ raw (PreviousBlockHash b) ++ raw (StateHash b)))) b.
Proof.
  rewrite HashBlock_run. destruct (HashTransactions (Bundle b)) as [[h|]| |]; try done.
  cbn. intros [= <-]. by exists h.
Qed.
End block_facts.

(** The strings hashed for a block. *)
Definition block_inputs `{Sha3} (b : Block) : list bytes :=
  bundle_inputs (Bundle b) ++
  match HashTransactions (Bundle b) with
  | Done (Ok h) => [raw h ++ raw (PreviousBlockHash b) ++ raw (StateHash b)]
  | _ => []
  end.

(** The counters of a chain agree. *)
Definition counters_ok (bc : Blockchain) : Prop :=
  nextEpoch bc = nextHeight bc / 30 /\ nextSlot bc = nextHeight bc mod 30.

Lemma Init_counters height prevHash bc : in_u32 height ->
  counters_ok (Blockchain_Init height prevHash bc).
Proof.
  unfold in_u32. intros Hh. split; [done|]. cbn. unfold u32. by rewrite (Z.mod_small height).
Qed.

Lemma Increment_counters h bc : 0 <= nextHeight bc -> nextHeight bc + 1 < 2 ^ 64 -> counters_ok bc ->
  counters_ok (Increment h bc) /\ nextHeight (Increment h bc) = nextHeight bc + 1
  /\ previousBlockHash (Increment h bc) = h.
Proof.
  intros H0 Hmax [He Hs]. unfold Increment, icrementSlot, incrementHeight, SlotsInEpoch, counters_ok.
  cbn [nextHeight nextEpoch nextSlot previousBlockHash]. unfold u32. rewrite He, Hs.
  pose proof (Z.mod_pos_bound (nextHeight bc) 30 ltac:(lia)) as Hm.
  pose proof (Z.div_mod (nextHeight bc) 30 ltac:(lia)) as Hd.
  rewrite (Z.mod_small (_ + 1)) by lia.
  destruct (decide (nextHeight bc mod 30 = 29)) as [E|E].
  - rewrite E. cbn [Z.add]. change ((29 + 1) mod 30 =? 0) with true.
    cbn [incrementEpoch nextHeight nextEpoch nextSlot previousBlockHash].
    rewrite !u64_small by (unfold in_u64; lia). change ((29 + 1) mod 30) with 0.
    assert (nextHeight bc + 1 = 30 * (nextHeight bc / 30 + 1)) as Hn by lia.
    split_and!; try done.
    + apply Z.div_unique_exact; lia.
    + rewrite Hn, Z.mul_comm, Z_mod_mult. done.
  - rewrite (Z.mod_small (_ + 1)) by lia. rewrite (proj2 (Z.eqb_neq _ _)) by lia.
    cbn [nextHeight nextEpoch nextSlot previousBlockHash]. rewrite u64_small by (unfold in_u64; lia).
    split_and!; try done.
    + apply Z.div_unique with (nextHeight bc mod 30 + 1); lia.
    + apply Z.mod_unique with (nextHeight bc / 30); lia.
Qed.

(** * Properties *)
Section block_properties.
Context `{Sha3, Ed25519}.

(** C35: [Block.Verify] always returns, and accepts exactly the blocks that
    hold at least one transaction, whose transactions all verify, whose state
    hash, previous hash, public key and hash have their sizes, whose time is
    positive, and whose signature of the block hash is valid. *)
Theorem Block_Verify_correct b :
  let i := Info b in
  exists v, Block_Verify b = Done v /\
  (v = true <->
    (exists tx txs, Transactions (Bundle b) = Some (tx :: txs)
       /\ Forall (fun tx => Transaction_Verify tx = Done (Ok true)) (tx :: txs))
    /\ len (raw (StateHash b)) = HashSize /\ len (raw (PreviousBlockHash b)) = HashSize
    /\ len (raw (bi_PublicKey i)) = PublicKeySize /\ len (raw (bi_Hash i)) = HashSize
    /\ 0 < len (raw (bi_Signature i)) /\ 0 < bi_Timestamp i
    /\ ed25519_Verify (bi_PublicKey i) (bi_Hash i) (bi_Signature i) = Done true).
Proof.
  cbv zeta. destruct (Block_Verify_spec b) as (v & Hv & Hiff). exists v. split; [done|].
  rewrite Hiff. destruct (BlockInfo_Verify_spec (Info b)) as (w & Hw & Hw'). rewrite Hw.
  unfold wf_block_info, ed25519_Verify, HashSize, PublicKeySize in *. split.
  - intros (Ht & Hs & Hp & [= ->]). destruct Hw' as [Hw' _].
    destruct (Hw' eq_refl) as [(Hk & ? & ? & ?) Hsig]. rewrite Hk. change (32 =? 32) with true.
    by rewrite Hsig.
  - intros (Ht & Hs & Hp & Hk & ? & ? & ? & Hsig). rewrite Hk in Hsig. injection Hsig as Hsig.
    split_and!; try done. by rewrite (proj2 Hw').
Qed.

(** The hash of a block commits to its transactions, the previous hash
    and the state hash: two blocks of one size with the same hash agree on all
    three, or two of the strings hashed for them collide. *)
Theorem HashBlock_binding `{!Sha3Laws} b1 b2 b1' b2' :
  HashBlock b1 = Done (Ok b1') -> HashBlock b2 = Done (Ok b2') ->
  u64_block b1 -> u64_block b2 ->
  length (default [] (Transactions (Bundle b1))) = length (default [] (Transactions (Bundle b2))) ->
  len (default [] (Transactions (Bundle b1))) < 2 ^ 63 ->
  length (raw (PreviousBlockHash b1)) = length (raw (PreviousBlockHash b2)) ->
  bi_Hash (Info b1') = bi_Hash (Info b2') ->
  (Bundle b1 = Bundle b2 /\ raw (PreviousBlockHash b1) = raw (PreviousBlockHash b2)
     /\ raw (StateHash b1) = raw (StateHash b2))
  \/ collision (block_inputs b1) (block_inputs b2).
Proof.
  intros (h1 & T1 & ->)%HashBlock_inv (h2 & T2 & ->)%HashBlock_inv [_ W1] [_ W2] Hl Hmax Hp He.
  cbn in He. injection He as He. unfold block_inputs. rewrite T1, T2.
  match type of He with Sum256 ?x = Sum256 ?y =>
    destruct (decide (x = y)) as [Hx|]; [|right; exists x, y; split_and!; [clear; set_unfold; tauto..|done|done]] end.
  apply app_inj_1 in Hx as [Hh Hx].
  2:{ rewrite (HashTransactions_length _ _ T1), (HashTransactions_length _ _ T2); [done| |done].
      unfold len in *. by rewrite <- Hl. }
  apply app_inj_1 in Hx as [Hprev Hstate]; [|done].
  destruct (HashTransactions_binding _ _ _ _ T1 T2 W1 W2 Hl Hmax Hh) as [|Hc]; [by left|right; widen Hc].
Qed.

(** Neither the hash nor the signature of a block covers its height and
    its time: an accepted block stays accepted, under the same hash, with any
    other height and any other positive time. *)
Theorem Block_header_malleable b height ts :
  Block_Verify b = Done true -> 0 < ts ->
  let i := Info b in
  let b' := mkBlock (mkBlockInfo height (bi_Hash i) (bi_Signature i) (bi_PublicKey i) ts)
              (Bundle b) (PreviousBlockHash b) (StateHash b) in
  Block_Verify b' = Done true
  /\ (forall h, HashBlock b = Done (Ok h) ->
        exists h', HashBlock b' = Done (Ok h') /\ bi_Hash (Info h') = bi_Hash (Info h)).
Proof.
  intros Hb Hts. cbv zeta. split.
  - destruct (Block_Verify_spec b) as (v & Hv & Hiff). rewrite Hb in Hv. injection Hv as <-.
    destruct Hiff as [Hiff _]. destruct (Hiff eq_refl) as (Ht & Hs & Hp & Hi).
    destruct (BlockInfo_Verify_spec (Info b)) as (w & Hw & Hw'). rewrite Hi in Hw.
    injection Hw as <-. destruct Hw' as [Hw' _]. destruct (Hw' eq_refl) as [(Hk & Hh & Hsg & _) Hsig].
    match goal with |- Block_Verify ?b' = _ => destruct (Block_Verify_spec b') as (v & Hv & Hiff') end.
    rewrite Hv. f_equal. apply Hiff'. cbn. split_and!; try done.
    match goal with |- BlockInfo_Verify ?i = _ => destruct (BlockInfo_Verify_spec i) as (w & Hw & Hw'') end.
    rewrite Hw. f_equal. apply Hw''. by split.
  - intros h (x & Hx & ->)%HashBlock_inv. rewrite HashBlock_run. cbn [Bundle]. rewrite Hx.
    eexists. by split.
Qed.
End block_properties.

(** C36: from a height that fits 32 bits, the counters of a chain stay in step
    over any number of stored blocks: the height counts them, the epoch and
    the slot are its quotient and remainder by 30, and the previous hash is
    the last one; no counter wraps before the height does. *)
Theorem Blockchain_counters height prevHash bc hashes :
  in_u32 height -> height + len hashes < 2 ^ 64 ->
  let bc' := fold_left (fun bc h => Increment h bc) hashes (Blockchain_Init height prevHash bc) in
  nextHeight bc' = height + len hashes
  /\ nextEpoch bc' = nextHeight bc' / SlotsInEpoch
  /\ nextSlot bc' = nextHeight bc' mod SlotsInEpoch
  /\ previousBlockHash bc' = List.last hashes prevHash.
Proof.
  intros Hh. cbv zeta. induction hashes as [|h hs IH] using rev_ind; intros Hmax.
  - pose proof (Init_counters height prevHash bc Hh) as [He Hs]. unfold len. cbn in *.
    split_and!; [lia|done..].
  - unfold len in *. rewrite length_app in *. cbn [length] in *.
    destruct IH as (Hn & He & Hs & Hp); [lia|]. rewrite fold_left_app. cbn [fold_left].
    set (bc1 := fold_left _ hs _) in *. unfold in_u32 in Hh.
    destruct (Increment_counters h bc1) as ([He' Hs'] & Hn' & Hp'); [lia..|by split|].
    rewrite Hn', Hn. split_and!; [lia| | |by rewrite Hp', last_last].
    + rewrite He', Hn', Hn. done.
    + rewrite Hs', Hn', Hn. done.
Qed.

Lemma Blockchain_counters_witness :
  let bc' := fold_left (fun bc h => Increment h bc) [None; Some [x01]]
               (Blockchain_Init 29 None NewBlockchain) in
  nextHeight bc' = 31 /\ nextEpoch bc' = 1 /\ nextSlot bc' = 1.
Proof.
  destruct (Blockchain_counters 29 None NewBlockchain [None; Some [x01]]) as (Hn & He & Hs & _).
  - unfold in_u32. lia.
  - by vm_compute.
  - split; [exact Hn|]. split; [exact He|exact Hs].
Defined.

(** At larger heights the slot counter starts wrong: [Init] truncates the
    height to 32 bits before it takes the remainder. *)
Theorem Blockchain_Init_truncates :
  exists height, in_u64 height
  /\ nextSlot (Blockchain_Init height None NewBlockchain) <> height mod SlotsInEpoch.
Proof. exists (2 ^ 32). split; [unfold in_u64; lia|by vm_compute]. Qed.

Section block_witnesses.
Import Toy.

Definition demo_block : Block :=
  let b := NewBlock 9 4 (Wallet_PublicKey demo_wallet)
             (mkTxBundle (Some [demo_tx [x01]; demo_tx [x02]]))
             (Some (replicate 32 x00)) (Some (replicate 32 x01)) in
  match HashBlock b with
  | Done (Ok b) =>
      match Wallet_SignRaw demo_wallet (bi_Hash (Info b)) with
      | Done sig => set_Block_Signature sig b
      | _ => b
      end
  | _ => b
  end.

Lemma demo_block_u64 b : Bundle b = Bundle demo_block -> u64_block_info (Info b) -> u64_block b.
Proof.
  intros Hb Hi. split; [exact Hi|]. unfold u64_bundle. rewrite Hb.
  assert (Transactions (Bundle demo_block) = Some [demo_tx [x01]; demo_tx [x02]]) as ->
    by (vm_compute; reflexivity).
  repeat constructor; by vm_compute.
Qed.

Definition hash_of (o : outcome (result Block)) : gobytes :=
  match o with Done (Ok b) => bi_Hash (Info b) | _ => None end.

Definition hashed (o : outcome (result Block)) : bool :=
  match o with Done (Ok _) => true | _ => false end.

Lemma HashBlock_binding_witness :
  let b := demo_block in
  match HashBlock b, HashBlock (set_Block_Signature None b) with
  | Done (Ok b1), Done (Ok b2) =>
      Bundle b = Bundle (set_Block_Signature None b)
      \/ collision (block_inputs b) (block_inputs (set_Block_Signature None b))
  | _, _ => False
  end.
Proof.
  cbv zeta. assert (hashed (HashBlock demo_block) = true) as K1 by (vm_compute; reflexivity).
  assert (hashed (HashBlock (set_Block_Signature None demo_block)) = true) as K2
    by (vm_compute; reflexivity).
  destruct (HashBlock demo_block) as [[b1|]| |] eqn:E1; try discriminate K1.
  destruct (HashBlock (set_Block_Signature None demo_block)) as [[b2|]| |] eqn:E2;
    try discriminate K2.
  destruct (HashBlock_binding demo_block (set_Block_Signature None demo_block) b1 b2 E1 E2) as [(Hb & _)|Hc].
  - apply demo_block_u64; [reflexivity|by vm_compute].
  - apply demo_block_u64; [reflexivity|by vm_compute].
  - vm_compute. reflexivity.
  - by vm_compute.
  - vm_compute. reflexivity.
  - change (hash_of (Done (Ok b1)) = hash_of (Done (Ok b2))). rewrite <- E1, <- E2.
    vm_compute. reflexivity.
  - left. exact Hb.
  - right. exact Hc.
Defined.

Lemma Block_header_malleable_witness :
  Block_Verify demo_block = Done true
  /\ exists b', Block_Verify b' = Done true /\ bi_Height (Info b') = 1000.
Proof.
  assert (Block_Verify demo_block = Done true) as Hv by (vm_compute; reflexivity).
  split; [exact Hv|].
  destruct (Block_header_malleable demo_block 1000 5 Hv) as [Hb _]; [reflexivity|].
  eexists. split; [exact Hb|vm_compute; reflexivity].
Defined.
End block_witnesses.
