(* ===== verification/Rpc.v ===== *)
(** Package [rpc]: the calls a transaction or a request carries
    (rpc/call.go, rpc/params.go, rpc/rpc_kind.go). *)
From S2P Require Import Prelude Json JsonLaws Common.
Open Scope Z_scope.

(** An [RpcKind] is a byte; these are the known values. *)
Definition Airdrop : Z := 1.
Definition Transfer : Z := 2.
Definition GetAccountState : Z := 3.

Definition UnsignedRpc : byte := x00.
Definition SifnedRpc : byte := x01.

Record Call := mkCall { call_Call : Z; call_Params : gobytes }.
Record AirdropParam := mkAirdropParam { ap_Amount : Z }.
Record TransferParam := mkTransferParam { tp_Amount : Z; tp_To : gobytes }.

#[export] Instance Call_json : JSON Call :=
  struct_codec (mkCall 0 None)
    [ fld "Call" call_Call (fun a x => mkCall a (call_Params x)) (uint_codec 8);
      fld "Params" call_Params (fun a x => mkCall (call_Call x) a) bytes_codec ].

#[export] Instance AirdropParam_json : JSON AirdropParam :=
  struct_codec (mkAirdropParam 0)
    [ fld "Amount" ap_Amount (fun a _ => mkAirdropParam a) (uint_codec 64) ].

#[export] Instance TransferParam_json : JSON TransferParam :=
  struct_codec (mkTransferParam 0 None)
    [ fld "Amount" tp_Amount (fun a x => mkTransferParam a (tp_To x)) (uint_codec 64);
      fld "To" tp_To (fun a x => mkTransferParam (tp_Amount x) a) bytes_codec ].

Definition NewCall (call : Z) (param : gobytes) : Call := mkCall call param.
Definition NewAirdropParam (amount : Z) : AirdropParam := mkAirdropParam amount.
Definition NewTransferParam (amount : Z) (to : gobytes) : TransferParam :=
  mkTransferParam amount to.

Definition VerifyGetAccountStateCall (call : Call) : bool :=
  (call_Call call =? GetAccountState) && (len (raw (call_Params call)) =? PublicKeySize).

Definition VerifyTransferCall (call : Call) : bool :=
  if negb (call_Call call =? Transfer) then false
  else match Unmarshal (T := TransferParam) (raw (call_Params call)) with
       | Err _ => false
       | Ok param => (0 <? tp_Amount param) && (tp_Amount param <? GeneratorBalance) &&
                     (len (raw (tp_To param)) =? PublicKeySize)
       end.

Definition VerifyAirdropCall (call : Call) : bool :=
  if negb (call_Call call =? Airdrop) then false
  else match Unmarshal (T := AirdropParam) (raw (call_Params call)) with
       | Err _ => false
       | Ok param => (0 <? ap_Amount param) && (ap_Amount param <? GeneratorBalance)
       end.

Definition Call_Verify (c : Call) : bool :=
  if call_Call c =? GetAccountState then VerifyGetAccountStateCall c
  else if call_Call c =? Airdrop then VerifyAirdropCall c
  else if call_Call c =? Transfer then VerifyTransferCall c
  else false.

(** ** JSON laws *)
Definition u8_call (c : Call) : Prop := in_u8 (call_Call c).
Definition u64_airdrop (p : AirdropParam) : Prop := in_u64 (ap_Amount p).
Definition u64_transfer (p : TransferParam) : Prop := in_u64 (tp_Amount p).

Lemma Call_codec_ok : codec_ok Call_json u8_call.
Proof. unfold u8_call, in_u8. solve_struct_codec. Qed.
Lemma AirdropParam_codec_ok : codec_ok AirdropParam_json u64_airdrop.
Proof. unfold u64_airdrop, in_u64. solve_struct_codec. Qed.
Lemma TransferParam_codec_ok : codec_ok TransferParam_json u64_transfer.
Proof. unfold u64_transfer, in_u64. solve_struct_codec. Qed.

#[export] Instance Call_json_laws : JSONLaws Call := {| json_ok := Call_codec_ok |}.
#[export] Instance AirdropParam_json_laws : JSONLaws AirdropParam :=
  {| json_ok := AirdropParam_codec_ok |}.
#[export] Instance TransferParam_json_laws : JSONLaws TransferParam :=
  {| json_ok := TransferParam_codec_ok |}.

(** What a verified call carries. *)
Lemma VerifyTransferCall_inv c : VerifyTransferCall c = true ->
  call_Call c = Transfer /\
  exists p, Unmarshal (raw (call_Params c)) = Ok p /\ 0 < tp_Amount p < GeneratorBalance
    /\ length (raw (tp_To p)) = 32%nat.
Proof.
  unfold VerifyTransferCall. destruct (call_Call c =? Transfer) eqn:E; [|done].
  cbn [negb]. case_match; [|done]. intros Hv. unfold len, PublicKeySize in Hv. split_andb.
  split; [done|]. eexists. split; [done|]. lia.
Qed.

Lemma VerifyAirdropCall_inv c : VerifyAirdropCall c = true ->
  call_Call c = Airdrop /\
  exists p, Unmarshal (raw (call_Params c)) = Ok p /\ 0 < ap_Amount p < GeneratorBalance.
Proof.
  unfold VerifyAirdropCall. destruct (call_Call c =? Airdrop) eqn:E; [|done].
  cbn [negb]. case_match; [|done]. intros Hv. split_andb. split; [done|]. eexists. by split.
Qed.

Lemma Call_Verify_transfer c : call_Call c = Transfer -> Call_Verify c = VerifyTransferCall c.
Proof. unfold Call_Verify. by intros ->. Qed.

Lemma Call_Verify_airdrop c : call_Call c = Airdrop -> Call_Verify c = VerifyAirdropCall c.
Proof. unfold Call_Verify. by intros ->. Qed.

(** * Properties *)

(** [Call.Verify] accepts a call exactly when it is one of the three
    known calls with parameters of its kind: a public key to read, a positive
    amount below the issued total, and for a transfer a receiver's key. *)
Theorem Call_Verify_correct c :
  Call_Verify c = true <->
  (call_Call c = GetAccountState /\ len (raw (call_Params c)) = PublicKeySize)
  \/ (call_Call c = Airdrop /\ exists p : AirdropParam,
        Unmarshal (raw (call_Params c)) = Ok p /\ 0 < ap_Amount p < GeneratorBalance)
  \/ (call_Call c = Transfer /\ exists p : TransferParam,
        Unmarshal (raw (call_Params c)) = Ok p /\ 0 < tp_Amount p < GeneratorBalance
        /\ len (raw (tp_To p)) = PublicKeySize).
Proof.
  split.
  - unfold Call_Verify. destruct (call_Call c =? GetAccountState) eqn:E1;
      [|destruct (call_Call c =? Airdrop) eqn:E2; [|destruct (call_Call c =? Transfer) eqn:E3; [|done]]].
    + unfold VerifyGetAccountStateCall. intros Hv. split_andb. by left.
    + intros Hv%VerifyAirdropCall_inv. right. by left.
    + intros (Hc & p & Hp & Ha & Hl)%VerifyTransferCall_inv. right. right. split; [done|].
      exists p. unfold len, PublicKeySize. rewrite Hl. done.
  - intros [[Hc Hl]|[(Hc & p & Hp & Ha)|(Hc & p & Hp & Ha & Hl)]].
    + unfold Call_Verify, VerifyGetAccountStateCall. by rewrite Hc, Hl.
    + rewrite Call_Verify_airdrop by done. unfold VerifyAirdropCall. rewrite Hc, Hp.
      cbn. apply andb_true_intro. split; apply Z.ltb_lt; lia.
    + rewrite Call_Verify_transfer by done. unfold VerifyTransferCall. rewrite Hc, Hp, Hl.
      cbn. rewrite andb_true_r. apply andb_true_intro. split; apply Z.ltb_lt; lia.
Qed.
