(* ===== verification/Memory.v ===== *)
(** Package [memory]: the transaction pool (memory/mempool.go), the account
    map with its Merkle leaves (memory/memory_db.go), and the service that
    owns both and serves requests over channels (memory/memory_service.go).

    Account states live behind pointers: the map, the replies and the
    executer share them, so the heap is part of the state.  [stateCh] is the
    request channel together with the request the service has in hand: the
    service answers requests in order and does not take the next one before
    its reply has been received, so a client that waits for a reply while an
    earlier reply of its own is unread blocks for ever. *)
From S2P Require Import Prelude Json JsonLaws Common External Merkle Accounts Txs.
Open Scope Z_scope.

(** ** The account map *)
Record dbBox (C : Type) := newDbBox { content : C }.
Arguments newDbBox {C} content.
Arguments content {C} _.

Record MemoryDb (C : Type) := mkMemoryDb { dbMap : gmap string (dbBox C) }.
Arguments mkMemoryDb {C} _.
Arguments dbMap {C} _.

Definition NewMemoryDb {C} : MemoryDb C := mkMemoryDb ∅.

Definition MemoryDb_Put {C} (key : string) (data : C) (md : MemoryDb C) : MemoryDb C :=
  match dbMap md !! key with
  | Some _ => mkMemoryDb (<[key := newDbBox data]> (dbMap md))
  | None => let box := newDbBox data in mkMemoryDb (<[key := box]> (dbMap md))
  end.

(** [makeDefault] may allocate. *)
Definition MemoryDb_Get {S C} (makeDefault : M S C) (key : string) (md : MemoryDb C)
  : M S (C * bool) :=
  match dbMap md !! key with
  | Some box => ret (content box, true)
  | None => let* d := makeDefault in ret (d, false)
  end.

(** ** Requests and the service state *)
Inductive MemRequestKind := MemAppend | MemRemove | MemGet | MemPut.

(** A pointer to an [AccountState]: an index of the heap. *)
Abbreviation ptr := nat.
Abbreviation chan := nat.

Record MempoolRequest := mkMempoolRequest {
  mr_Kind : MemRequestKind;
  mr_Tx : option Transaction;
  mr_Keys : option (list string)
}.

Record StateMemRequest := mkStateMemRequest {
  sr_Kind : MemRequestKind;
  sr_PublicKey : gobytes;
  sr_State : option ptr;
  sr_ResultCh : option chan
}.

Record MemoryService := mkMemoryService {
  mempool : gmap string Transaction;
  heap : list AccountState;
  stateMem : MemoryDb ptr;
  txCh : list MempoolRequest;
  stateCh : list StateMemRequest;
  nextCh : chan
}.

Definition NewMemoryService : MemoryService := mkMemoryService ∅ [] NewMemoryDb [] [] 0.

Definition set_mempool p (s : MemoryService) : MemoryService :=
  mkMemoryService p (heap s) (stateMem s) (txCh s) (stateCh s) (nextCh s).
Definition set_heap h (s : MemoryService) : MemoryService :=
  mkMemoryService (mempool s) h (stateMem s) (txCh s) (stateCh s) (nextCh s).
Definition set_stateMem m (s : MemoryService) : MemoryService :=
  mkMemoryService (mempool s) (heap s) m (txCh s) (stateCh s) (nextCh s).
Definition set_txCh q (s : MemoryService) : MemoryService :=
  mkMemoryService (mempool s) (heap s) (stateMem s) q (stateCh s) (nextCh s).
Definition set_stateCh q (s : MemoryService) : MemoryService :=
  mkMemoryService (mempool s) (heap s) (stateMem s) (txCh s) q (nextCh s).
Definition set_nextCh c (s : MemoryService) : MemoryService :=
  mkMemoryService (mempool s) (heap s) (stateMem s) (txCh s) (stateCh s) c.

(** [&AccountState{...}]. *)
Definition alloc (v : AccountState) : M MemoryService ptr :=
  fun s => (Done (length (heap s)), set_heap (heap s ++ [v]) s).

(** A method call through a pointer. *)
Definition deref (p : ptr) : M MemoryService AccountState :=
  fun s => match heap s !! p with
           | Some v => (Done v, s)
           | None => (Panicked "nil pointer dereference", s)
           end.
Definition call_method {A} (f : AccountState -> A * AccountState) (p : ptr)
  : M MemoryService A :=
  let* v := deref p in
  let '(a, v') := f v in
  let* _ := modify (fun s => set_heap (<[p := v']> (heap s)) s) in
  ret a.

(** What the service sends on a result channel: nil, or a [common.Result]. *)
Abbreviation StateReply := (option (Result ptr)).

Section memory.
Context `{Sha3, Base58, ExpSlices, MapOrder}.

(** *** The pool *)
Definition Mempool_Len (pool : gmap string Transaction) : Z := Z.of_nat (size pool).

Definition Mempool_Append (tx : Transaction) (pool : gmap string Transaction)
  : gmap string Transaction :=
  <[Encode (raw (tx_Hash tx)) := tx]> pool.

Definition nonce_less (a b : Transaction) : bool :=
  td_Nonce (tx_InnerData a) <? td_Nonce (tx_InnerData b).

Definition Mempool_get (n : Z) (pool : gmap string Transaction)
  : option (list Transaction) :=
  if n <=? 0 then None
  else
    let all := maps_Values pool in
    if len all <? n then None
    else if n =? 1 then Some all
    else let all := SortFunc nonce_less all in Some (take (Z.to_nat n) all).

Definition Mempool_GetTxsForBlock (pool : gmap string Transaction)
  : outcome (option (list Transaction)) :=
  let txLen := Mempool_Len pool in
  if txLen =? 0 then Done None
  else if txLen =? 1 then Done (Mempool_get 1 pool)
  else let^ n := LastPowerOf2 txLen in Done (Mempool_get n pool).

Definition Mempool_Remove (keys : list string) (pool : gmap string Transaction)
  : gmap string Transaction :=
  fold_left (fun p k => delete k p) keys pool.

Definition Mempool_Contains (key : string) (pool : gmap string Transaction) : bool :=
  bool_decide (is_Some (pool !! key)).

(** *** Merkle leaves of the account map *)
Definition fakeKey : string := "fakekey".

Definition getMerkleNode (content : AccountState) (pubKey : string) : result MerkleNode :=
  let raw0 := Decode pubKey in
  let? b := AccountState_ToBytes content in
  Ok (mkMerkleNode None None (Some (Sum256 (raw0 ++ b)))).

(** [big.Int] comparison of the node hashes. *)
Definition node_less (a b : option MerkleNode) : bool :=
  be_decode (node_hash a) <? be_decode (node_hash b).

Fixpoint merkle_nodes (entries : list (string * dbBox ptr))
  : M MemoryService (result (list (option MerkleNode))) :=
  match entries with
  | [] => ret (Ok [])
  | (k, box) :: entries' =>
      let* v := deref (content box) in
      match getMerkleNode v k with
      | Err e => ret (Err e)
      | Ok m =>
          let* r := merkle_nodes entries' in
          ret (let? ms := r in Ok (Some m :: ms))
      end
  end.

Definition GetMerkleNodes : M MemoryService (result (list (option MerkleNode))) :=
  let* s := get in
  let* total := lift (NextPowerOf2 (Z.of_nat (size (dbMap (stateMem s))))) in
  let* r := merkle_nodes (map_range (dbMap (stateMem s))) in
  match r with
  | Err e => ret (Err e)
  | Ok nodes =>
      let sorted := SortFunc node_less nodes in
      if len sorted <? total then
        let* d := alloc (mkAccountState 0 0) in
        let* dv := deref d in
        match getMerkleNode dv fakeKey with
        | Err e => ret (Err e)
        | Ok fake =>
            ret (Ok (sorted ++ replicate (Z.to_nat total - length sorted) (Some fake)))
        end
      else ret (Ok sorted)
  end.

Definition GetStateHash : M MemoryService (result gobytes) :=
  let* r := GetMerkleNodes in
  match r with
  | Err e => ret (Err e)
  | Ok nodes =>
      let* t := lift (NewMerkleTreeFromNodes nodes) in
      match RootNode t with
      | Some n => ret (Ok (Data n))
      | None => panic "nil pointer dereference"
      end
  end.

(** *** Handlers of the service loop *)
Definition Memory_handleTx (req : MempoolRequest) : M MemoryService unit :=
  match mr_Kind req with
  | MemAppend =>
      match mr_Tx req with
      | Some tx => modify (fun s => set_mempool (Mempool_Append tx (mempool s)) s)
      | None => ret tt
      end
  | MemRemove =>
      match mr_Keys req with
      | Some keys => modify (fun s => set_mempool (Mempool_Remove keys (mempool s)) s)
      | None => ret tt
      end
  | _ => ret tt
  end.

(** The reply and the channel it is sent on. *)
Definition handleState (req : StateMemRequest)
  : M MemoryService (option chan * StateReply) :=
  match sr_Kind req, sr_PublicKey req, sr_State req, sr_ResultCh req with
  | MemGet, Some pk, _, Some ch =>
      let* s := get in
      let* r := MemoryDb_Get (alloc (mkAccountState 0 0)) (Encode pk) (stateMem s) in
      let '(state, ok) := r in
      if (ok : bool) then ret (Some ch, Some (mkResult state None))
      else
        let* z := alloc (mkAccountState 0 0) in
        ret (Some ch, Some (mkResult z (Some "not found the key"%string)))
  | MemPut, Some pk, Some state, ch =>
      let* _ := modify (fun s => set_stateMem (MemoryDb_Put (Encode pk) state (stateMem s)) s) in
      ret (ch, None)
  | _, _, _, ch => ret (ch, None)
  end.

(** *** The client side *)
(** Ten requests fit in [stateCh] and one is in the service's hand; the next
    send blocks until a reply has been received.  [txCh] has room for ten. *)
Definition stateCh_room : nat := 11.
Definition txCh_room : nat := 10.

Definition send_state (req : StateMemRequest) : M MemoryService unit :=
  fun s => if (length (stateCh s) <? stateCh_room)%nat
           then (Done tt, set_stateCh (stateCh s ++ [req]) s)
           else (Blocked "send on stateCh", s).

Definition new_chan : M MemoryService chan :=
  fun s => (Done (nextCh s), set_nextCh (S (nextCh s)) s).

Definition Memory_GetAccountState (key : gobytes) : M MemoryService chan :=
  let* resCh := new_chan in
  let* _ := send_state (mkStateMemRequest MemGet key None (Some resCh)) in
  ret resCh.

Definition PutAccountState (key : gobytes) (state : ptr) : M MemoryService chan :=
  let* resCh := new_chan in
  let* _ := send_state (mkStateMemRequest MemPut key (Some state) (Some resCh)) in
  ret resCh.

(** [<-ch]: the service answers the oldest request; the receive completes
    when that answer goes to [ch]. *)
Definition recv_state (ch : chan) : M MemoryService StateReply :=
  let* s := get in
  match stateCh s with
  | [] => block "receive: nobody sends"
  | req :: rest =>
      let* _ := modify (set_stateCh rest) in
      let* r := handleState req in
      let '(c, reply) := r in
      if bool_decide (c = Some ch) then ret reply
      else block "receive: the service is blocked on another reply"
  end.

Definition LenTx (s : MemoryService) : Z := Mempool_Len (mempool s).
Definition ContainsTx (key : gobytes) (s : MemoryService) : bool :=
  Mempool_Contains (Encode (raw key)) (mempool s).
Definition GetTxsForBlock (s : MemoryService) : outcome (option (list Transaction)) :=
  Mempool_GetTxsForBlock (mempool s).

(** A full [txCh] makes the sender wait until the service has handled the
    oldest request.  The same goroutine serves both channels: while it has a
    reply to hand over, it takes no pool request. *)
Definition send_tx (req : MempoolRequest) : M MemoryService unit :=
  let* s := get in
  if (length (txCh s) <? txCh_room)%nat then modify (fun s => set_txCh (txCh s ++ [req]) s)
  else
    match stateCh s, txCh s with
    | [], r0 :: rest =>
        let* _ := modify (set_txCh rest) in
        let* _ := Memory_handleTx r0 in
        modify (fun s => set_txCh (txCh s ++ [req]) s)
    | _, _ => block "send on txCh: the service waits until its reply is read"
    end.

Definition AppendTx (tx : Transaction) : M MemoryService unit :=
  send_tx (mkMempoolRequest MemAppend (Some tx) None).
Definition RemoveTxs (keys : list string) : M MemoryService unit :=
  send_tx (mkMempoolRequest MemRemove None (Some keys)).

(** One iteration of [run] that takes a pool request; there is none while the
    service waits to hand over a reply. *)
Definition run_tx : M MemoryService unit :=
  let* s := get in
  match stateCh s, txCh s with
  | [], req :: rest => let* _ := modify (set_txCh rest) in Memory_handleTx req
  | _, _ => ret tt
  end.

(** [n] such iterations. *)
Fixpoint drain_tx (n : nat) : M MemoryService unit :=
  match n with
  | O => ret tt
  | S n' => let* _ := run_tx in drain_tx n'
  end.
End memory.
