(* ===== verification/MemoryFacts.v ===== *)
(** Facts about the memory service: the ledger (public key to state) that the
    pointer map and the heap represent, its invariant (pointers are valid and
    not shared between accounts), and the effect of each request. *)
From S2P Require Import Prelude Json JsonLaws Common External Merkle Accounts Txs Memory.
Open Scope Z_scope.

Abbreviation Ledger := (gmap string AccountState).
Abbreviation cells := (gmap string (dbBox ptr)).

(** ** The ledger behind a heap and a pointer map *)
Definition ledger_of (h : list AccountState) (m : cells) : Ledger :=
  omap (fun b => h !! content b) m.

Record wf_store (h : list AccountState) (m : cells) : Prop := {
  wf_valid k b : m !! k = Some b -> (content b < length h)%nat;
  wf_inj k k' b b' : m !! k = Some b -> m !! k' = Some b' -> content b = content b' -> k = k'
}.

(** [p] is the state of account [k] and of no other account. *)
Definition owned (m : cells) (k : string) (p : ptr) : Prop :=
  forall k' b', m !! k' = Some b' -> content b' = p -> k' = k.

Lemma lookup_ledger_of h m k : ledger_of h m !! k = m !! k ≫= (fun b => h !! content b).
Proof. apply lookup_omap. Qed.

Lemma ledger_None h m k : wf_store h m -> ledger_of h m !! k = None <-> m !! k = None.
Proof.
  intros Hwf. rewrite lookup_ledger_of. destruct (m !! k) as [b|] eqn:E; cbn; [|done].
  pose proof (wf_valid _ _ Hwf _ _ E) as Hv. apply lookup_lt_is_Some in Hv as [v ->]. done.
Qed.

Lemma ledger_Some h m k v : ledger_of h m !! k = Some v <->
  exists b, m !! k = Some b /\ h !! content b = Some v.
Proof. rewrite lookup_ledger_of. apply bind_Some. Qed.

Lemma owned_cell h m k b : wf_store h m -> m !! k = Some b -> owned m k (content b).
Proof. intros Hwf Hk k' b' Hk' He. by apply (wf_inj _ _ Hwf k' k b' b). Qed.

Lemma owned_fresh h m k p : wf_store h m -> (length h <= p)%nat -> owned m k p.
Proof. intros Hwf Hp k' b' Hk' <-. pose proof (wf_valid _ _ Hwf _ _ Hk'). lia. Qed.

Lemma wf_store_app h l m : wf_store h m -> wf_store (h ++ l) m.
Proof.
  intros Hwf. split; [|apply (wf_inj _ _ Hwf)].
  intros k b Hk. rewrite length_app. pose proof (wf_valid _ _ Hwf _ _ Hk). lia.
Qed.

Lemma ledger_app h l m : wf_store h m -> ledger_of (h ++ l) m = ledger_of h m.
Proof.
  intros Hwf. apply map_eq. intros k. rewrite !lookup_ledger_of.
  destruct (m !! k) as [b|] eqn:E; [|done]. cbn.
  by rewrite lookup_app_l by (by apply (wf_valid _ _ Hwf k)).
Qed.

Lemma wf_store_set h m p v : wf_store h m -> wf_store (<[p := v]> h) m.
Proof.
  intros Hwf. split; [|apply (wf_inj _ _ Hwf)].
  intros k b Hk. rewrite length_insert. by apply (wf_valid _ _ Hwf k).
Qed.

(** Writing through the pointer of account [k] updates that account only. *)
Lemma ledger_set h m k b v : wf_store h m -> m !! k = Some b ->
  ledger_of (<[content b := v]> h) m = <[k := v]> (ledger_of h m).
Proof.
  intros Hwf Hk. apply map_eq. intros k'. rewrite lookup_insert, !lookup_ledger_of.
  case_decide as Hkk.
  - subst k'. rewrite Hk. cbn. apply list_lookup_insert_eq. by apply (wf_valid _ _ Hwf k).
  - destruct (m !! k') as [b'|] eqn:E; [|done]. cbn. apply list_lookup_insert_ne.
    intros He. apply Hkk. by apply (wf_inj _ _ Hwf k k' b b').
Qed.

(** Writing through a pointer no account uses changes nothing. *)
Lemma ledger_set_unused h m k p v : wf_store h m -> m !! k = None -> owned m k p ->
  ledger_of (<[p := v]> h) m = ledger_of h m.
Proof.
  intros Hwf Hk Hown. apply map_eq. intros k'. rewrite !lookup_ledger_of.
  destruct (m !! k') as [b'|] eqn:E; [|done]. cbn. apply list_lookup_insert_ne.
  intros He. rewrite (Hown k' b' E (eq_sym He)) in E. congruence.
Qed.

Lemma wf_store_put h m k p : wf_store h m -> (p < length h)%nat -> owned m k p ->
  wf_store h (<[k := newDbBox p]> m).
Proof.
  intros Hwf Hp Hown. split.
  - intros k' b [[<- <-]|[_ Hk']]%lookup_insert_Some; [done|]. by apply (wf_valid _ _ Hwf k').
  - intros k1 k2 b1 b2 [[<- <-]|[Hn1 H1]]%lookup_insert_Some
      [[<- <-]|[Hn2 H2]]%lookup_insert_Some Hc; cbn in *; [done|..].
    + symmetry. by apply (Hown k2 b2).
    + by apply (Hown k1 b1).
    + by apply (wf_inj _ _ Hwf k1 k2 b1 b2).
Qed.

Lemma ledger_put h m k p v : h !! p = Some v ->
  ledger_of h (<[k := newDbBox p]> m) = <[k := v]> (ledger_of h m).
Proof.
  intros Hv. apply map_eq. intros k'. rewrite lookup_insert, !lookup_ledger_of, lookup_insert.
  by case_decide.
Qed.

(** ** The service *)
Definition ledger (s : MemoryService) : Ledger := ledger_of (heap s) (dbMap (stateMem s)).
Definition wf_mem (s : MemoryService) : Prop := wf_store (heap s) (dbMap (stateMem s)).
Definition idle (s : MemoryService) : Prop := stateCh s = [].

(** What the account requests leave alone. *)
Definition same_pool (s s' : MemoryService) : Prop :=
  mempool s' = mempool s /\ txCh s' = txCh s.

Lemma same_pool_refl s : same_pool s s.
Proof. done. Qed.
Lemma same_pool_trans s1 s2 s3 : same_pool s1 s2 -> same_pool s2 s3 -> same_pool s1 s3.
Proof. unfold same_pool. intuition congruence. Qed.
#[export] Hint Resolve same_pool_refl : go.

Lemma MemoryDb_Put_insert {C} k (p : C) md :
  dbMap (MemoryDb_Put k p md) = <[k := newDbBox p]> (dbMap md).
Proof. unfold MemoryDb_Put. by destruct (dbMap md !! k). Qed.

(** A service with one more account, behind a fresh pointer. *)
Definition with_account (k : string) (v : AccountState) (s : MemoryService) : MemoryService :=
  mkMemoryService (mempool s) (heap s ++ [v]) (MemoryDb_Put k (length (heap s)) (stateMem s))
    (txCh s) (stateCh s) (nextCh s).

Lemma wf_mem_new : wf_mem NewMemoryService.
Proof. by split. Qed.

Lemma with_account_wf k v s : wf_mem s -> wf_mem (with_account k v s).
Proof.
  intros Hwf. unfold wf_mem. cbn. rewrite MemoryDb_Put_insert. apply wf_store_put.
  - by apply wf_store_app.
  - rewrite length_app. cbn. lia.
  - by apply (owned_fresh (heap s)).
Qed.

Lemma with_account_ledger k v s : wf_mem s -> ledger (with_account k v s) = <[k := v]> (ledger s).
Proof.
  intros Hwf. unfold ledger. cbn. rewrite MemoryDb_Put_insert, (ledger_put _ _ _ _ v).
  - by rewrite ledger_app.
  - by rewrite list_lookup_middle.
Qed.
#[export] Hint Resolve wf_mem_new with_account_wf : go.

Section requests.
Context `{Base58}.

Definition enqueue (req : StateMemRequest) (s : MemoryService) : MemoryService :=
  mkMemoryService (mempool s) (heap s) (stateMem s) (txCh s) (stateCh s ++ [req])
    (S (nextCh s)).

Lemma GetAccountState_enqueue key s : (length (stateCh s) < stateCh_room)%nat ->
  Memory_GetAccountState key s
  = (Done (nextCh s), enqueue (mkStateMemRequest MemGet key None (Some (nextCh s))) s).
Proof.
  intros Hl. unfold Memory_GetAccountState, bind, new_chan, send_state. cbn -[Nat.ltb stateCh_room].
  by rewrite (proj2 (Nat.ltb_lt _ _)).
Qed.

Lemma PutAccountState_enqueue key p s : (length (stateCh s) < stateCh_room)%nat ->
  PutAccountState key p s
  = (Done (nextCh s), enqueue (mkStateMemRequest MemPut key (Some p) (Some (nextCh s))) s).
Proof.
  intros Hl. unfold PutAccountState, bind, new_chan, send_state. cbn -[Nat.ltb stateCh_room].
  by rewrite (proj2 (Nat.ltb_lt _ _)).
Qed.

Lemma send_full_blocked req s : (stateCh_room <= length (stateCh s))%nat ->
  send_state req s = (Blocked "send on stateCh", s).
Proof. intros Hl. unfold send_state. by rewrite (proj2 (Nat.ltb_ge _ _)). Qed.

Lemma recv_get_hit s pk st ch rest b :
  stateCh s = mkStateMemRequest MemGet (Some pk) st (Some ch) :: rest ->
  dbMap (stateMem s) !! Encode pk = Some b ->
  recv_state ch s = (Done (Some (mkResult (content b) None)), set_stateCh rest s).
Proof.
  intros Hq Hb. unfold recv_state, bind, get, modify. rewrite Hq. cbn.
  unfold bind, MemoryDb_Get, ret, get. cbn. rewrite Hb. cbn.
  by rewrite bool_decide_eq_true_2.
Qed.

Definition not_found (s : MemoryService) : Result ptr :=
  mkResult (S (length (heap s))) (Some "not found the key"%string).

Lemma recv_get_miss s pk st ch rest :
  stateCh s = mkStateMemRequest MemGet (Some pk) st (Some ch) :: rest ->
  dbMap (stateMem s) !! Encode pk = None ->
  recv_state ch s = (Done (Some (not_found s)),
    set_heap (heap s ++ [zero_state; zero_state]) (set_stateCh rest s)).
Proof.
  intros Hq Hb. unfold recv_state, bind, get, modify. rewrite Hq. cbn.
  unfold bind, MemoryDb_Get, ret, get. cbn. rewrite Hb. cbn.
  rewrite bool_decide_eq_true_2 by done. unfold not_found, set_heap. cbn.
  rewrite length_app, Nat.add_1_r, <- app_assoc. done.
Qed.

Lemma recv_put s pk p ch rest :
  stateCh s = mkStateMemRequest MemPut (Some pk) (Some p) (Some ch) :: rest ->
  recv_state ch s = (Done None,
    set_stateMem (MemoryDb_Put (Encode pk) p (stateMem s)) (set_stateCh rest s)).
Proof.
  intros Hq. unfold recv_state, bind, get, modify. rewrite Hq. cbn.
  unfold bind, ret, modify. cbn. by rewrite bool_decide_eq_true_2.
Qed.

(** A client that skipped a reply waits for ever on the next one. *)
Lemma recv_skipped s req ch ch' rest :
  stateCh s = req :: rest -> sr_ResultCh req = Some ch' -> ch <> ch' ->
  exists w s', recv_state ch s = (Blocked w, s').
Proof.
  intros Hq Hr Hne. unfold recv_state, bind, get, modify. rewrite Hq. cbn.
  destruct req as [k pk st rc]. cbn in Hr. subst rc. unfold handleState. cbn.
  destruct k, pk as [pk|], st as [st|]; cbn;
    try (rewrite bool_decide_eq_false_2 by congruence; eauto);
    unfold bind, MemoryDb_Get, ret, get, modify; cbn;
    try destruct (dbMap (stateMem s) !! Encode pk); cbn;
    rewrite bool_decide_eq_false_2 by congruence; eauto.
Qed.

(** Method calls through the pointer of an account. *)
Lemma call_method_run {A} (f : AccountState -> A * AccountState) p v s :
  heap s !! p = Some v ->
  call_method f p s = (Done (fst (f v)), set_heap (<[p := snd (f v)]> (heap s)) s).
Proof.
  intros Hp. unfold call_method, deref, bind, modify, ret. rewrite Hp.
  by destruct (f v) as [a v'].
Qed.
End requests.
