(* ===== verification/MempoolFacts.v ===== *)
(** The transaction pool: which transactions a block is made of, and the
    order in which queued pool requests take effect. *)
From S2P Require Import Prelude Json JsonLaws Common External Merkle Accounts Txs Memory.
Open Scope Z_scope.

(** ** Lemmas *)
Lemma nonce_less_strict_weak : strict_weak nonce_less.
Proof.
  unfold strict_weak, nonce_less. split_and!; intros *; rewrite ?Z.ltb_lt, ?Z.ltb_ge; lia.
Qed.

Lemma sorted_by_app {A} (less : A -> A -> bool) l1 l2 : sorted_by less (l1 ++ l2) ->
  sorted_by less l1 /\ forall a b, a ∈ l1 -> b ∈ l2 -> less b a = false.
Proof.
  unfold sorted_by. induction l1 as [|x l1 IH]; intros Hs.
  - split; [constructor|]. intros ? ? Ha. by apply elem_of_nil in Ha.
  - inversion Hs as [|?? Hs' Hx]; subst. destruct (IH Hs') as [Hl Hab].
    apply Forall_app in Hx as [Hx1 Hx2]. split; [by constructor|].
    intros a b [->|Ha]%elem_of_cons Hb; [|by apply Hab].
    by eapply (proj1 (Forall_forall _ _) Hx2).
Qed.

(** The effect of one pool request. *)
Definition apply_tx `{Base58} (pool : gmap string Transaction) (req : MempoolRequest)
  : gmap string Transaction :=
  match mr_Kind req, mr_Tx req, mr_Keys req with
  | MemAppend, Some tx, _ => Mempool_Append tx pool
  | MemRemove, _, Some keys => Mempool_Remove keys pool
  | _, _, _ => pool
  end.

Section pool_facts.
Context `{Base58}.

Lemma handleTx_apply req s :
  Memory_handleTx req s = (Done tt, set_mempool (apply_tx (mempool s) req) s).
Proof. unfold Memory_handleTx, apply_tx, modify, ret. destruct req as [[] [] []], s; done. Qed.

Lemma run_tx_cons req rest s : stateCh s = [] -> txCh s = req :: rest ->
  run_tx s = (Done tt, set_mempool (apply_tx (mempool s) req) (set_txCh rest s)).
Proof.
  intros Hi Hq. unfold run_tx, bind, get, modify. rewrite Hi, Hq. by rewrite handleTx_apply.
Qed.

Lemma run_tx_stuck s : stateCh s <> [] -> run_tx s = (Done tt, s).
Proof. intros Hi. unfold run_tx, bind, get. by destruct (stateCh s). Qed.

Lemma drain_tx_spec n : forall s, stateCh s = [] -> (length (txCh s) <= n)%nat ->
  drain_tx n s = (Done tt,
    set_txCh [] (set_mempool (fold_left apply_tx (txCh s) (mempool s)) s)).
Proof.
  induction n as [|n IH]; intros s Hi Hl.
  - destruct s as [p h m [|] sq nc]; [done|cbn in Hl; lia].
  - cbn [drain_tx]. destruct (txCh s) as [|req rest] eqn:E.
    + assert (run_tx s = (Done tt, s)) as Hr by (unfold run_tx, bind, get; by rewrite Hi, E).
      rewrite (bind_done _ _ _ _ _ Hr), IH by (rewrite ?E; cbn; (done || lia)). by rewrite E.
    + rewrite (bind_done _ _ _ _ _ (run_tx_cons _ _ _ Hi E)).
      rewrite IH by (destruct s; cbn in *; (done || lia)). by destruct s.
Qed.

Lemma drain_tx_stuck n s : stateCh s <> [] -> drain_tx n s = (Done tt, s).
Proof.
  intros Hi. induction n as [|n IH]; [done|]. cbn [drain_tx].
  by rewrite (bind_done _ _ _ _ _ (run_tx_stuck s Hi)).
Qed.

(** Room in the queue. *)
Lemma send_tx_queued req s : (length (txCh s) < txCh_room)%nat ->
  send_tx req s = (Done tt, set_txCh (txCh s ++ [req]) s).
Proof. intros Hl. unfold send_tx, bind, get. by rewrite (proj2 (Nat.ltb_lt _ _) Hl). Qed.

Lemma send_tx_full req s : (txCh_room <= length (txCh s))%nat -> stateCh s <> [] ->
  exists w, send_tx req s = (Blocked w, s).
Proof.
  intros Hl Hi. unfold send_tx, bind, get. rewrite (proj2 (Nat.ltb_ge _ _) Hl).
  destruct (stateCh s); [done|by eexists].
Qed.

(** A service with nothing to hand over: sending either queues the request, or
    first lets the service handle the oldest one; the pool the queue stands for
    is the same. *)
Lemma send_tx_spec req s : stateCh s = [] -> (length (txCh s) <= txCh_room)%nat ->
  exists s', send_tx req s = (Done tt, s')
    /\ (length (txCh s') <= txCh_room)%nat
    /\ fold_left apply_tx (txCh s') (mempool s')
       = apply_tx (fold_left apply_tx (txCh s) (mempool s)) req
    /\ stateCh s' = stateCh s /\ heap s' = heap s /\ stateMem s' = stateMem s.
Proof.
  intros Hi Hl. destruct (decide (length (txCh s) < txCh_room)%nat) as [Hlt|Hge].
  - exists (set_txCh (txCh s ++ [req]) s). split; [by apply send_tx_queued|].
    cbn [mempool txCh set_txCh stateCh heap stateMem].
    rewrite length_app, fold_left_app. split_and!; (done || cbn in *; lia).
  - unfold send_tx, bind at 1, get. rewrite (proj2 (Nat.ltb_ge _ _)) by lia. rewrite Hi.
    destruct (txCh s) as [|r0 rest] eqn:E; [unfold txCh_room in Hge; cbn in Hge; lia|].
    unfold bind at 1, modify at 1. rewrite (bind_done _ _ _ _ _ (handleTx_apply r0 _)).
    eexists. split; [done|]. cbn [mempool txCh set_txCh set_mempool stateCh heap stateMem].
    rewrite length_app, fold_left_app. split_and!; (done || cbn in *; lia).
Qed.
End pool_facts.

Fixpoint send_all `{Base58} (reqs : list MempoolRequest) : M MemoryService unit :=
  match reqs with
  | [] => ret tt
  | req :: reqs' => let* _ := send_tx req in send_all reqs'
  end.

(** * Properties *)
Section pool_properties.
Context `{Base58, ExpSlices, MapOrder, !ExpSlicesLaws, !MapOrderLaws}.

(** C37: [GetTxsForBlock] returns no list for an empty pool; otherwise it
    returns the largest power of two of transactions that the pool holds, each
    of them from the pool, in order of their nonces, and none with a larger
    nonce than one that is left behind. *)
Theorem Mempool_GetTxsForBlock_correct pool : Z.of_nat (size pool) < 2 ^ 62 ->
  (pool = ∅ /\ Mempool_GetTxsForBlock pool = Done None)
  \/ exists k l rest, Mempool_GetTxsForBlock pool = Done (Some l)
       /\ length l = (2 ^ k)%nat /\ (size pool < 2 * 2 ^ k)%nat
       /\ l ++ rest ≡ₚ (map_to_list pool).*2
       /\ sorted_by nonce_less l
       /\ (forall a b, a ∈ l -> b ∈ rest ->
             td_Nonce (tx_InnerData a) <= td_Nonce (tx_InnerData b)).
Proof.
  intros Hmax. unfold Mempool_GetTxsForBlock, Mempool_Len.
  pose proof (maps_Values_perm pool) as Hp.
  assert (length (maps_Values pool) = size pool) as Hl.
  { rewrite Hp, length_fmap. apply length_map_to_list. }
  destruct (decide (size pool = 0)%nat) as [E0|E0].
  { left. split; [by apply map_size_empty_inv|]. by rewrite E0. }
  right. rewrite (proj2 (Z.eqb_neq _ _)) by lia.
  destruct (decide (size pool = 1)%nat) as [E1|E1].
  - exists 0%nat, (maps_Values pool), []. rewrite E1. unfold Mempool_get, len. rewrite Hl, E1.
    split_and!; try done; [cbn; lia|by rewrite app_nil_r| |].
    + destruct (maps_Values pool) as [|x [|]]; try (cbn in Hl; lia). repeat constructor.
    + intros a b _ Hb. by apply elem_of_nil in Hb.
  - rewrite (proj2 (Z.eqb_neq (Z.of_nat _) 1)) by lia.
    destruct (LastPowerOf2_loop_spec 64 (Z.of_nat (size pool)) 0 0) as (k & Hk & Hk62 & Hlo & Hhi);
      [lia..|by left|lia|].
    unfold LastPowerOf2. rewrite Hk. cbn [outcome_bind].
    assert (1 <= k) as Hk1.
    { destruct (decide (k = 0)) as [->|]; [|lia]. cbn in Hhi. lia. }
    pose proof (Z.pow_le_mono_r 2 1 k ltac:(lia) Hk1) as Hp2. cbn in Hp2.
    unfold Mempool_get, len. rewrite Hl.
    rewrite (proj2 (Z.leb_gt _ _)), (proj2 (Z.ltb_ge _ _)), (proj2 (Z.eqb_neq _ _)) by lia.
    set (l := SortFunc nonce_less (maps_Values pool)). set (n := Z.to_nat (2 ^ k)).
    assert (n = 2 ^ Z.to_nat k)%nat as Hn.
    { subst n. rewrite <- (Z2Nat.id k) at 1 by lia.
      rewrite <- (Nat2Z.inj_pow 2). apply Nat2Z.id. }
    assert (l ≡ₚ maps_Values pool) as Hlp by apply SortFunc_perm.
    pose proof (SortFunc_sorted nonce_less (maps_Values pool) nonce_less_strict_weak) as Hs.
    change (SortFunc _ _) with l in Hs. rewrite <- (take_drop n l) in Hs.
    apply sorted_by_app in Hs as [Hs Hab].
    exists (Z.to_nat k), (take n l), (drop n l). rewrite <- Hn.
    split_and!; [done| | |by rewrite take_drop, Hlp|done|].
    + rewrite length_take, (Permutation_length Hlp), Hl. subst n. lia.
    + subst n. rewrite Z.pow_add_r in Hhi by lia. lia.
    + intros a b Ha Hb. specialize (Hab a b Ha Hb). unfold nonce_less in Hab.
      apply Z.ltb_ge in Hab. lia.
Qed.

(** Pool requests: while the service has no reply to hand over, they take effect
    once each and in the order they were sent, whatever was queued before and
    although the queue holds only ten of them, and sending never blocks.  While
    it waits for a reply to be read, none takes effect, and the eleventh sender
    waits with it. *)
Theorem send_tx_in_order reqs s : (length (txCh s) <= txCh_room)%nat ->
  match stateCh s with
  | [] =>
      exists s', (let* _ := send_all reqs in drain_tx txCh_room) s = (Done tt, s')
        /\ txCh s' = [] /\ mempool s' = fold_left apply_tx (txCh s ++ reqs) (mempool s)
        /\ stateCh s' = [] /\ heap s' = heap s /\ stateMem s' = stateMem s
  | _ =>
      (forall n, drain_tx n s = (Done tt, s))
      /\ if decide (length (txCh s) + length reqs <= txCh_room)%nat
         then send_all reqs s = (Done tt, set_txCh (txCh s ++ reqs) s)
         else exists w, send_all reqs s = (Blocked w, set_txCh (take txCh_room (txCh s ++ reqs)) s)
  end.
Proof.
  intros Hl. destruct (stateCh s) as [|req0 rest0] eqn:Hi.
  - rewrite fold_left_app.
    assert (exists s1, send_all reqs s = (Done tt, s1) /\ (length (txCh s1) <= txCh_room)%nat
      /\ fold_left apply_tx (txCh s1) (mempool s1)
         = fold_left apply_tx reqs (fold_left apply_tx (txCh s) (mempool s))
      /\ stateCh s1 = [] /\ heap s1 = heap s /\ stateMem s1 = stateMem s)
      as (s1 & Hs & Hl1 & Hf & Hq & Hh & Hm).
    { revert s Hl Hi. induction reqs as [|req reqs IH]; intros s Hl Hi; [by exists s|].
      destruct (send_tx_spec req s Hi Hl) as (s1 & Hs & Hl1 & Hf & Hq & Hh & Hm).
      destruct (IH s1 Hl1) as (s2 & Hs2 & Hl2 & Hf2 & Hq2 & Hh2 & Hm2); [congruence|].
      exists s2. cbn [send_all fold_left]. rewrite (bind_done _ _ _ _ _ Hs), <- Hf.
      split_and!; congruence. }
    rewrite (bind_done _ _ _ _ _ Hs), drain_tx_spec by done. eexists. by split_and!.
  - assert (stateCh s <> []) as Hne by (by rewrite Hi). split; [intros n; by apply drain_tx_stuck|].
    clear Hi. revert s Hl Hne. induction reqs as [|req reqs IH]; intros s Hl Hne.
    { rewrite app_nil_r, decide_True by (cbn; lia). by destruct s. }
    cbn [send_all length]. destruct (decide (length (txCh s) < txCh_room)%nat) as [Hlt|Hge].
    + rewrite (bind_done _ _ _ _ _ (send_tx_queued req s Hlt)).
      specialize (IH (set_txCh (txCh s ++ [req]) s)). cbn [txCh set_txCh stateCh] in IH.
      rewrite <- app_assoc, length_app in IH. cbn [length app] in IH.
      replace (length (txCh s) + 1 + length reqs)%nat with (length (txCh s) + S (length reqs))%nat in IH by lia.
      apply IH; [lia|done].
    + destruct (send_tx_full req s) as [w Hw]; [lia|done|]. rewrite decide_False by lia.
      exists w. rewrite (bind_blocked _ _ _ _ _ Hw). f_equal.
      replace txCh_room with (length (txCh s)) by lia. rewrite take_app_length. by destruct s.
Qed.

(** Once the pool has handled it, an appended transaction is contained
    under its hash and no other transaction's presence changes; a removed key
    is not contained, and no other key's presence changes. *)
Theorem Mempool_Contains_correct tx keys key pool :
  Mempool_Contains key (Mempool_Append tx pool)
  = bool_decide (key = Encode (raw (tx_Hash tx))) || Mempool_Contains key pool
  /\ Mempool_Contains key (Mempool_Remove keys pool)
     = negb (bool_decide (key ∈ keys)) && Mempool_Contains key pool.
Proof.
  unfold Mempool_Contains. split.
  - unfold Mempool_Append. destruct (decide (key = Encode (raw (tx_Hash tx)))) as [->|Hne].
    + rewrite lookup_insert_eq, !bool_decide_eq_true_2 by eauto. done.
    + rewrite lookup_insert_ne by done. by rewrite (bool_decide_eq_false_2 _ Hne).
  - unfold Mempool_Remove. revert pool. induction keys as [|k keys IH]; intros pool; cbn.
    + rewrite (bool_decide_eq_false_2 (key ∈ [])) by apply not_elem_of_nil. done.
    + rewrite IH. destruct (decide (key = k)) as [->|Hne].
      * rewrite lookup_delete_eq, (bool_decide_eq_false_2 (is_Some None)) by (by intros []).
        rewrite (bool_decide_eq_true_2 (k ∈ k :: keys)) by (constructor). by rewrite andb_false_r.
      * rewrite lookup_delete_ne by done. f_equal. f_equal. apply bool_decide_ext.
        rewrite elem_of_cons. tauto.
Qed.
End pool_properties.

Section pool_witnesses.
Import Toy.

Definition demo_entry (h : byte) (nonce : Z) : Transaction :=
  mkTransaction (Some [h]) (mkTransactionData None None nonce None 1) false.

Definition demo_pool : gmap string Transaction :=
  fold_left (fun p tx => Mempool_Append tx p)
    [demo_entry x01 9; demo_entry x02 4; demo_entry x03 6] ∅.

Lemma Mempool_GetTxsForBlock_correct_witness :
  exists l, Mempool_GetTxsForBlock demo_pool = Done (Some l) /\ sorted_by nonce_less l.
Proof.
  destruct (Mempool_GetTxsForBlock_correct demo_pool) as [[He _]|(k & l & rest & Hg & _ & _ & _ & Hs & _)].
  - by vm_compute.
  - vm_compute in He. discriminate He.
  - exists l. split; [exact Hg|exact Hs].
Defined.

Lemma send_tx_in_order_witness :
  exists s', (let* _ := send_all [mkMempoolRequest MemAppend (Some (demo_entry x01 9)) None] in
              drain_tx txCh_room) NewMemoryService = (Done tt, s')
    /\ size (mempool s') = 1%nat.
Proof.
  destruct (send_tx_in_order [mkMempoolRequest MemAppend (Some (demo_entry x01 9)) None]
              NewMemoryService) as (s' & Hs & _ & Hp & _); [cbn; lia|].
  exists s'. split; [exact Hs|]. rewrite Hp. vm_compute. reflexivity.
Defined.
End pool_witnesses.
