(* ===== verification/StateHash.v ===== *)
(** The hash of the account states ([GetStateHash]): a function of the ledger
    alone, although it is computed by iterating over a Go map and sorting with
    an unstable sort, and a commitment to the ledger. *)
From S2P Require Import Prelude Json JsonLaws Common External Merkle Accounts Txs Memory MemoryFacts.
From stdpp Require Import sorting.
Open Scope Z_scope.

(** ** Leaves *)
Section leaves.
Context {sha : Sha3} {b58 : Base58}.

Definition state_bytes (v : AccountState) : bytes :=
  match Marshal v with Ok b => b | Err _ => [] end.

Definition leaf_node (kv : string * AccountState) : option MerkleNode :=
  Some (mkMerkleNode None None (Some (Sum256 (Decode (fst kv) ++ state_bytes (snd kv))))).

Definition fake_node : option MerkleNode := leaf_node (fakeKey, zero_state).

Lemma getMerkleNode_leaf v k : getMerkleNode v k =
  Ok (mkMerkleNode None None (Some (Sum256 (Decode k ++ state_bytes v)))).
Proof. done. Qed.

Definition entry (h : list AccountState) (kb : string * dbBox ptr) : string * AccountState :=
  (fst kb, default zero_state (h !! content (snd kb))).

Lemma merkle_nodes_run s entries :
  Forall (fun kb => (content (snd kb) < length (heap s))%nat) entries ->
  merkle_nodes entries s = (Done (Ok (map (fun kb => leaf_node (entry (heap s) kb)) entries)), s).
Proof.
  induction entries as [|[k b] entries IH]; intros Hf; [done|].
  apply Forall_cons in Hf as [Hb Hf]. cbn [merkle_nodes].
  apply lookup_lt_is_Some in Hb as [v Hv]. cbn [snd] in Hv.
  rewrite (bind_done _ _ s v s) by (unfold deref; by rewrite Hv). rewrite getMerkleNode_leaf.
  rewrite (bind_done _ _ _ _ _ (IH Hf)). cbn [map].
  assert (entry (heap s) (k, b) = (k, v)) as -> by (unfold entry; cbn; by rewrite Hv). done.
Qed.

(** The entries of the pointer map stand for those of the ledger. *)
Lemma map_to_list_ledger h m : wf_store h m ->
  map (entry h) (map_to_list m) ≡ₚ map_to_list (ledger_of h m).
Proof.
  intros Hwf. apply NoDup_Permutation.
  - apply (NoDup_fmap_1 fst). change (map (entry h) (map_to_list m)) with (entry h <$> map_to_list m).
    rewrite <- list_fmap_compose.
    replace ((fst ∘ entry h) <$> map_to_list m) with ((map_to_list m).*1) by done.
    apply NoDup_fst_map_to_list.
  - apply NoDup_map_to_list.
  - intros [k v]. rewrite elem_of_map_to_list, ledger_Some.
    change (map (entry h) (map_to_list m)) with (entry h <$> map_to_list m). rewrite list_elem_of_fmap.
    split.
    + intros ([k' b] & [= -> ->] & Hb%elem_of_map_to_list). exists b. split; [done|].
      pose proof (wf_valid _ _ Hwf _ _ Hb) as [v Hv]%lookup_lt_is_Some. cbn. by rewrite Hv.
    + intros (b & Hb & Hv). exists (k, b). split; [unfold entry; cbn; by rewrite Hv|].
      by apply elem_of_map_to_list.
Qed.

(** The order of the nodes by hash is total on leaves. *)
Lemma node_less_strict_weak : strict_weak node_less.
Proof.
  unfold strict_weak, node_less. split_and!; intros *; rewrite ?Z.ltb_lt, ?Z.ltb_ge; lia.
Qed.

Lemma node_less_leaf_antisym `{!Sha3Laws} kv1 kv2 :
  node_less (leaf_node kv1) (leaf_node kv2) = false ->
  node_less (leaf_node kv2) (leaf_node kv1) = false -> leaf_node kv1 = leaf_node kv2.
Proof.
  unfold node_less, leaf_node. cbn [node_hash Data raw default id]. rewrite !Z.ltb_ge. intros H12 H21.
  do 3 f_equal. apply be_decode_inj; [by rewrite !length_Sum256|lia].
Qed.

(** Sorted lists of the same leaves are equal. *)
Lemma sorted_leaves_unique `{!Sha3Laws} (kvs : list (string * AccountState)) l1 l2 :
  sorted_by node_less l1 -> sorted_by node_less l2 ->
  l1 ≡ₚ map leaf_node kvs -> l2 ≡ₚ map leaf_node kvs -> l1 = l2.
Proof.
  intros S1 S2 P1 P2. eapply StronglySorted_unique_strong; [|exact S1|exact S2|by rewrite P1].
  cbn. intros x1 x2 E1 E2 L12 L21. rewrite P1 in E1. rewrite P2 in E2.
  apply list_elem_of_fmap in E1 as (kv1 & -> & _). apply list_elem_of_fmap in E2 as (kv2 & -> & _).
  by apply node_less_leaf_antisym.
Qed.
End leaves.

(** ** The whole computation *)
Section state_hash.
Context {sha : Sha3} {b58 : Base58}.

Definition padded (n : nat) (nodes : list (option MerkleNode)) : list (option MerkleNode) :=
  nodes ++ replicate (n - length nodes) fake_node.

Lemma NextPowerOf2_nat n : Z.of_nat n <= 2 ^ 62 ->
  exists d, NextPowerOf2 (Z.of_nat n) = Done (Z.of_nat (2 ^ d)) /\ (n <= 2 ^ d)%nat.
Proof.
  intros Hn. destruct (NextPowerOf2_loop_spec 62 64 (Z.of_nat n) ltac:(lia) Hn 0)
    as (k & Hk & Hk0 & Hle & _); [lia..|].
  exists (Z.to_nat k). unfold NextPowerOf2. rewrite Hk, Nat2Z.inj_pow, Z2Nat.id by lia.
  split; [done|]. apply Nat2Z.inj_le. rewrite Nat2Z.inj_pow, Z2Nat.id by lia. done.
Qed.

Lemma all_nodes_padded n kvs nodes : nodes ≡ₚ map leaf_node kvs -> all_nodes (padded n nodes).
Proof.
  intros Hp. unfold padded, all_nodes. apply Forall_app. split.
  - rewrite Hp. apply Forall_map, Forall_true. intros. by eexists.
  - apply Forall_replicate. by eexists.
Qed.

Lemma GetStateHash_run {es : ExpSlices} {mo : MapOrder} `{!ExpSlicesLaws, !MapOrderLaws} s :
  wf_mem s -> Z.of_nat (size (ledger s)) <= 2 ^ 62 ->
  exists d nodes n s',
    NextPowerOf2 (Z.of_nat (size (ledger s))) = Done (Z.of_nat (2 ^ d))
    /\ (size (ledger s) <= 2 ^ d)%nat
    /\ nodes ≡ₚ map leaf_node (map_to_list (ledger s)) /\ sorted_by node_less nodes
    /\ NewMerkleTreeFromNodes (padded (2 ^ d) nodes) = Done (mkMerkleTree (Some n))
    /\ raw (Data n) = tree_hash d (map node_hash (padded (2 ^ d) nodes))
    /\ GetStateHash s = (Done (Ok (Data n)), s')
    /\ ledger s' = ledger s /\ wf_mem s' /\ same_pool s s' /\ stateCh s' = stateCh s
    /\ GetMerkleNodes s = (Done (Ok (padded (2 ^ d) nodes)), s').
Proof.
  intros Hwf Hmax. pose proof (map_to_list_ledger _ _ Hwf) as Hent.
  assert (size (dbMap (stateMem s)) = size (ledger s)) as Hsz.
  { rewrite <- !length_map_to_list. unfold ledger. rewrite <- Hent. by rewrite length_map. }
  destruct (NextPowerOf2_nat _ Hmax) as (d & Hd & Hle).
  set (entries := map_range (dbMap (stateMem s))).
  set (nodes := SortFunc node_less (map (fun kb => leaf_node (entry (heap s) kb)) entries)).
  assert (nodes ≡ₚ map leaf_node (map_to_list (ledger s))) as Hperm.
  { subst nodes entries. rewrite SortFunc_perm. unfold ledger. rewrite <- Hent, map_map.
    by rewrite map_range_perm. }
  assert (length nodes = size (ledger s)) as Hlen.
  { rewrite (Permutation_length Hperm), length_map. apply length_map_to_list. }
  destruct (NewMerkleTreeFromNodes_spec d (padded (2 ^ d) nodes)) as (n & Hn & Hh).
  { unfold padded. rewrite length_app, length_replicate. lia. }
  { by eapply all_nodes_padded. }
  assert (Forall (fun kb => (content (snd kb) < length (heap s))%nat) entries) as Hval.
  { subst entries. rewrite map_range_perm. apply Forall_forall. intros [k b] Hin.
    apply elem_of_map_to_list in Hin. apply (wf_valid _ _ Hwf _ _ Hin). }
  assert (exists s', GetMerkleNodes s = (Done (Ok (padded (2 ^ d) nodes)), s')
    /\ ledger s' = ledger s /\ wf_mem s' /\ same_pool s s' /\ stateCh s' = stateCh s)
    as (s' & Hg & HL & HW & HP & HQ).
  { unfold GetMerkleNodes, bind at 1, get. rewrite Hsz, Hd. unfold bind at 1, lift.
    rewrite (bind_done _ _ _ _ _ (merkle_nodes_run s entries Hval)). change (SortFunc _ _) with nodes.
    unfold len. rewrite Hlen, Nat2Z.id.
    destruct (Z.ltb_spec (Z.of_nat (size (ledger s))) (Z.of_nat (2 ^ d))) as [Hlt|Hge].
    - unfold bind at 1, alloc. erewrite (bind_done (deref _)).
      2:{ unfold deref. cbn [heap set_heap]. by rewrite list_lookup_middle. }
      rewrite getMerkleNode_leaf. eexists. split; [unfold padded; rewrite Hlen; reflexivity|].
      split_and!; [by apply ledger_app|by apply wf_store_app|done|done].
    - exists s. split; [|done]. unfold padded. rewrite Hlen.
      replace (2 ^ d - size (ledger s))%nat with 0%nat by lia. by rewrite app_nil_r. }
  exists d, nodes, n, s'. split_and!; try done.
  - by apply SortFunc_sorted, node_less_strict_weak.
  - unfold GetStateHash at 1. rewrite (bind_done _ _ _ _ _ Hg). unfold bind at 1, lift. by rewrite Hn.
Qed.
End state_hash.

Lemma padded_length32 {sha : Sha3} {b58 : Base58} `{!Sha3Laws} n l kvs : l ≡ₚ map leaf_node kvs ->
  Forall (fun h => length h = 32%nat) (map node_hash (padded n l)).
Proof.
  intros Hp. unfold padded. rewrite map_app. apply Forall_app. split.
  - rewrite Hp, map_map. apply Forall_map, Forall_true. intros. apply length_Sum256.
  - apply Forall_map, Forall_replicate, length_Sum256.
Qed.

(** Computing the hash changes no account. *)
Record hash_leaves (s s' : MemoryService) : Prop := {
  hl_ledger : ledger s' = ledger s;
  hl_wf : wf_mem s';
  hl_pool : same_pool s s';
  hl_queue : stateCh s' = stateCh s
}.

Lemma GetStateHash_total {sha : Sha3} {b58 : Base58} {es : ExpSlices} {mo : MapOrder}
  `{!Sha3Laws, !ExpSlicesLaws, !MapOrderLaws} s :
  wf_mem s -> Z.of_nat (size (ledger s)) <= 2 ^ 62 ->
  exists h s', GetStateHash s = (Done (Ok h), s') /\ hash_leaves s s' /\ length (raw h) = 32%nat.
Proof.
  intros W Hmax. destruct (GetStateHash_run s W Hmax)
    as (d & l & n & s' & _ & B & P & _ & _ & T & G & ? & ? & ? & ? & _).
  exists (Data n), s'. split; [done|]. split; [by split|]. rewrite T. apply length_tree_hash.
  - unfold padded. rewrite length_map, length_app, length_replicate, (Permutation_length P), length_map,
      length_map_to_list. lia.
  - by eapply padded_length32.
Qed.

Lemma GetStateHash_same {sha : Sha3} {b58 : Base58} {es : ExpSlices} {mo : MapOrder}
  `{!Sha3Laws, !ExpSlicesLaws, !MapOrderLaws} s1 s2 h s1' :
  wf_mem s1 -> wf_mem s2 -> ledger s1 = ledger s2 -> Z.of_nat (size (ledger s1)) <= 2 ^ 62 ->
  GetStateHash s1 = (Done (Ok h), s1') ->
  exists s2', GetStateHash s2 = (Done (Ok h), s2') /\ hash_leaves s2 s2'.
Proof.
  intros W1 W2 HL Hmax R1.
  destruct (GetStateHash_run s1 W1 Hmax) as (d1 & l1 & n1 & ? & D1 & _ & P1 & S1 & N1 & _ & G1 & _).
  rewrite HL in Hmax, D1, P1.
  destruct (GetStateHash_run s2 W2 Hmax) as (d2 & l2 & n2 & s2' & D2 & _ & P2 & S2 & N2 & _ & G2 & ? & ? & ? & ? & _).
  assert (2 ^ d1 = 2 ^ d2)%nat as Hd by (rewrite D1 in D2; injection D2 as D2; by apply Nat2Z.inj).
  pose proof (sorted_leaves_unique _ _ _ S1 S2 P1 P2) as ->. rewrite Hd, N2 in N1. injection N1 as ->.
  rewrite R1 in G1. injection G1 as -> _. exists s2'. by split_and!; [|split].
Qed.

(** A hash that is returned is the hash of a ledger of representable size. *)
Lemma GetStateHash_size {sha : Sha3} {b58 : Base58} {es : ExpSlices} {mo : MapOrder} s r s' :
  wf_mem s -> GetStateHash s = (Done r, s') -> Z.of_nat (size (ledger s)) <= 2 ^ 62.
Proof.
  intros Hwf Hr. pose proof (map_to_list_ledger _ _ Hwf) as Hent.
  assert (size (dbMap (stateMem s)) = size (ledger s)) as Hsz.
  { rewrite <- !length_map_to_list. unfold ledger. rewrite <- Hent. by rewrite length_map. }
  destruct (decide (Z.of_nat (size (ledger s)) <= 2 ^ 62)) as [|Hgt]; [done|exfalso].
  unfold GetStateHash, GetMerkleNodes in Hr. unfold bind at 1 2, get in Hr.
  rewrite Hsz in Hr. unfold bind at 1, lift, NextPowerOf2 in Hr.
  by rewrite NextPowerOf2_loop_diverges in Hr by lia.
Qed.

(** ** The ledger under the hash *)
Section commitment.
Context {sha : Sha3} {b58 : Base58} `{!Sha3Laws, !Base58Laws}.

(** Account keys are encoded public keys. *)
Definition keys_ok (L : Ledger) : Prop :=
  map_Forall (fun k v => u64_state v /\ exists pk, length pk = 32%nat /\ k = Encode pk) L.

(** The strings hashed for an account and for all accounts, and those hashed
    for the tree over the service's nodes. *)
Definition leaf_input (kv : string * AccountState) : bytes := Decode kv.1 ++ state_bytes kv.2.
Definition ledger_inputs (L : Ledger) : list bytes := map leaf_input (map_to_list L).
Definition state_inputs {es : ExpSlices} {mo : MapOrder} (s : MemoryService) : list bytes :=
  ledger_inputs (ledger s) ++
  match GetMerkleNodes s with
  | (Done (Ok nodes), _) => tree_inputs (Nat.log2 (length nodes)) (map node_hash nodes)
  | _ => []
  end.

Lemma leaf_input_in (L : Ledger) k v : L !! k = Some v -> leaf_input (k, v) ∈ ledger_inputs L.
Proof. intros Hk. apply list_elem_of_fmap. exists (k, v). split; [done|]. by apply elem_of_map_to_list. Qed.

Lemma leaf_node_inj k1 v1 k2 v2 pk1 pk2 :
  u64_state v1 -> u64_state v2 -> length pk1 = 32%nat -> length pk2 = 32%nat ->
  k1 = Encode pk1 -> k2 = Encode pk2 ->
  node_hash (leaf_node (k1, v1)) = node_hash (leaf_node (k2, v2)) ->
  (k1 = k2 /\ v1 = v2) \/ leaf_input (k1, v1) <> leaf_input (k2, v2).
Proof.
  intros W1 W2 L1 L2 -> -> He. unfold leaf_input. cbn [fst snd]. rewrite !Decode_Encode. unfold leaf_node in He. cbn [node_hash Data raw default id fst snd] in He. rewrite !Decode_Encode in He.
  match type of He with Sum256 ?x = Sum256 ?y =>
    destruct (decide (x = y)) as [Hx|]; [|by right] end.
  apply app_inj_1 in Hx as [-> Hs]; [|congruence]. left. split; [done|].
  apply (Marshal_inj v1 v2); [exact W1|exact W2|].
  assert (forall v : AccountState, Marshal v = Ok (state_bytes v)) as M by done.
  rewrite !M. congruence.
Qed.

Lemma leaves_subset L1 L2 kvs : keys_ok L1 -> keys_ok L2 ->
  (forall kv, kv ∈ kvs -> L1 !! (fst kv) = Some (snd kv)) ->
  (forall h, h ∈ map (fun kv => node_hash (leaf_node kv)) kvs ->
     h ∈ map (fun kv => node_hash (leaf_node kv)) (map_to_list L2)) ->
  (forall kv, kv ∈ kvs -> L2 !! (fst kv) = Some (snd kv))
  \/ collision (ledger_inputs L1) (ledger_inputs L2).
Proof.
  intros K1 K2. induction kvs as [|[k v] kvs IH]; intros Hin Hh.
  { left. intros kv Hkv. by apply elem_of_nil in Hkv. }
  destruct IH as [IH|]; [|..|by right].
  { intros kv Hkv. apply Hin. by constructor. }
  { intros h Hkv. apply Hh. cbn. by constructor. }
  destruct (K1 k v) as (W1 & pk1 & P1 & E1); [apply (Hin (k, v)); constructor|].
  pose proof (leaf_input_in L1 k v (Hin (k, v) ltac:(constructor))) as I1.
  destruct (proj1 (list_elem_of_fmap _ _ _) (Hh (node_hash (leaf_node (k, v))) ltac:(cbn; constructor)))
    as ([k' v'] & He & Hin').
  apply elem_of_map_to_list in Hin'. destruct (K2 _ _ Hin') as (W2 & pk2 & P2 & E2).
  destruct (leaf_node_inj _ _ _ _ _ _ W1 W2 P1 P2 E1 E2 He) as [[<- <-]|Hne]; [left|right].
  2:{ exists (leaf_input (k, v)), (leaf_input (k', v')). split_and!; [done|by apply leaf_input_in|done|].
      unfold leaf_node in He. cbn [node_hash Data raw default id] in He. exact He. }
  intros kv [->|Hkv]%elem_of_cons; [done|by apply IH].
Qed.
End commitment.

(** An account that only one of two ledgers has shows in the hash, when the
    trees have the same height: the leaf it adds is neither that of another
    account nor the one that fills up the tree, or strings collide. *)
Section entries.
Context {sha : Sha3} {b58 : Base58} {es : ExpSlices} {mo : MapOrder}
  `{!Sha3Laws, !Base58Laws, !ExpSlicesLaws, !MapOrderLaws}.

Lemma state_bytes_long v : u64_state v -> (length (state_bytes zero_state) <= length (state_bytes v))%nat.
Proof.
  intros [HN HB].
  assert (length (state_bytes zero_state) = 23)%nat as -> by (vm_compute; reflexivity).
  unfold state_bytes. destruct (Marshal v) as [b|] eqn:E; [|discriminate E]. injection E as <-.
  unfold json_codec, AccountState_json, print. cbn -[format_uint]. rewrite !length_app. cbn [length].
  destruct (format_uint_spec _ (proj1 HN)) as (_ & (? & ? & -> & _) & _).
  destruct (format_uint_spec _ (proj1 HB)) as (_ & (? & ? & -> & _) & _). cbn. lia.
Qed.

Lemma fake_input_ne pk v : u64_state v -> length pk = 32%nat -> (length (Decode fakeKey) < 32)%nat ->
  leaf_input (Encode pk, v) <> leaf_input (fakeKey, zero_state).
Proof.
  unfold leaf_input. cbn [fst snd]. rewrite Decode_Encode. intros U Hl Hf He. apply (f_equal length) in He.
  rewrite !length_app in He. pose proof (state_bytes_long v U). lia.
Qed.

Lemma GetStateHash_entry s1 s2 h1 h2 s1' s2' pk :
  wf_mem s1 -> wf_mem s2 -> keys_ok (ledger s1) -> keys_ok (ledger s2) ->
  NextPowerOf2 (Z.of_nat (size (ledger s1))) = NextPowerOf2 (Z.of_nat (size (ledger s2))) ->
  GetStateHash s1 = (Done (Ok h1), s1') -> GetStateHash s2 = (Done (Ok h2), s2') ->
  is_Some (ledger s1 !! Encode pk) -> ledger s2 !! Encode pk = None -> (length (Decode fakeKey) < 32)%nat ->
  raw h1 = raw h2 -> collision (state_inputs s1) (leaf_input (fakeKey, zero_state) :: state_inputs s2).
Proof.
  intros W1 W2 K1 K2 Hd R1 R2 [v Hv] Hn Hfk He.
  pose proof (GetStateHash_size _ _ _ W1 R1) as M1. pose proof (GetStateHash_size _ _ _ W2 R2) as M2.
  destruct (GetStateHash_run s1 W1 M1) as (d & l1 & n1 & ? & D1 & B1 & P1 & _ & _ & T1 & G1 & _ & _ & _ & _ & N1).
  destruct (GetStateHash_run s2 W2 M2) as (d2 & l2 & n2 & ? & D2 & B2 & P2 & _ & _ & T2 & G2 & _ & _ & _ & _ & N2).
  assert (d2 = d) as ->.
  { rewrite Hd, D2 in D1. injection D1 as D1. apply Nat2Z.inj in D1. apply (Nat.pow_inj_r 2); [lia|done]. }
  assert (h1 = Data n1 /\ h2 = Data n2) as [-> ->] by (split; congruence). rewrite T1, T2 in He.
  assert (forall l L, l ≡ₚ map leaf_node (map_to_list L) -> (size L <= 2 ^ d)%nat ->
    length (map node_hash (padded (2 ^ d) l)) = (2 ^ d)%nat) as Hpl.
  { intros l L Hp Hl. apply Permutation_length in Hp. rewrite length_map, length_map_to_list in Hp.
    unfold padded. rewrite length_map, length_app, length_replicate. lia. }
  unfold state_inputs. rewrite N1, N2.
  rewrite <- !(length_map node_hash (padded _ _)), (Hpl l1 _ P1 B1), (Hpl l2 _ P2 B2), Nat.log2_pow2 by lia.
  apply tree_hash_binding in He as [He|Hc]; [|widen Hc|by eapply Hpl..|by eapply padded_length32|by eapply padded_length32].
  destruct (K1 _ _ Hv) as (U1 & pk1 & L32 & Epk). apply Encode_inj in Epk as <-.
  pose proof (leaf_input_in _ _ _ Hv) as I1.
  assert (node_hash (leaf_node (Encode pk, v)) ∈ map node_hash (padded (2 ^ d) l2)) as Hin.
  { rewrite <- He. unfold padded. rewrite map_app. apply elem_of_app. left. rewrite P1, map_map.
    apply (list_elem_of_fmap_2 (fun kv => node_hash (leaf_node kv)) _ (Encode pk, v)). by apply elem_of_map_to_list. }
  unfold padded in Hin. rewrite map_app in Hin. apply elem_of_app in Hin as [Hin|Hin].
  - rewrite P2, map_map in Hin. apply list_elem_of_fmap in Hin as ([k' v'] & Hh & Hin). apply elem_of_map_to_list in Hin.
    destruct (K2 _ _ Hin) as (U2 & pk2 & L2 & Ek).
    destruct (leaf_node_inj _ _ _ _ _ _ U1 U2 L32 L2 eq_refl Ek Hh) as [[Hk _]|Hne]; [congruence|].
    exists (leaf_input (Encode pk, v)), (leaf_input (k', v')).
    split_and!; [apply elem_of_app; by left|right; apply elem_of_app; left; by apply leaf_input_in|exact Hne|exact Hh].
  - apply list_elem_of_fmap in Hin as (nd & Hh & Hin). apply elem_of_replicate_inv in Hin as ->.
    exists (leaf_input (Encode pk, v)), (leaf_input (fakeKey, zero_state)).
    split_and!; [apply elem_of_app; by left|left|by apply fake_input_ne|exact Hh].
Qed.
End entries.

(** * Properties *)

(** C30: the state hash is a function of the ledger: two services with the
    same ledger get the same hash, whatever order their maps are iterated in,
    however their unstable sorts place equal hashes, and however the states
    are laid out in memory; the computation returns and changes no account. *)
Theorem GetStateHash_order_independent {sha : Sha3} {b58 : Base58} `{!Sha3Laws}
  (es1 es2 : ExpSlices) (mo1 mo2 : MapOrder)
  `{!@ExpSlicesLaws es1, !@ExpSlicesLaws es2, !@MapOrderLaws mo1, !@MapOrderLaws mo2} s1 s2 :
  wf_mem s1 -> wf_mem s2 -> ledger s1 = ledger s2 -> Z.of_nat (size (ledger s1)) <= 2 ^ 62 ->
  exists h s1' s2',
    @GetStateHash sha b58 es1 mo1 s1 = (Done (Ok h), s1')
    /\ @GetStateHash sha b58 es2 mo2 s2 = (Done (Ok h), s2')
    /\ ledger s1' = ledger s1 /\ ledger s2' = ledger s2.
Proof.
  intros W1 W2 HL Hmax.
  destruct (GetStateHash_run (es := es1) (mo := mo1) s1 W1 Hmax)
    as (d1 & l1 & n1 & s1' & D1 & _ & P1 & S1 & N1 & _ & G1 & L1 & _).
  rewrite HL in Hmax, D1, P1.
  destruct (GetStateHash_run (es := es2) (mo := mo2) s2 W2 Hmax)
    as (d2 & l2 & n2 & s2' & D2 & _ & P2 & S2 & N2 & _ & G2 & L2 & _).
  assert (2 ^ d1 = 2 ^ d2)%nat as Hd.
  { rewrite D1 in D2. injection D2 as D2. by apply Nat2Z.inj. }
  pose proof (sorted_leaves_unique _ _ _ S1 S2 P1 P2) as ->.
  rewrite Hd, N2 in N1. injection N1 as ->.
  exists (Data n1), s1', s2'. by split_and!.
Qed.

(** C31: the state hash commits to the ledger: two ledgers with equally many
    accounts, whose keys are encoded public keys, and one state hash are the
    same ledger, or two of the strings hashed for them collide. *)
Theorem GetStateHash_binding {sha : Sha3} {b58 : Base58} {es : ExpSlices} {mo : MapOrder}
  `{!Sha3Laws, !Base58Laws, !ExpSlicesLaws, !MapOrderLaws} s1 s2 h1 h2 s1' s2' :
  wf_mem s1 -> wf_mem s2 -> keys_ok (ledger s1) -> keys_ok (ledger s2) ->
  size (ledger s1) = size (ledger s2) -> Z.of_nat (size (ledger s1)) <= 2 ^ 62 ->
  GetStateHash s1 = (Done (Ok h1), s1') -> GetStateHash s2 = (Done (Ok h2), s2') ->
  raw h1 = raw h2 ->
  ledger s1 = ledger s2 \/ collision (state_inputs s1) (state_inputs s2).
Proof.
  intros W1 W2 K1 K2 Hsz Hmax R1 R2 He.
  destruct (GetStateHash_run s1 W1 Hmax) as (d & l1 & n1 & ? & D1 & B1 & P1 & _ & _ & T1 & G1 & _ & _ & _ & _ & M1).
  rewrite Hsz in Hmax, D1.
  destruct (GetStateHash_run s2 W2 Hmax) as (d2 & l2 & n2 & ? & D2 & B2 & P2 & _ & _ & T2 & G2 & _ & _ & _ & _ & M2).
  assert (d2 = d) as ->.
  { rewrite D1 in D2. injection D2 as D2. apply Nat2Z.inj in D2. apply (Nat.pow_inj_r 2); [lia|done]. }
  assert (h1 = Data n1 /\ h2 = Data n2) as [-> ->] by (split; congruence).
  rewrite T1, T2 in He.
  assert (length l1 = length l2 /\ (length l1 <= 2 ^ d)%nat) as [Hll Hl1].
  { rewrite (Permutation_length P1), (Permutation_length P2), !length_map, !length_map_to_list. lia. }
  assert (forall l, (length l <= 2 ^ d)%nat -> length (map node_hash (padded (2 ^ d) l)) = (2 ^ d)%nat) as Hpl.
  { intros l Hl. unfold padded. rewrite length_map, length_app, length_replicate. lia. }
  assert (length l2 <= 2 ^ d)%nat as Hl2 by lia.
  unfold state_inputs. rewrite M1, M2.
  rewrite <- !(length_map node_hash (padded _ _)), !Hpl, Nat.log2_pow2 by lia.
  apply tree_hash_binding in He as [He|Hc]; [|right; widen Hc| | |by eapply padded_length32..];
    [|by apply Hpl..].
  unfold padded in He. rewrite !map_app in He. apply app_inj_1 in He as [He _]; [|by rewrite !length_map].
  destruct (leaves_subset (ledger s1) (ledger s2) (map_to_list (ledger s1)) K1 K2) as [Hsub|Hc]; [..|right; widen Hc].
  - intros [k v] Hkv. by apply elem_of_map_to_list in Hkv.
  - intros h. rewrite <- !(map_map leaf_node node_hash), <- P1, <- P2. by rewrite He.
  - left. apply map_subseteq_size_eq; [|lia]. apply map_subseteq_spec. intros k v Hk.
    apply (Hsub (k, v)). by apply elem_of_map_to_list.
Qed.

Section witnesses.
Import Toy.

(** Maps iterated backwards. *)
Definition reverse_order : MapOrder := {|
  map_range _ m := rev (map_to_list m); maps_Values _ m := rev (map_to_list m).*2
|}.

Lemma reverse_order_laws : @MapOrderLaws reverse_order.
Proof. split; cbn; intros; by rewrite <- Permutation_rev. Qed.

Definition key_a : string := Encode (replicate 32 x01).
Definition key_b : string := Encode (replicate 32 x02).
Definition ledger_ab : MemoryService :=
  with_account key_a (mkAccountState 1 70) (with_account key_b (mkAccountState 0 30) NewMemoryService).
Definition ledger_ba : MemoryService :=
  with_account key_b (mkAccountState 0 30) (with_account key_a (mkAccountState 1 70) NewMemoryService).

Lemma ledger_ab_ba : ledger ledger_ab = ledger ledger_ba.
Proof.
  unfold ledger_ab, ledger_ba. rewrite !with_account_ledger by auto with go.
  by apply insert_insert_ne.
Qed.

Lemma GetStateHash_order_independent_witness :
  exists h s1 s2, GetStateHash ledger_ab = (Done (Ok h), s1)
    /\ @GetStateHash _ _ _ reverse_order ledger_ba = (Done (Ok h), s2).
Proof.
  destruct (GetStateHash_order_independent (sha := sha3) (b58 := base58) exp_slices exp_slices
    map_order reverse_order (H3 := reverse_order_laws) ledger_ab ledger_ba)
    as (h & s1 & s2 & E1 & E2 & _).
  - unfold ledger_ab. auto with go.
  - unfold ledger_ba. auto with go.
  - apply ledger_ab_ba.
  - vm_compute. discriminate.
  - exists h, s1, s2. split; [exact E1|exact E2].
Defined.

Lemma keys_ok_ab : keys_ok (ledger ledger_ab).
Proof.
  unfold ledger_ab. rewrite !with_account_ledger by auto with go.
  assert (keys_ok ∅) as He by (intros k v Hk; by apply lookup_empty_Some in Hk).
  repeat apply map_Forall_insert_2; [| |exact He].
  - split; [split; by vm_compute|by exists (replicate 32 x01)].
  - split; [split; by vm_compute|by exists (replicate 32 x02)].
Qed.

Lemma GetStateHash_binding_witness :
  ledger ledger_ab = ledger ledger_ba
  \/ collision (state_inputs ledger_ab) (state_inputs ledger_ba).
Proof.
  pose proof ledger_ab_ba as HL.
  destruct (GetStateHash ledger_ab) as [[[h1|]| |] s1] eqn:E1; [|left; exact HL..].
  destruct (GetStateHash ledger_ba) as [[[h2|]| |] s2] eqn:E2; [|left; exact HL..].
  apply (GetStateHash_binding ledger_ab ledger_ba h1 h2 s1 s2).
  - unfold ledger_ab. auto with go.
  - unfold ledger_ba. auto with go.
  - apply keys_ok_ab.
  - rewrite <- HL. apply keys_ok_ab.
  - by rewrite HL.
  - vm_compute. discriminate.
  - exact E1.
  - exact E2.
  - apply (f_equal fst) in E1, E2. cbn [fst] in E1, E2.
    assert (fst (GetStateHash ledger_ab) = fst (GetStateHash ledger_ba)) as K
      by (vm_compute; reflexivity).
    rewrite E1, E2 in K. by injection K as ->.
Defined.
End witnesses.
