(* ===== verification/Ledger.v ===== *)
(** The abstract specification of the executer: airdrops and transfers as
    functions on the ledger (public key to account state), without pointers,
    channels or requests.  [unread] tells that the operation returned with one
    of its two replies unread, after which the memory service is blocked.

    The balance of the whole ledger is what a transfer conserves. *)
From S2P Require Import Prelude Common Accounts Memory MemoryFacts.
Open Scope Z_scope.

(** ** The operations *)
Record spec_result := mkSpec { sp_err : option error; sp_unread : bool; sp_ledger : Ledger }.

(** Moving [amount] once the nonce has been accepted: the common tail. *)
Definition spec_settle (from to : string) (amount : Z) (L : Ledger) : spec_result :=
  let '(ok, sf) := Subtract amount (default zero_state (L !! from)) in
  let L1 := <[from := sf]> L in
  if negb ok then mkSpec (Some "not enough balance"%string) false L1
  else
    let '(ok, st) := Add amount (default zero_state (L1 !! to)) in
    let L2 := <[to := st]> L1 in
    if negb ok then mkSpec (Some "overflow"%string) false L2
    else mkSpec None false L2.

Definition spec_transfer (from to : string) (nonce amount : Z) (L : Ledger) : spec_result :=
  match L !! from with
  | None => mkSpec (Some "not found the key"%string) true L
  | Some sf =>
      let '(ok, sf1) := CheckNonce nonce sf in
      let L1 := <[from := sf1]> L in
      if negb ok then mkSpec (Some "nonce is Invalid"%string) true L1
      else match L1 !! to with
           | None => mkSpec (Some "not found the key"%string) false L1
           | Some _ => spec_settle from to amount L1
           end
  end.

(** An account that does not exist yet starts from the zero state, and enters
    the ledger only when the airdrop succeeds. *)
Definition spec_airdrop (gen to : string) (nonce amount : Z) (L : Ledger) : spec_result :=
  match L !! gen with
  | None => mkSpec (Some "not found the key"%string) true L
  | Some sg =>
      match L !! to with
      | Some st =>
          let '(ok, st1) := CheckNonce nonce st in
          let L1 := <[to := st1]> L in
          if negb ok then mkSpec (Some "nonce is Invalid"%string) false L1
          else spec_settle gen to amount L1
      | None =>
          let '(ok, st1) := CheckNonce nonce zero_state in
          if negb ok then mkSpec (Some "nonce is Invalid"%string) false L
          else
            let '(ok, sg1) := Subtract amount sg in
            let L1 := <[gen := sg1]> L in
            if negb ok then mkSpec (Some "not enough balance"%string) false L1
            else
              let '(ok, st2) := Add amount st1 in
              if negb ok then mkSpec (Some "overflow"%string) false L1
              else mkSpec None false (<[to := st2]> L1)
      end
  end.

(** Overwriting a list of accounts. *)
Definition put_all (l : list (string * AccountState)) (L : Ledger) : Ledger :=
  fold_left (fun L kv => <[fst kv := snd kv]> L) l L.

(** ** The total of all balances *)
Definition total (L : Ledger) : Z := map_fold (fun _ s t => st_Balance s + t) 0 L.

Definition wf_ledger (L : Ledger) : Prop := map_Forall (fun _ s => wf_state s) L.

Lemma total_empty : total ∅ = 0.
Proof. apply map_fold_empty. Qed.

Lemma total_insert_new L k s : L !! k = None -> total (<[k := s]> L) = st_Balance s + total L.
Proof.
  intros Hk. unfold total. rewrite map_fold_insert_L; [done| |done].
  intros. cbn. lia.
Qed.

Lemma total_insert L k s :
  total (<[k := s]> L) = total L + st_Balance s - st_Balance (default zero_state (L !! k)).
Proof.
  destruct (L !! k) as [s0|] eqn:E; cbn [default id].
  - pose proof (total_insert_new (delete k L) k s0 (lookup_delete_eq L k)) as H0.
    pose proof (total_insert_new (delete k L) k s (lookup_delete_eq L k)) as H1.
    rewrite insert_delete_id in H0 by done. rewrite insert_delete_eq in H1. lia.
  - rewrite total_insert_new by done. cbn. lia.
Qed.

Lemma wf_ledger_insert L k s : wf_ledger L -> wf_state s -> wf_ledger (<[k := s]> L).
Proof. intros HL Hs. by apply map_Forall_insert_2. Qed.

Lemma wf_ledger_lookup L k : wf_ledger L -> wf_state (default zero_state (L !! k)).
Proof.
  intros HL. destruct (L !! k) eqn:E; cbn; [by apply (HL k)|apply wf_zero].
Qed.

Lemma total_nonneg L : wf_ledger L -> 0 <= total L.
Proof.
  induction L as [|k s L Hk IH] using map_ind; intros HL; [by rewrite total_empty|].
  rewrite total_insert_new by done. apply map_Forall_insert in HL as [[_ Hb] HL]; [|done].
  specialize (IH HL). lia.
Qed.

(** ** Effect of the successful operations *)
Lemma spec_settle_success from to amount L L' sf st :
  wf_ledger L -> 0 <= amount -> L !! from = Some sf -> L !! to = Some st ->
  spec_settle from to amount L = mkSpec None false L' ->
  amount <= st_Balance sf
  /\ (from <> to -> st_Balance st + amount <= GeneratorBalance)
  /\ L' = if decide (from = to) then L
          else <[to := mkAccountState (st_Nonce st) (st_Balance st + amount)]>
                 (<[from := mkAccountState (st_Nonce sf) (st_Balance sf - amount)]> L).
Proof.
  intros HL Ha Ef Et. pose proof (HL _ _ Ef) as Hsf. pose proof (HL _ _ Et) as Hst.
  unfold spec_settle. rewrite Ef. cbn [default id]. rewrite (Subtract_spec _ _ Hsf Ha).
  case_decide as Hb; [|done]. cbn [negb]. rewrite lookup_insert. case_decide as Hft.
  - subst to. cbn [default id].
    rewrite Add_spec; [|destruct Hsf; split; cbn; [done|lia]|done].
    cbn [st_Nonce st_Balance]. case_decide; [|done]. cbn [negb]. intros [= <-].
    split_and!; [done..|]. rewrite insert_insert_eq. apply insert_id.
    rewrite Ef. f_equal. destruct sf; cbn; f_equal; lia.
  - rewrite Et. cbn [default id]. rewrite (Add_spec _ _ Hst Ha).
    case_decide; [|done]. cbn [negb]. by intros [= <-].
Qed.

Lemma spec_settle_conserves from to amount L L' sf st :
  wf_ledger L -> 0 <= amount -> L !! from = Some sf -> L !! to = Some st ->
  spec_settle from to amount L = mkSpec None false L' ->
  total L' = total L /\ wf_ledger L'.
Proof.
  intros HL Ha Ef Et Hs.
  destruct (spec_settle_success _ _ _ _ _ _ _ HL Ha Ef Et Hs) as (Hb & Hov & ->).
  case_decide as Hft; [done|]. pose proof (HL _ _ Ef) as [? ?]. pose proof (HL _ _ Et) as [? ?].
  rewrite !total_insert, lookup_insert_ne, Ef, Et by done. cbn. split; [lia|].
  specialize (Hov Hft). repeat apply wf_ledger_insert; try done; split; cbn; try done; lia.
Qed.

(** Bumping a nonce changes neither the total nor well-formedness. *)
Lemma nonce_bump_conserves k nonce L s : wf_ledger L -> L !! k = Some s ->
  total (<[k := snd (CheckNonce nonce s)]> L) = total L
  /\ wf_ledger (<[k := snd (CheckNonce nonce s)]> L).
Proof.
  intros HL Hk. rewrite total_insert, CheckNonce_balance, Hk. cbn [default id]. split; [lia|].
  apply wf_ledger_insert; [done|]. apply CheckNonce_wf. by apply (HL k).
Qed.

Lemma spec_transfer_success from to nonce amount L L' :
  wf_ledger L -> 0 <= amount ->
  spec_transfer from to nonce amount L = mkSpec None false L' ->
  exists sf st, L !! from = Some sf /\ L !! to = Some st
    /\ st_Nonce sf = nonce /\ amount <= st_Balance sf
    /\ (from <> to -> st_Balance st + amount <= GeneratorBalance)
    /\ L' = if decide (from = to)
            then <[from := mkAccountState (u64 (nonce + 1)) (st_Balance sf)]> L
            else <[to := mkAccountState (st_Nonce st) (st_Balance st + amount)]>
                   (<[from := mkAccountState (u64 (nonce + 1)) (st_Balance sf - amount)]> L).
Proof.
  intros HL Ha. unfold spec_transfer. destruct (L !! from) as [sf|] eqn:Ef; [|done].
  pose proof (nonce_bump_conserves from nonce L sf HL Ef) as [_ HL1].
  unfold CheckNonce in *. cbn [fst snd] in *.
  destruct (st_Nonce sf =? nonce) eqn:En; [|done]. apply Z.eqb_eq in En. cbn [negb].
  destruct (<[from := _]> L !! to) as [st1|] eqn:Et; [|done]. intros Hs.
  destruct (spec_settle_success _ _ _ _ _ _ _ HL1 Ha (lookup_insert_eq _ _ _) Et Hs)
    as (Hb & Hov & ->). cbn [st_Nonce st_Balance] in *. exists sf. subst nonce.
  apply lookup_insert_Some in Et as [[<- <-]|[Hft Et]].
  - exists sf. rewrite !decide_True by done. by split_and!.
  - exists st1. rewrite !decide_False, insert_insert_eq by done. by split_and!.
Qed.

Lemma spec_transfer_conserves from to nonce amount L L' :
  wf_ledger L -> 0 <= amount ->
  spec_transfer from to nonce amount L = mkSpec None false L' ->
  total L' = total L /\ wf_ledger L'.
Proof.
  intros HL Ha. unfold spec_transfer. destruct (L !! from) as [sf|] eqn:Ef; [|done].
  pose proof (nonce_bump_conserves from nonce L sf HL Ef) as [<- HL1].
  destruct (CheckNonce nonce sf) as [ok sf1]. cbn [snd] in *. destruct ok; [|done]. cbn [negb].
  destruct (<[from := sf1]> L !! to) eqn:Et; [|done].
  by apply (spec_settle_conserves _ _ _ _ _ _ _ HL1 Ha (lookup_insert_eq _ _ _) Et).
Qed.

Lemma spec_airdrop_success gen to nonce amount L L' :
  wf_ledger L -> 0 <= amount ->
  spec_airdrop gen to nonce amount L = mkSpec None false L' ->
  exists sg, L !! gen = Some sg /\
    let st := default zero_state (L !! to) in
    st_Nonce st = nonce /\ amount <= st_Balance sg
    /\ (gen <> to -> st_Balance st + amount <= GeneratorBalance)
    /\ L' = if decide (gen = to)
            then <[gen := mkAccountState (u64 (nonce + 1)) (st_Balance sg)]> L
            else <[to := mkAccountState (u64 (nonce + 1)) (st_Balance st + amount)]>
                   (<[gen := mkAccountState (st_Nonce sg) (st_Balance sg - amount)]> L).
Proof.
  intros HL Ha. unfold spec_airdrop. destruct (L !! gen) as [sg|] eqn:Eg; [|done].
  pose proof (HL _ _ Eg) as Hsg. destruct (L !! to) as [st|] eqn:Et; cbn [default id]; cbv zeta.
  - pose proof (nonce_bump_conserves to nonce L st HL Et) as [_ HL1].
    unfold CheckNonce in *. cbn [fst snd] in *.
    destruct (st_Nonce st =? nonce) eqn:En; [|done]. apply Z.eqb_eq in En. cbn [negb].
    intros Hs. exists sg. split; [done|]. subst nonce.
    destruct (decide (gen = to)) as [<-|Hgt].
    + assert (sg = st) as -> by congruence.
      destruct (spec_settle_success _ _ _ _ _ _ _ HL1 Ha (lookup_insert_eq _ _ _)
        (lookup_insert_eq _ _ _) Hs) as (Hb & Hov & ->). by rewrite decide_True.
    + assert (forall s, <[to := s]> L !! gen = Some sg) as Eg1
        by (intros; by rewrite lookup_insert_ne).
      destruct (spec_settle_success _ _ _ _ _ _ _ HL1 Ha (Eg1 _) (lookup_insert_eq _ _ _) Hs)
        as (Hb & Hov & ->).
      by rewrite decide_False, (insert_insert_ne _ gen to), insert_insert_eq by done.
  - assert (gen <> to) as Hgt by congruence. unfold CheckNonce. cbn [st_Nonce zero_state].
    destruct (0 =? nonce) eqn:En; [|done]. apply Z.eqb_eq in En. cbn [negb].
    rewrite (Subtract_spec _ _ Hsg Ha). case_decide; [|done]. cbn [negb].
    rewrite Add_spec; [|split; [apply u64_range|cbn; unfold GeneratorBalance; lia]|done].
    cbn [st_Nonce st_Balance zero_state]. case_decide; [|done]. cbn [negb]. intros [= <-].
    exists sg. subst nonce. rewrite decide_False by done. by split_and!.
Qed.

Lemma spec_airdrop_conserves gen to nonce amount L L' :
  wf_ledger L -> 0 <= amount ->
  spec_airdrop gen to nonce amount L = mkSpec None false L' ->
  total L' = total L /\ wf_ledger L'.
Proof.
  intros HL Ha Hs.
  destruct (spec_airdrop_success _ _ _ _ _ _ HL Ha Hs) as (sf & Ef & Hn & Hb & Hov & ->).
  pose proof (HL _ _ Ef) as [Hnf Hbf]. pose proof (wf_ledger_lookup L to HL) as [Hnt Hbt].
  pose proof (u64_range (nonce + 1)). case_decide as Hft.
  - subst to. rewrite Ef in *. cbn in *. rewrite total_insert, Ef. cbn. split; [lia|].
    by apply wf_ledger_insert.
  - rewrite !total_insert, lookup_insert_ne, Ef by done. cbn. split; [lia|].
    specialize (Hov Hft). repeat apply wf_ledger_insert; try done; split; cbn; try done; lia.
Qed.

(** ** Frame and well-formedness, on every branch *)
Record tame (a b : string) (L L' : Ledger) : Prop := {
  tm_frame k : k <> a -> k <> b -> L' !! k = L !! k;
  tm_dom k : is_Some (L !! k) -> is_Some (L' !! k);
  tm_wf : wf_ledger L -> wf_ledger L'
}.

Lemma tame_refl a b L : tame a b L L.
Proof. by split. Qed.

Lemma tame_insert a b k s L L' : tame a b L L' -> k = a \/ k = b -> (wf_ledger L -> wf_state s) ->
  tame a b L (<[k := s]> L').
Proof.
  intros [F D W] Hk Hs. split.
  - intros k' Ha Hb. rewrite lookup_insert_ne by (destruct Hk; congruence). by apply F.
  - intros k' Hk'. apply lookup_insert_is_Some'. right. by apply D.
  - intros HL. apply wf_ledger_insert; auto.
Qed.

Lemma Subtract_wf amount s : 0 <= amount -> wf_state s -> wf_state (snd (Subtract amount s)).
Proof.
  intros Ha Hs. rewrite Subtract_spec by done. case_decide; [|done].
  destruct Hs as [Hn Hb]. split; cbn; [done|lia].
Qed.

Lemma Add_wf amount s : 0 <= amount -> wf_state s -> wf_state (snd (Add amount s)).
Proof.
  intros Ha Hs. rewrite Add_spec by done. case_decide; [|done].
  destruct Hs as [Hn Hb]. split; cbn; [done|lia].
Qed.

Lemma spec_settle_tame from to amount L L0 : 0 <= amount -> tame from to L0 L ->
  tame from to L0 (sp_ledger (spec_settle from to amount L)).
Proof.
  intros Ha Ht. unfold spec_settle.
  pose proof (Subtract_wf amount (default zero_state (L !! from)) Ha) as Hs.
  destruct (Subtract amount _) as [ok sf]. cbn [snd] in Hs.
  assert (tame from to L0 (<[from := sf]> L)) as Ht1.
  { apply tame_insert; [done|by left|]. intros HL. apply Hs, wf_ledger_lookup, (tm_wf _ _ _ _ Ht), HL. }
  destruct ok; cbn [negb]; [|done].
  pose proof (Add_wf amount (default zero_state (<[from := sf]> L !! to)) Ha) as Hst.
  destruct (Add amount _) as [ok st]. cbn [snd] in Hst.
  assert (tame from to L0 (<[to := st]> (<[from := sf]> L))) as Ht2.
  { apply tame_insert; [done|by right|]. intros HL. apply Hst, wf_ledger_lookup, (tm_wf _ _ _ _ Ht1), HL. }
  by destruct ok.
Qed.

Lemma spec_transfer_tame from to nonce amount L : 0 <= amount ->
  tame from to L (sp_ledger (spec_transfer from to nonce amount L)).
Proof.
  intros Ha. unfold spec_transfer. destruct (L !! from) as [sf|] eqn:Ef; [|apply tame_refl].
  pose proof (CheckNonce_wf nonce sf) as Hn. destruct (CheckNonce nonce sf) as [ok sf1].
  cbn [snd] in Hn. assert (tame from to L (<[from := sf1]> L)) as Ht.
  { apply tame_insert; [apply tame_refl|by left|]. intros HL. apply Hn. by apply (HL from). }
  destruct ok; cbn [negb]; [|done]. destruct (_ !! to); [|done]. by apply spec_settle_tame.
Qed.

Lemma tame_sym a b L L' : tame a b L L' -> tame b a L L'.
Proof. intros [F D W]. split; auto. Qed.

Lemma spec_airdrop_tame gen to nonce amount L : 0 <= amount ->
  tame to gen L (sp_ledger (spec_airdrop gen to nonce amount L)).
Proof.
  intros Ha. apply tame_sym. unfold spec_airdrop.
  destruct (L !! gen) as [sg|] eqn:Eg; [|apply tame_refl].
  destruct (L !! to) as [st|] eqn:Et.
  - pose proof (CheckNonce_wf nonce st) as Hn. destruct (CheckNonce nonce st) as [ok st1].
    cbn [snd] in Hn. assert (tame gen to L (<[to := st1]> L)) as Ht.
    { apply tame_insert; [apply tame_refl|by right|]. intros HL. apply Hn. by apply (HL to). }
    destruct ok; cbn [negb]; [|done]. by apply spec_settle_tame.
  - pose proof (CheckNonce_wf nonce zero_state wf_zero) as Hn.
    destruct (CheckNonce nonce zero_state) as [ok st1]. cbn [snd] in Hn.
    destruct ok; cbn [negb]; [|apply tame_refl].
    pose proof (Subtract_wf amount sg Ha) as Hs. destruct (Subtract amount sg) as [ok sg1].
    cbn [snd] in Hs. assert (tame gen to L (<[gen := sg1]> L)) as Ht.
    { apply tame_insert; [apply tame_refl|by left|]. intros HL. apply Hs. by apply (HL gen). }
    destruct ok; cbn [negb]; [|done].
    pose proof (Add_wf amount st1 Ha Hn) as Hst. destruct (Add amount st1) as [ok st2].
    destruct ok; cbn [negb]; [|done]. apply tame_insert; [done|by right|done].
Qed.

(** A successful operation leaves both accounts in the ledger. *)
Lemma spec_settle_present from to amount L :
  sp_err (spec_settle from to amount L) = None ->
  is_Some (sp_ledger (spec_settle from to amount L) !! from)
  /\ is_Some (sp_ledger (spec_settle from to amount L) !! to).
Proof.
  unfold spec_settle. destruct (Subtract _ _) as [[] sf]; [|done]. cbn [negb].
  destruct (Add _ _) as [[] st]; [|done]. cbn [negb sp_err sp_ledger]. intros _.
  split; apply lookup_insert_is_Some'; [right; apply lookup_insert_is_Some'|]; by left.
Qed.

Lemma spec_transfer_present from to nonce amount L :
  sp_err (spec_transfer from to nonce amount L) = None ->
  is_Some (sp_ledger (spec_transfer from to nonce amount L) !! from)
  /\ is_Some (sp_ledger (spec_transfer from to nonce amount L) !! to).
Proof.
  unfold spec_transfer. destruct (L !! from); [|done]. destruct (CheckNonce _ _) as [[] ?]; [|done].
  cbn [negb]. destruct (_ !! to); [|done]. apply spec_settle_present.
Qed.

Lemma spec_airdrop_present gen to nonce amount L :
  sp_err (spec_airdrop gen to nonce amount L) = None ->
  is_Some (sp_ledger (spec_airdrop gen to nonce amount L) !! to)
  /\ is_Some (sp_ledger (spec_airdrop gen to nonce amount L) !! gen).
Proof.
  unfold spec_airdrop. destruct (L !! gen); [|done].
  destruct (L !! to); destruct (CheckNonce _ _) as [[] ?]; try done; cbn [negb].
  - intros Hs. apply spec_settle_present in Hs. tauto.
  - destruct (Subtract _ _) as [[] sg]; [|done]. cbn [negb].
    destruct (Add _ _) as [[] st]; [|done]. cbn [negb sp_err sp_ledger]. intros _.
    split; apply lookup_insert_is_Some'; [|right; apply lookup_insert_is_Some']; by left.
Qed.

(** Overwriting. *)
Lemma put_all_wf l L : Forall (fun kv => wf_state (snd kv)) l -> wf_ledger L -> wf_ledger (put_all l L).
Proof.
  unfold put_all. revert L. induction l as [|kv l IH]; intros L Hf HL; [done|].
  apply Forall_cons in Hf as [Hkv Hf]. cbn. apply IH; [done|]. by apply wf_ledger_insert.
Qed.
