(* ===== verification/Storage.v ===== *)
(** Package [storage]: the database layer over bbolt (storage/storage_db.go)
    and the storage service with the account transfer between database and
    memory (storage/storage_service.go).

    The service answers one request at a time and every client waits for its
    reply at once, so a request is a call.  [FetchAllAccounts],
    [FetchAccounts] and [PushAccounts] run in the caller's goroutine and talk
    to the memory service over its channels; they are modelled on the state
    of both. *)
From S2P Require Import Prelude Json JsonLaws Common External Merkle Accounts Txs Blocks Memory.
Open Scope Z_scope.

Definition latestKey : bytes := bstr "latest".
Definition latestIndex : bytes := bstr "latestIdx".
Definition blocksBucket : bytes := bstr "blocks".
Definition accountsBucket : bytes := bstr "accounts".

(** The interface [storage.DbContent] and its two implementations. *)
Class DbContent (C : Type) := {
  ToBytes : C -> result bytes;
  GetKey : C -> result gobytes;
  GetIndex : C -> result bytes
}.

#[export] Instance Block_content : DbContent Block := {|
  ToBytes := Block_ToBytes; GetKey := Block_GetKey; GetIndex := Block_GetIndex
|}.
#[export] Instance Account_content : DbContent Account := {|
  ToBytes := Account_ToBytes; GetKey := Account_GetKey; GetIndex := Account_GetIndex
|}.

Inductive ReferenceKind := RefKey | RefIndex | RefLatest | RefLatestKey | RefLatestIndex | RefOther.
Inductive BucketKind := BlocksKind | AccountsKind | OtherKind.

Definition DatabaseFileName (id : string) : string := (id ++ ".db")%string.

Section storage.
Context `{Sha3, Base58, ExpSlices, MapOrder, Bolt}.

(** ** Transactions of the database.  [Update] commits when the closure
    returns no error; otherwise, and on a panic, the database is rolled
    back.  The closure may act on other state, which is not. *)
Definition Update {S A} (gdb : S -> DB) (sdb : DB -> S -> S) (f : M S (result A))
  : M S (result A) :=
  fun s =>
    match f s with
    | (Done (Ok a), s') =>
        match bolt_commit (gdb s') with
        | None => (Done (Ok a), s')
        | Some e => (Done (Err e), sdb (gdb s) s')
        end
    | (Done (Err e), s') => (Done (Err e), sdb (gdb s) s')
    | (Panicked w, s') => (Panicked w, sdb (gdb s) s')
    | (Blocked w, s') => (Blocked w, sdb (gdb s) s')
    end.

Definition error_of {A} (r : result A) : option error :=
  match r with Ok _ => None | Err e => Some e end.

Definition Update_db (f : M DB (result unit)) : M DB (option error) :=
  let* r := Update (fun db => db) (fun db _ => db) f in ret (error_of r).

(** [tx.Bucket(name)]: nil, which the next access dereferences, if absent. *)
Definition Bucket (name : bytes) : M DB unit :=
  fun db => if bolt_has_bucket db name then (Done tt, db)
            else (Panicked "nil pointer dereference", db).

Definition b_Get (bucket key : bytes) : M DB gobytes := gets (fun db => bolt_get db bucket key).

Definition b_Put (bucket key value : bytes) : M DB (option error) :=
  fun db => match bolt_put db bucket key value with
            | Ok db' => (Done None, db')
            | Err e => (Done (Some e), db)
            end.

Definition makeBucket (name : bytes) : M DB (option error) :=
  Update_db (fun db => match bolt_create_bucket db name with
                       | Ok db' => (Done (Ok tt), db')
                       | Err e => (Done (Err e), db)
                       end).

Fixpoint makeBuckets (buckets : list bytes) : M DB unit :=
  match buckets with
  | [] => ret tt
  | b :: bs => let* _ := makeBucket b in makeBuckets bs
  end.

(** [existing] is the database in the file [name], if there is one, and
    [open_err] the error [bolt.Open] returns, if any. *)
Definition NewStorageDb (existing : option DB) (open_err : option error)
  (buckets : list bytes) : outcome (result DB) :=
  match existing, open_err with
  | Some _, Some e => Done (Err e)
  | Some db, None => Done (Ok db)
  | None, Some e => Done (Err e)
  | None, None =>
      match makeBuckets buckets bolt_empty with
      | (Done _, db) => Done (Ok db)
      | (Panicked w, _) => Panicked w
      | (Blocked w, _) => Blocked w
      end
  end.

Definition NewStorageService (existing : option DB) (open_err : option error)
  : outcome (result DB) :=
  NewStorageDb existing open_err [blocksBucket; accountsBucket].

Definition StorageDb_Put {C} `{DbContent C} (bucket : bytes) (content : C)
  : M DB (option error) :=
  Update_db (
    let* _ := Bucket bucket in
    match ToBytes content with
    | Err e => ret (Err e)
    | Ok enc =>
        match GetKey content with
        | Err e => ret (Err e)
        | Ok key =>
            match GetIndex content with
            | Err e => ret (Err e)
            | Ok idx =>
                let* err := b_Put bucket (raw key) enc in
                match err with
                | Some e => ret (Err e)
                | None =>
                    let* err := b_Put bucket idx (raw key) in
                    match err with
                    | Some e => ret (Err e)
                    | None =>
                        let* err := b_Put bucket latestKey (raw key) in
                        match err with
                        | Some e => ret (Err e)
                        | None =>
                            let* err := b_Put bucket latestIndex idx in
                            match err with
                            | Some e => ret (Err e)
                            | None => ret (Ok tt)
                            end
                        end
                    end
                end
            end
        end
    end).

(** The read-only lookups; their [View] never fails. *)
Definition GetByKey (bucket : bytes) (key : gobytes) : M DB (result gobytes) :=
  let* _ := Bucket bucket in
  let* content := b_Get bucket (raw key) in
  ret (Ok content).

Definition GetByIndex (bucket : bytes) (index : gobytes) : M DB (result gobytes) :=
  let* _ := Bucket bucket in
  let* key := b_Get bucket (raw index) in
  let* content := b_Get bucket (raw key) in
  ret (Ok content).

Definition GetLatestKey (bucket : bytes) : M DB (result gobytes) :=
  let* _ := Bucket bucket in
  let* key := b_Get bucket latestKey in
  ret (Ok key).

Definition GetLatestIndex (bucket : bytes) : M DB (result gobytes) :=
  let* _ := Bucket bucket in
  let* idx := b_Get bucket latestIndex in
  ret (Ok idx).

Definition GetLatest (bucket : bytes) : M DB (result gobytes) :=
  let* _ := Bucket bucket in
  let* key := b_Get bucket latestKey in
  let* content := b_Get bucket (raw key) in
  ret (Ok content).

(** ** The service *)
Definition storage_put {C} `{DbContent C} (bucket : BucketKind) (content : option C)
  : M DB (option error) :=
  match content with
  | None => ret None
  | Some c =>
      match bucket with
      | BlocksKind => StorageDb_Put blocksBucket c
      | AccountsKind => StorageDb_Put accountsBucket c
      | OtherKind => ret None
      end
  end.

Definition storage_get (bucket : BucketKind) (refKind : ReferenceKind) (ref : gobytes)
  : M DB (result gobytes) :=
  let byref := match refKind with RefKey | RefIndex => true | _ => false end in
  if byref && is_nil ref then ret (Ok None)
  else
    let go b :=
      match refKind with
      | RefKey => GetByKey b ref
      | RefIndex => GetByIndex b ref
      | RefLatest => GetLatest b
      | RefLatestKey => GetLatestKey b
      | RefLatestIndex => GetLatestIndex b
      | RefOther => ret (Ok None)
      end in
    match bucket with
    | BlocksKind => go blocksBucket
    | AccountsKind => go accountsBucket
    | OtherKind => ret (Ok None)
    end.

(** A request and the receive of its reply. *)
Definition Storage_Put {C} `{DbContent C} (bucket : BucketKind) (content : option C)
  : M DB (Result gobytes) :=
  let* err := storage_put bucket content in
  ret (mkResult None err).

Definition Storage_Get (bucket : BucketKind) (refKind : ReferenceKind) (ref : gobytes)
  : M DB (Result gobytes) :=
  let* r := storage_get bucket refKind ref in
  match r with
  | Ok v => ret (mkResult v None)
  | Err e => ret (mkResult None (Some e))
  end.

(** ** Accounts between database and memory *)
Record Env := mkEnv { env_mem : MemoryService; env_db : DB }.

Definition set_env_mem (m : MemoryService) (e : Env) : Env := mkEnv m (env_db e).
Definition set_env_db (db : DB) (e : Env) : Env := mkEnv (env_mem e) db.

Definition in_mem {A} (m : M MemoryService A) : M Env A := zoom env_mem set_env_mem m.
Definition in_db {A} (m : M DB A) : M Env A := zoom env_db set_env_db m.

Fixpoint recv_all (chs : list chan) : M MemoryService unit :=
  match chs with
  | [] => ret tt
  | ch :: chs' => let* _ := recv_state ch in recv_all chs'
  end.

(** The cursor loop: entries whose key is not a public key are skipped. *)
Fixpoint fetch_entries (entries : list (bytes * bytes)) : M Env (result (list chan)) :=
  match entries with
  | [] => ret (Ok [])
  | (k, v) :: entries' =>
      if len k =? PublicKeySize then
        match Unmarshal (T := AccountState) v with
        | Err e => ret (Err e)
        | Ok state =>
            let* p := in_mem (alloc state) in
            let* ch := in_mem (PutAccountState (Some k) p) in
            let* r := fetch_entries entries' in
            ret (let? chs := r in Ok (ch :: chs))
        end
      else fetch_entries entries'
  end.

Definition FetchAllAccounts : M Env (option error) :=
  let* _ := in_db (Bucket accountsBucket) in
  let* entries := in_db (gets (fun db => bolt_cursor db accountsBucket)) in
  let* r := fetch_entries entries in
  match r with
  | Err e => ret (Some e)
  | Ok chs => let* _ := in_mem (recv_all chs) in ret None
  end.

Fixpoint fetch_keys (pubKeys : list gobytes) : M Env (result (list chan)) :=
  match pubKeys with
  | [] => ret (Ok [])
  | pk :: pubKeys' =>
      let state := mkAccountState 0 0 in
      let* raw_ := in_db (b_Get accountsBucket (raw pk)) in
      match (match raw_ with None => Ok state | Some v => UnmarshalInto v state end) with
      | Err e => ret (Err e)
      | Ok state =>
          let* p := in_mem (alloc state) in
          let* ch := in_mem (PutAccountState pk p) in
          let* r := fetch_keys pubKeys' in
          ret (let? chs := r in Ok (ch :: chs))
      end
  end.

(** [chCache], the channels, leaves the closure through a captured variable. *)
Definition FetchAccounts (pubKeys : list gobytes) : M Env (option error) :=
  let* r := Update env_db set_env_db
              (let* _ := in_db (Bucket accountsBucket) in fetch_keys pubKeys) in
  match r with
  | Err e => ret (Some e)
  | Ok chs => let* _ := in_mem (recv_all chs) in ret None
  end.

Fixpoint get_all (pubKeys : list gobytes) : M MemoryService (list chan) :=
  match pubKeys with
  | [] => ret []
  | pk :: pubKeys' =>
      let* ch := Memory_GetAccountState pk in
      let* chs := get_all pubKeys' in
      ret (ch :: chs)
  end.

Fixpoint push_each (pubKeys : list gobytes) (chs : list chan) : M Env (result unit) :=
  match pubKeys, chs with
  | pk :: pubKeys', ch :: chs' =>
      let* res := in_mem (recv_state ch) in
      match res with
      | None => panic "nil pointer dereference"
      | Some res =>
          match ResErr res with
          | Some e => ret (Err e)
          | None =>
              let* v := in_mem (deref (Value res)) in
              match Marshal v with
              | Err e => ret (Err e)
              | Ok enc =>
                  let* err := in_db (b_Put accountsBucket (raw pk) enc) in
                  match err with
                  | Some e => ret (Err e)
                  | None => push_each pubKeys' chs'
                  end
              end
          end
      end
  | _, _ => ret (Ok tt)
  end.

Definition PushAccounts (pubKeys : list gobytes) : M Env (option error) :=
  let* chs := in_mem (get_all pubKeys) in
  let* r := Update env_db set_env_db
              (let* _ := in_db (Bucket accountsBucket) in push_each pubKeys chs) in
  ret (error_of r).
End storage.
