(* ===== verification/StorageFacts.v ===== *)
(** Facts about the storage service: the queues of requests by which account
    states travel between the database and the memory service. *)
From S2P Require Import Prelude Json JsonLaws Common External Merkle Accounts Txs Blocks Memory.
From S2P Require Import MemoryFacts Ledger Storage.
Open Scope Z_scope.

(** ** Queued writes

    A run of [PutAccountState] calls for fresh states: consecutive pointers
    from [p], consecutive channels from [ch]. *)
Fixpoint put_reqs (p : ptr) (ch : chan) (l : list (bytes * AccountState)) : list StateMemRequest :=
  match l with
  | [] => []
  | (pk, _) :: l' => mkStateMemRequest MemPut (Some pk) (Some p) (Some ch) :: put_reqs (S p) (S ch) l'
  end.

Definition queued (l : list (bytes * AccountState)) (s : MemoryService) : MemoryService :=
  mkMemoryService (mempool s) (heap s ++ l.*2) (stateMem s) (txCh s)
    (stateCh s ++ put_reqs (length (heap s)) (nextCh s) l) (nextCh s + length l).

Section queues.
Context `{Sha3, Base58, ExpSlices, MapOrder, Bolt}.

Definition encoded (l : list (bytes * AccountState)) : list (string * AccountState) :=
  map (fun kv => (Encode (fst kv), snd kv)) l.

Lemma queued_nil s : queued [] s = s.
Proof. destruct s. unfold queued. cbn. by rewrite !app_nil_r, Nat.add_0_r. Qed.

(** One [PutAccountState] of a fresh state. *)
Definition queue_one (pk : bytes) (st : AccountState) (s : MemoryService) : MemoryService :=
  enqueue (mkStateMemRequest MemPut (Some pk) (Some (length (heap s))) (Some (nextCh s)))
    (set_heap (heap s ++ [st]) s).

Lemma queued_cons pk st l s : queued l (queue_one pk st s) = queued ((pk, st) :: l) s.
Proof.
  destruct s. unfold queued, queue_one, enqueue. cbn.
  by rewrite length_app, <- !app_assoc, Nat.add_1_r, <- plus_n_Sm.
Qed.

Lemma put_fresh_run pk st s : (length (stateCh s) < stateCh_room)%nat ->
  (let* p := alloc st in PutAccountState (Some pk) p) s
  = (Done (nextCh s), queue_one pk st s).
Proof.
  intros Hl. unfold bind at 1, alloc. rewrite PutAccountState_enqueue by done. done.
Qed.

(** A full queue blocks the next write. *)
Lemma put_fresh_blocked pk st s : (stateCh_room <= length (stateCh s))%nat ->
  exists w s', (let* p := alloc st in PutAccountState (Some pk) p) s = (Blocked w, s').
Proof.
  intros Hl. unfold bind at 1, alloc, PutAccountState, bind at 1, new_chan.
  erewrite bind_blocked by (apply send_full_blocked; cbn; done). eauto.
Qed.

(** Receiving the replies performs the writes in order. *)
Lemma recv_puts l : forall s p ch,
  stateCh s = put_reqs p ch l -> wf_mem s ->
  (forall i kv, l !! i = Some kv -> heap s !! (p + i)%nat = Some (snd kv)) ->
  (forall k b, dbMap (stateMem s) !! k = Some b -> (content b < p)%nat) ->
  exists s', recv_all (seq ch (length l)) s = (Done tt, s')
    /\ wf_mem s' /\ idle s' /\ ledger s' = put_all (encoded l) (ledger s) /\ same_pool s s'.
Proof.
  induction l as [|[pk st] l IH]; intros s p ch Hq Hwf Hh Hm.
  { exists s. by split_and!. }
  cbn [put_reqs] in Hq. cbn [length seq recv_all].
  rewrite (bind_done _ _ _ _ _ (recv_put _ _ _ _ _ Hq)).
  set (s1 := set_stateMem _ _).
  assert (heap s !! p = Some st) as Hp by (rewrite <- (Nat.add_0_r p); by apply (Hh 0%nat (pk, st))).
  assert (owned (dbMap (stateMem s)) (Encode pk) p) as Hown.
  { intros k b Hk He. specialize (Hm k b Hk). lia. }
  assert (dbMap (stateMem s1) = <[Encode pk := newDbBox p]> (dbMap (stateMem s))) as Hmap
    by apply MemoryDb_Put_insert.
  destruct (IH s1 (S p) (S ch)) as (s' & Hr & Hwf' & Hi & HL & Hpool).
  - done.
  - unfold wf_mem. rewrite Hmap. apply wf_store_put; [done| |done]. by apply lookup_lt_Some in Hp.
  - intros i kv Hi. cbn [Nat.add]. rewrite plus_n_Sm. by apply (Hh (S i) kv).
  - intros k b. rewrite Hmap. intros [[<- <-]|[_ Hk]]%lookup_insert_Some; cbn; [lia|].
    specialize (Hm k b Hk). lia.
  - exists s'. split_and!; try done. rewrite HL. cbn. f_equal. unfold ledger. rewrite Hmap.
    by apply ledger_put.
Qed.

(** A queue of fresh writes on a quiet service. *)
Lemma recv_queued l s : idle s -> wf_mem s ->
  exists s', recv_all (seq (nextCh s) (length l)) (queued l s) = (Done tt, s')
    /\ wf_mem s' /\ idle s' /\ ledger s' = put_all (encoded l) (ledger s) /\ same_pool s s'.
Proof.
  intros Hi Hwf. destruct (recv_puts l (queued l s) (length (heap s)) (nextCh s))
    as (s' & Hr & Hwf' & Hi' & HL & Hp).
  - cbn. unfold idle in Hi. by rewrite Hi.
  - by apply wf_store_app.
  - intros i kv Hkv. cbn. rewrite lookup_app_r by lia.
    replace (length (heap s) + i - length (heap s))%nat with i by lia.
    by rewrite list_lookup_fmap, Hkv.
  - intros k b Hk. apply (wf_valid _ _ Hwf _ _ Hk).
  - exists s'. split_and!; try done. rewrite HL. f_equal. by apply ledger_app.
Qed.

(** A reply that was never read stops every later receive. *)
Lemma recv_all_stuck l s req rest ch' : l <> [] -> stateCh s = req :: rest ->
  sr_ResultCh req = Some ch' -> Forall (fun ch => ch <> ch') l ->
  exists w s', recv_all l s = (Blocked w, s').
Proof.
  intros Hl Hq Hr Hf. destruct l as [|ch l]; [done|]. apply Forall_cons in Hf as [Hne _].
  destruct (recv_skipped s req ch ch' rest Hq Hr Hne) as (w & s' & Hb).
  cbn [recv_all]. rewrite (bind_blocked _ _ _ _ _ Hb). eauto.
Qed.
End queues.

(** ** Fetching accounts *)
Section fetch.
Context `{Sha3, Base58, ExpSlices, MapOrder, Bolt}.

Lemma in_mem_done {A} (m : M MemoryService A) e a s :
  m (env_mem e) = (Done a, s) -> in_mem m e = (Done a, set_env_mem s e).
Proof. unfold in_mem, zoom. by intros ->. Qed.

Lemma in_mem_blocked {A} (m : M MemoryService A) e w s :
  m (env_mem e) = (Blocked w, s) -> in_mem m e = (Blocked w, set_env_mem s e).
Proof. unfold in_mem, zoom. by intros ->. Qed.

Lemma in_db_done {A} (m : M DB A) e a db :
  m (env_db e) = (Done a, db) -> in_db m e = (Done a, set_env_db db e).
Proof. unfold in_db, zoom. by intros ->. Qed.

Lemma env_eta e : mkEnv (env_mem e) (env_db e) = e.
Proof. by destruct e. Qed.

Lemma bucket_ok name e : bolt_has_bucket (env_db e) name = true ->
  in_db (Bucket name) e = (Done tt, e).
Proof. intros Hb. unfold in_db, zoom, Bucket. rewrite Hb. by destruct e. Qed.

Lemma b_Get_run bucket key e :
  in_db (b_Get bucket key) e = (Done (bolt_get (env_db e) bucket key), e).
Proof. by destruct e. Qed.

(** The state of an account in the database: zero when it has no entry. *)
Definition stored_state (db : DB) (pk : bytes) : result AccountState :=
  match bolt_get db accountsBucket pk with
  | None => Ok zero_state
  | Some v => UnmarshalInto v zero_state
  end.

Definition stored (db : DB) (pk : bytes) : AccountState :=
  match stored_state db pk with Ok st => st | Err _ => zero_state end.

(** Every entry of the accounts bucket under a public key is an account state.
    (Under its other keys the bucket holds references.) *)
Definition decodable (db : DB) : Prop :=
  bolt_has_bucket db accountsBucket = true
  /\ forall pk, is_key pk -> exists st, stored_state db pk = Ok st.

Lemma stored_ok db pk : decodable db -> is_key pk -> stored_state db pk = Ok (stored db pk).
Proof. intros [_ Hd] Hk. unfold stored. destruct (Hd pk Hk) as [st ->]. done. Qed.

Definition fetched (db : DB) (pks : list bytes) : list (bytes * AccountState) :=
  map (fun pk => (pk, stored db pk)) pks.

(** The write of one fetched state, on the state of both services. *)
Lemma queue_step {A} pk st (k : chan -> M Env A) e :
  (length (stateCh (env_mem e)) < stateCh_room)%nat ->
  (let* p := in_mem (alloc st) in let* ch := in_mem (PutAccountState (Some pk) p) in k ch) e
  = k (nextCh (env_mem e)) (set_env_mem (queue_one pk st (env_mem e)) e).
Proof.
  intros Hl. erewrite bind_done by (apply in_mem_done; reflexivity). cbv beta.
  erewrite bind_done; [reflexivity|].
  etrans; [apply in_mem_done; by apply PutAccountState_enqueue|reflexivity].
Qed.

Lemma queue_step_blocked {A} pk st (k : chan -> M Env A) e :
  (stateCh_room <= length (stateCh (env_mem e)))%nat ->
  exists w e',
  (let* p := in_mem (alloc st) in let* ch := in_mem (PutAccountState (Some pk) p) in k ch) e
  = (Blocked w, e').
Proof.
  intros Hl. erewrite bind_done by (apply in_mem_done; reflexivity). cbv beta.
  erewrite bind_blocked; [eauto|]. apply in_mem_blocked.
  unfold PutAccountState, bind at 1, new_chan. apply bind_blocked. by apply send_full_blocked.
Qed.

Lemma queue_one_length pk st s : length (stateCh (queue_one pk st s)) = S (length (stateCh s)).
Proof. unfold queue_one. cbn. rewrite length_app. cbn. lia. Qed.

Lemma fetch_keys_run pks : forall e, decodable (env_db e) -> Forall is_key pks ->
  (length (stateCh (env_mem e)) + length pks <= stateCh_room)%nat ->
  fetch_keys (map Some pks) e
  = (Done (Ok (seq (nextCh (env_mem e)) (length pks))),
     set_env_mem (queued (fetched (env_db e) pks) (env_mem e)) e).
Proof.
  induction pks as [|pk pks IH]; intros e Hd Hk Hl.
  { cbn [map fetched fetch_keys]. rewrite queued_nil. by destruct e. }
  apply Forall_cons in Hk as [Hk Hks]. cbn [length] in Hl. cbn [map fetch_keys]. rewrite (bind_done _ _ _ _ _ (b_Get_run _ _ e)).
  pose proof (stored_ok (env_db e) pk Hd Hk) as Hs. unfold stored_state in Hs. cbn [raw default id].
  change (mkAccountState 0 0) with zero_state. rewrite Hs. rewrite queue_step by lia.
  set (e1 := set_env_mem _ e). assert (length (stateCh (env_mem e1)) + length pks <= stateCh_room)%nat
    by (cbn [env_mem e1 set_env_mem]; rewrite queue_one_length; lia).
  rewrite (bind_done _ _ _ _ _ (IH e1 Hd Hks ltac:(done))).
  unfold ret. cbn [result_bind length seq fetched map]. rewrite <- queued_cons. reflexivity.
Qed.

(** Eleven requests fit; the send of one more blocks, since no reply has been
    read yet. *)
Lemma fetch_keys_overflow pks : forall e, decodable (env_db e) -> Forall is_key pks ->
  (length (stateCh (env_mem e)) <= stateCh_room)%nat ->
  (stateCh_room < length (stateCh (env_mem e)) + length pks)%nat ->
  exists w e', fetch_keys (map Some pks) e = (Blocked w, e').
Proof.
  induction pks as [|pk pks IH]; intros e Hd Hk Hr Hl; [cbn in Hl; lia|]. cbn [length] in Hl.
  apply Forall_cons in Hk as [Hk Hks].
  cbn [map fetch_keys]. rewrite (bind_done _ _ _ _ _ (b_Get_run _ _ e)).
  pose proof (stored_ok (env_db e) pk Hd Hk) as Hs. unfold stored_state in Hs. cbn [raw default id].
  change (mkAccountState 0 0) with zero_state. rewrite Hs.
  destruct (decide (length (stateCh (env_mem e)) < stateCh_room)%nat) as [Hlt|Hge].
  - rewrite queue_step by done.
    edestruct IH as (w & e' & Hb); [| | | |erewrite bind_blocked by exact Hb; eauto]; [done|done|..];
      cbn [env_mem set_env_mem]; rewrite queue_one_length; lia.
  - apply queue_step_blocked. lia.
Qed.

(** [Update] without writes: committing keeps the database. *)
Lemma Update_done {A} (f : M Env (result A)) e a e' :
  f e = (Done (Ok a), e') -> bolt_commit (env_db e') = None ->
  Update env_db set_env_db f e = (Done (Ok a), e').
Proof. unfold Update. by intros -> ->. Qed.

Lemma Update_blocked {A} (f : M Env (result A)) e w e' :
  f e = (Blocked w, e') -> Update env_db set_env_db f e = (Blocked w, set_env_db (env_db e) e').
Proof. unfold Update. by intros ->. Qed.

Lemma FetchAccounts_spec pks e :
  idle (env_mem e) -> wf_mem (env_mem e) -> decodable (env_db e) ->
  bolt_commit (env_db e) = None -> Forall is_key pks -> (length pks <= stateCh_room)%nat ->
  exists s', FetchAccounts (map Some pks) e = (Done None, set_env_mem s' e)
    /\ wf_mem s' /\ idle s'
    /\ ledger s' = put_all (encoded (fetched (env_db e) pks)) (ledger (env_mem e))
    /\ same_pool (env_mem e) s'.
Proof.
  intros Hi Hwf Hd Hc Hk Hl. unfold FetchAccounts.
  assert (length (stateCh (env_mem e)) + length pks <= stateCh_room)%nat as Hroom
    by (unfold idle in Hi; rewrite Hi; exact Hl).
  erewrite bind_done.
  2:{ apply Update_done; [|shelve].
      rewrite (bind_done _ _ _ _ _ (bucket_ok _ _ (proj1 Hd))). by apply fetch_keys_run. }
  Unshelve. 2:{ exact Hc. }
  cbv beta iota. destruct (recv_queued (fetched (env_db e) pks) (env_mem e) Hi Hwf)
    as (s' & Hr & Hwf' & Hi' & HL & Hp). unfold fetched in Hr at 1. rewrite length_map in Hr.
  erewrite bind_done by (apply in_mem_done; exact Hr). exists s'. by split_and!.
Qed.

Lemma FetchAccounts_overflow pks e :
  (length (stateCh (env_mem e)) <= stateCh_room)%nat -> decodable (env_db e) -> Forall is_key pks ->
  (stateCh_room < length (stateCh (env_mem e)) + length pks)%nat ->
  exists w e', FetchAccounts (map Some pks) e = (Blocked w, e').
Proof.
  intros Hr Hd Hk Hl. destruct (fetch_keys_overflow pks e Hd Hk Hr Hl) as (w & e' & Hb).
  unfold FetchAccounts. erewrite bind_blocked; [eauto|]. apply Update_blocked.
  rewrite (bind_done _ _ _ _ _ (bucket_ok _ _ (proj1 Hd))). exact Hb.
Qed.

(** An unread reply stops the fetch of any account. *)
Lemma FetchAccounts_stuck pks e req rest ch :
  decodable (env_db e) -> bolt_commit (env_db e) = None -> Forall is_key pks -> pks <> [] ->
  stateCh (env_mem e) = req :: rest -> sr_ResultCh req = Some ch ->
  (ch < nextCh (env_mem e))%nat -> (length (stateCh (env_mem e)) <= stateCh_room)%nat ->
  exists w e', FetchAccounts (map Some pks) e = (Blocked w, e').
Proof.
  intros Hd Hc Hk Hne Hq Hr Hch Hlen.
  destruct (decide (length (stateCh (env_mem e)) + length pks <= stateCh_room)%nat) as [Hl|Hl];
    [|apply FetchAccounts_overflow; [done|done|done|lia]].
  unfold FetchAccounts. erewrite bind_done.
  2:{ apply Update_done; [|shelve].
      rewrite (bind_done _ _ _ _ _ (bucket_ok _ _ (proj1 Hd))). by apply fetch_keys_run. }
  Unshelve. 2:{ exact Hc. }
  cbv beta iota. edestruct (recv_all_stuck (seq (nextCh (env_mem e)) (length pks))
    (queued (fetched (env_db e) pks) (env_mem e))) as (w & s' & Hb).
  - by destruct pks.
  - cbn. by rewrite Hq.
  - exact Hr.
  - apply Forall_forall. intros c Hc'%elem_of_seq. lia.
  - erewrite bind_blocked by (apply in_mem_blocked; exact Hb). eauto.
Qed.
End fetch.

Section fetched_lookup.
Context `{Sha3, Base58, ExpSlices, MapOrder, Bolt, !Base58Laws}.

Lemma put_fetched_lookup db pks L pk :
  put_all (encoded (fetched db pks)) L !! Encode pk
  = if decide (pk ∈ pks) then Some (stored db pk) else L !! Encode pk.
Proof.
  induction pks as [|k pks IH] using rev_ind; [done|].
  unfold put_all, encoded, fetched in *. rewrite !map_app, fold_left_app. cbn.
  destruct (decide (k = pk)) as [->|Hne].
  - rewrite lookup_insert_eq, decide_True; [done|]. apply elem_of_app. right. constructor.
  - rewrite lookup_insert_ne by (intros He; by apply Hne, Encode_inj). rewrite IH.
    apply decide_ext. rewrite elem_of_app, list_elem_of_singleton. intuition congruence.
Qed.
End fetched_lookup.

(** ** Pushing accounts *)
Fixpoint get_reqs (ch : chan) (pks : list bytes) : list StateMemRequest :=
  match pks with
  | [] => []
  | pk :: pks' => mkStateMemRequest MemGet (Some pk) None (Some ch) :: get_reqs (S ch) pks'
  end.

Definition asked (pks : list bytes) (s : MemoryService) : MemoryService :=
  mkMemoryService (mempool s) (heap s) (stateMem s) (txCh s)
    (stateCh s ++ get_reqs (nextCh s) pks) (nextCh s + length pks).

Section push.
Context `{Sha3, Base58, ExpSlices, MapOrder, Bolt}.

Lemma get_all_run pks : forall s, (length (stateCh s) + length pks <= stateCh_room)%nat ->
  get_all (map Some pks) s = (Done (seq (nextCh s) (length pks)), asked pks s).
Proof.
  induction pks as [|pk pks IH]; intros s Hl; cbn [map get_all length] in *.
  - destruct s. unfold asked. cbn. by rewrite app_nil_r, Nat.add_0_r.
  - rewrite (bind_done _ _ _ _ _ (GetAccountState_enqueue (Some pk) s ltac:(lia))).
    set (s1 := enqueue _ s). rewrite (bind_done _ _ _ _ _ (IH s1 ltac:(subst s1; cbn; rewrite length_app; cbn; lia))).
    destruct s. unfold asked. cbn. by rewrite <- app_assoc, <- plus_n_Sm.
Qed.

Lemma get_all_overflow pks : forall s, (length (stateCh s) <= stateCh_room)%nat ->
  (stateCh_room < length (stateCh s) + length pks)%nat ->
  exists w s', get_all (map Some pks) s = (Blocked w, s').
Proof.
  induction pks as [|pk pks IH]; intros s Hr Hl; cbn [map get_all length] in *; [lia|].
  destruct (decide (length (stateCh s) < stateCh_room)%nat) as [Hlt|Hge].
  - rewrite (bind_done _ _ _ _ _ (GetAccountState_enqueue (Some pk) s Hlt)).
    edestruct (IH (enqueue (mkStateMemRequest MemGet (Some pk) None (Some (nextCh s))) s))
      as (w & s' & Hb); [cbn; rewrite length_app; cbn; lia..|].
    erewrite bind_blocked by exact Hb. eauto.
  - unfold Memory_GetAccountState. rewrite bind_assoc. unfold bind at 1, new_chan.
    rewrite bind_assoc. erewrite bind_blocked by (apply send_full_blocked; cbn; lia). eauto.
Qed.

(** The accounts bucket after writing the states of a ledger. *)
Definition holds (L : Ledger) (pk : bytes) : Prop :=
  length pk = 32%nat /\ exists v, L !! Encode pk = Some v /\ u64_state v.

Lemma put_state db pk v :
  bolt_has_bucket db accountsBucket = true -> length pk = 32%nat -> u64_state v -> BoltLaws ->
  exists b db', Marshal v = Ok b /\ bolt_put db accountsBucket pk b = Ok db'
    /\ bolt_has_bucket db' accountsBucket = true
    /\ (forall bk k, bolt_get db' bk k = if decide (accountsBucket = bk /\ pk = k) then Some b
                                         else bolt_get db bk k)
    /\ (forall bk, bolt_has_bucket db' bk = bolt_has_bucket db bk).
Proof.
  intros Hb Hl Hv HB. destruct (Marshal v) as [b|] eqn:E; [|done].
  pose proof (length_state_bytes _ _ Hv E).
  destruct (bolt_put_ok db accountsBucket pk b Hb) as [db' Hp].
  { unfold len, MaxKeySize. rewrite Hl. lia. }
  { unfold len, MaxValueSize. lia. }
  exists b, db'. split_and!; [done|done| | |].
  - by rewrite (bolt_put_bucket _ _ _ _ _ _ Hp).
  - intros. by apply bolt_get_put.
  - intros. by apply (bolt_put_bucket _ _ _ _ _ _ Hp).
Qed.

(** What a push leaves in the database. *)
Record pushed (L : Ledger) (pks : list bytes) (db db' : DB) : Prop := {
  pu_bucket b : bolt_has_bucket db' b = bolt_has_bucket db b;
  pu_other b k : b <> accountsBucket \/ k ∉ pks -> bolt_get db' b k = bolt_get db b k;
  pu_in pk v : pk ∈ pks -> L !! Encode pk = Some v -> stored_state db' pk = Ok v
}.

Lemma push_each_run `{!BoltLaws} pks : forall e ch,
  stateCh (env_mem e) = get_reqs ch pks -> wf_mem (env_mem e) ->
  bolt_has_bucket (env_db e) accountsBucket = true ->
  Forall (holds (ledger (env_mem e))) pks ->
  exists db', push_each (map Some pks) (seq ch (length pks)) e
    = (Done (Ok tt), mkEnv (set_stateCh [] (env_mem e)) db')
    /\ pushed (ledger (env_mem e)) pks (env_db e) db'.
Proof.
  induction pks as [|pk pks IH]; intros e ch Hq Hwf Hb Hf.
  - exists (env_db e). split; [|split; [done|done|]].
    + destruct e as [m db]. cbn in *. destruct m. cbn in Hq. by subst.
    + intros pk v Hin. by apply elem_of_nil in Hin.
  - apply Forall_cons in Hf as [(Hl & v & Hv & Hu) Hf].
    pose proof Hv as (b & Hm & Hh)%ledger_Some.
    destruct (put_state (env_db e) pk v Hb Hl Hu _) as (enc & db1 & He & Hp & Hb1 & Hg & Hbs).
    cbn [map length seq push_each get_reqs] in *.
    erewrite bind_done by (apply in_mem_done; by eapply recv_get_hit). cbn [ResErr Value].
    erewrite bind_done by (apply in_mem_done; unfold deref; cbn [env_mem set_env_mem heap set_stateCh]; by rewrite Hh).
    cbv beta. rewrite He.
    erewrite bind_done.
    2:{ apply in_db_done. unfold b_Put. cbn [env_db set_env_mem raw default id]. by rewrite Hp. }
    cbv beta iota. set (e1 := set_env_db db1 _).
    destruct (IH e1 (S ch)) as (db' & Hr & [P1 P2 P3]); [done|done|done|exact Hf|].
    exists db'. split; [exact Hr|]. change (env_db e1) with db1 in *.
    change (ledger (env_mem e1)) with (ledger (env_mem e)) in *. split.
    + intros b'. by rewrite P1.
    + intros b' k Hbk. rewrite P2, Hg, decide_False; [done| |].
      * intros [<- <-]. destruct Hbk as [|Hk]; [done|]. apply Hk. constructor.
      * destruct Hbk as [|Hk]; [by left|right]. intros Hk'. apply Hk. by constructor.
    + intros pk' v' Hin Hv'. destruct (decide (pk' ∈ pks)) as [Hin'|Hin']; [by apply P3|].
      assert (pk' = pk) as -> by (by apply elem_of_cons in Hin as [|]).
      unfold stored_state. rewrite P2 by (by right). rewrite Hg, decide_True by done.
      assert (v' = v) as -> by congruence. by apply UnmarshalInto_Marshal.
Qed.

Lemma PushAccounts_spec `{!BoltLaws} pks e :
  idle (env_mem e) -> wf_mem (env_mem e) ->
  bolt_has_bucket (env_db e) accountsBucket = true -> (forall db, bolt_commit db = None) ->
  (length pks <= stateCh_room)%nat -> Forall (holds (ledger (env_mem e))) pks ->
  exists s' db', PushAccounts (map Some pks) e = (Done None, mkEnv s' db')
    /\ pushed (ledger (env_mem e)) pks (env_db e) db'
    /\ wf_mem s' /\ idle s' /\ ledger s' = ledger (env_mem e) /\ same_pool (env_mem e) s'.
Proof.
  intros Hi Hwf Hb Hc Hl Hf. unfold PushAccounts. unfold idle in Hi.
  erewrite bind_done by (apply in_mem_done, get_all_run; by rewrite Hi).
  set (e1 := set_env_mem _ e).
  destruct (push_each_run pks e1 (nextCh (env_mem e))) as (db' & Hr & Hp);
    [cbn; by rewrite Hi|done|done|done|].
  erewrite bind_done.
  2:{ apply Update_done; [|apply Hc].
      rewrite (bind_done _ _ _ _ _ (bucket_ok _ e1 Hb)). exact Hr. }
  eexists _, db'. split; [reflexivity|]. by split_and!.
Qed.

Lemma PushAccounts_overflow pks e : (length (stateCh (env_mem e)) <= stateCh_room)%nat ->
  (stateCh_room < length (stateCh (env_mem e)) + length pks)%nat ->
  exists w e', PushAccounts (map Some pks) e = (Blocked w, e').
Proof.
  intros Hr Hl. destruct (get_all_overflow pks (env_mem e) Hr Hl) as (w & s' & Hb).
  unfold PushAccounts. erewrite bind_blocked by (apply in_mem_blocked; exact Hb). eauto.
Qed.
End push.

(** ** A new database, and accounts written to it *)
Section new_database.
Context `{Sha3, Base58, ExpSlices, MapOrder, Bolt, !BoltLaws}.

Lemma makeBucket_run db b : bolt_has_bucket db b = false -> b <> [] ->
  (forall db, bolt_commit db = None) ->
  exists db', makeBucket b db = (Done None, db')
    /\ (forall b', bolt_has_bucket db' b' = bool_decide (b = b') || bolt_has_bucket db b')
    /\ (forall b' k, bolt_get db' b' k = bolt_get db b' k).
Proof.
  intros Hb Hne Hc. destruct (bolt_create_ok db b Hb Hne) as (db' & Hcr & Hbs & Hg).
  exists db'. split; [|done]. unfold makeBucket, Update_db, Update, bind. rewrite Hcr, Hc. done.
Qed.

(** A new database has the two empty buckets of the service. *)
Lemma NewStorageService_new : (forall db, bolt_commit db = None) ->
  exists db, NewStorageService None None = Done (Ok db)
    /\ bolt_has_bucket db blocksBucket = true /\ bolt_has_bucket db accountsBucket = true
    /\ forall b k, bolt_get db b k = None.
Proof.
  intros Hc. unfold NewStorageService, NewStorageDb. cbn [makeBuckets].
  destruct (makeBucket_run bolt_empty blocksBucket) as (db1 & R1 & B1 & G1);
    [apply bolt_empty_bucket|done|done|].
  destruct (makeBucket_run db1 accountsBucket) as (db2 & R2 & B2 & G2); [|done|done|].
  { rewrite B1, bolt_empty_bucket. done. }
  rewrite (bind_done _ _ _ _ _ R1), (bind_done _ _ _ _ _ R2). exists db2. split_and!; [done|..].
  - rewrite B2, B1. done.
  - by rewrite B2.
  - intros b k. by rewrite G2, G1, bolt_empty_get.
Qed.

Definition put_account (pk : bytes) (v : AccountState) (db : DB) : DB :=
  match Marshal v with
  | Ok b => match bolt_put db accountsBucket pk b with Ok db' => db' | Err _ => db end
  | Err _ => db
  end.

Lemma put_account_stored pk v db : decodable db -> length pk = 32%nat -> u64_state v ->
  decodable (put_account pk v db)
  /\ forall pk', is_key pk' -> stored (put_account pk v db) pk' = if decide (pk = pk') then v else stored db pk'.
Proof.
  intros Hd Hl Hv. destruct (put_state db pk v (proj1 Hd) Hl Hv _)
    as (b & db' & Hm & Hp & Hb & Hg & _). unfold put_account. rewrite Hm, Hp.
  assert (forall pk', is_key pk' -> stored_state db' pk' = Ok (if decide (pk = pk') then v else stored db pk')) as Hs.
  { intros pk' Hk'. unfold stored_state. rewrite Hg. destruct (decide (pk = pk')) as [<-|Hne].
    - rewrite decide_True by done. by apply UnmarshalInto_Marshal.
    - rewrite decide_False by (by intros []). by apply stored_ok. }
  split; [split; [done|eauto]|]. intros pk' Hk'. unfold stored at 1. by rewrite Hs.
Qed.
End new_database.
