(* ===== verification/StorageProps.v ===== *)
(** The properties of the storage service: what was put is found by key, by
    index and as the latest entry; a failed put changes nothing; loading the
    accounts at start-up, and its limit. *)
From S2P Require Import Prelude Json JsonLaws Common External Merkle Accounts Txs Blocks Memory.
From S2P Require Import MemoryFacts Ledger Storage StorageFacts.
Open Scope Z_scope.

Section put_get.
Context `{Sha3, Base58, ExpSlices, MapOrder, Bolt, !BoltLaws}.

Lemma b_Put_run bucket key v db : bolt_has_bucket db bucket = true ->
  0 < len key <= MaxKeySize -> len v <= MaxValueSize ->
  exists db', b_Put bucket key v db = (Done None, db')
    /\ (forall b, bolt_has_bucket db' b = bolt_has_bucket db b)
    /\ (forall b k, bolt_get db' b k = if decide (bucket = b /\ key = k) then Some v else bolt_get db b k).
Proof.
  intros Hb Hk Hv. destruct (bolt_put_ok db bucket key v Hb Hk Hv) as [db' Hp].
  exists db'. unfold b_Put. rewrite Hp. split_and!; [done|..]; intros.
  - by apply (bolt_put_bucket _ _ _ _ _ _ Hp).
  - by apply bolt_get_put.
Qed.

(** A transaction that does not succeed is rolled back. *)
Lemma Update_db_atomic (f : M DB (result unit)) db :
  (exists db', Update_db f db = (Done None, db')) \/ snd (Update_db f db) = db.
Proof.
  unfold Update_db, bind, Update. destruct (f db) as [[[[]|e]|w|w] db1]; [|by right..].
  destruct (bolt_commit db1); [by right|left; by eexists].
Qed.

(** The four entries of one put. *)
Definition put_entries (key idx enc : bytes) (g : bytes -> gobytes) (k : bytes) : gobytes :=
  if decide (k = latestIndex) then Some idx
  else if decide (k = latestKey) then Some key
  else if decide (k = idx) then Some key
  else if decide (k = key) then Some enc
  else g k.

Lemma StorageDb_Put_run {C} `{DbContent C} bucket (c : C) db enc key idx :
  (forall db, bolt_commit db = None) -> bolt_has_bucket db bucket = true ->
  ToBytes c = Ok enc -> GetKey c = Ok key -> GetIndex c = Ok idx ->
  0 < len (raw key) <= MaxKeySize -> 0 < len idx <= MaxKeySize -> len enc <= MaxValueSize ->
  exists db', StorageDb_Put bucket c db = (Done None, db')
    /\ (forall b, bolt_has_bucket db' b = bolt_has_bucket db b)
    /\ forall b k, bolt_get db' b k
         = if decide (b = bucket) then put_entries (raw key) idx enc (bolt_get db bucket) k
           else bolt_get db b k.
Proof.
  intros Hc Hb Henc Hkey Hidx Lk Li Le.
  assert (len (raw key) <= MaxValueSize /\ len idx <= MaxValueSize) as [Vk Vi]
    by (unfold MaxKeySize, MaxValueSize in *; lia).
  destruct (b_Put_run bucket (raw key) enc db Hb Lk Le) as (d1 & R1 & B1 & G1).
  destruct (b_Put_run bucket idx (raw key) d1) as (d2 & R2 & B2 & G2); [by rewrite B1|done..|].
  destruct (b_Put_run bucket latestKey (raw key) d2) as (d3 & R3 & B3 & G3);
    [by rewrite B2, B1|by vm_compute|done|].
  destruct (b_Put_run bucket latestIndex idx d3) as (d4 & R4 & B4 & G4);
    [by rewrite B3, B2, B1|by vm_compute|done|].
  exists d4. split; [|split].
  - unfold StorageDb_Put, Update_db. unfold bind at 1, Update.
    assert (Bucket bucket db = (Done tt, db)) as HB by (unfold Bucket; by rewrite Hb).
    rewrite (bind_done _ _ _ _ _ HB), Henc, Hkey, Hidx.
    rewrite (bind_done _ _ _ _ _ R1); cbv beta iota. rewrite (bind_done _ _ _ _ _ R2); cbv beta iota.
    rewrite (bind_done _ _ _ _ _ R3); cbv beta iota. rewrite (bind_done _ _ _ _ _ R4); cbv beta iota.
    unfold ret. by rewrite Hc.
  - intros b. by rewrite B4, B3, B2, B1.
  - intros b k. rewrite G4, G3, G2, G1. unfold put_entries.
    destruct (decide (b = bucket)) as [->|Hne].
    + repeat case_decide; intuition congruence.
    + repeat (rewrite decide_False by intuition congruence). done.
Qed.
(** The entries of the blocks bucket after a put, and what is left alone. *)
Record holds_block (db db' : DB) (b : Block) (enc : bytes) : Prop := {
  hb_key : bolt_get db' blocksBucket (raw (bi_Hash (Info b))) = Some enc;
  hb_index : bolt_get db' blocksBucket (be_encode 8 (bi_Height (Info b))) = Some (raw (bi_Hash (Info b)));
  hb_latest : bolt_get db' blocksBucket latestKey = Some (raw (bi_Hash (Info b)));
  hb_latest_index : bolt_get db' blocksBucket latestIndex = Some (be_encode 8 (bi_Height (Info b)));
  hb_bucket bk : bolt_has_bucket db' bk = bolt_has_bucket db bk;
  hb_other bk k : bk <> blocksBucket
      \/ k ∉ [raw (bi_Hash (Info b)); be_encode 8 (bi_Height (Info b)); latestKey; latestIndex] ->
    bolt_get db' bk k = bolt_get db bk k
}.

Lemma put_block_run b db enc :
  (forall db, bolt_commit db = None) -> bolt_has_bucket db blocksBucket = true ->
  length (raw (bi_Hash (Info b))) = 32%nat -> Marshal b = Ok enc -> len enc <= MaxValueSize ->
  exists db', Storage_Put BlocksKind (Some b) db = (Done (mkResult None None), db') /\ holds_block db db' b enc.
Proof.
  intros Hc Hb Hl Hm Hv. set (h := raw (bi_Hash (Info b))) in *.
  set (idx := be_encode 8 (bi_Height (Info b))).
  assert (length idx = 8%nat) as Hli by apply length_be_encode.
  destruct (StorageDb_Put_run blocksBucket b db enc (bi_Hash (Info b)) idx Hc Hb)
    as (db' & Hp & Hbs & Hg); [exact Hm|reflexivity|reflexivity|unfold len, MaxKeySize; fold h; lia|unfold len, MaxKeySize; lia|done|].
  fold h in Hg. assert (forall k, bolt_get db' blocksBucket k = put_entries h idx enc (bolt_get db blocksBucket) k)
    as Hg' by (intros k; by rewrite Hg, decide_True by done).
  assert (forall k k' : bytes, length k <> length k' -> k <> k') as Hdiff by (intros; congruence).
  exists db'. split; [|split].
  - unfold Storage_Put, storage_put. by rewrite (bind_done _ _ _ _ _ Hp).
  - fold h. rewrite Hg'. unfold put_entries. rewrite (decide_False (P := h = latestIndex)), (decide_False (P := h = latestKey)),
      (decide_False (P := h = idx)), decide_True; [done|done|..];
      apply Hdiff; rewrite Hl, ?Hli; cbn; lia.
  - fold h idx. rewrite Hg'. unfold put_entries. rewrite (decide_False (P := idx = latestIndex)), (decide_False (P := idx = latestKey)),
      decide_True; [done|done|..];
      apply Hdiff; rewrite Hli; cbn; lia.
  - fold h. rewrite Hg'. unfold put_entries. by rewrite decide_False, decide_True by done.
  - fold idx. rewrite Hg'. unfold put_entries. by rewrite decide_True by done.
  - exact Hbs.
  - intros bk k Hk. rewrite Hg. case_decide as Hbk; [subst bk|done]. destruct Hk as [|Hk]; [done|].
    fold h idx in Hk. unfold put_entries. repeat (rewrite decide_False by (intros ->; apply Hk; set_solver)). done.
Qed.
End put_get.

(** The reads of the blocks bucket. *)
Section reads.
Context `{Sha3, Base58, ExpSlices, MapOrder, Bolt}.

Definition raw_at (db : DB) (k : bytes) : bytes := raw (bolt_get db blocksBucket k).

Lemma Storage_Get_blocks db : bolt_has_bucket db blocksBucket = true ->
  let found v := (Done (mkResult v None), db) in
  let at_ := bolt_get db blocksBucket in
  (forall k, Storage_Get BlocksKind RefKey (Some k) db = found (at_ k))
  /\ (forall i, Storage_Get BlocksKind RefIndex (Some i) db = found (at_ (raw_at db i)))
  /\ Storage_Get BlocksKind RefLatest None db = found (at_ (raw_at db latestKey))
  /\ Storage_Get BlocksKind RefLatestKey None db = found (at_ latestKey)
  /\ Storage_Get BlocksKind RefLatestIndex None db = found (at_ latestIndex).
Proof.
  intros Hb. cbv zeta. assert (Bucket blocksBucket db = (Done tt, db)) as HB by (unfold Bucket; by rewrite Hb).
  split_and!; intros; unfold Storage_Get, storage_get, bind, ret;
    cbn -[blocksBucket latestKey latestIndex Bucket];
    unfold GetByKey, GetByIndex, GetLatest, GetLatestKey, GetLatestIndex, bind; rewrite HB; done.
Qed.
End reads.

(** ** Loading all accounts *)
Section fetch_all.
Context `{Sha3, Base58, ExpSlices, MapOrder, Bolt, !BoltLaws}.

(** The entries of the accounts bucket whose key is a public key. *)
Definition account_entries (db : DB) (entries : list (bytes * bytes)) : list bytes :=
  filter (fun k => length k = 32%nat) entries.*1.

Lemma account_entries_cons db k v es :
  account_entries db ((k, v) :: es)
  = if decide (length k = 32%nat) then k :: account_entries db es else account_entries db es.
Proof. done. Qed.

Lemma fetch_entries_run entries : forall e,
  (forall k v, (k, v) ∈ entries -> bolt_get (env_db e) accountsBucket k = Some v) ->
  decodable (env_db e) ->
  (length (stateCh (env_mem e)) + length (account_entries (env_db e) entries) <= stateCh_room)%nat ->
  let pks := account_entries (env_db e) entries in
  fetch_entries entries e
  = (Done (Ok (seq (nextCh (env_mem e)) (length pks))),
     set_env_mem (queued (fetched (env_db e) pks) (env_mem e)) e).
Proof.
  induction entries as [|[k v] entries IH]; intros e Hin Hd Hl; cbv zeta.
  { cbn [fetch_entries account_entries fmap list_fmap]. cbn. rewrite queued_nil. by destruct e. }
  assert (forall k v, (k, v) ∈ entries -> bolt_get (env_db e) accountsBucket k = Some v) as Hin'
    by (intros k' v' Hkv; apply Hin; by constructor).
  rewrite account_entries_cons in *. cbn [fetch_entries]. unfold len, PublicKeySize.
  destruct (decide (length k = 32%nat)) as [Hk|Hk].
  2:{ rewrite (proj2 (Z.eqb_neq _ _)) by lia. by apply IH. }
  rewrite Hk. change (Z.of_nat 32 =? 32) with true. cbv iota. cbn [length] in Hl.
  pose proof (stored_ok (env_db e) k Hd Hk) as Hs. unfold stored_state in Hs.
  rewrite (Hin k v) in Hs by constructor.
  change (Unmarshal (T := AccountState) v) with (UnmarshalInto v zero_state). rewrite Hs.
  rewrite queue_step by lia. set (e1 := set_env_mem _ e).
  rewrite (bind_done _ _ _ _ _ (IH e1 Hin' Hd ltac:(cbn [env_mem env_db e1 set_env_mem]; rewrite queue_one_length; lia))).
  unfold ret. cbn [result_bind length seq fetched map]. rewrite <- queued_cons. reflexivity.
Qed.

Lemma fetch_entries_overflow entries : forall e,
  (forall k v, (k, v) ∈ entries -> bolt_get (env_db e) accountsBucket k = Some v) ->
  decodable (env_db e) -> (length (stateCh (env_mem e)) <= stateCh_room)%nat ->
  (stateCh_room < length (stateCh (env_mem e)) + length (account_entries (env_db e) entries))%nat ->
  exists w e', fetch_entries entries e = (Blocked w, e').
Proof.
  induction entries as [|[k v] entries IH]; intros e Hin Hd Hr Hl; [cbn in Hl; lia|].
  assert (forall k v, (k, v) ∈ entries -> bolt_get (env_db e) accountsBucket k = Some v) as Hin'
    by (intros k' v' Hkv; apply Hin; by constructor).
  rewrite account_entries_cons in Hl. cbn [fetch_entries]. unfold len, PublicKeySize.
  destruct (decide (length k = 32%nat)) as [Hk|Hk].
  2:{ rewrite (proj2 (Z.eqb_neq _ _)) by lia. by apply IH. }
  rewrite Hk. change (Z.of_nat 32 =? 32) with true. cbv iota. cbn [length] in Hl.
  pose proof (stored_ok (env_db e) k Hd Hk) as Hs. unfold stored_state in Hs.
  rewrite (Hin k v) in Hs by constructor.
  change (Unmarshal (T := AccountState) v) with (UnmarshalInto v zero_state). rewrite Hs.
  destruct (decide (length (stateCh (env_mem e)) < stateCh_room)%nat) as [Hlt|Hge].
  - rewrite queue_step by done.
    edestruct IH as (w & e' & Hb); [| | | |erewrite bind_blocked by exact Hb; eauto]; try done;
      cbn [env_mem env_db set_env_mem]; rewrite queue_one_length; lia.
  - apply queue_step_blocked. lia.
Qed.

(** The accounts a database holds. *)
Definition stored_accounts (db : DB) : list bytes :=
  account_entries db (bolt_cursor db accountsBucket).

Lemma stored_accounts_spec db pk : length pk = 32%nat ->
  pk ∈ stored_accounts db <-> bolt_get db accountsBucket pk <> None.
Proof.
  intros Hl. unfold stored_accounts, account_entries.
  rewrite list_elem_of_filter, list_elem_of_fmap. split.
  - intros (_ & [k v] & -> & Hin%bolt_cursor_spec). cbn [fst]. by rewrite Hin.
  - intros Hg. split; [done|]. destruct (bolt_get db accountsBucket pk) as [v|] eqn:E; [|done].
    exists (pk, v). split; [done|]. by apply bolt_cursor_spec.
Qed.

(** [FetchAllAccounts], within the room of the request channel and beyond. *)
Lemma FetchAll_run `{!Base58Laws} e :
  idle (env_mem e) -> wf_mem (env_mem e) -> ledger (env_mem e) = ∅ -> decodable (env_db e) ->
  if decide (length (stored_accounts (env_db e)) <= 11)%nat then
    exists s', FetchAllAccounts e = (Done None, set_env_mem s' e)
      /\ idle s' /\ wf_mem s' /\ same_pool (env_mem e) s'
      /\ ledger s' = put_all (encoded (fetched (env_db e) (stored_accounts (env_db e)))) ∅
  else exists w e', FetchAllAccounts e = (Blocked w, e').
Proof.
  intros Hi Hwf HL Hd. set (pks := stored_accounts (env_db e)).
  assert (forall k v, (k, v) ∈ bolt_cursor (env_db e) accountsBucket ->
    bolt_get (env_db e) accountsBucket k = Some v) as Hin by (intros k v; apply bolt_cursor_spec).
  assert (length (stateCh (env_mem e)) = 0%nat) as E0 by (unfold idle in Hi; by rewrite Hi).
  unfold FetchAllAccounts. rewrite (bind_done _ _ _ _ _ (bucket_ok _ _ (proj1 Hd))).
  erewrite (bind_done (in_db (gets _))) by (apply in_db_done; reflexivity). cbv beta.
  replace (set_env_db (env_db e) e) with e by (by destruct e). case_decide as Hle.
  - pose proof (fetch_entries_run (bolt_cursor (env_db e) accountsBucket) e Hin Hd) as Hr.
    cbv zeta in Hr. change (account_entries _ _) with pks in Hr.
    rewrite (bind_done _ _ _ _ _ (Hr ltac:(rewrite E0; exact Hle))). cbv beta iota.
    destruct (recv_queued (fetched (env_db e) pks) (env_mem e) Hi Hwf)
      as (s' & Hrec & Hwf' & Hi' & HL' & Hp). unfold fetched in Hrec at 1. rewrite length_map in Hrec.
    erewrite bind_done by (apply in_mem_done; exact Hrec). exists s'. rewrite HL in HL'. by split_and!.
  - edestruct fetch_entries_overflow as (w & e' & Hb); [exact Hin|exact Hd|rewrite E0; lia| |].
    { change (account_entries _ _) with pks. rewrite E0. unfold stateCh_room. lia. }
    erewrite bind_blocked by exact Hb. eauto.
Qed.
End fetch_all.

(** * Properties *)
Section storage_properties.
Context `{Sha3, Base58, ExpSlices, MapOrder, Bolt, !BoltLaws}.

(** C28: a stored block is found again: after a put that the disk accepts, the
    block can be read back by its hash, by its height and as the latest block,
    decoding to the same block, the latest key and index are its own, and no
    entry but these four changes. *)
Theorem Storage_Put_Get_block b db enc :
  (forall db, bolt_commit db = None) -> bolt_has_bucket db blocksBucket = true ->
  u64_block b -> length (raw (bi_Hash (Info b))) = 32%nat ->
  Marshal b = Ok enc -> len enc <= MaxValueSize ->
  let h := raw (bi_Hash (Info b)) in
  let idx := be_encode 8 (bi_Height (Info b)) in
  let get r db' := fst (Storage_Get BlocksKind (fst r) (snd r) db') in
  exists db', Storage_Put BlocksKind (Some b) db = (Done (mkResult None None), db')
    /\ get (RefKey, Some h) db' = Done (mkResult (Some enc) None)
    /\ get (RefIndex, Some idx) db' = Done (mkResult (Some enc) None)
    /\ get (RefLatest, None) db' = Done (mkResult (Some enc) None)
    /\ get (RefLatestKey, None) db' = Done (mkResult (Some h) None)
    /\ get (RefLatestIndex, None) db' = Done (mkResult (Some idx) None)
    /\ Unmarshal enc = Ok b
    /\ (forall bk k, bk <> blocksBucket \/ k ∉ [h; idx; latestKey; latestIndex] ->
          bolt_get db' bk k = bolt_get db bk k).
Proof.
  intros Hc Hb Hu Hl Hm Hv. cbv zeta.
  destruct (put_block_run b db enc Hc Hb Hl Hm Hv) as (db' & Hp & [G1 G2 G3 G4 Hbs Ho]).
  destruct (Storage_Get_blocks db') as (R1 & R2 & R3 & R4 & R5); [by rewrite Hbs|].
  exists db'. cbn [fst snd]. rewrite R1, R2, R3, R4, R5. unfold raw_at. rewrite G2, G3, G4. cbn [raw default id].
  rewrite G1. split_and!; try done. by apply Unmarshal_Marshal.
Qed.

(** A put that fails, for whatever reason and on whichever of its four
    writes, leaves the database as it was. *)
Theorem Storage_Put_atomic {C} `{DbContent C} bucket (c : option C) db :
  let r := Storage_Put bucket c db in
  (exists res, fst r = Done res /\ ResErr res = None) \/ snd r = db.
Proof.
  cbv zeta. unfold Storage_Put, storage_put.
  assert (forall bk (c : C), (exists db', StorageDb_Put bk c db = (Done None, db'))
    \/ snd (StorageDb_Put bk c db) = db) as Hput.
  { intros bk c0. unfold StorageDb_Put. apply Update_db_atomic. }
  assert (forall bk (c : C), let r := (let* err := StorageDb_Put bk c in ret (mkResult (@None bytes) err)) db in
    (exists res, fst r = Done res /\ ResErr res = None) \/ snd r = db) as Hgo.
  { intros bk c0. cbv zeta. destruct (Hput bk c0) as [[db' Hp]|Hp].
    - left. rewrite (bind_done _ _ _ _ _ Hp). by eexists.
    - right. unfold bind. destruct (StorageDb_Put bk c0 db) as [[]]; done. }
  destruct c as [c|]; [|by right]. destruct bucket; [apply Hgo|apply Hgo|by right].
Qed.

(** C29: loading the accounts at start-up: a database with at most eleven
    accounts ends up in memory, every account with its stored state, and with
    more than eleven the node blocks for ever, since all the writes are sent
    before the first reply is read. *)
Theorem FetchAllAccounts_correct `{!Base58Laws} e :
  idle (env_mem e) -> wf_mem (env_mem e) -> ledger (env_mem e) = ∅ -> decodable (env_db e) ->
  if decide (length (stored_accounts (env_db e)) <= 11)%nat then
    exists s', FetchAllAccounts e = (Done None, set_env_mem s' e)
      /\ idle s' /\ wf_mem s' /\ same_pool (env_mem e) s'
      /\ forall pk, length pk = 32%nat ->
           ledger s' !! Encode pk
           = (fun _ => stored (env_db e) pk) <$> bolt_get (env_db e) accountsBucket pk
  else exists w e', FetchAllAccounts e = (Blocked w, e').
Proof.
  intros Hi Hwf HL Hd. pose proof (FetchAll_run e Hi Hwf HL Hd) as HF. case_decide as Hle; [|exact HF].
  destruct HF as (s' & Hr & Hi' & Hwf' & Hp & HL'). exists s'. split_and!; [done..|]. intros pk Hl.
  rewrite HL', put_fetched_lookup, lookup_empty. pose proof (stored_accounts_spec (env_db e) pk Hl).
  destruct (bolt_get (env_db e) accountsBucket pk); case_decide; cbn; intuition congruence.
Qed.
End storage_properties.

Section storage_witnesses.
Import Toy.

Definition empty_db : DB :=
  match NewStorageService None None with Done (Ok db) => db | _ => bolt_empty end.

Lemma empty_db_spec : bolt_has_bucket empty_db blocksBucket = true
  /\ bolt_has_bucket empty_db accountsBucket = true /\ forall b k, bolt_get empty_db b k = None.
Proof.
  destruct NewStorageService_new as (db & Hdb & Hb); [done|]. unfold empty_db. by rewrite Hdb.
Qed.

Lemma empty_db_decodable : decodable empty_db.
Proof.
  destruct empty_db_spec as (_ & Hb & Hg). split; [exact Hb|].
  intros pk _. unfold stored_state. rewrite Hg. by exists zero_state.
Qed.

Lemma Storage_Put_Get_block_witness :
  exists db', Storage_Put BlocksKind (Some demo_block) empty_db = (Done (mkResult None None), db')
    /\ exists enc, fst (Storage_Get BlocksKind RefLatest None db') = Done (mkResult (Some enc) None)
         /\ Unmarshal enc = Ok demo_block.
Proof.
  destruct (Marshal demo_block) as [enc|] eqn:Hm; [|discriminate Hm].
  destruct (Storage_Put_Get_block demo_block empty_db enc) as (db' & Hp & _ & _ & Hl & _ & _ & Hu & _).
  - reflexivity.
  - apply empty_db_spec.
  - apply demo_block_u64; [reflexivity|by vm_compute].
  - vm_compute. reflexivity.
  - exact Hm.
  - apply (f_equal (fun r => match r with Ok e => len e <=? MaxValueSize | Err _ => true end)) in Hm.
    apply Z.leb_le. rewrite <- Hm. vm_compute. reflexivity.
  - exists db'. split; [exact Hp|]. exists enc. split; [exact Hl|exact Hu].
Defined.

Lemma FetchAllAccounts_correct_witness :
  exists s', FetchAllAccounts (mkEnv NewMemoryService empty_db)
             = (Done None, set_env_mem s' (mkEnv NewMemoryService empty_db)) /\ wf_mem s'.
Proof.
  pose proof (FetchAllAccounts_correct (mkEnv NewMemoryService empty_db) eq_refl wf_mem_new eq_refl
    empty_db_decodable) as Hf.
  rewrite decide_True in Hf by (vm_compute; lia).
  destruct Hf as (s' & Hs & _ & Hwf & _). exists s'. split; [exact Hs|exact Hwf].
Defined.
End storage_witnesses.
