(* ===== verification/Executers.v ===== *)
(** Package [executers], part one: the faucet and the transaction executer
    (executers/faucet.go, executers/executer.go).

    The executer runs on the memory service and the database; [finCh], the
    channel [Execute] returns, is represented by what its goroutine
    [waitForFinality] has captured: the set of executed public keys. *)
From S2P Require Import Prelude Json JsonLaws Common External Merkle Accounts Txs Blocks Rpc Memory.
From S2P Require Import Storage.
Open Scope Z_scope.

Section executers.
Context `{Sha3, Base58, ExpSlices, MapOrder, Bolt}.

Record Executer := mkExecuter { exe_env : Env; faucet_generator : gobytes }.

Definition set_exe_env (e : Env) (x : Executer) : Executer := mkExecuter e (faucet_generator x).
Definition set_generator (g : gobytes) (x : Executer) : Executer := mkExecuter (exe_env x) g.

Definition in_env {A} (m : M Env A) : M Executer A := zoom exe_env set_exe_env m.
Definition mem {A} (m : M MemoryService A) : M Executer A := in_env (in_mem m).
Definition db {A} (m : M DB A) : M Executer A := in_env (in_db m).

(** ** The faucet.  [now] is [time.Now().Unix()]. *)
Definition Faucet_Init (now : Z) : M Executer (option error) :=
  let* res := db (Storage_Get BlocksKind RefIndex (Some (replicate 8 x00))) in
  match ResErr res, Value res with
  | Some e, _ => ret (Some e)
  | None, None => ret None
  | None, Some v =>
      match Unmarshal (T := Block) v with
      | Err e => ret (Some e)
      | Ok blk =>
          let pk := bi_PublicKey (Info blk) in
          let* res := db (Storage_Get AccountsKind RefKey pk) in
          match ResErr res, Value res with
          | Some e, _ => ret (Some e)
          | None, Some _ => let* _ := modify (set_generator pk) in ret None
          | None, None =>
              let generatorAccount :=
                mkAccount pk (mkAccountState 0 GeneratorBalance) now in
              let* res := db (Storage_Put AccountsKind (Some generatorAccount)) in
              match ResErr res with
              | Some e => ret (Some e)
              | None => let* _ := modify (set_generator pk) in ret None
              end
          end
      end
  end.

Definition Generator (x : Executer) : result gobytes :=
  if is_nil (faucet_generator x) then Err "generator is not initialized yet"
  else Ok (faucet_generator x).

(** ** Sets of public keys *)
Definition publicKeys : Type := list gobytes.
Definition newPublicKeys : publicKeys := [].
Definition publicKeys_add (pubKey : gobytes) (Keys : publicKeys) : publicKeys :=
  if ContainsFunc Keys (fun pk => bytes_Equal pubKey pk) then Keys else Keys ++ [pubKey].

(** ** Transfers between accounts

    Both states are requested before the first reply is read.  An early
    return leaves the second reply unread. *)
Definition recv_result (ch : chan) : M MemoryService (Result ptr) :=
  let* r := recv_state ch in
  match r with Some res => ret res | None => panic "nil pointer dereference" end.

Definition airdropImpl (to : gobytes) (nonce : Z) (from : gobytes) (amount : Z)
  : M MemoryService (option error) :=
  let* fromCh := Memory_GetAccountState from in
  let* toCh := Memory_GetAccountState to in
  let* fromRes := recv_result fromCh in
  match ResErr fromRes with
  | Some e => ret (Some e)
  | None =>
      let fromState := Value fromRes in
      let* toRes := recv_result toCh in
      let toState := Value toRes in
      let* ok := call_method (CheckNonce nonce) toState in
      if negb ok then ret (Some "nonce is Invalid"%string)
      else
        let* ok := call_method (Subtract amount) fromState in
        if negb ok then ret (Some "not enough balance"%string)
        else
          let* ok := call_method (Add amount) toState in
          if negb ok then ret (Some "overflow"%string)
          else
            let* fromCh := PutAccountState from fromState in
            let* toCh := PutAccountState to toState in
            let* _ := recv_state fromCh in
            let* _ := recv_state toCh in
            ret None
  end.

Definition transferImpl (from : gobytes) (nonce : Z) (to : gobytes) (amount : Z)
  : M MemoryService (option error) :=
  let* fromCh := Memory_GetAccountState from in
  let* toCh := Memory_GetAccountState to in
  let* fromRes := recv_result fromCh in
  match ResErr fromRes with
  | Some e => ret (Some e)
  | None =>
      let fromState := Value fromRes in
      let* ok := call_method (CheckNonce nonce) fromState in
      if negb ok then ret (Some "nonce is Invalid"%string)
      else
        let* toRes := recv_result toCh in
        match ResErr toRes with
        | Some e => ret (Some e)
        | None =>
            let toState := Value toRes in
            let* ok := call_method (Subtract amount) fromState in
            if negb ok then ret (Some "not enough balance"%string)
            else
              let* ok := call_method (Add amount) toState in
              if negb ok then ret (Some "overflow"%string)
              else
                let* fromCh := PutAccountState from fromState in
                let* toCh := PutAccountState to toState in
                let* _ := recv_state fromCh in
                let* _ := recv_state toCh in
                ret None
        end
  end.

(** ** Calls.  [executed] and [dirty] are passed by reference: the updated
    sets are returned with the error. *)
Definition executeAirdrop (rawParam caller : gobytes) (nonce : Z)
  (executed dirty : publicKeys) : M Executer (option error * publicKeys * publicKeys) :=
  match Unmarshal (T := AirdropParam) (raw rawParam) with
  | Err _ => ret (Some
      "failed to umarshal airdrop param, should be checked before execute"%string,
      executed, dirty)
  | Ok param =>
      let* x := get in
      match Generator x with
      | Err e => ret (Some e, executed, dirty)
      | Ok gen =>
          let* err := mem (airdropImpl caller nonce gen (ap_Amount param)) in
          match err with
          | Some e => ret (Some e, executed, publicKeys_add gen (publicKeys_add caller dirty))
          | None => ret (None, publicKeys_add gen (publicKeys_add caller executed), dirty)
          end
      end
  end.

Definition executeTransfer (rawParam caller : gobytes) (nonce : Z)
  (executed dirty : publicKeys) : M Executer (option error * publicKeys * publicKeys) :=
  match Unmarshal (T := TransferParam) (raw rawParam) with
  | Err _ => ret (Some
      "failed to umarshal transfer param, should be checked before execute"%string,
      executed, dirty)
  | Ok param =>
      let* err := mem (transferImpl caller nonce (tp_To param) (tp_Amount param)) in
      match err with
      | Some e =>
          ret (Some e, executed, publicKeys_add (tp_To param) (publicKeys_add caller dirty))
      | None =>
          ret (None, publicKeys_add (tp_To param) (publicKeys_add caller executed), dirty)
      end
  end.

Definition revert (dirty : publicKeys) (prevError : error) : M Executer (option error) :=
  let* err := in_env (FetchAccounts dirty) in
  match err with
  | Some e => ret (Some ("original error: " ++ prevError
                     ++ ", another error accoured on revert: " ++ e)%string)
  | None => ret None
  end.

(** ** Blocks of transactions

    The transactions are updated in place ([Status]): the updated list is
    returned with the result. *)
Inductive step_result :=
| StepNext (tx : Transaction) (executed : publicKeys)
| StepFail (e : error).

(** The body of the loop for [transactions[i]]. *)
Definition execute_one (tx : Transaction) (executed : publicKeys) : M Executer step_result :=
  let dirty := newPublicKeys in
  match Unmarshal (T := Call) (raw (td_Data (tx_InnerData tx))) with
  | Err _ => ret (StepNext tx executed)
  | Ok call =>
      if negb (Call_Verify call) then ret (StepNext tx executed)
      else
        let caller := td_PublicKey (tx_InnerData tx) in
        let nonce := td_Nonce (tx_InnerData tx) in
        let finish (r : option error * publicKeys * publicKeys) :=
          let '(err, executed, dirty) := r in
          match err with
          | Some e =>
              let* er := revert dirty e in
              match er with
              | Some e' => ret (StepFail e')
              | None =>
                  let tx := set_Status false tx in
                  let tx := set_Status true tx in
                  ret (StepNext tx executed)
              end
          | None => ret (StepNext (set_Status true tx) executed)
          end in
        if call_Call call =? Airdrop then
          let* r := executeAirdrop (call_Params call) caller nonce executed dirty in finish r
        else if call_Call call =? Transfer then
          let* r := executeTransfer (call_Params call) caller nonce executed dirty in finish r
        else ret (StepNext tx executed)
  end.

Fixpoint execute_loop (transactions : list Transaction) (executed : publicKeys)
  : M Executer (list Transaction * result publicKeys) :=
  match transactions with
  | [] => ret ([], Ok executed)
  | tx :: rest =>
      let* r := execute_one tx executed in
      match r with
      | StepFail e => ret (tx :: rest, Err e)
      | StepNext tx executed =>
          let* r := execute_loop rest executed in
          let '(rest, res) := r in
          ret (tx :: rest, res)
      end
  end.

Definition ExecuteNow (transactions : list Transaction)
  : M Executer (list Transaction * result publicKeys) :=
  execute_loop transactions newPublicKeys.

(** The result stands for [finCh]: the keys its goroutine waits with. *)
Definition Execute (transactions : list Transaction)
  : M Executer (list Transaction * result publicKeys) :=
  let* r := ExecuteNow transactions in
  let '(transactions, res) := r in
  match res with
  | Err e => ret (transactions, Err e)
  | Ok executed => ret (transactions, Ok executed)
  end.

(** What the goroutine does when [ok] arrives on [finCh]; the error is sent
    to [errCh]. *)
Definition waitForFinality (ok : bool) (executed : publicKeys) : M Executer (option error) :=
  if ok then in_env (PushAccounts executed)
  else revert executed "block was rejected".
End executers.
