(* ===== verification/ExecuterFacts.v ===== *)
(** The executer implements the ledger specification: pointer updates,
    channel requests and replies against the functions of Ledger.v. *)
From S2P Require Import Prelude Json JsonLaws Common External Merkle Accounts Txs Blocks Rpc Memory.
From S2P Require Import MemoryFacts Ledger Storage Executers.
Open Scope Z_scope.

(** What an operation on a quiet service leaves behind: [unread] replies block
    the service, and nothing else changes but the ledger. *)
Record leaves (s s' : MemoryService) (unread : bool) (L : Ledger) : Prop := {
  lv_wf : wf_mem s';
  lv_ledger : ledger s' = L;
  lv_pool : same_pool s s';
  lv_queue : if unread
             then exists req ch, stateCh s' = [req] /\ sr_ResultCh req = Some ch
                    /\ (ch < nextCh s')%nat
             else idle s'
}.

(** Run the first command of a sequence by its lemma. *)
Ltac step lem :=
  erewrite bind_done by
    (eapply lem; first [reflexivity | eassumption | (cbv [stateCh_room]; cbn; lia)]);
  cbv beta.

Section transfers.
Context `{Sha3, Base58, ExpSlices, MapOrder, Bolt}.

Lemma recv_result_hit s pk st ch rest b :
  stateCh s = mkStateMemRequest MemGet (Some pk) st (Some ch) :: rest ->
  dbMap (stateMem s) !! Encode pk = Some b ->
  recv_result ch s = (Done (mkResult (content b) None), set_stateCh rest s).
Proof.
  intros Hq Hb. unfold recv_result. by rewrite (bind_done _ _ _ _ _ (recv_get_hit _ _ _ _ _ _ Hq Hb)); cbv beta.
Qed.

Lemma recv_result_miss s pk st ch rest :
  stateCh s = mkStateMemRequest MemGet (Some pk) st (Some ch) :: rest ->
  dbMap (stateMem s) !! Encode pk = None ->
  recv_result ch s = (Done (not_found s),
    set_heap (heap s ++ [zero_state; zero_state]) (set_stateCh rest s)).
Proof.
  intros Hq Hb. unfold recv_result. by rewrite (bind_done _ _ _ _ _ (recv_get_miss _ _ _ _ _ Hq Hb)); cbv beta.
Qed.

(** Writing back two states: the first pointer is the account's own. *)
Lemma put_pair s pk1 pk2 b1 p2 v2 :
  idle s -> wf_mem s -> dbMap (stateMem s) !! Encode pk1 = Some b1 ->
  owned (dbMap (stateMem s)) (Encode pk2) p2 -> heap s !! p2 = Some v2 ->
  exists s',
    (let* c1 := PutAccountState (Some pk1) (content b1) in
     let* c2 := PutAccountState (Some pk2) p2 in
     let* _ := recv_state c1 in
     let* _ := recv_state c2 in ret (@None error)) s = (Done None, s')
    /\ leaves s s' false (<[Encode pk2 := v2]> (ledger s)).
Proof.
  intros Hi Hwf Hc1 Hc2 Hv. destruct s as [pool h md tq sq nc]. cbv [idle stateCh] in Hi.
  subst sq. cbn in Hc1, Hc2, Hv. eexists. split.
  - step PutAccountState_enqueue.
    step PutAccountState_enqueue.
    cbn [enqueue stateCh app].
    step recv_put.
    step recv_put. done.
  - assert (dbMap (MemoryDb_Put (Encode pk1) (content b1) md) = dbMap md) as Hsame.
    { rewrite MemoryDb_Put_insert. apply insert_id. rewrite Hc1. by destruct b1. }
    split; cbn; rewrite ?MemoryDb_Put_insert, ?Hsame; [|..|done|done].
    + unfold wf_mem. cbn. rewrite MemoryDb_Put_insert, Hsame.
      apply wf_store_put; [done| |done]. by apply lookup_lt_Some in Hv.
    + unfold ledger. cbn. rewrite MemoryDb_Put_insert, Hsame. by apply ledger_put.
Qed.

(** A method call through an account's pointer is an update of the ledger. *)
Lemma call_account {A} (f : AccountState -> A * AccountState) s k b v :
  wf_mem s -> dbMap (stateMem s) !! k = Some b -> ledger s !! k = Some v ->
  exists s', call_method f (content b) s = (Done (fst (f v)), s')
    /\ wf_mem s' /\ ledger s' = <[k := snd (f v)]> (ledger s)
    /\ dbMap (stateMem s') = dbMap (stateMem s) /\ stateCh s' = stateCh s
    /\ nextCh s' = nextCh s /\ length (heap s') = length (heap s) /\ same_pool s s'.
Proof.
  intros Hwf Hb Hv. apply ledger_Some in Hv as (b' & Hb' & Hh).
  assert (b' = b) as -> by congruence.
  eexists. split; [by apply call_method_run|]. cbn.
  split_and!; try done.
  - by apply wf_store_set.
  - by apply ledger_set.
  - apply length_insert.
Qed.

Lemma ledger_hit s k b : wf_mem s -> dbMap (stateMem s) !! k = Some b ->
  exists v, ledger s !! k = Some v /\ heap s !! content b = Some v.
Proof.
  intros Hwf Hb. pose proof (wf_valid _ _ Hwf _ _ Hb) as [v Hv]%lookup_lt_is_Some.
  exists v. split; [|done]. apply ledger_Some. eauto.
Qed.

(** The common tail of the two operations, on pointers. *)
Definition settle (from to : gobytes) (fromState toState : ptr) (amount : Z)
  : M MemoryService (option error) :=
  let* ok := call_method (Subtract amount) fromState in
  if negb ok then ret (Some "not enough balance"%string)
  else
    let* ok := call_method (Add amount) toState in
    if negb ok then ret (Some "overflow"%string)
    else
      let* fromCh := PutAccountState from fromState in
      let* toCh := PutAccountState to toState in
      let* _ := recv_state fromCh in
      let* _ := recv_state toCh in
      ret None.

Lemma settle_spec s pf pt bf bt amount :
  idle s -> wf_mem s ->
  dbMap (stateMem s) !! Encode pf = Some bf -> dbMap (stateMem s) !! Encode pt = Some bt ->
  let r := spec_settle (Encode pf) (Encode pt) amount (ledger s) in
  sp_unread r = false /\
  exists s', settle (Some pf) (Some pt) (content bf) (content bt) amount s
             = (Done (sp_err r), s')
    /\ leaves s s' false (sp_ledger r).
Proof.
  intros Hi Hwf Ef Et r. subst r. unfold spec_settle, settle.
  destruct (ledger_hit s _ _ Hwf Ef) as (sf & HLf & _). rewrite HLf. cbn [default id].
  destruct (call_account (Subtract amount) s _ _ _ Hwf Ef HLf)
    as (s1 & Hc1 & Hwf1 & HL1 & Hm1 & Hq1 & _ & _ & Hp1).
  rewrite (bind_done _ _ _ _ _ Hc1). destruct (Subtract amount sf) as [ok sf1].
  cbn [fst snd] in *. rewrite <- HL1.
  assert (idle s1) as Hi1 by (unfold idle; by rewrite Hq1).
  destruct ok; cbn [negb]; [|by split; [|eexists; split; [|split]]].
  rewrite <- Hm1 in Ef, Et.
  destruct (ledger_hit s1 _ _ Hwf1 Et) as (st & HLt & _). rewrite HLt. cbn [default id].
  destruct (call_account (Add amount) s1 _ _ _ Hwf1 Et HLt)
    as (s2 & Hc2 & Hwf2 & HL2 & Hm2 & Hq2 & _ & _ & Hp2).
  rewrite (bind_done _ _ _ _ _ Hc2). destruct (Add amount st) as [ok st1].
  cbn [fst snd] in *. rewrite <- HL2.
  pose proof (same_pool_trans _ _ _ Hp1 Hp2) as Hp.
  assert (idle s2) as Hi2 by (unfold idle; by rewrite Hq2).
  destruct ok; cbn [negb]; [|by split; [|eexists; split; [|split]]].
  rewrite <- Hm2 in Ef, Et. destruct (ledger_hit s2 _ _ Hwf2 Et) as (v & Hv & Hh).
  destruct (put_pair s2 pf pt bf (content bt) v Hi2 Hwf2 Ef
              (owned_cell _ _ _ _ Hwf2 Et) Hh) as (s3 & Hput & [W Lg P Q]).
  split; [done|]. eexists. split; [apply Hput|]. split; [done| | |done].
  - rewrite Lg. by apply insert_id.
  - by eapply same_pool_trans.
Qed.

(** The tail when the receiver is a new account behind a fresh pointer. *)
Lemma settle_new_spec s pf pt bf p st amount :
  idle s -> wf_mem s ->
  dbMap (stateMem s) !! Encode pf = Some bf -> dbMap (stateMem s) !! Encode pt = None ->
  owned (dbMap (stateMem s)) (Encode pt) p -> heap s !! p = Some st ->
  let sf := default zero_state (ledger s !! Encode pf) in
  let L1 := <[Encode pf := snd (Subtract amount sf)]> (ledger s) in
  let ok1 := fst (Subtract amount sf) in let ok2 := fst (Add amount st) in
  exists s', settle (Some pf) (Some pt) (content bf) p amount s
             = (Done (if ok1 then if ok2 then None else Some "overflow"%string
                      else Some "not enough balance"%string), s')
    /\ leaves s s' false (if ok1 && ok2 then <[Encode pt := snd (Add amount st)]> L1 else L1).
Proof.
  intros Hi Hwf Ef Et Hown Hst. cbv zeta. unfold settle.
  destruct (ledger_hit s _ _ Hwf Ef) as (sf & HLf & Hhf). rewrite HLf. cbn [default id].
  pose proof (call_method_run (Subtract amount) (content bf) sf s Hhf) as Hc1.
  rewrite (bind_done _ _ _ _ _ Hc1). set (s1 := set_heap _ s) in *.
  assert (wf_mem s1) as Hwf1 by (by apply wf_store_set).
  assert (ledger s1 = <[Encode pf := snd (Subtract amount sf)]> (ledger s)) as HL1
    by (by apply ledger_set).
  rewrite <- HL1. destruct (fst (Subtract amount sf)); cbn [negb andb];
    [|by eexists; split; [|split]].
  assert (heap s1 !! p = Some st) as Hst1.
  { cbn. rewrite list_lookup_insert_ne; [done|]. intros He.
    assert (Encode pf = Encode pt) as Heq by (by apply (Hown _ bf)). congruence. }
  pose proof (call_method_run (Add amount) p st s1 Hst1) as Hc2.
  rewrite (bind_done _ _ _ _ _ Hc2). set (s2 := set_heap _ s1) in *.
  assert (wf_mem s2) as Hwf2 by (by apply wf_store_set).
  assert (ledger s2 = ledger s1) as HL2 by (by apply (ledger_set_unused _ _ (Encode pt))).
  destruct (fst (Add amount st)); cbn [negb]; [|by eexists; split; [|split]].
  destruct (put_pair s2 pf pt bf p (snd (Add amount st)) Hi Hwf2 Ef Hown)
    as (s3 & Hput & [W Lg P Q]).
  { cbn. apply list_lookup_insert_eq. by apply lookup_lt_Some in Hst1. }
  eexists. split; [apply Hput|]. split; [done| |done|done]. by rewrite Lg, HL2.
Qed.

(** Both requests are queued before the first reply is read. *)
Definition two_gets (pk1 pk2 : bytes) (s : MemoryService) : MemoryService :=
  enqueue (mkStateMemRequest MemGet (Some pk2) None (Some (S (nextCh s))))
    (enqueue (mkStateMemRequest MemGet (Some pk1) None (Some (nextCh s))) s).

Lemma two_gets_run {A} pk1 pk2 (k : chan -> chan -> M MemoryService A) s :
  idle s ->
  (let* c1 := Memory_GetAccountState (Some pk1) in
   let* c2 := Memory_GetAccountState (Some pk2) in k c1 c2) s
  = k (nextCh s) (S (nextCh s)) (two_gets pk1 pk2 s).
Proof.
  intros Hi. unfold idle in Hi.
  erewrite bind_done by (apply GetAccountState_enqueue; rewrite Hi; cbv; lia). cbv beta.
  erewrite bind_done; [reflexivity|].
  apply GetAccountState_enqueue. cbn. rewrite Hi. cbv. lia.
Qed.

(** The first reply, when the account exists. *)
Lemma first_reply s pk1 pk2 b1 : idle s -> dbMap (stateMem s) !! Encode pk1 = Some b1 ->
  exists s1, recv_result (nextCh s) (two_gets pk1 pk2 s)
             = (Done (mkResult (content b1) None), s1)
    /\ heap s1 = heap s /\ stateMem s1 = stateMem s /\ same_pool s s1
    /\ stateCh s1 = [mkStateMemRequest MemGet (Some pk2) None (Some (S (nextCh s)))]
    /\ nextCh s1 = S (S (nextCh s)).
Proof.
  intros Hi Hb. unfold idle in Hi. destruct s as [pool h md tq sq nc]. cbn in Hi, Hb. subst sq.
  eexists. split; [by eapply recv_result_hit|]. done.
Qed.

(** The first reply, when it does not: the second one stays unread. *)
Lemma first_reply_missing s pk1 pk2 :
  idle s -> wf_mem s -> dbMap (stateMem s) !! Encode pk1 = None ->
  exists s1 r, recv_result (nextCh s) (two_gets pk1 pk2 s) = (Done r, s1)
    /\ ResErr r = Some "not found the key"%string /\ leaves s s1 true (ledger s).
Proof.
  intros Hi Hwf Hb. unfold idle in Hi. destruct s as [pool h md tq sq nc]. cbn in Hi, Hb.
  subst sq. eexists _, _. split; [by eapply recv_result_miss|]. split; [done|].
  split; [by apply wf_store_app|by apply ledger_app|done|].
  eexists _, _. split_and!; [done|done|cbn; lia].
Qed.
End transfers.

Section operations.
Context `{Sha3, Base58, ExpSlices, MapOrder, Bolt}.

Lemma leaves_ledger s s' u L : leaves s s' u L -> ledger s' = L.
Proof. apply lv_ledger. Qed.

Lemma leaves_trans s1 s2 s3 u L : same_pool s1 s2 -> leaves s2 s3 u L -> leaves s1 s3 u L.
Proof. intros Hp [W Lg P Q]. split; try done. by eapply same_pool_trans. Qed.

Lemma transferImpl_spec s pf pt nonce amount :
  idle s -> wf_mem s ->
  let r := spec_transfer (Encode pf) (Encode pt) nonce amount (ledger s) in
  exists s', transferImpl (Some pf) nonce (Some pt) amount s = (Done (sp_err r), s')
    /\ leaves s s' (sp_unread r) (sp_ledger r).
Proof.
  intros Hi Hwf. cbv zeta. unfold transferImpl, spec_transfer. rewrite two_gets_run by done.
  destruct (dbMap (stateMem s) !! Encode pf) as [bf|] eqn:Ef.
  2:{ destruct (first_reply_missing s pf pt Hi Hwf Ef) as (s1 & r & Hr & He & Hlv).
      rewrite (bind_done _ _ _ _ _ Hr), He.
      assert (ledger s !! Encode pf = None) as -> by (by apply ledger_None). eauto. }
  destruct (first_reply s pf pt bf Hi Ef) as (s1 & Hr & Hh1 & Hm1 & Hp1 & Hq1 & Hn1).
  rewrite (bind_done _ _ _ _ _ Hr). cbn [ResErr Value].
  assert (wf_mem s1) as Hwf1 by (unfold wf_mem; by rewrite Hh1, Hm1).
  assert (ledger s1 = ledger s) as HL1 by (unfold ledger; by rewrite Hh1, Hm1).
  rewrite <- HL1. rewrite <- Hm1 in Ef.
  destruct (ledger_hit s1 _ _ Hwf1 Ef) as (sf & HLf & _). rewrite HLf.
  destruct (call_account (CheckNonce nonce) s1 _ _ _ Hwf1 Ef HLf)
    as (s2 & Hc2 & Hwf2 & HL2 & Hm2 & Hq2 & Hn2 & _ & Hp2).
  rewrite (bind_done _ _ _ _ _ Hc2). destruct (CheckNonce nonce sf) as [ok sf1].
  cbn [fst snd] in *. rewrite <- HL2. pose proof (same_pool_trans _ _ _ Hp1 Hp2) as Hp.
  destruct ok; cbn [negb].
  2:{ eexists. split; [done|]. split; [done..|]. rewrite Hq2, Hn2, Hn1.
      eexists _, _. split_and!; [done|done|cbn; lia]. }
  rewrite Hq1 in Hq2. rewrite <- Hm2 in Ef.
  destruct (dbMap (stateMem s2) !! Encode pt) as [bt|] eqn:Et.
  2:{ step recv_result_miss. cbn [ResErr not_found].
      assert (ledger s2 !! Encode pt = None) as -> by (by apply ledger_None).
      eexists. split; [done|]. split; [by apply wf_store_app|by apply ledger_app|done|done]. }
  step recv_result_hit. cbn [ResErr Value].
  destruct (ledger_hit s2 _ _ Hwf2 Et) as (st & HLt & _). rewrite HLt.
  destruct (settle_spec (set_stateCh [] s2) pf pt bf bt amount eq_refl Hwf2 Ef Et)
    as (Hu & s3 & Hs3 & Hlv). change (ledger (set_stateCh [] s2)) with (ledger s2) in *.
  exists s3. split; [apply Hs3|]. rewrite Hu. eapply leaves_trans; [|exact Hlv]; exact Hp.
Qed.

Lemma airdropImpl_spec s pg pt nonce amount :
  idle s -> wf_mem s ->
  let r := spec_airdrop (Encode pg) (Encode pt) nonce amount (ledger s) in
  exists s', airdropImpl (Some pt) nonce (Some pg) amount s = (Done (sp_err r), s')
    /\ leaves s s' (sp_unread r) (sp_ledger r).
Proof.
  intros Hi Hwf. cbv zeta. unfold airdropImpl, spec_airdrop. rewrite two_gets_run by done.
  destruct (dbMap (stateMem s) !! Encode pg) as [bg|] eqn:Eg.
  2:{ destruct (first_reply_missing s pg pt Hi Hwf Eg) as (s1 & r & Hr & He & Hlv).
      rewrite (bind_done _ _ _ _ _ Hr), He.
      assert (ledger s !! Encode pg = None) as -> by (by apply ledger_None). eauto. }
  destruct (first_reply s pg pt bg Hi Eg) as (s1 & Hr & Hh1 & Hm1 & Hp1 & Hq1 & _).
  rewrite (bind_done _ _ _ _ _ Hr). cbn [ResErr Value].
  assert (wf_mem s1) as Hwf1 by (unfold wf_mem; by rewrite Hh1, Hm1).
  assert (ledger s1 = ledger s) as HL1 by (unfold ledger; by rewrite Hh1, Hm1).
  rewrite <- HL1. rewrite <- Hm1 in Eg.
  destruct (ledger_hit s1 _ _ Hwf1 Eg) as (sg & HLg & _). rewrite HLg.
  destruct (dbMap (stateMem s1) !! Encode pt) as [bt|] eqn:Et.
  - step recv_result_hit. cbn [Value].
    destruct (ledger_hit s1 _ _ Hwf1 Et) as (st & HLt & _). rewrite HLt.
    destruct (call_account (CheckNonce nonce) (set_stateCh [] s1) _ _ _ Hwf1 Et HLt)
      as (s2 & Hc2 & Hwf2 & HL2 & Hm2 & Hq2 & _ & _ & Hp2).
    rewrite (bind_done _ _ _ _ _ Hc2). destruct (CheckNonce nonce st) as [ok st1].
    cbn [fst snd] in *. change (ledger (set_stateCh [] s1)) with (ledger s1) in HL2.
    rewrite <- HL2. pose proof (same_pool_trans _ _ _ Hp1 Hp2) as Hp.
    destruct ok; cbn [negb]; [|by eexists; split; [|split]].
    change (stateMem (set_stateCh [] s1)) with (stateMem s1) in Hm2.
    rewrite <- Hm2 in Eg, Et. assert (idle s2) as Hi2 by (unfold idle; by rewrite Hq2).
    destruct (settle_spec s2 pg pt bg bt amount Hi2 Hwf2 Eg Et) as (Hu & s3 & Hs3 & Hlv).
    exists s3. split; [apply Hs3|]. rewrite Hu. eapply leaves_trans; [|exact Hlv]; exact Hp.
  - step recv_result_miss. cbn [Value not_found].
    assert (ledger s1 !! Encode pt = None) as -> by (by apply ledger_None).
    set (s2 := set_heap _ _). set (p := S (length (heap s1))).
    assert (heap s2 !! p = Some zero_state) as Hz.
    { cbn. subst p. rewrite lookup_app_r by lia.
      by replace (S _ - _)%nat with 1%nat by lia. }
    pose proof (call_method_run (CheckNonce nonce) p zero_state s2 Hz) as Hc2.
    rewrite (bind_done _ _ _ _ _ Hc2).
    set (s3 := set_heap (<[p := _]> _) s2) in *.
    assert (wf_mem s3) as Hwf3 by (by apply wf_store_set, wf_store_app).
    assert (owned (dbMap (stateMem s1)) (Encode pt) p) as Hown
      by (apply (owned_fresh (heap s1)); [done|subst p; lia]).
    assert (ledger s3 = ledger s1) as HL3.
    { etrans; [|by apply (ledger_app _ [zero_state; zero_state])].
      apply (ledger_set_unused _ _ (Encode pt)); [by apply wf_store_app|done..]. }
    rewrite <- HL3. destruct (settle_new_spec s3 pg pt bg p (snd (CheckNonce nonce zero_state))
      amount eq_refl Hwf3 Eg Et Hown) as (s4 & Hs4 & Hlv).
    { cbn. apply list_lookup_insert_eq. by apply lookup_lt_Some in Hz. }
    rewrite HL3, HLg in Hs4, Hlv. cbn [default id] in *.
    destruct (CheckNonce nonce zero_state) as [ok st1]. cbn [fst snd] in *.
    destruct ok; cbn [negb]; [|by eexists; split; [|split]].
    exists s4. rewrite HL3. destruct (Subtract amount sg) as [ok1 sg1].
    destruct (Add amount st1) as [ok2 st2]. cbn [fst snd] in *.
    destruct ok1; cbn [negb andb] in *; [destruct ok2; cbn [negb] in *|];
      (split; [apply Hs4|eapply leaves_trans; [|exact Hlv]; exact Hp1]).
Qed.
End operations.
