(* ===== verification/BlockExec.v ===== *)
(** Execution of whole blocks: an abstract specification on ledgers and the
    proof that [ExecuteNow] implements it, on the memory service, its request
    queue and the database together. *)
From S2P Require Import Prelude Json JsonLaws Common External Merkle Accounts Txs Blocks Rpc Memory.
From S2P Require Import MemoryFacts Ledger Storage StorageFacts Executers ExecuterFacts.
Open Scope Z_scope.

(** ** The specification *)

(** What a transaction asks for; [None] when the executer skips it. *)
Inductive op := OpAirdrop (amount : Z) | OpTransfer (to : bytes) (amount : Z).

Definition decode_op (tx : Transaction) : option op :=
  match Unmarshal (T := Call) (raw (td_Data (tx_InnerData tx))) with
  | Err _ => None
  | Ok call =>
      if negb (Call_Verify call) then None
      else if call_Call call =? Airdrop then
        match Unmarshal (T := AirdropParam) (raw (call_Params call)) with
        | Ok p => Some (OpAirdrop (ap_Amount p))
        | Err _ => None
        end
      else if call_Call call =? Transfer then
        match Unmarshal (T := TransferParam) (raw (call_Params call)) with
        | Ok p => Some (OpTransfer (raw (tp_To p)) (tp_Amount p))
        | Err _ => None
        end
      else None
  end.

Section spec.
Context `{Sha3, Base58, ExpSlices, MapOrder, Bolt}.

(** The two accounts a call may change, without repetition. *)
Definition touched (a b : bytes) : list bytes := if decide (b = a) then [a] else [a; b].

Definition add_keys (a b : bytes) (l : publicKeys) : publicKeys :=
  publicKeys_add (Some b) (publicKeys_add (Some a) l).

(** The end of a transaction: a failed one is reverted from the database,
    which is possible only when no reply is left unread; its status is set
    all the same. *)
Definition spec_finish (db : DB) (tx : Transaction) (executed : publicKeys) (a b : bytes)
  (r : spec_result) : option (Transaction * publicKeys * Ledger) :=
  match sp_err r with
  | None => Some (set_Status true tx, add_keys a b executed, sp_ledger r)
  | Some _ =>
      if sp_unread r then None
      else Some (set_Status true tx, executed,
                 put_all (encoded (fetched db (touched a b))) (sp_ledger r))
  end.

Definition spec_op (gen : bytes) (caller : bytes) (nonce : Z) (o : op) (L : Ledger)
  : bytes * spec_result :=
  match o with
  | OpAirdrop amount => (gen, spec_airdrop (Encode gen) (Encode caller) nonce amount L)
  | OpTransfer to amount => (to, spec_transfer (Encode caller) (Encode to) nonce amount L)
  end.

Definition caller_of (tx : Transaction) : bytes := raw (td_PublicKey (tx_InnerData tx)).

Definition spec_tx (db : DB) (gen : bytes) (tx : Transaction) (executed : publicKeys)
  (L : Ledger) : option (Transaction * publicKeys * Ledger) :=
  match decode_op tx with
  | None => Some (tx, executed, L)
  | Some o =>
      let '(other, r) := spec_op gen (caller_of tx) (td_Nonce (tx_InnerData tx)) o L in
      spec_finish db tx executed (caller_of tx) other r
  end.

(** [None]: the block never finishes. *)
Fixpoint spec_block (db : DB) (gen : bytes) (txs : list Transaction) (executed : publicKeys)
  (L : Ledger) : option (list Transaction * publicKeys * Ledger) :=
  match txs with
  | [] => Some ([], executed, L)
  | tx :: rest =>
      match spec_tx db gen tx executed L with
      | None => None
      | Some (tx', executed', L') =>
          match spec_block db gen rest executed' L' with
          | None => None
          | Some (rest', executed'', L'') => Some (tx' :: rest', executed'', L'')
          end
      end
  end.
End spec.

(** ** The implementation *)
Section refinement.
Context `{Sha3, Base58, ExpSlices, MapOrder, Bolt, !ExpSlicesLaws}.

Definition xmem (x : Executer) : MemoryService := env_mem (exe_env x).
Definition xledger (x : Executer) : Ledger := ledger (xmem x).
Definition xdb (x : Executer) : DB := env_db (exe_env x).

(** Between two operations: no request is pending, the store is well formed
    and the database readable. *)
Record quiet (x : Executer) : Prop := {
  q_idle : idle (xmem x);
  q_wf : wf_mem (xmem x);
  q_db : decodable (xdb x);
  q_commit : bolt_commit (xdb x) = None
}.

(** [x'] is [x] with another memory. *)
Definition set_xmem (s : MemoryService) (x : Executer) : Executer :=
  mkExecuter (mkEnv s (xdb x)) (faucet_generator x).

Lemma mem_done {A} (m : M MemoryService A) x a s :
  m (xmem x) = (Done a, s) -> mem m x = (Done a, set_xmem s x).
Proof. intros Hm. unfold mem, in_env, zoom. by rewrite (in_mem_done _ _ _ _ Hm). Qed.

Lemma in_env_done {A} (m : M Env A) x a s :
  m (exe_env x) = (Done a, set_env_mem s (exe_env x)) -> in_env m x = (Done a, set_xmem s x).
Proof. intros Hm. unfold in_env, zoom. by rewrite Hm. Qed.

Lemma in_env_blocked {A} (m : M Env A) x w e :
  m (exe_env x) = (Blocked w, e) -> in_env m x = (Blocked w, set_exe_env e x).
Proof. intros Hm. unfold in_env, zoom. by rewrite Hm. Qed.

Lemma publicKeys_add_spec (k : bytes) (l : list bytes) :
  publicKeys_add (Some k) (map Some l) = map Some (if decide (k ∈ l) then l else l ++ [k]).
Proof.
  unfold publicKeys_add. rewrite ContainsFunc_spec.
  assert (existsb (fun pk => bytes_Equal (Some k) pk) (map Some l) = bool_decide (k ∈ l)) as ->.
  { induction l as [|y l IH]; cbn; [by rewrite (bool_decide_eq_false_2 (k ∈ [])) by apply not_elem_of_nil|].
    rewrite IH. unfold bytes_Equal. cbn. apply eq_true_iff_eq.
    rewrite orb_true_iff, !bool_decide_eq_true, elem_of_cons. done. }
  case_bool_decide; [by rewrite decide_True by done|].
  by rewrite decide_False, map_app by done.
Qed.

Lemma add_keys_nil a b : add_keys a b newPublicKeys = map Some (touched a b).
Proof.
  unfold add_keys, newPublicKeys, touched. change (@nil gobytes) with (map Some (@nil bytes)).
  rewrite publicKeys_add_spec. rewrite (decide_False (P := a ∈ [])) by apply not_elem_of_nil.
  cbn [app]. rewrite publicKeys_add_spec.
  destruct (decide (b = a)) as [->|Hne].
  - by rewrite decide_True by constructor.
  - rewrite decide_False; [done|]. by rewrite list_elem_of_singleton.
Qed.

Lemma touched_keys a b : is_key a -> is_key b -> Forall is_key (touched a b).
Proof. intros Ha Hb. unfold touched. case_decide; by repeat constructor. Qed.

Lemma touched_length a b : touched a b <> [] /\ (length (touched a b) <= stateCh_room)%nat.
Proof. unfold touched, stateCh_room. destruct (decide (b = a)); cbn; split; (done || lia). Qed.

(** The revert of a failed transaction. *)
Lemma revert_run x a b e : quiet x -> is_key a -> is_key b ->
  exists x', revert (map Some (touched a b)) e x = (Done None, x')
    /\ quiet x' /\ xledger x' = put_all (encoded (fetched (xdb x) (touched a b))) (xledger x)
    /\ xdb x' = xdb x /\ faucet_generator x' = faucet_generator x /\ same_pool (xmem x) (xmem x').
Proof.
  intros [Q1 Q2 Q3 Q4] Ha Hb.
  destruct (FetchAccounts_spec (touched a b) (exe_env x) Q1 Q2 Q3 Q4 (touched_keys _ _ Ha Hb))
    as (s' & Hf & Hwf & Hi & HL & Hp); [apply touched_length|].
  exists (set_xmem s' x). unfold revert.
  rewrite (bind_done _ _ _ _ _ (in_env_done _ _ _ _ Hf)). by split_and!.
Qed.

Lemma revert_stuck x a b e req ch : decodable (xdb x) -> bolt_commit (xdb x) = None ->
  is_key a -> is_key b ->
  stateCh (xmem x) = [req] -> sr_ResultCh req = Some ch -> (ch < nextCh (xmem x))%nat ->
  exists w x', revert (map Some (touched a b)) e x = (Blocked w, x').
Proof.
  intros Hd Hc Ha Hb Hq Hr Hch. pose proof (touched_length a b) as [Hne _].
  destruct (FetchAccounts_stuck (touched a b) (exe_env x) req [] ch Hd Hc (touched_keys _ _ Ha Hb) Hne Hq Hr Hch)
    as (w & e' & Hbl).
  { change (stateCh (env_mem (exe_env x))) with (stateCh (xmem x)). rewrite Hq. cbn.
    unfold stateCh_room. lia. }
  unfold revert. erewrite bind_blocked by (apply in_env_blocked; exact Hbl). eauto.
Qed.

Lemma leaves_quiet x s' L : quiet x -> leaves (xmem x) s' false L ->
  quiet (set_xmem s' x) /\ xledger (set_xmem s' x) = L.
Proof. intros [Q1 Q2 Q3 Q4] [V1 V2 V3 V4]. split; [by split|done]. Qed.

(** What the executer must show for one specified step. *)
Definition step_done (x : Executer) (m : M Executer step_result)
  (sp : option (Transaction * publicKeys * Ledger)) : Prop :=
  match sp with
  | Some (tx', executed', L') =>
      exists x', m x = (Done (StepNext tx' executed'), x') /\ quiet x' /\ xledger x' = L'
        /\ xdb x' = xdb x /\ faucet_generator x' = faucet_generator x
        /\ same_pool (xmem x) (xmem x')
  | None => exists w x', m x = (Blocked w, x')
  end.

(** The end of a transaction, for the outcome of either call. *)
Definition finish_step (tx : Transaction) (r : option error * publicKeys * publicKeys)
  : M Executer step_result :=
  let '(err, executed, dirty) := r in
  match err with
  | Some e =>
      let* er := revert dirty e in
      match er with
      | Some e' => ret (StepFail e')
      | None =>
          let tx := set_Status false tx in
          let tx := set_Status true tx in
          ret (StepNext tx executed)
      end
  | None => ret (StepNext (set_Status true tx) executed)
  end.

Lemma finish_spec x s' tx executed a b (r : spec_result) :
  quiet x -> is_key a -> is_key b -> leaves (xmem x) s' (sp_unread r) (sp_ledger r) ->
  (sp_err r = None -> sp_unread r = false) ->
  step_done x (fun x => finish_step tx
      (match sp_err r with
       | Some e => (Some e, executed, add_keys a b newPublicKeys)
       | None => (None, add_keys a b executed, newPublicKeys)
       end) (set_xmem s' x))
    (spec_finish (xdb x) tx executed a b r).
Proof.
  intros Hq Ka Kb Hlv Hsucc. unfold spec_finish. destruct (sp_err r) as [e|] eqn:Er.
  - rewrite add_keys_nil. destruct (sp_unread r) eqn:Eu.
    + destruct (lv_queue _ _ _ _ Hlv) as (req & ch & Hs & Hc & Hch).
      destruct (revert_stuck (set_xmem s' x) a b e req ch) as (w & x' & Hb);
        [apply Hq|apply Hq|done..|].
      cbn [step_done finish_step]. rewrite (bind_blocked _ _ _ _ _ Hb). eauto.
    + destruct (leaves_quiet _ _ _ Hq Hlv) as [Hq' HL].
      destruct (revert_run (set_xmem s' x) a b e Hq' Ka Kb) as (x' & Hr & Hq'' & HL' & Hdb & Hg & Hp).
      cbn [step_done finish_step]. rewrite (bind_done _ _ _ _ _ Hr). exists x'.
      split_and!; try done.
      * rewrite HL'. by rewrite HL.
      * eapply same_pool_trans; [apply (lv_pool _ _ _ _ Hlv)|exact Hp].
  - rewrite (Hsucc eq_refl) in Hlv. destruct (leaves_quiet _ _ _ Hq Hlv) as [Hq' HL].
    cbn [step_done finish_step]. exists (set_xmem s' x). split_and!; try done.
    apply (lv_pool _ _ _ _ Hlv).
Qed.

Lemma settle_unread from to amount L : sp_unread (spec_settle from to amount L) = false.
Proof.
  unfold spec_settle. destruct (Subtract _ _) as [[] ?]; [|done]. cbn [negb].
  by destruct (Add _ _) as [[] ?].
Qed.

Lemma transfer_success_read from to nonce amount L :
  sp_err (spec_transfer from to nonce amount L) = None ->
  sp_unread (spec_transfer from to nonce amount L) = false.
Proof.
  unfold spec_transfer. destruct (L !! from); [|done]. destruct (CheckNonce _ _) as [[] ?]; [|done].
  cbn [negb]. destruct (_ !! to); [|done]. intros _. apply settle_unread.
Qed.

Lemma airdrop_success_read gen to nonce amount L :
  sp_err (spec_airdrop gen to nonce amount L) = None ->
  sp_unread (spec_airdrop gen to nonce amount L) = false.
Proof.
  unfold spec_airdrop. destruct (L !! gen); [|done].
  destruct (L !! to); destruct (CheckNonce _ _) as [[] ?]; try done; cbn [negb].
  - intros _. apply settle_unread.
  - destruct (Subtract _ _) as [[] ?]; [|done]. cbn [negb]. by destruct (Add _ _) as [[] ?].
Qed.
Lemma step_skip x tx executed : quiet x ->
  step_done x (ret (StepNext tx executed)) (Some (tx, executed, xledger x)).
Proof. intros Hq. exists x. split_and!; try done; apply Hq. Qed.

Lemma step_run x m m' sp : m x = m' x -> step_done x m' sp -> step_done x m sp.
Proof. unfold step_done. intros Hm. by rewrite Hm. Qed.

Lemma transfer_step x tx executed pf pt nonce amount p rawParam : quiet x -> is_key pf -> is_key pt ->
  Unmarshal (T := TransferParam) (raw rawParam) = Ok p -> tp_To p = Some pt -> tp_Amount p = amount ->
  step_done x (let* r := executeTransfer rawParam (Some pf) nonce executed newPublicKeys in
               finish_step tx r)
    (spec_finish (xdb x) tx executed pf pt
       (spec_transfer (Encode pf) (Encode pt) nonce amount (xledger x))).
Proof.
  intros Hq Kf Kt Hp Hto <-. set (r := spec_transfer _ _ _ _ _).
  destruct (transferImpl_spec (xmem x) pf pt nonce (tp_Amount p) (q_idle _ Hq) (q_wf _ Hq))
    as (s' & Hrun & Hlv). change (spec_transfer _ _ _ _ _) with r in Hrun, Hlv.
  eapply step_run; [|by apply (finish_spec x s' tx executed pf pt r Hq Kf Kt Hlv), transfer_success_read].
  unfold executeTransfer. rewrite Hp, Hto. rewrite bind_assoc.
  rewrite (bind_done _ _ _ _ _ (mem_done _ _ _ _ Hrun)). by destruct (sp_err r).
Qed.

Lemma airdrop_step x tx executed pg pt nonce amount p rawParam : quiet x -> is_key pg -> is_key pt ->
  faucet_generator x = Some pg ->
  Unmarshal (T := AirdropParam) (raw rawParam) = Ok p -> ap_Amount p = amount ->
  step_done x (let* r := executeAirdrop rawParam (Some pt) nonce executed newPublicKeys in
               finish_step tx r)
    (spec_finish (xdb x) tx executed pt pg
       (spec_airdrop (Encode pg) (Encode pt) nonce amount (xledger x))).
Proof.
  intros Hq Kg Kt Hg Hp <-. set (r := spec_airdrop _ _ _ _ _).
  destruct (airdropImpl_spec (xmem x) pg pt nonce (ap_Amount p) (q_idle _ Hq) (q_wf _ Hq))
    as (s' & Hrun & Hlv). change (spec_airdrop _ _ _ _ _) with r in Hrun, Hlv.
  eapply step_run; [|by apply (finish_spec x s' tx executed pt pg r Hq Kt Kg Hlv), airdrop_success_read].
  unfold executeAirdrop. rewrite Hp. rewrite bind_assoc. unfold bind at 1, get.
  unfold Generator. rewrite Hg. cbn [is_nil]. rewrite bind_assoc.
  rewrite (bind_done _ _ _ _ _ (mem_done _ _ _ _ Hrun)). by destruct (sp_err r).
Qed.

Lemma execute_one_spec x tx executed pk gen : quiet x ->
  td_PublicKey (tx_InnerData tx) = Some pk -> is_key pk -> faucet_generator x = Some gen -> is_key gen ->
  step_done x (execute_one tx executed) (spec_tx (xdb x) gen tx executed (xledger x)).
Proof.
  intros Hq Hpk Kpk Hg Kg. unfold execute_one, spec_tx, decode_op, caller_of.
  destruct (Unmarshal (T := Call) _) as [call|]; [|by apply step_skip].
  destruct (Call_Verify call) eqn:Hv; cbn [negb]; [|by apply step_skip]. rewrite Hpk. cbn [raw default id].
  destruct (call_Call call =? Airdrop) eqn:Ea.
  - apply Z.eqb_eq in Ea. rewrite (Call_Verify_airdrop _ Ea) in Hv.
    apply VerifyAirdropCall_inv in Hv as (_ & p & Hp & _). rewrite Hp. cbn [spec_op].
    eapply step_run; [reflexivity|]. by eapply airdrop_step.
  - destruct (call_Call call =? Transfer) eqn:Et; [|by apply step_skip].
    apply Z.eqb_eq in Et. rewrite (Call_Verify_transfer _ Et) in Hv.
    apply VerifyTransferCall_inv in Hv as (_ & p & Hp & _ & Hto). rewrite Hp. cbn [spec_op].
    eapply step_run; [reflexivity|]. eapply transfer_step; try done.
    by destruct (tp_To p).
Qed.

(** The whole block. *)
Definition block_done (x : Executer) (m : M Executer (list Transaction * result publicKeys))
  (sp : option (list Transaction * publicKeys * Ledger)) : Prop :=
  match sp with
  | Some (txs', executed', L') =>
      exists x', m x = (Done (txs', Ok executed'), x') /\ quiet x' /\ xledger x' = L'
        /\ xdb x' = xdb x /\ faucet_generator x' = faucet_generator x
        /\ same_pool (xmem x) (xmem x')
  | None => exists w x', m x = (Blocked w, x')
  end.

(** Transactions that went through [Verify] name their sender by a key. *)
Definition sender_ok (tx : Transaction) : Prop :=
  exists pk, td_PublicKey (tx_InnerData tx) = Some pk /\ is_key pk.

Lemma execute_loop_spec gen txs : forall x executed, quiet x -> Forall sender_ok txs ->
  faucet_generator x = Some gen -> is_key gen ->
  block_done x (execute_loop txs executed) (spec_block (xdb x) gen txs executed (xledger x)).
Proof.
  induction txs as [|tx txs IH]; intros x executed Hq Hf Hg Kg.
  { exists x. split_and!; try done; apply Hq. }
  apply Forall_cons in Hf as [(pk & Hpk & Kpk) Hf]. cbn [spec_block execute_loop].
  pose proof (execute_one_spec x tx executed pk gen Hq Hpk Kpk Hg Kg) as Hone.
  destruct (spec_tx (xdb x) gen tx executed (xledger x)) as [[[tx' ex'] L']|]; cbn [step_done] in Hone.
  - destruct Hone as (x1 & Hrun & Hq1 & HL1 & Hdb1 & Hg1 & Hp1).
    assert (faucet_generator x1 = Some gen) as Hg1' by congruence.
    specialize (IH x1 ex' Hq1 Hf Hg1' Kg). rewrite HL1, Hdb1 in IH. unfold block_done in *.
    rewrite (bind_done _ _ _ _ _ Hrun). cbn iota.
    destruct (spec_block (xdb x) gen txs ex' L') as [[[txs' ex''] L'']|].
    + destruct IH as (x2 & Hrun2 & Hq2 & HL2 & Hdb2 & Hg2 & Hp2). exists x2.
      rewrite (bind_done _ _ _ _ _ Hrun2). split_and!; try done; try congruence.
      all: try apply (same_pool_trans _ _ _ Hp1 Hp2).
    + destruct IH as (w & x2 & Hb). erewrite bind_blocked by exact Hb. eauto.
  - destruct Hone as (w & x1 & Hb). unfold block_done. erewrite bind_blocked by exact Hb. eauto.
Qed.
End refinement.
