(* ===== verification/Settlement.v ===== *)
(** What a block does to accounts: which of them it may change, what stays in
    step with the database, and what acceptance and rejection of the block
    make of it. *)
From S2P Require Import Prelude Json JsonLaws Common External Merkle Accounts Txs Blocks Rpc Memory.
From S2P Require Import MemoryFacts Ledger Storage StorageFacts Executers ExecuterFacts BlockExec.
Open Scope Z_scope.

Definition amount_of (o : op) : Z := match o with OpAirdrop a => a | OpTransfer _ a => a end.

(** A decoded call went through [Call.Verify]. *)
Lemma decode_op_verified tx o : decode_op tx = Some o ->
  0 < amount_of o /\ (forall to a, o = OpTransfer to a -> length to = 32%nat).
Proof.
  unfold decode_op. destruct (Unmarshal (T := Call) _) as [call|]; [|done].
  destruct (Call_Verify call) eqn:Hv; cbn [negb]; [|done].
  destruct (call_Call call =? Airdrop) eqn:Ea; [|destruct (call_Call call =? Transfer) eqn:Et; [|done]].
  - apply Z.eqb_eq in Ea. rewrite (Call_Verify_airdrop _ Ea) in Hv.
    apply VerifyAirdropCall_inv in Hv as (_ & p & Hp & Ha). rewrite Hp. intros [= <-].
    cbn. by split; [lia|].
  - apply Z.eqb_eq in Et. rewrite (Call_Verify_transfer _ Et) in Hv.
    apply VerifyTransferCall_inv in Hv as (_ & p & Hp & Ha & Hl). rewrite Hp. intros [= <-].
    cbn. split; [lia|]. by intros ? ? [= <- _].
Qed.

Section settlement.
Context `{Sha3, Base58, ExpSlices, MapOrder, Bolt, !ExpSlicesLaws, !Base58Laws}.

(** Memory and database agree on an account; a missing account is zero. *)
Definition agree (db : DB) (L : Ledger) (pk : bytes) : Prop :=
  default zero_state (L !! Encode pk) = stored db pk.

Definition sane (db : DB) : Prop := forall pk, is_key pk -> wf_state (stored db pk).

(** The state between two transactions of a block, when [ex] are the accounts
    that succeeded so far. *)
Record block_inv (db : DB) (ex : list bytes) (L : Ledger) : Prop := {
  bi_agree pk : is_key pk -> pk ∉ ex -> agree db L pk;
  bi_wf : wf_ledger L;
  bi_present pk : pk ∈ ex -> length pk = 32%nat /\ is_Some (L !! Encode pk)
}.

Lemma add_keys_spec a b ex : exists ex', add_keys a b (map Some ex) = map Some ex'
  /\ forall k, k ∈ ex' <-> k = a \/ k = b \/ k ∈ ex.
Proof.
  unfold add_keys. rewrite !publicKeys_add_spec. eexists. split; [reflexivity|].
  intros k. repeat case_decide; rewrite ?elem_of_app, ?list_elem_of_singleton in *; intuition congruence.
Qed.

Lemma touched_spec a b k : k ∈ touched a b <-> k = a \/ k = b.
Proof.
  unfold touched. case_decide; rewrite ?elem_of_cons, ?elem_of_nil; intuition congruence.
Qed.

Lemma spec_op_tame gen caller nonce o L : 0 < amount_of o ->
  let '(other, r) := spec_op gen caller nonce o L in
  tame (Encode caller) (Encode other) L (sp_ledger r)
  /\ (sp_err r = None -> is_Some (sp_ledger r !! Encode caller) /\ is_Some (sp_ledger r !! Encode other)).
Proof.
  intros Ha. destruct o as [amount|to amount]; cbn [spec_op amount_of] in *.
  - split; [apply spec_airdrop_tame; lia|apply spec_airdrop_present].
  - split; [apply spec_transfer_tame; lia|apply spec_transfer_present].
Qed.

Lemma spec_op_key gen caller nonce o L tx : decode_op tx = Some o -> is_key gen ->
  is_key (fst (spec_op gen caller nonce o L)).
Proof. intros [_ Hto]%decode_op_verified Kg. destruct o as [|to a]; [done|by apply (Hto to a)]. Qed.

Lemma spec_tx_inv db gen tx ex L tx' ex' L' :
  sane db -> block_inv db ex L -> length gen = 32%nat -> length (caller_of tx) = 32%nat ->
  spec_tx db gen tx (map Some ex) L = Some (tx', ex', L') ->
  exists exl, ex' = map Some exl /\ block_inv db exl L' /\ (forall k, k ∈ ex -> k ∈ exl).
Proof.
  intros Hdb [Iag Iwf Ipr] Hgen Hcl. unfold spec_tx. destruct (decode_op tx) as [o|] eqn:Eo.
  2:{ intros [= <- <- <-]. by exists ex. }
  apply decode_op_verified in Eo as [Ha Hto].
  pose proof (spec_op_tame gen (caller_of tx) (td_Nonce (tx_InnerData tx)) o L Ha) as Ht.
  assert (length (fst (spec_op gen (caller_of tx) (td_Nonce (tx_InnerData tx)) o L)) = 32%nat) as Hot
    by (destruct o as [|to a]; [done|by apply (Hto to a)]).
  destruct (spec_op _ _ _ _ _) as [other r]. cbn [fst] in Hot. destruct Ht as [[F D W] P].
  unfold spec_finish. set (a := caller_of tx) in *. destruct (sp_err r) as [e|].
  - destruct (sp_unread r); [done|]. intros [= <- <- <-]. exists ex. split; [done|].
    split; [split|done].
    + intros pk Kpk Hpk. unfold agree. rewrite put_fetched_lookup. case_decide as Hin; [done|].
      rewrite touched_spec in Hin. rewrite F; [by apply Iag| |];
        intros He%Encode_inj; tauto.
    + apply put_all_wf; [|by apply W]. unfold encoded, fetched. rewrite map_map.
      apply Forall_map. eapply Forall_impl; [by apply touched_keys|]. intros pk Kpk. by apply Hdb.
    + intros pk Hpk. destruct (Ipr pk Hpk) as [Hl Hs]. split; [done|].
      rewrite put_fetched_lookup. case_decide; [by eexists|by apply D].
  - intros [= <- <- <-]. destruct (add_keys_spec a other ex) as (exl & -> & Hexl).
    exists exl. split; [done|]. split; [split|intros; apply Hexl; tauto].
    + intros pk Kpk Hpk. rewrite Hexl in Hpk. unfold agree. rewrite F; [apply Iag; tauto| |];
        intros He%Encode_inj; tauto.
    + by apply W.
    + intros pk [->|[->|Hpk]]%Hexl.
      * split; [done|]. by apply P.
      * split; [done|]. by apply P.
      * destruct (Ipr pk Hpk) as [Hl Hs]. split; [done|]. by apply D.
Qed.

Lemma spec_block_inv db gen txs : forall ex L txs' ex' L',
  sane db -> block_inv db ex L -> length gen = 32%nat ->
  Forall (fun tx => length (caller_of tx) = 32%nat) txs ->
  spec_block db gen txs (map Some ex) L = Some (txs', ex', L') ->
  exists exl, ex' = map Some exl /\ block_inv db exl L'.
Proof.
  induction txs as [|tx txs IH]; intros ex L txs' ex' L' Hdb Hinv Hgen Hf; cbn [spec_block].
  { intros [= <- <- <-]. by exists ex. }
  apply Forall_cons in Hf as [Hcl Hf].
  destruct (spec_tx db gen tx (map Some ex) L) as [[[tx1 ex1] L1]|] eqn:E1; [|done].
  destruct (spec_tx_inv _ _ _ _ _ _ _ _ Hdb Hinv Hgen Hcl E1) as (exl & -> & Hinv1 & _).
  destruct (spec_block db gen txs (map Some exl) L1) as [[[txs2 ex2] L2]|] eqn:E2; [|done].
  intros [= <- <- <-]. by eapply IH.
Qed.

(** No account is lost, and only accounts change. *)
Definition grown (L L' : Ledger) : Prop := forall k,
  (is_Some (L !! k) -> is_Some (L' !! k)) /\ ((forall pk, is_key pk -> k <> Encode pk) -> L' !! k = L !! k).

#[export] Instance grown_preorder : PreOrder grown.
Proof.
  split; [by split|]. intros L1 L2 L3 H12 H23 k. destruct (H12 k) as [A1 B1], (H23 k) as [A2 B2].
  split; [by auto|]. intros Hk. by rewrite B2, B1.
Qed.

Lemma grown_insert L pk v : is_key pk -> grown L (<[Encode pk := v]> L).
Proof.
  intros Kpk k. split; [intros ?; apply lookup_insert_is_Some'; by right|].
  intros Hk. rewrite lookup_insert_ne; [done|]. intros <-. by apply (Hk pk).
Qed.

Lemma grown_tame a b L L' : is_key a -> is_key b -> tame (Encode a) (Encode b) L L' -> grown L L'.
Proof. intros Ka Kb [F D _] k. split; [apply D|]. intros Hk. apply F; by apply Hk. Qed.

Lemma grown_fetched db pks L : Forall is_key pks -> grown L (put_all (encoded (fetched db pks)) L).
Proof.
  unfold put_all, encoded, fetched. intros Hf. revert L. induction Hf as [|pk pks Kpk _ IH]; intros L; [done|].
  cbn. etransitivity; [by apply (grown_insert L pk (stored db pk))|apply IH].
Qed.

Lemma spec_tx_grown db gen tx ex L tx' ex' L' : is_key gen -> is_key (caller_of tx) ->
  spec_tx db gen tx ex L = Some (tx', ex', L') -> grown L L'.
Proof.
  intros Kg Kc. unfold spec_tx. destruct (decode_op tx) as [o|] eqn:Eo; [|by intros [= _ _ <-]].
  pose proof (spec_op_key gen (caller_of tx) (td_Nonce (tx_InnerData tx)) o L tx Eo Kg) as Ko.
  pose proof (spec_op_tame gen (caller_of tx) (td_Nonce (tx_InnerData tx)) o L (proj1 (decode_op_verified _ _ Eo))) as Ht.
  destruct (spec_op _ _ _ _ _) as [other r]. cbn [fst] in Ko. destruct Ht as [Ht _].
  apply (grown_tame _ _ _ _ Kc Ko) in Ht. unfold spec_finish.
  destruct (sp_err r); [destruct (sp_unread r); [done|]|]; intros [= _ _ <-]; [|done].
  etransitivity; [exact Ht|]. apply grown_fetched. by apply touched_keys.
Qed.

Lemma spec_block_grown db gen txs : forall ex L txs' ex' L', is_key gen ->
  Forall (fun tx => is_key (caller_of tx)) txs ->
  spec_block db gen txs ex L = Some (txs', ex', L') -> grown L L'.
Proof.
  induction txs as [|tx txs IH]; intros ex L txs' ex' L' Kg Hf; cbn [spec_block]; [by intros [= _ _ <-]|].
  apply Forall_cons in Hf as [Kc Hf].
  destruct (spec_tx db gen tx ex L) as [[[tx1 ex1] L1]|] eqn:E1; [|done].
  destruct (spec_block db gen txs ex1 L1) as [[[txs2 ex2] L2]|] eqn:E2; [|done].
  intros [= _ _ <-]. etransitivity; [exact (spec_tx_grown _ _ _ _ _ _ _ _ Kg Kc E1)|exact (IH _ _ _ _ _ Kg Hf E2)].
Qed.

(** Whether a transaction may change an account. *)
Definition concerns (gen pk : bytes) (tx : Transaction) : Prop :=
  exists o, decode_op tx = Some o
    /\ (pk = caller_of tx \/ match o with OpAirdrop _ => pk = gen | OpTransfer to _ => pk = to end).

Lemma spec_tx_untouched db gen tx ex L tx' ex' L' pk : ~ concerns gen pk tx ->
  spec_tx db gen tx ex L = Some (tx', ex', L') -> L' !! Encode pk = L !! Encode pk.
Proof.
  intros Hn. unfold spec_tx. destruct (decode_op tx) as [o|] eqn:Eo; [|by intros [= _ _ <-]].
  pose proof (spec_op_tame gen (caller_of tx) (td_Nonce (tx_InnerData tx)) o L (proj1 (decode_op_verified _ _ Eo))) as Ht.
  assert (pk <> caller_of tx) as Hc by (intros ->; apply Hn; exists o; auto).
  assert (pk <> fst (spec_op gen (caller_of tx) (td_Nonce (tx_InnerData tx)) o L)) as Ho
    by (intros ->; apply Hn; exists o; split; [done|]; right; by destruct o).
  destruct (spec_op _ _ _ _ _) as [other r]. cbn [fst] in Ho. destruct Ht as [[F _ _] _].
  assert (sp_ledger r !! Encode pk = L !! Encode pk) as HF by (apply F; intros He%Encode_inj; tauto).
  unfold spec_finish. destruct (sp_err r); [destruct (sp_unread r); [done|]|]; intros [= _ _ <-]; [|done].
  rewrite put_fetched_lookup, decide_False; [done|]. rewrite touched_spec. tauto.
Qed.

Lemma spec_block_untouched db gen txs pk : forall ex L txs' ex' L',
  Forall (fun tx => ~ concerns gen pk tx) txs ->
  spec_block db gen txs ex L = Some (txs', ex', L') -> L' !! Encode pk = L !! Encode pk.
Proof.
  induction txs as [|tx txs IH]; intros ex L txs' ex' L' Hf; cbn [spec_block]; [by intros [= _ _ <-]|].
  apply Forall_cons in Hf as [Hn Hf].
  destruct (spec_tx db gen tx ex L) as [[[tx1 ex1] L1]|] eqn:E1; [|done].
  destruct (spec_block db gen txs ex1 L1) as [[[txs2 ex2] L2]|] eqn:E2; [|done].
  intros [= _ _ <-]. rewrite (IH _ _ _ _ _ Hf E2). by eapply spec_tx_untouched.
Qed.

(** Every account has the state it had, an account that is not there counting
    as empty, and none is lost. *)
Definition same_states (L L' : Ledger) : Prop := forall k,
  L' !! k = L !! k \/ (L !! k = None /\ L' !! k = Some zero_state).
End settlement.

(** ** Finality *)
Section finality.
Context `{Sha3, Base58, ExpSlices, MapOrder, Bolt, !ExpSlicesLaws, !Base58Laws}.

(** What the node maintains between blocks: a quiet executer with a funded
    generator key, memory in agreement with the database. *)
Record settled (x : Executer) (gen : bytes) : Prop := {
  se_quiet : quiet x;
  se_gen : faucet_generator x = Some gen /\ length gen = 32%nat;
  se_sane : sane (xdb x);
  se_wf : wf_ledger (xledger x);
  se_agree pk : is_key pk -> agree (xdb x) (xledger x) pk
}.

Lemma sender_ok_verified `{!Ed25519} tx : Transaction_Verify tx = Done (Ok true) -> sender_ok tx.
Proof.
  intros (Hc & _ & _)%Transaction_Verify_true. apply CheckContents_key in Hc.
  unfold sender_ok. destruct (td_PublicKey (tx_InnerData tx)) as [pk|]; [|done].
  exists pk. split; [done|]. unfold len in Hc. cbn in Hc. lia.
Qed.

Lemma sender_ok_caller tx : sender_ok tx -> length (caller_of tx) = 32%nat.
Proof. intros (pk & Hpk & Hl). unfold caller_of. by rewrite Hpk. Qed.

(** [Execute] returns what [ExecuteNow] does. *)
Lemma Execute_run txs x : Execute txs x = ExecuteNow txs x.
Proof.
  unfold Execute, bind. destruct (ExecuteNow txs x) as [[[txs' [ex|e]]| |] x']; done.
Qed.

(** After a block that returned. *)
Lemma Execute_inv x gen txs txs' keys x1 :
  settled x gen -> Forall sender_ok txs -> Execute txs x = (Done (txs', Ok keys), x1) ->
  exists ex, keys = map Some ex /\ quiet x1 /\ xdb x1 = xdb x
    /\ faucet_generator x1 = faucet_generator x /\ block_inv (xdb x) ex (xledger x1)
    /\ spec_block (xdb x) gen txs newPublicKeys (xledger x) = Some (txs', keys, xledger x1).
Proof.
  intros [Q [G Gl] S W A] Hf. rewrite Execute_run. unfold ExecuteNow.
  assert (Forall (fun tx => length (caller_of tx) = 32%nat) txs) as Hc
    by (eapply Forall_impl; [exact Hf|apply sender_ok_caller]).
  pose proof (execute_loop_spec gen txs x newPublicKeys Q Hf G Gl) as Hb. unfold block_done in Hb.
  destruct (spec_block (xdb x) gen txs newPublicKeys (xledger x)) as [[[txs2 ex2] L2]|] eqn:Es.
  2:{ destruct Hb as (w & x' & ->). done. }
  destruct Hb as (x' & -> & Q' & HL & Hdb & Hg & _). intros [= -> -> ->].
  destruct (spec_block_inv (xdb x) gen txs [] (xledger x) txs' keys L2) as (ex & -> & Hinv);
    [done|split; [intros pk Kpk _; by apply A|done|by intros ? ?%elem_of_nil]|done|done|done|].
  exists ex. rewrite HL. by split_and!.
Qed.
(** Between the execution of a block and its finality, when [ex] are the
    accounts the block executed. *)
Record pending (x : Executer) (gen : bytes) (ex : list bytes) : Prop := {
  pe_quiet : quiet x;
  pe_gen : faucet_generator x = Some gen /\ length gen = 32%nat;
  pe_sane : sane (xdb x);
  pe_inv : block_inv (xdb x) ex (xledger x)
}.

Lemma Execute_pending x gen txs txs' keys x1 :
  settled x gen -> Forall sender_ok txs -> Execute txs x = (Done (txs', Ok keys), x1) ->
  exists ex, keys = map Some ex /\ pending x1 gen ex /\ xdb x1 = xdb x /\ same_pool (xmem x) (xmem x1).
Proof.
  intros Hx Hf Hr. destruct (Execute_inv _ _ _ _ _ _ Hx Hf Hr) as (ex & -> & Q & Hdb & Hg & Hi & Hb).
  exists ex. split_and!; [done| |done|].
  - split; rewrite ?Hdb, ?Hg; [exact Q|apply Hx|apply Hx|exact Hi].
  - rewrite Execute_run in Hr. unfold ExecuteNow in Hr. destruct Hx as [Q0 [G Gl] _ _ _].
    pose proof (execute_loop_spec gen txs x newPublicKeys Q0 Hf G Gl) as Hd. rewrite Hb in Hd.
    destruct Hd as (x' & Hr' & _ & _ & _ & _ & Hp). rewrite Hr in Hr'. by injection Hr' as <-.
Qed.

Lemma Execute_grown x gen txs txs' keys x1 :
  settled x gen -> Forall sender_ok txs -> Execute txs x = (Done (txs', Ok keys), x1) ->
  grown (xledger x) (xledger x1).
Proof.
  intros Hx Hf Hr. destruct (Execute_inv _ _ _ _ _ _ Hx Hf Hr) as (ex & _ & _ & _ & _ & _ & Hb).
  eapply spec_block_grown; [apply Hx| |exact Hb]. eapply Forall_impl; [exact Hf|apply sender_ok_caller].
Qed.

Lemma Execute_untouched x gen txs txs' keys x1 pk :
  settled x gen -> Forall sender_ok txs -> Forall (fun tx => ~ concerns gen pk tx) txs ->
  Execute txs x = (Done (txs', Ok keys), x1) -> xledger x1 !! Encode pk = xledger x !! Encode pk.
Proof.
  intros Hx Hf Hn Hr. destruct (Execute_inv _ _ _ _ _ _ Hx Hf Hr) as (ex & _ & _ & _ & _ & _ & Hb).
  by eapply spec_block_untouched.
Qed.

(** Two quiet moments with the same database in between. *)
Lemma settled_same_states x x' gen : settled x gen -> settled x' gen -> xdb x' = xdb x ->
  grown (xledger x) (xledger x') -> same_states (xledger x) (xledger x').
Proof.
  intros Hx Hx' Hdb Hg k. destruct (Hg k) as [Hdom Hframe].
  destruct (decide (k = Encode (Decode k) /\ is_key (Decode k))) as [[Hk Kk]|Hk].
  - pose proof (se_agree _ _ Hx _ Kk) as A. pose proof (se_agree _ _ Hx' _ Kk) as A'.
    unfold agree in A, A'. rewrite <- Hk in A, A'. rewrite Hdb, <- A in A'.
    destruct (xledger x !! k) as [v|] eqn:E.
    + destruct Hdom as [v' Ev]; [by eexists|]. left. rewrite Ev in A' |- *. cbn in A'. by rewrite A'.
    + destruct (xledger x' !! k) as [v'|]; [right|by left]. cbn in A'. by rewrite A'.
  - left. apply Hframe. intros pk Kpk ->. apply Hk. by rewrite Decode_Encode.
Qed.

(** A positive signal writes the executed accounts to the database. *)
Lemma finality_accepts `{!BoltLaws} x gen ex :
  (forall db, bolt_commit db = None) -> pending x gen ex -> (length ex <= 11)%nat ->
  exists x2, waitForFinality true (map Some ex) x = (Done None, x2) /\ settled x2 gen
    /\ xledger x2 = xledger x /\ same_pool (xmem x) (xmem x2)
    /\ (forall b, bolt_has_bucket (xdb x2) b = bolt_has_bucket (xdb x) b)
    /\ forall b k, b <> accountsBucket -> bolt_get (xdb x2) b k = bolt_get (xdb x) b k.
Proof.
  intros Hdisk [[Q1 Q2 Q3 Q4] Hg Hs [I1 I2 I3]] Hl.
  assert (Forall (holds (ledger (env_mem (exe_env x)))) ex) as Hh.
  { apply Forall_forall. intros pk Hpk. destruct (I3 pk Hpk) as [Hlen [v Hv]]. split; [done|].
    exists v. split; [done|]. apply wf_state_u64. by apply (I2 (Encode pk)). }
  destruct (PushAccounts_spec ex (exe_env x) Q1 Q2 (proj1 Q3) Hdisk Hl Hh)
    as (s' & db' & Hr & [P1 P2 P3] & Hwf & Hi & HL & Hp).
  change (env_db (exe_env x)) with (xdb x) in *.
  change (ledger (env_mem (exe_env x))) with (xledger x) in *.
  assert (forall pk, is_key pk -> stored_state db' pk = Ok (default zero_state (xledger x !! Encode pk))) as Hst.
  { intros pk Kpk. destruct (decide (pk ∈ ex)) as [Hin|Hin].
    - destruct (I3 pk Hin) as [_ [v Hv]]. rewrite Hv. by apply P3.
    - rewrite (I1 pk Kpk Hin). unfold stored_state. rewrite P2 by (by right). by apply stored_ok. }
  assert (forall pk, is_key pk -> stored db' pk = default zero_state (xledger x !! Encode pk)) as Hst'
    by (intros pk Kpk; unfold stored; by rewrite Hst).
  exists (mkExecuter (mkEnv s' db') (faucet_generator x)). split_and!; [|split|..].
  - unfold waitForFinality, in_env, zoom. by rewrite Hr.
  - split; [done|done| |apply Hdisk]. split; [|intros pk Kpk; eexists; by apply Hst].
    change (bolt_has_bucket db' accountsBucket = true). rewrite P1. apply Q3.
  - exact Hg.
  - intros pk Kpk. cbn. rewrite Hst' by done. by apply wf_ledger_lookup.
  - change (wf_ledger (ledger s')). by rewrite HL.
  - intros pk Kpk. change (default zero_state (ledger s' !! Encode pk) = stored db' pk).
    by rewrite Hst', HL.
  - exact HL.
  - exact Hp.
  - intros b. apply P1.
  - intros b k Hb. apply P2. by left.
Qed.

(** A negative signal fetches the executed accounts back from it. *)
Lemma finality_rejects x gen ex : pending x gen ex -> (length ex <= 11)%nat ->
  exists x2, waitForFinality false (map Some ex) x = (Done None, x2) /\ settled x2 gen
    /\ xdb x2 = xdb x /\ same_pool (xmem x) (xmem x2) /\ grown (xledger x) (xledger x2).
Proof.
  intros [[Q1 Q2 Q3 Q4] Hg Hs [I1 I2 I3]] Hl.
  assert (Forall is_key ex) as Kex by (apply Forall_forall; intros pk Hpk; by apply I3).
  destruct (FetchAccounts_spec ex (exe_env x) Q1 Q2 Q3 Q4 Kex Hl) as (s' & Hr & Hwf & Hi & HL & Hp).
  exists (set_xmem s' x). split_and!; [|split|..].
  - unfold waitForFinality, revert. by rewrite (bind_done _ _ _ _ _ (in_env_done _ _ _ _ Hr)).
  - by split.
  - exact Hg.
  - exact Hs.
  - change (wf_ledger (ledger s')). rewrite HL. apply put_all_wf; [|exact I2].
    unfold encoded, fetched. rewrite map_map. apply Forall_map.
    eapply Forall_impl; [exact Kex|]. intros pk Kpk. by apply Hs.
  - intros pk Kpk. unfold agree. change (xledger (set_xmem s' x)) with (ledger s'). rewrite HL.
    change (env_db (exe_env x)) with (xdb x). rewrite put_fetched_lookup.
    case_decide as Hin; [done|]. by apply I1.
  - done.
  - exact Hp.
  - change (grown (ledger (env_mem (exe_env x))) (ledger s')). rewrite HL. by apply grown_fetched.
Qed.
(** A new node, and accounts entered in memory and database alike. *)
Definition new_executer (gen : bytes) (db : DB) : Executer :=
  mkExecuter (mkEnv NewMemoryService db) (Some gen).

Definition fund (pk : bytes) (v : AccountState) (x : Executer) : Executer :=
  mkExecuter (mkEnv (with_account (Encode pk) v (xmem x)) (put_account pk v (xdb x)))
    (faucet_generator x).

Lemma new_settled gen db : length gen = 32%nat -> bolt_has_bucket db accountsBucket = true ->
  (forall b k, bolt_get db b k = None) -> bolt_commit db = None -> settled (new_executer gen db) gen.
Proof.
  intros Hl Hb Hg Hc. assert (forall pk, stored_state db pk = Ok zero_state) as Hs
    by (intros pk; unfold stored_state; by rewrite Hg).
  assert (forall pk, stored db pk = zero_state) as Hs' by (intros pk; unfold stored; by rewrite Hs).
  split; [split|..].
  - done.
  - apply wf_mem_new.
  - split; [done|eauto].
  - exact Hc.
  - done.
  - intros pk _. change (xdb (new_executer gen db)) with db. rewrite Hs'. apply wf_zero.
  - intros k s Hk. discriminate Hk.
  - intros pk _. unfold agree. change (xdb (new_executer gen db)) with db. by rewrite Hs'.
Qed.

Lemma fund_settled `{!BoltLaws} pk v x gen : (forall db, bolt_commit db = None) ->
  length pk = 32%nat -> wf_state v -> settled x gen -> settled (fund pk v x) gen.
Proof.
  intros Hc Hl Hv [[Q1 Q2 Q3 Q4] G S W A].
  destruct (put_account_stored pk v (xdb x) Q3 Hl (wf_state_u64 _ Hv)) as [Hd Hst].
  assert (xledger (fund pk v x) = <[Encode pk := v]> (xledger x)) as HL
    by (by apply with_account_ledger).
  split; [split|..].
  - exact Q1.
  - by apply with_account_wf.
  - exact Hd.
  - apply Hc.
  - exact G.
  - intros pk' Kpk. change (xdb (fund pk v x)) with (put_account pk v (xdb x)). rewrite Hst by done.
    case_decide; [done|by apply S].
  - rewrite HL. by apply wf_ledger_insert.
  - intros pk' Kpk. unfold agree. change (xdb (fund pk v x)) with (put_account pk v (xdb x)).
    rewrite HL, Hst by done. destruct (decide (pk = pk')) as [<-|Hne].
    + by rewrite lookup_insert_eq.
    + rewrite lookup_insert_ne; [by apply A|]. intros He. by apply Hne, Encode_inj.
Qed.
End finality.
