(* ===== verification/ExecutionProps.v ===== *)
(** The properties of block execution: refinement of the ledger specification,
    conservation, finality, and the two ways in which a failed transaction
    goes wrong (accounts reverted too far, and a reply left unread). *)
From S2P Require Import Prelude Json JsonLaws Common External Merkle Accounts Txs Blocks Rpc Memory.
From S2P Require Import MemoryFacts Ledger Storage StorageFacts Executers ExecuterFacts BlockExec Settlement.
Open Scope Z_scope.

(** When a transfer goes through, and the ledger it leaves. *)
Definition transfer_ok (L : Ledger) (from to : string) (nonce amount : Z) : Prop :=
  exists sf st, L !! from = Some sf /\ L !! to = Some st /\ st_Nonce sf = nonce
    /\ amount <= st_Balance sf /\ (from <> to -> st_Balance st + amount <= GeneratorBalance).

Definition transferred (L : Ledger) (from to : string) (nonce amount : Z) : Ledger :=
  let sf := default zero_state (L !! from) in
  let st := default zero_state (L !! to) in
  if decide (from = to) then <[from := mkAccountState (u64 (nonce + 1)) (st_Balance sf)]> L
  else <[to := mkAccountState (st_Nonce st) (st_Balance st + amount)]>
         (<[from := mkAccountState (u64 (nonce + 1)) (st_Balance sf - amount)]> L).

Lemma spec_transfer_ok from to nonce amount L :
  wf_ledger L -> 0 <= amount -> transfer_ok L from to nonce amount ->
  spec_transfer from to nonce amount L = mkSpec None false (transferred L from to nonce amount).
Proof.
  intros HL Ha (sf & st & Ef & Et & <- & Hb & Hov). unfold spec_transfer, transferred.
  pose proof (HL _ _ Ef) as [Nf Bf]. pose proof (HL _ _ Et) as [Nt Bt].
  rewrite Ef, Et. unfold CheckNonce. rewrite Z.eqb_refl. cbn [negb default id].
  set (sf1 := mkAccountState (u64 (st_Nonce sf + 1)) (st_Balance sf)).
  assert (wf_state sf1) as W1 by (split; [apply u64_range|done]).
  unfold spec_settle. rewrite lookup_insert_eq. cbn [default id].
  rewrite (Subtract_spec _ _ W1 Ha), decide_True by done. cbn [negb st_Nonce st_Balance sf1].
  destruct (decide (from = to)) as [<-|Hne].
  - rewrite !lookup_insert_eq. cbn [default id].
    rewrite Add_spec; [|split; [apply u64_range|cbn; lia]|done].
    rewrite decide_True by (cbn; lia). cbn [negb st_Nonce st_Balance].
    rewrite !insert_insert_eq. do 3 f_equal. lia.
  - rewrite !lookup_insert_ne, Et by done. cbn [default id].
    rewrite Add_spec by (by split || done). rewrite decide_True by (by apply Hov).
    cbn [negb]. by rewrite insert_insert_eq.
Qed.

(** What [transferImpl] answers and leaves, case by case: the error, whether a
    reply stays unread, and the accounts. *)
Definition transfer_cases (L : Ledger) (from to : string) (nonce amount : Z) : option error * bool * Ledger :=
  match L !! from with
  | None => (Some "not found the key"%string, true, L)
  | Some sf =>
      let debited b := <[from := mkAccountState (u64 (nonce + 1)) b]> L in
      if decide (st_Nonce sf <> nonce) then (Some "nonce is Invalid"%string, true, L)
      else match L !! to with
           | None => (Some "not found the key"%string, false, debited (st_Balance sf))
           | Some st =>
               if decide (st_Balance sf < amount)
               then (Some "not enough balance"%string, false, debited (st_Balance sf))
               else if decide (from <> to /\ GeneratorBalance < st_Balance st + amount)
               then (Some "overflow"%string, false, debited (st_Balance sf - amount))
               else (None, false, transferred L from to nonce amount)
           end
  end.

Lemma spec_transfer_cases from to nonce amount L : wf_ledger L -> 0 <= amount ->
  let r := spec_transfer from to nonce amount L in
  transfer_cases L from to nonce amount = (sp_err r, sp_unread r, sp_ledger r).
Proof.
  intros HL Ha. cbv zeta. unfold transfer_cases. destruct (L !! from) as [sf|] eqn:Ef; [|by unfold spec_transfer; rewrite Ef].
  pose proof (HL _ _ Ef) as [Nf Bf]. case_decide as Hn.
  { unfold spec_transfer, CheckNonce. rewrite Ef, (proj2 (Z.eqb_neq _ _) Hn). cbn. by rewrite insert_id. }
  destruct (L !! to) as [st|] eqn:Et.
  2:{ unfold spec_transfer, CheckNonce. rewrite Ef, Hn, Z.eqb_refl. cbn [negb].
      rewrite lookup_insert_ne by congruence. by rewrite Et. }
  pose proof (HL _ _ Et) as [Nt Bt].
  assert (transfer_ok L from to nonce amount -> spec_transfer from to nonce amount L
    = mkSpec None false (transferred L from to nonce amount)) as Hok by (by apply spec_transfer_ok).
  set (sf1 := mkAccountState (u64 (nonce + 1)) (st_Balance sf)).
  assert (wf_state sf1) as W1 by (split; [apply u64_range|done]).
  assert (spec_transfer from to nonce amount L = spec_settle from to amount (<[from := sf1]> L)) as Hs.
  { unfold spec_transfer, CheckNonce. rewrite Ef, Hn, Z.eqb_refl. cbn [negb]. fold sf1.
    assert (is_Some (<[from := sf1]> L !! to)) as [v ->] by (apply lookup_insert_is_Some'; by right; exists st). done. }
  case_decide as Hb.
  { rewrite Hs. unfold spec_settle. rewrite lookup_insert_eq. cbn [default id].
    rewrite (Subtract_spec _ _ W1 Ha), decide_False by (cbn; lia). cbn. by rewrite insert_insert_eq. }
  case_decide as Hov.
  - destruct Hov as [Hne Hov]. rewrite Hs. unfold spec_settle. rewrite lookup_insert_eq. cbn [default id].
    rewrite (Subtract_spec _ _ W1 Ha), decide_True by (cbn; lia). cbn [negb st_Nonce st_Balance sf1].
    rewrite insert_insert_eq, lookup_insert_ne, Et by done. cbn [default id].
    rewrite Add_spec, decide_False by (by split || lia). cbn. f_equal. symmetry. apply insert_id.
    by rewrite lookup_insert_ne.
  - rewrite Hok; [done|]. exists sf, st. split_and!; try done; [lia|]. intros Hne.
    destruct (decide (GeneratorBalance < st_Balance st + amount)); [tauto|lia].
Qed.

Section execution.
Context `{Sha3, Base58, ExpSlices, MapOrder, Bolt, !ExpSlicesLaws, !Base58Laws}.

(** No transaction of the block fails. *)
Fixpoint all_succeed (db : DB) (gen : bytes) (txs : list Transaction) (L : Ledger) : Prop :=
  match txs with
  | [] => True
  | tx :: rest =>
      match decode_op tx with
      | None => all_succeed db gen rest L
      | Some o =>
          let r := snd (spec_op gen (caller_of tx) (td_Nonce (tx_InnerData tx)) o L) in
          sp_err r = None /\ all_succeed db gen rest (sp_ledger r)
      end
  end.

Lemma spec_op_conserves gen caller nonce o L L' : wf_ledger L -> 0 < amount_of o ->
  let r := snd (spec_op gen caller nonce o L) in
  sp_err r = None -> sp_ledger r = L' -> total L' = total L /\ wf_ledger L'.
Proof.
  intros HL Ha. cbv zeta. destruct o as [amount|to amount]; cbn [spec_op snd amount_of] in *; intros He <-.
  - pose proof (airdrop_success_read _ _ _ _ _ He) as Hu.
    apply (spec_airdrop_conserves (Encode gen) (Encode caller) nonce amount); [done|lia|].
    destruct (spec_airdrop _ _ _ _ _). cbn in *. congruence.
  - pose proof (transfer_success_read _ _ _ _ _ He) as Hu.
    apply (spec_transfer_conserves (Encode caller) (Encode to) nonce amount); [done|lia|].
    destruct (spec_transfer _ _ _ _ _). cbn in *. congruence.
Qed.

Lemma spec_block_conserves db gen txs : forall ex L txs' ex' L',
  wf_ledger L -> all_succeed db gen txs L ->
  spec_block db gen txs ex L = Some (txs', ex', L') -> total L' = total L /\ wf_ledger L'.
Proof.
  induction txs as [|tx txs IH]; intros ex L txs' ex' L' HL Hs; cbn [spec_block all_succeed] in *.
  { by intros [= <- <- <-]. }
  unfold spec_tx. destruct (decode_op tx) as [o|] eqn:Eo.
  - apply decode_op_verified in Eo as [Ha _]. destruct Hs as [He Hs].
    pose proof (spec_op_conserves gen (caller_of tx) (td_Nonce (tx_InnerData tx)) o L _ HL Ha He eq_refl)
      as [Ht HL1].
    destruct (spec_op _ _ _ _ _) as [other r]. cbn [snd] in *. unfold spec_finish. rewrite He.
    destruct (spec_block _ _ _ _ _) as [[[txs2 ex2] L2]|] eqn:E2; [|done]. intros [= <- <- <-].
    destruct (IH _ _ _ _ _ HL1 Hs E2) as [Ht2 HL2]. split; [congruence|done].
  - destruct (spec_block _ _ _ _ _) as [[[txs2 ex2] L2]|] eqn:E2; [|done]. intros [= <- <- <-].
    by apply (IH _ _ _ _ _ HL Hs E2).
Qed.

(** Each executed transaction ends up with a true status. *)
Lemma spec_block_status db gen txs : forall ex L txs' ex' L',
  spec_block db gen txs ex L = Some (txs', ex', L') ->
  Forall2 (fun tx tx' => tx_InnerData tx' = tx_InnerData tx /\ tx_Hash tx' = tx_Hash tx
    /\ tx_Status tx' = match decode_op tx with Some _ => true | None => tx_Status tx end) txs txs'.
Proof.
  induction txs as [|tx txs IH]; intros ex L txs' ex' L'; cbn [spec_block].
  { intros [= <- <- <-]. constructor. }
  destruct (spec_tx _ _ _ _ _) as [[[tx1 ex1] L1]|] eqn:E1; [|done].
  destruct (spec_block _ _ _ _ _) as [[[txs2 ex2] L2]|] eqn:E2; [|done]. intros [= <- <- <-].
  constructor; [|by eapply IH]. unfold spec_tx in E1. destruct (decode_op tx) as [o|].
  - destruct (spec_op _ _ _ _ _) as [other r]. unfold spec_finish in E1.
    destruct (sp_err r); [destruct (sp_unread r); [done|]|]; by injection E1 as <- <- <-.
  - by injection E1 as <- <- <-.
Qed.

(** * Properties *)

(** C2: [ExecuteNow] implements the ledger specification: on a quiet executer
    with an initialised generator, a block of transactions with senders ends
    with the transactions, the executed accounts and the ledger the
    specification gives, the executer quiet again and the database and the
    pool untouched; and when the specification says that the block never ends
    (a failed transaction with an unread reply), it blocks for ever. *)
Theorem ExecuteNow_refines x txs gen :
  quiet x -> Forall sender_ok txs -> faucet_generator x = Some gen -> is_key gen ->
  match spec_block (xdb x) gen txs newPublicKeys (xledger x) with
  | Some (txs', executed, L') =>
      exists x', ExecuteNow txs x = (Done (txs', Ok executed), x') /\ quiet x' /\ xledger x' = L'
        /\ xdb x' = xdb x /\ faucet_generator x' = faucet_generator x
        /\ same_pool (xmem x) (xmem x')
  | None => exists w x', ExecuteNow txs x = (Blocked w, x')
  end.
Proof. intros Hq Hf Hg Kg. exact (execute_loop_spec gen txs x newPublicKeys Hq Hf Hg Kg). Qed.

(** C20: [transferImpl] on a quiet service, case by case ([transfer_cases]).  An
    unknown sender or a wrong nonce changes no account, but leaves a reply
    unread, so that the service is not quiet any more.  An unknown receiver or
    too small a balance moves the sender's nonce on and changes nothing else;
    a receiver that would hold more than was ever issued costs the sender the
    nonce and the amount.  Otherwise, and only then, the call succeeds: it moves
    the amount and the nonce and keeps the total of all balances. *)
Theorem transferImpl_correct s from to nonce amount :
  idle s -> wf_mem s -> wf_ledger (ledger s) -> 0 <= amount ->
  let '(err, unread, L) := transfer_cases (ledger s) (Encode from) (Encode to) nonce amount in
  exists s', transferImpl (Some from) nonce (Some to) amount s = (Done err, s')
    /\ wf_mem s' /\ ledger s' = L /\ same_pool s s'
    /\ (if unread then ~ idle s' else idle s')
    /\ (err = None <-> transfer_ok (ledger s) (Encode from) (Encode to) nonce amount)
    /\ (err = None -> total (ledger s') = total (ledger s)).
Proof.
  intros Hi Hwf HL Ha. destruct (transferImpl_spec s from to nonce amount Hi Hwf) as (s' & Hr & [V1 V2 V3 V4]).
  pose proof (spec_transfer_cases (Encode from) (Encode to) nonce amount _ HL Ha) as Hc. cbv zeta in Hc.
  set (r := spec_transfer _ _ _ _ _) in *. rewrite Hc. exists s'.
  assert (sp_err r = None -> r = mkSpec None false (sp_ledger r)) as Hn.
  { intros He. pose proof (transfer_success_read _ _ _ _ _ He) as Hu. unfold r in *.
    destruct (spec_transfer _ _ _ _ _). cbn in *. congruence. }
  split_and!; [exact Hr|exact V1|exact V2|exact V3| | |].
  - destruct (sp_unread r); [|exact V4]. destruct V4 as (req & ch & Hq & _). unfold idle. by rewrite Hq.
  - split.
    + intros He. destruct (spec_transfer_success _ _ _ _ _ _ HL Ha (Hn He))
        as (sf & st & Ef & Et & Hnn & Hb & Hov & _). by exists sf, st.
    + intros Hok'. unfold r. by rewrite spec_transfer_ok.
  - intros He. rewrite V2. by apply (spec_transfer_conserves _ _ _ _ _ _ HL Ha (Hn He)).
Qed.

(** A block none of whose transactions fails conserves the total of all
    balances and keeps every account within the issued total. *)
Theorem Execute_conserves x gen txs txs' keys x1 :
  settled x gen -> Forall sender_ok txs -> all_succeed (xdb x) gen txs (xledger x) ->
  Execute txs x = (Done (txs', Ok keys), x1) ->
  total (xledger x1) = total (xledger x) /\ wf_ledger (xledger x1).
Proof.
  intros Hx Hf Hs Hrun. destruct (Execute_inv _ _ _ _ _ _ Hx Hf Hrun) as (ex & -> & _ & _ & _ & _ & Hb).
  eapply spec_block_conserves; [apply Hx|exact Hs|exact Hb].
Qed.

(** C8: a rejected block is taken back: when the finality signal is negative
    (and the block has executed at most eleven accounts), the database and the
    pool are what they were before the block, the memory agrees with the
    database again, and every account has the state it had, whatever the
    transactions of the block did.  What the block may leave behind are entries
    of empty accounts, for accounts that were not there. *)
Theorem rejected_block_reverts x gen txs txs' keys x1 :
  settled x gen -> Forall sender_ok txs -> Execute txs x = (Done (txs', Ok keys), x1) ->
  (length keys <= 11)%nat ->
  exists x2, waitForFinality false keys x1 = (Done None, x2) /\ settled x2 gen /\ xdb x2 = xdb x
    /\ same_pool (xmem x) (xmem x2)
    /\ forall k, xledger x2 !! k = xledger x !! k
         \/ (xledger x !! k = None /\ xledger x2 !! k = Some zero_state).
Proof.
  intros Hx Hf Hrun Hl. destruct (Execute_pending _ _ _ _ _ _ Hx Hf Hrun) as (ex & -> & Hp & Hdb & Hpool).
  rewrite length_map in Hl. destruct (finality_rejects x1 gen ex Hp Hl) as (x2 & Hr & Hs & Hdb2 & Hpool2 & Hg).
  exists x2. assert (xdb x2 = xdb x) as Hdb' by congruence.
  split_and!; [exact Hr|exact Hs|exact Hdb'|by eapply same_pool_trans|].
  apply (settled_same_states x x2 gen Hx Hs Hdb'). etransitivity; [by eapply Execute_grown|exact Hg].
Qed.

(** C7: an accepted block becomes durable: when the finality signal is
    positive, the database agrees with the memory the block left on every
    account, no other bucket changes, and neither does the memory (for at
    most eleven executed accounts, and a disk that does not fail). *)
Theorem accepted_block_is_durable `{!BoltLaws} x gen txs txs' keys x1 :
  (forall db, bolt_commit db = None) ->
  settled x gen -> Forall sender_ok txs -> Execute txs x = (Done (txs', Ok keys), x1) ->
  (length keys <= 11)%nat ->
  exists x2, waitForFinality true keys x1 = (Done None, x2) /\ settled x2 gen
    /\ xledger x2 = xledger x1
    /\ forall b k, b <> accountsBucket -> bolt_get (xdb x2) b k = bolt_get (xdb x) b k.
Proof.
  intros Hdisk Hx Hf Hrun Hl. destruct (Execute_pending _ _ _ _ _ _ Hx Hf Hrun) as (ex & -> & Hp & Hdb & _).
  rewrite length_map in Hl.
  destruct (finality_accepts x1 gen ex Hdisk Hp Hl) as (x2 & Hr & Hs & HL & _ & _ & Hg).
  rewrite Hdb in Hg. by exists x2.
Qed.

(** C21: a transfer that returns early hangs the node: when its sender is
    unknown or its nonce is wrong, the second reply is never read, and the
    revert that follows waits for ever behind it; the block never ends. *)
Theorem early_return_hangs x gen tx txs to amount caller :
  quiet x -> faucet_generator x = Some gen -> is_key gen -> Forall sender_ok (tx :: txs) ->
  td_PublicKey (tx_InnerData tx) = Some caller -> decode_op tx = Some (OpTransfer to amount) ->
  (xledger x !! Encode caller = None
   \/ exists s, xledger x !! Encode caller = Some s /\ st_Nonce s <> td_Nonce (tx_InnerData tx)) ->
  exists w x', ExecuteNow (tx :: txs) x = (Blocked w, x').
Proof.
  intros Hq Hg Kg Hf Hpk Hop Hbad.
  pose proof (execute_loop_spec gen (tx :: txs) x newPublicKeys Hq Hf Hg Kg) as Hb.
  cbn [spec_block] in Hb. unfold spec_tx, caller_of in Hb. rewrite Hop, Hpk in Hb.
  cbn [raw default id spec_op] in Hb. unfold spec_transfer in Hb.
  destruct Hbad as [Hn|(s & Hs & Hn)]; [rewrite Hn in Hb; exact Hb|]. rewrite Hs in Hb. unfold CheckNonce in Hb.
  rewrite (proj2 (Z.eqb_neq _ _) Hn) in Hb. exact Hb.
Qed.

(** The revert of a transfer without funds: sender and receiver get the states
    of the database back, whatever earlier transactions of the block did. *)
Lemma reverted_transfer x gen a c (noted L L' : Ledger) : settled x gen -> is_key a -> is_key c ->
  is_Some (xledger x !! Encode a) -> is_Some (xledger x !! Encode c) ->
  (forall k, k <> Encode a -> L' !! k = L !! k) -> L !! Encode c = xledger x !! Encode c ->
  (forall k, k <> Encode a -> noted !! k = L' !! k) ->
  put_all (encoded (fetched (xdb x) (touched a c))) noted = <[Encode a := default zero_state (xledger x !! Encode a)]> L.
Proof.
  intros Hx Ka Kc [va Ha] [vc Hc] HL HLc Hn. pose proof (se_agree _ _ Hx a Ka) as Aa. pose proof (se_agree _ _ Hx c Kc) as Ac.
  unfold agree in Aa, Ac. rewrite Ha in Aa |- *. rewrite Hc in Ac. cbn [default id] in *. apply map_eq. intros k.
  unfold touched. case_decide as Hca.
  - cbn. rewrite <- Aa. destruct (decide (k = Encode a)) as [->|Hk]; [by rewrite !lookup_insert_eq|].
    rewrite !lookup_insert_ne by done. by rewrite Hn, HL.
  - assert (Encode c <> Encode a) as Hne by (by intros ?%Encode_inj). cbn. rewrite <- Aa, <- Ac.
    destruct (decide (k = Encode c)) as [->|Hkc].
    + by rewrite lookup_insert_eq, lookup_insert_ne, HLc, Hc by done.
    + rewrite lookup_insert_ne by done. destruct (decide (k = Encode a)) as [->|Hk]; [by rewrite !lookup_insert_eq|].
      rewrite !lookup_insert_ne by done. by rewrite Hn, HL.
Qed.

(** On ledgers: the second transfer of the block fails and is reverted. *)
Lemma reverted_after_payment x gen tx1 tx2 a b c amount amount2 sa sb :
  settled x gen ->
  td_PublicKey (tx_InnerData tx1) = Some a -> td_PublicKey (tx_InnerData tx2) = Some a -> is_key a ->
  decode_op tx1 = Some (OpTransfer b amount) -> decode_op tx2 = Some (OpTransfer c amount2) ->
  xledger x !! Encode a = Some sa -> xledger x !! Encode b = Some sb -> is_Some (xledger x !! Encode c) ->
  a <> b -> b <> c -> td_Nonce (tx_InnerData tx1) = st_Nonce sa -> td_Nonce (tx_InnerData tx2) = u64 (st_Nonce sa + 1) ->
  amount <= st_Balance sa < amount + amount2 -> st_Balance sb + amount <= GeneratorBalance ->
  let Lf := <[Encode b := mkAccountState (st_Nonce sb) (st_Balance sb + amount)]> (xledger x) in
  spec_block (xdb x) gen [tx1; tx2] newPublicKeys (xledger x)
  = Some ([set_Status true tx1; set_Status true tx2], add_keys a b newPublicKeys, Lf).
Proof.
  intros Hx P1 P2 Ka D1 D2 La Lb [sc Lc] Hab Hbc N1 N2 [Hlo Hhi] Hov Lf.
  pose proof (decode_op_verified _ _ D1) as [A1 K1]. pose proof (decode_op_verified _ _ D2) as [A2 K2].
  cbn [amount_of] in A1, A2. specialize (K1 _ _ eq_refl). specialize (K2 _ _ eq_refl).
  pose proof (se_wf _ _ Hx) as HW. destruct (HW _ _ La) as [_ Ba].
  assert (Encode a <> Encode b) as Eab by (by intros ?%Encode_inj).
  assert (Encode b <> Encode c) as Ebc by (by intros ?%Encode_inj).
  set (L1 := transferred (xledger x) (Encode a) (Encode b) (st_Nonce sa) amount).
  assert (L1 = <[Encode b := mkAccountState (st_Nonce sb) (st_Balance sb + amount)]>
    (<[Encode a := mkAccountState (u64 (st_Nonce sa + 1)) (st_Balance sa - amount)]> (xledger x))) as EL1
    by (unfold L1, transferred; rewrite La, Lb, decide_False by done; done).
  assert (spec_transfer (Encode a) (Encode b) (st_Nonce sa) amount (xledger x) = mkSpec None false L1) as S1.
  { apply spec_transfer_ok; [done|lia|]. exists sa, sb. split_and!; (done || lia || by intros _). }
  destruct (spec_transfer_conserves _ _ _ _ _ _ HW (Z.lt_le_incl _ _ A1) S1) as [_ HW1].
  assert (L1 !! Encode a = Some (mkAccountState (u64 (st_Nonce sa + 1)) (st_Balance sa - amount))) as L1a
    by (by rewrite EL1, lookup_insert_ne, lookup_insert_eq).
  assert (is_Some (L1 !! Encode c)) as [sc1 L1c].
  { rewrite EL1, lookup_insert_ne by done. apply lookup_insert_is_Some'. right. by exists sc. }
  set (noted := <[Encode a := mkAccountState (u64 (u64 (st_Nonce sa + 1) + 1)) (st_Balance sa - amount)]> L1).
  assert (spec_transfer (Encode a) (Encode c) (u64 (st_Nonce sa + 1)) amount2 L1
    = mkSpec (Some "not enough balance"%string) false noted) as S2.
  { pose proof (spec_transfer_cases (Encode a) (Encode c) (u64 (st_Nonce sa + 1)) amount2 L1 HW1 (Z.lt_le_incl _ _ A2)) as Hc.
    unfold transfer_cases in Hc. rewrite L1a, L1c in Hc. cbn [st_Nonce st_Balance] in Hc.
    rewrite (decide_False (P := u64 _ <> u64 _)), decide_True in Hc by (lia || tauto).
    cbv zeta in Hc. revert Hc.
    generalize (spec_transfer (Encode a) (Encode c) (u64 (st_Nonce sa + 1)) amount2 L1). intros [e u M]. cbn [sp_err sp_unread sp_ledger].
    by intros [= <- <- <-]. }
  assert (put_all (encoded (fetched (xdb x) (touched a c))) noted = Lf) as ELf.
  { rewrite (reverted_transfer x gen a c noted Lf L1 Hx Ka K2 ltac:(by exists sa) ltac:(by exists sc)).
    - rewrite La. cbn [default id]. apply insert_id. unfold Lf. by rewrite lookup_insert_ne.
    - intros k Hk. rewrite EL1. unfold Lf. destruct (decide (k = Encode b)) as [->|];
        [by rewrite !lookup_insert_eq|by rewrite !lookup_insert_ne].
    - unfold Lf. by rewrite lookup_insert_ne.
    - intros k Hk. unfold noted. by rewrite lookup_insert_ne. }
  cbn [spec_block]. unfold spec_tx, caller_of. rewrite D1, D2, P1, P2, N1, N2. cbn [raw default id spec_op].
  rewrite S1. unfold spec_finish at 1. cbn [sp_err sp_ledger]. rewrite S2. unfold spec_finish. cbn [sp_err sp_unread sp_ledger].
  by rewrite ELf.
Qed.

(** C23: a failed transfer can create money.  Of a block of two transfers by one
    sender the first goes through and the second, to another receiver, exceeds
    what is left.  The revert of the second restores the sender from the
    database and so takes back its part in the first one too, but leaves the
    receiver of that paid: the block ends, both transactions are reported as
    successful, and the accounts are as before but for the receiver, who has
    [amount] more.  So has the total, and the finality of the block writes it to
    the database. *)
Theorem revert_creates_money `{!BoltLaws} x gen tx1 tx2 a b c amount amount2 sa sb :
  (forall db, bolt_commit db = None) -> settled x gen ->
  td_PublicKey (tx_InnerData tx1) = Some a -> td_PublicKey (tx_InnerData tx2) = Some a -> is_key a ->
  decode_op tx1 = Some (OpTransfer b amount) -> decode_op tx2 = Some (OpTransfer c amount2) ->
  xledger x !! Encode a = Some sa -> xledger x !! Encode b = Some sb -> is_Some (xledger x !! Encode c) ->
  a <> b -> b <> c -> td_Nonce (tx_InnerData tx1) = st_Nonce sa -> td_Nonce (tx_InnerData tx2) = u64 (st_Nonce sa + 1) ->
  amount <= st_Balance sa < amount + amount2 -> st_Balance sb + amount <= GeneratorBalance ->
  exists txs' keys x1 x2, Execute [tx1; tx2] x = (Done (txs', Ok keys), x1)
    /\ Forall (fun tx => tx_Status tx = true) txs'
    /\ xledger x1 = <[Encode b := mkAccountState (st_Nonce sb) (st_Balance sb + amount)]> (xledger x)
    /\ waitForFinality true keys x1 = (Done None, x2) /\ settled x2 gen
    /\ total (xledger x2) = total (xledger x) + amount.
Proof.
  intros Hdisk Hx P1 P2 Ka D1 D2 La Lb Lc Hab Hbc N1 N2 Hlo Hov.
  pose proof (reverted_after_payment x gen tx1 tx2 a b c amount amount2 sa sb Hx P1 P2 Ka D1 D2 La Lb Lc Hab Hbc N1 N2
    Hlo Hov) as Hb. cbv zeta in Hb.
  assert (Forall sender_ok [tx1; tx2]) as Hf by (repeat constructor; by exists a).
  pose proof (execute_loop_spec gen [tx1; tx2] x newPublicKeys (se_quiet _ _ Hx) Hf
    (proj1 (se_gen _ _ Hx)) (proj2 (se_gen _ _ Hx))) as Hrun.
  rewrite Hb in Hrun. destruct Hrun as (x1 & Hr & _ & HL & _).
  assert (Execute [tx1; tx2] x = (Done ([set_Status true tx1; set_Status true tx2], Ok (add_keys a b newPublicKeys)), x1)) as He
    by (rewrite Execute_run; exact Hr).
  destruct (Execute_pending _ _ _ _ _ _ Hx Hf He) as (ex & Hex & Hp & _).
  assert (length ex <= 11)%nat as Hlen.
  { rewrite <- (length_map Some ex), <- Hex. unfold add_keys, newPublicKeys.
    change [] with (map Some (@nil bytes)). rewrite !publicKeys_add_spec, length_map.
    repeat case_decide; cbn; lia. }
  destruct (finality_accepts x1 gen ex Hdisk Hp Hlen) as (x2 & Hw & Hs2 & HL2 & _).
  exists [set_Status true tx1; set_Status true tx2], (add_keys a b newPublicKeys), x1, x2.
  split_and!; [exact He|by repeat constructor|exact HL|by rewrite Hex|exact Hs2|].
  rewrite HL2, HL, total_insert, Lb. cbn. lia.
Qed.

(** A block that returns reports every transaction it executed as
    successful, failed ones included: the status is set to false and then to
    true; hashes and contents are kept. *)
Theorem Execute_marks_all_successful x gen txs txs' keys x1 :
  settled x gen -> Forall sender_ok txs -> Execute txs x = (Done (txs', Ok keys), x1) ->
  Forall2 (fun tx tx' => tx_InnerData tx' = tx_InnerData tx /\ tx_Hash tx' = tx_Hash tx
    /\ tx_Status tx' = match decode_op tx with Some _ => true | None => tx_Status tx end) txs txs'.
Proof.
  intros Hx Hf Hrun. destruct (Execute_inv _ _ _ _ _ _ Hx Hf Hrun) as (ex & -> & _ & _ & _ & _ & Hb).
  by eapply spec_block_status.
Qed.
End execution.

(** C22: more than eleven accounts in one request of the finality goroutine
    deadlock it: all requests are sent before the first reply is read, and
    only eleven fit. *)
Theorem waitForFinality_overflow `{Sha3, Base58, ExpSlices, MapOrder, Bolt} ok pks x :
  quiet x -> Forall is_key pks -> (11 < length pks)%nat ->
  exists w x', waitForFinality ok (map Some pks) x = (Blocked w, x').
Proof.
  intros [Q1 Q2 Q3 Q4] Hk Hl. assert (length (stateCh (env_mem (exe_env x))) = 0%nat) as E0
    by (unfold idle, xmem in Q1; by rewrite Q1).
  destruct ok; unfold waitForFinality.
  - destruct (PushAccounts_overflow pks (exe_env x)) as (w & e' & Hb);
      [rewrite E0; unfold stateCh_room; lia|rewrite E0; unfold stateCh_room; lia|].
    erewrite in_env_blocked by exact Hb. eauto.
  - destruct (FetchAccounts_overflow pks (exe_env x)) as (w & e' & Hb);
      [rewrite E0; unfold stateCh_room; lia|exact Q3|exact Hk|rewrite E0; unfold stateCh_room; lia|].
    unfold revert. erewrite bind_blocked by (apply in_env_blocked; exact Hb). eauto.
Qed.

(** ** Concrete runs *)
Section runs.
Import Toy.

Definition gen_key : bytes := replicate 32 xaa.
Definition alice : bytes := raw (Wallet_PublicKey demo_wallet).
Definition bob : bytes := replicate 32 x0b.
Definition carol : bytes := replicate 32 x0c.

Definition new_db : DB :=
  match NewStorageService None None with Done (Ok db) => db | _ => bolt_empty end.

(** Alice, whose next nonce is 3, holds 100; Bob and Carol hold nothing. *)
Definition node : Executer :=
  fund alice (mkAccountState 3 100) (fund bob zero_state (fund carol zero_state
    (fund gen_key (mkAccountState 0 1000) (new_executer gen_key new_db)))).

Definition ok_or {A} (d : A) (r : result A) : A := match r with Ok a => a | Err _ => d end.

Definition signed_transfer (nonce amount : Z) (to : bytes) : Transaction :=
  let params := ok_or [] (Marshal (NewTransferParam amount (Some to))) in
  let data := ok_or [] (Marshal (NewCall Transfer (Some params))) in
  match Wallet_Sign (Wallet_Init demo_wallet nonce 0) (NewTransaction 7 (Some data)) with
  | Done (Ok tx) => tx
  | _ => NewTransaction 7 None
  end.

Lemma new_db_settled : settled (new_executer gen_key new_db) gen_key.
Proof.
  destruct NewStorageService_new as (db & Hdb & _ & Hb & Hg); [done|].
  assert (new_db = db) as -> by (unfold new_db; by rewrite Hdb).
  by apply new_settled.
Qed.

Lemma node_settled : settled node gen_key.
Proof.
  unfold node. repeat (apply fund_settled; [done|done|split; by vm_compute|]).
  apply new_db_settled.
Qed.

Definition good_block : list Transaction := [signed_transfer 3 60 bob; signed_transfer 4 30 carol].
Definition bad_block : list Transaction := [signed_transfer 3 60 bob; signed_transfer 4 70 carol].

Ltac verify_each := repeat (apply Forall_cons_2; [vm_compute; reflexivity|]); apply Forall_nil_2.

Lemma good_verified : Forall (fun tx => Transaction_Verify tx = Done (Ok true)) good_block.
Proof. verify_each. Qed.
Lemma bad_verified : Forall (fun tx => Transaction_Verify tx = Done (Ok true)) bad_block.
Proof. verify_each. Qed.

Lemma good_senders : Forall sender_ok good_block.
Proof. eapply Forall_impl; [apply good_verified|apply sender_ok_verified]. Qed.
Lemma bad_senders : Forall sender_ok bad_block.
Proof. eapply Forall_impl; [apply bad_verified|apply sender_ok_verified]. Qed.

(** *** Witnesses *)
Definition returned (o : outcome (list Transaction * result publicKeys)) : bool :=
  match o with Done (_, Ok keys) => (length keys <=? 11)%nat | _ => false end.

(** Name the result of a block that is known to return. *)
Ltac run_block blk :=
  let K := fresh "K" in
  assert (returned (fst (Execute blk node)) = true) as K by (vm_compute; reflexivity);
  destruct (Execute blk node) as [[[txs' [keys|e]]|w|w] x1] eqn:Erun; try discriminate K;
  apply Nat.leb_le in K; rename K into Hkeys.

Lemma ExecuteNow_refines_witness :
  match spec_block (xdb node) gen_key good_block newPublicKeys (xledger node) with
  | Some (txs', executed, L') =>
      exists x', ExecuteNow good_block node = (Done (txs', Ok executed), x')
  | None => exists w x', ExecuteNow good_block node = (Blocked w, x')
  end.
Proof.
  pose proof (ExecuteNow_refines node good_block gen_key) as Hr.
  destruct (spec_block _ _ _ _ _) as [[[txs' ex] L']|].
  - destruct Hr as (x' & Hx & _); [apply node_settled|apply good_senders|reflexivity|reflexivity|exists x'; exact Hx].
  - apply Hr; [apply node_settled|apply good_senders|reflexivity|reflexivity].
Defined.

(** A transfer of more than Alice holds. *)
Lemma transferImpl_correct_witness :
  exists s', transferImpl (Some alice) 3 (Some bob) 101 (xmem node) = (Done (Some "not enough balance"%string), s')
    /\ idle s' /\ ledger s' !! Encode alice = Some (mkAccountState 4 100).
Proof.
  pose proof (transferImpl_correct (xmem node) alice bob 3 101) as Ht.
  assert (fst (transfer_cases (ledger (xmem node)) (Encode alice) (Encode bob) 3 101) = (Some "not enough balance"%string, false)
    /\ snd (transfer_cases (ledger (xmem node)) (Encode alice) (Encode bob) 3 101) !! Encode alice
       = Some (mkAccountState 4 100)) as [K1 K2] by (vm_compute; split; reflexivity).
  destruct (transfer_cases _ _ _ _ _) as [[err unread] L]. cbn [fst snd] in K1, K2. injection K1 as -> ->.
  destruct Ht as (s' & Hr & _ & HL & _ & Hi & _).
  - apply node_settled.
  - apply node_settled.
  - apply (se_wf _ _ node_settled).
  - lia.
  - exists s'. split; [exact Hr|]. split; [exact Hi|]. rewrite HL. exact K2.
Defined.

Lemma Execute_conserves_witness :
  match Execute good_block node with
  | (Done (txs', Ok keys), x1) => total (xledger x1) = total (xledger node)
  | _ => False
  end.
Proof.
  run_block good_block.
  apply (Execute_conserves node gen_key good_block txs' keys x1 node_settled good_senders).
  - vm_compute. repeat (split; [reflexivity|]). exact I.
  - exact Erun.
Defined.

Lemma rejected_block_reverts_witness :
  match Execute bad_block node with
  | (Done (txs', Ok keys), x1) =>
      exists x2, waitForFinality false keys x1 = (Done None, x2) /\ xdb x2 = xdb node
        /\ xledger x2 !! Encode alice = Some (mkAccountState 3 100)
  | _ => False
  end.
Proof.
  run_block bad_block.
  destruct (rejected_block_reverts node gen_key bad_block txs' keys x1 node_settled
    bad_senders Erun Hkeys) as (x2 & Hx & _ & Hdb & _ & Hst).
  exists x2. split; [exact Hx|]. split; [exact Hdb|].
  assert (xledger node !! Encode alice = Some (mkAccountState 3 100)) as K by (vm_compute; reflexivity).
  destruct (Hst (Encode alice)) as [He|[Hn _]].
  - rewrite He. exact K.
  - rewrite Hn in K. discriminate K.
Defined.

Lemma accepted_block_is_durable_witness :
  match Execute good_block node with
  | (Done (txs', Ok keys), x1) =>
      exists x2, waitForFinality true keys x1 = (Done None, x2) /\ settled x2 gen_key
  | _ => False
  end.
Proof.
  run_block good_block.
  destruct (accepted_block_is_durable node gen_key good_block txs' keys x1 (fun _ => eq_refl)
    node_settled good_senders Erun Hkeys) as (x2 & Hx & Hs & _).
  exists x2. split; [exact Hx|exact Hs].
Defined.

Definition stale_block : list Transaction := [signed_transfer 9 10 bob].

Lemma stale_verified : Forall (fun tx => Transaction_Verify tx = Done (Ok true)) stale_block.
Proof. verify_each. Qed.

Lemma early_return_hangs_witness :
  Forall (fun tx => Transaction_Verify tx = Done (Ok true)) stale_block
  /\ exists w x', ExecuteNow stale_block node = (Blocked w, x').
Proof.
  split; [apply stale_verified|].
  apply (early_return_hangs node gen_key (signed_transfer 9 10 bob) [] bob 10 alice).
  - apply node_settled.
  - reflexivity.
  - reflexivity.
  - eapply Forall_impl; [apply stale_verified|apply sender_ok_verified].
  - vm_compute. reflexivity.
  - vm_compute. reflexivity.
  - right. exists (mkAccountState 3 100). split; vm_compute; [reflexivity|discriminate].
Defined.

Lemma revert_creates_money_witness :
  exists txs' keys x1, Execute bad_block node = (Done (txs', Ok keys), x1)
    /\ exists x2, waitForFinality true keys x1 = (Done None, x2) /\ total (xledger x2) = total (xledger node) + 60.
Proof.
  destruct (revert_creates_money node gen_key (signed_transfer 3 60 bob) (signed_transfer 4 70 carol) alice bob carol 60 70
    (mkAccountState 3 100) zero_state) as (txs' & keys & x1 & x2 & He & _ & _ & Hw & _ & Ht).
  - reflexivity.
  - apply node_settled.
  - reflexivity.
  - reflexivity.
  - reflexivity.
  - vm_compute. reflexivity.
  - vm_compute. reflexivity.
  - vm_compute. reflexivity.
  - vm_compute. reflexivity.
  - eexists. vm_compute. reflexivity.
  - vm_compute. discriminate.
  - vm_compute. discriminate.
  - vm_compute. reflexivity.
  - vm_compute. reflexivity.
  - cbn. lia.
  - apply Z.leb_le. vm_compute. reflexivity.
  - exists txs', keys, x1. split; [exact He|]. exists x2. split; [exact Hw|exact Ht].
Defined.

Lemma Execute_marks_all_successful_witness :
  match Execute bad_block node with
  | (Done (txs', Ok keys), x1) => length txs' = 2%nat
  | _ => False
  end.
Proof.
  run_block bad_block.
  pose proof (Execute_marks_all_successful node gen_key bad_block txs' keys x1 node_settled
    bad_senders Erun) as Hf.
  apply Forall2_length in Hf. symmetry. exact Hf.
Defined.

Lemma waitForFinality_overflow_witness :
  exists w x', waitForFinality true (map Some (replicate 12 alice)) node = (Blocked w, x').
Proof.
  apply (waitForFinality_overflow true (replicate 12 alice) node); [apply node_settled| |].
  - apply Forall_replicate. vm_compute. reflexivity.
  - rewrite length_replicate. lia.
Defined.
End runs.
