(* ===== verification/Replay.v ===== *)
(** What a block does to each account, and why none of its transactions can be
    executed again. *)
From S2P Require Import Prelude Json JsonLaws Common External Merkle Accounts Txs Blocks Rpc Memory.
From S2P Require Import MemoryFacts Ledger Storage StorageFacts Executers ExecuterFacts BlockExec Settlement.
From S2P Require Import ExecutionProps.
Open Scope Z_scope.

(** ** Consecutive nonces *)
Fixpoint consecutive (n : Z) (l : list Z) : Prop :=
  match l with
  | [] => True
  | m :: l' => m = n /\ consecutive (u64 (n + 1)) l'
  end.

Lemma u64_add_l a b : u64 (u64 a + b) = u64 (a + b).
Proof. unfold u64. by rewrite Zplus_mod_idemp_l. Qed.

Lemma consecutive_lookup l n i m : in_u64 n -> consecutive n l -> l !! i = Some m -> m = u64 (n + Z.of_nat i).
Proof.
  revert n i. induction l as [|m0 l IH]; intros n i Hn Hc Hl; [done|]. destruct Hc as [-> Hc].
  destruct i as [|i]; [injection Hl as <-; by rewrite Z.add_0_r, u64_small|].
  rewrite (IH _ _ (u64_range _) Hc Hl), u64_add_l. f_equal. lia.
Qed.

Lemma u64_apart a b : 0 < b - a < 2 ^ 64 -> u64 a <> u64 b.
Proof.
  unfold u64. intros Hb He.
  assert ((b - a) mod 2 ^ 64 = 0) as Hm by (rewrite Zminus_mod, He, Z.sub_diag; done).
  rewrite Z.mod_small in Hm by lia. lia.
Qed.

Lemma consecutive_used l n m : in_u64 n -> consecutive n l -> len l < 2 ^ 64 -> m ∈ l -> m <> u64 (n + len l).
Proof.
  intros Hn Hc Hl (i & Hi)%list_elem_of_lookup. rewrite (consecutive_lookup _ _ _ _ Hn Hc Hi).
  apply lookup_lt_Some in Hi. apply u64_apart. unfold len in *. lia.
Qed.

Section effects.
Context `{Sha3, Base58, ExpSlices, MapOrder, Bolt, !ExpSlicesLaws, !Base58Laws}.

(** Who pays and who is paid. *)
Definition payer (gen caller : bytes) (o : op) : string :=
  match o with OpAirdrop _ => Encode gen | OpTransfer _ _ => Encode caller end.
Definition payee (caller : bytes) (o : op) : string :=
  match o with OpAirdrop _ => Encode caller | OpTransfer to _ => Encode to end.

(** What account [k] gains when [from] pays [to]. *)
Definition gain (from to : string) (amount : Z) (k : string) : Z :=
  (if decide (to = k) then amount else 0) - (if decide (from = k) then amount else 0).

Definition op_gain (gen caller : bytes) (o : op) (k : string) : Z :=
  gain (payer gen caller o) (payee caller o) (amount_of o) k.

Definition account (L : Ledger) (k : string) : AccountState := default zero_state (L !! k).

(** The nonce of the caller goes up by one, and the amount is moved. *)
Definition moved (caller from to : string) (amount : Z) (L L' : Ledger) : Prop :=
  forall k, account L' k
    = mkAccountState
        (if decide (caller = k) then u64 (st_Nonce (account L k) + 1) else st_Nonce (account L k))
        (st_Balance (account L k) + gain from to amount k).

Lemma account_eq s n b : st_Nonce s = n -> st_Balance s = b -> s = mkAccountState n b.
Proof. destruct s. by intros <- <-. Qed.

(** Compare two ledgers account by account. *)
Ltac by_account :=
  intros k; unfold account, gain; apply account_eq;
  repeat first [rewrite lookup_insert | case_decide; subst];
  repeat match goal with E : ?L !! _ = _ |- _ => rewrite E in * end;
  cbn [default id st_Nonce st_Balance] in *; try congruence; try lia.

Lemma airdrop_effect gen caller nonce amount L L' : wf_ledger L -> 0 < amount ->
  spec_airdrop gen caller nonce amount L = mkSpec None false L' ->
  nonce = st_Nonce (account L caller) /\ moved caller gen caller amount L L'.
Proof.
  intros HL Ha Hs. destruct (spec_airdrop_success _ _ _ _ _ _ HL (Z.lt_le_incl _ _ Ha) Hs)
    as (sg & Eg & Hn & _ & _ & ->). clear Hs. split; [done|]. by_account.
Qed.

Lemma transfer_effect caller to nonce amount L L' : wf_ledger L -> 0 < amount ->
  spec_transfer caller to nonce amount L = mkSpec None false L' ->
  nonce = st_Nonce (account L caller) /\ moved caller caller to amount L L'.
Proof.
  intros HL Ha Hs. destruct (spec_transfer_success _ _ _ _ _ _ HL (Z.lt_le_incl _ _ Ha) Hs)
    as (sf & st & Ef & Et & Hn & _ & _ & ->). clear Hs. split; [unfold account; by rewrite Ef|]. by_account.
Qed.

Lemma spec_op_effect gen caller nonce o L : wf_ledger L -> 0 < amount_of o ->
  let r := snd (spec_op gen caller nonce o L) in
  sp_err r = None ->
  nonce = st_Nonce (account L (Encode caller)) /\ wf_ledger (sp_ledger r)
  /\ moved (Encode caller) (payer gen caller o) (payee caller o) (amount_of o) L (sp_ledger r).
Proof.
  intros HL Ha r He. pose proof (spec_op_conserves gen caller nonce o L _ HL Ha He eq_refl) as [_ HL'].
  assert (sp_unread r = false) as Hu
    by (subst r; destruct o; [by eapply airdrop_success_read|by eapply transfer_success_read]).
  assert (r = mkSpec None false (sp_ledger r)) as Hr by (destruct r; cbn in *; congruence).
  destruct o as [amount|to amount]; cbn [spec_op snd amount_of payer payee] in *.
  - by destruct (airdrop_effect (Encode gen) (Encode caller) nonce amount L (sp_ledger r) HL Ha Hr).
  - by destruct (transfer_effect (Encode caller) (Encode to) nonce amount L (sp_ledger r) HL Ha Hr).
Qed.

(** The nonces of the calls of account [k], in the order of the block, and what
    the block pays to [k]. *)
Fixpoint calls (k : string) (txs : list Transaction) : list Z :=
  match txs with
  | [] => []
  | tx :: rest =>
      match decode_op tx with
      | Some _ =>
          if decide (Encode (caller_of tx) = k) then td_Nonce (tx_InnerData tx) :: calls k rest else calls k rest
      | None => calls k rest
      end
  end.

Fixpoint block_gain (gen : bytes) (k : string) (txs : list Transaction) : Z :=
  match txs with
  | [] => 0
  | tx :: rest =>
      match decode_op tx with
      | Some o => op_gain gen (caller_of tx) o k
      | None => 0
      end + block_gain gen k rest
  end.

Lemma account_wf L k : wf_ledger L -> in_u64 (st_Nonce (account L k)).
Proof. intros HL. apply (wf_ledger_lookup L k HL). Qed.

Lemma block_effect db gen txs : forall ex L txs' ex' L',
  wf_ledger L -> all_succeed db gen txs L -> spec_block db gen txs ex L = Some (txs', ex', L') ->
  forall k, consecutive (st_Nonce (account L k)) (calls k txs)
    /\ account L' k = mkAccountState (u64 (st_Nonce (account L k) + len (calls k txs)))
                        (st_Balance (account L k) + block_gain gen k txs).
Proof.
  induction txs as [|tx txs IH]; intros ex L txs' ex' L' HL Hs; cbn [spec_block all_succeed calls block_gain] in *.
  { intros [= <- <- <-] k. split; [done|]. apply account_eq; [|lia].
    unfold len. cbn. by rewrite Z.add_0_r, u64_small by (by apply account_wf). }
  unfold spec_tx. destruct (decode_op tx) as [o|] eqn:Eo.
  - apply decode_op_verified in Eo as [Ha _]. destruct Hs as [He Hs].
    destruct (spec_op_effect gen (caller_of tx) (td_Nonce (tx_InnerData tx)) o L HL Ha He) as (Hn & HL1 & Hm).
    destruct (spec_op _ _ _ _ _) as [other r]. cbn [snd] in *. unfold spec_finish. rewrite He.
    destruct (spec_block _ _ _ _ _) as [[[txs2 ex2] L2]|] eqn:E2; [|done]. intros [= <- <- <-] k.
    destruct (IH _ _ _ _ _ HL1 Hs E2 k) as [Hc Hk]. rewrite (Hm k) in Hc, Hk. cbn [st_Nonce st_Balance] in *.
    unfold op_gain. destruct (decide (Encode (caller_of tx) = k)) as [<-|Hne].
    + split; [by split|]. rewrite Hk, u64_add_l. unfold len. cbn [length]. f_equal; [f_equal|]; lia.
    + split; [done|]. rewrite Hk. f_equal. lia.
  - destruct (spec_block _ _ _ _ _) as [[[txs2 ex2] L2]|] eqn:E2; [|done]. intros [= <- <- <-] k.
    apply (IH _ _ _ _ _ HL Hs E2).
Qed.

Lemma calls_length k txs : len (calls k txs) <= len txs.
Proof.
  unfold len. induction txs as [|tx txs IH]; [done|]. cbn [calls]. destruct (decode_op tx); [case_decide|]; cbn [length]; lia.
Qed.

Lemma in_calls txs tx : tx ∈ txs -> decode_op tx <> None ->
  td_Nonce (tx_InnerData tx) ∈ calls (Encode (caller_of tx)) txs.
Proof.
  induction txs as [|tx0 txs IH]; [by intros ?%elem_of_nil|]. intros [->|Hin]%elem_of_cons Ho; cbn [calls].
  - destruct (decode_op tx0); [|done]. rewrite decide_True by done. by left.
  - destruct (decode_op tx0); [case_decide; [right|]|]; by apply IH.
Qed.
End effects.

(** * Property *)

(** C4: what a block none of whose transactions fails does, account by account:
    its balance changes by what the transactions of the block pay it, its nonce
    goes up by the number of calls it made, and these came in the order of
    their nonces, without a gap or a repetition.  So no transaction of the block
    can succeed again afterwards. *)
Theorem Execute_effect `{Sha3, Base58, ExpSlices, MapOrder, Bolt, !ExpSlicesLaws, !Base58Laws}
  x gen txs txs' keys x1 :
  settled x gen -> Forall sender_ok txs -> all_succeed (xdb x) gen txs (xledger x) ->
  Execute txs x = (Done (txs', Ok keys), x1) ->
  (forall k, consecutive (st_Nonce (account (xledger x) k)) (calls k txs)
    /\ account (xledger x1) k
       = mkAccountState (u64 (st_Nonce (account (xledger x) k) + len (calls k txs)))
           (st_Balance (account (xledger x) k) + block_gain gen k txs))
  /\ (len txs < 2 ^ 64 -> forall tx, tx ∈ txs -> decode_op tx <> None ->
      ~ all_succeed (xdb x) gen [tx] (xledger x1)).
Proof.
  intros Hx Hf Hs Hrun. destruct (Execute_inv _ _ _ _ _ _ Hx Hf Hrun) as (ex & -> & _ & _ & _ & _ & Hb).
  pose proof (se_wf _ _ Hx) as HL.
  pose proof (block_effect _ _ _ _ _ _ _ _ HL Hs Hb) as Heff. split; [exact Heff|].
  destruct (spec_block_conserves _ _ _ _ _ _ _ _ HL Hs Hb) as [_ HL1].
  intros Hlen tx Hin Ho. cbn [all_succeed]. destruct (decode_op tx) as [o|] eqn:Eo; [|done]. intros [He _].
  destruct (decode_op_verified _ _ Eo) as [Ha _].
  destruct (spec_op_effect gen (caller_of tx) (td_Nonce (tx_InnerData tx)) o _ HL1 Ha He) as (Hn & _).
  destruct (Heff (Encode (caller_of tx))) as [Hc Hk]. rewrite Hk in Hn. cbn [st_Nonce] in Hn.
  revert Hn. apply consecutive_used; [by apply account_wf|exact Hc| |].
  - pose proof (calls_length (Encode (caller_of tx)) txs). lia.
  - apply in_calls; [done|congruence].
Qed.

Section replay_runs.
Import Toy.

(** Alice pays Bob and Carol. *)
Lemma Execute_effect_witness :
  match Execute good_block node with
  | (Done (txs', Ok keys), x1) =>
      account (xledger x1) (Encode alice) = mkAccountState 5 10
      /\ account (xledger x1) (Encode bob) = mkAccountState 0 60
      /\ ~ all_succeed (xdb node) gen_key [signed_transfer 3 60 bob] (xledger x1)
  | _ => False
  end.
Proof.
  assert (returned (fst (Execute good_block node)) = true) as K by (vm_compute; reflexivity).
  destruct (Execute good_block node) as [[[txs' [keys|e]]|w|w] x1] eqn:Erun; try discriminate K.
  destruct (Execute_effect node gen_key good_block txs' keys x1 node_settled good_senders) as [Hk Hr].
  - vm_compute. repeat (split; [reflexivity|]). exact I.
  - exact Erun.
  - split; [|split].
    + destruct (Hk (Encode alice)) as [_ ->]. vm_compute. reflexivity.
    + destruct (Hk (Encode bob)) as [_ ->]. vm_compute. reflexivity.
    + apply Hr; [reflexivity|left; reflexivity|]. vm_compute. discriminate.
Defined.
End replay_runs.
