(* ===== verification/Supply.v ===== *)
(** The supply of money over the life of a node: blocks that are made final
    move it between accounts, blocks that are rejected do not count. *)
From S2P Require Import Prelude Json JsonLaws Common External Merkle Accounts Txs Blocks Rpc Memory.
From S2P Require Import MemoryFacts Ledger Storage StorageFacts Executers ExecuterFacts BlockExec Settlement.
From S2P Require Import ExecutionProps Replay.
Open Scope Z_scope.

(** ** Totals *)
Lemma total_delete L k : total L = total (delete k L) + st_Balance (account L k).
Proof.
  unfold account. destruct (L !! k) as [s|] eqn:E.
  - rewrite <- (insert_delete_id L k s E) at 1.
    rewrite total_insert_new by apply lookup_delete_eq. cbn. lia.
  - rewrite delete_id by done. cbn. lia.
Qed.

(** Absent accounts count as empty ones. *)
Lemma total_ext L L' : (forall k, account L k = account L' k) -> total L = total L'.
Proof.
  revert L'. induction L as [|k s L Hk IH] using map_ind; intros L' He.
  - rewrite total_empty. induction L' as [|k s L' Hk IH] using map_ind; [done|].
    rewrite total_insert_new by done. rewrite <- IH.
    + specialize (He k). unfold account in He. rewrite lookup_insert_eq, lookup_empty in He. cbn in He. by subst s.
    + intros k'. specialize (He k'). unfold account in *. rewrite lookup_empty in *.
      destruct (decide (k = k')) as [<-|Hne]; [by rewrite Hk|by rewrite lookup_insert_ne in He].
  - rewrite (total_delete L' k), <- He, total_insert_new by done. unfold account at 1. rewrite lookup_insert_eq. cbn [default id].
    rewrite (IH (delete k L')); [lia|]. intros k'. specialize (He k'). unfold account in *.
    destruct (decide (k = k')) as [<-|Hne]; [by rewrite Hk, lookup_delete_eq|].
    by rewrite lookup_insert_ne in He; [rewrite lookup_delete_ne|].
Qed.

Section supply.
Context `{Sha3, Base58, ExpSlices, MapOrder, Bolt, !ExpSlicesLaws, !Base58Laws}.

(** ** Every account of the memory is that of a public key *)
Definition keyed (L : Ledger) : Prop := forall k, is_Some (L !! k) -> exists pk, is_key pk /\ k = Encode pk.

Lemma keyed_tame a b L L' : is_key a -> is_key b -> tame (Encode a) (Encode b) L L' -> keyed L -> keyed L'.
Proof.
  intros Ka Kb [F _ _] HL k Hk. destruct (decide (k = Encode a)) as [->|Ha]; [by exists a|].
  destruct (decide (k = Encode b)) as [->|Hb]; [by exists b|]. rewrite F in Hk by done. by apply HL.
Qed.

Lemma keyed_fetched db pks L : Forall is_key pks -> keyed L -> keyed (put_all (encoded (fetched db pks)) L).
Proof.
  unfold put_all, encoded, fetched. revert L. induction pks as [|pk pks IH]; intros L Hk HL; [done|].
  apply Forall_cons in Hk as [Kpk Hk]. apply (IH _ Hk). intros k Hs.
  cbn [map fst snd] in Hs. destruct (decide (Encode pk = k)) as [<-|Hne]; [by exists pk|].
  rewrite lookup_insert_ne in Hs by done. by apply HL.
Qed.

Lemma keyed_tx db gen tx ex L tx' ex' L' : is_key gen -> is_key (caller_of tx) ->
  spec_tx db gen tx ex L = Some (tx', ex', L') -> keyed L -> keyed L'.
Proof.
  intros Kg Kc. unfold spec_tx. destruct (decode_op tx) as [o|] eqn:Eo; [|by intros [= <- <- <-]].
  pose proof (spec_op_key gen (caller_of tx) (td_Nonce (tx_InnerData tx)) o L tx Eo Kg) as Ko.
  destruct (decode_op_verified _ _ Eo) as [Ha _].
  pose proof (spec_op_tame gen (caller_of tx) (td_Nonce (tx_InnerData tx)) o L Ha) as Ht.
  destruct (spec_op _ _ _ _ _) as [other r]. cbn [fst] in Ko. destruct Ht as [Ht _]. unfold spec_finish.
  intros Hr HL. pose proof (keyed_tame _ _ _ _ Kc Ko Ht HL) as HL'.
  destruct (sp_err r); [destruct (sp_unread r); [done|]|]; injection Hr as <- <- <-; [|exact HL'].
  apply keyed_fetched; [by apply touched_keys|exact HL'].
Qed.

Lemma keyed_block db gen txs : forall ex L txs' ex' L', is_key gen -> Forall (fun tx => is_key (caller_of tx)) txs ->
  spec_block db gen txs ex L = Some (txs', ex', L') -> keyed L -> keyed L'.
Proof.
  induction txs as [|tx txs IH]; intros ex L txs' ex' L' Kg Hf; cbn [spec_block]; [by intros [= <- <- <-]|].
  apply Forall_cons in Hf as [Kc Hf]. destruct (spec_tx db gen tx ex L) as [[[tx1 ex1] L1]|] eqn:E1; [|done].
  destruct (spec_block db gen txs ex1 L1) as [[[txs2 ex2] L2]|] eqn:E2; [|done]. intros [= <- <- <-] HL.
  eapply IH; [done|done|exact E2|]. exact (keyed_tx _ _ _ _ _ _ _ _ Kg Kc E1 HL).
Qed.

(** ** Settled nodes over one database have the same accounts *)
Lemma settled_accounts x y gen gen' : settled x gen -> settled y gen' -> xdb x = xdb y ->
  keyed (xledger x) -> keyed (xledger y) -> forall k, account (xledger x) k = account (xledger y) k.
Proof.
  intros Hx Hy Hdb Kx Ky k. unfold account.
  destruct (decide (is_Some (xledger x !! k) \/ is_Some (xledger y !! k))) as [Hk|Hk].
  - assert (exists pk, is_key pk /\ k = Encode pk) as (pk & Kpk & ->) by (destruct Hk; [by apply Kx|by apply Ky]).
    pose proof (se_agree _ _ Hx pk Kpk) as Ax. pose proof (se_agree _ _ Hy pk Kpk) as Ay. unfold agree in *.
    by rewrite Ax, Ay, Hdb.
  - destruct (xledger x !! k); [exfalso; eauto|]. destruct (xledger y !! k); [exfalso; eauto|done].
Qed.

(** ** The life of a node, block by block *)

(** A block of verified transactions is executed and then made final, in which
    case none of its transactions failed, or rejected. *)
Inductive block_settled : Executer -> Executer -> Prop :=
| settle_final gen txs txs' keys x x1 x2 :
    Forall sender_ok txs -> all_succeed (xdb x) gen txs (xledger x) -> faucet_generator x = Some gen ->
    Execute txs x = (Done (txs', Ok keys), x1) -> (length keys <= 11)%nat ->
    waitForFinality true keys x1 = (Done None, x2) -> block_settled x x2
| settle_rejected_block txs txs' keys x x1 x2 :
    Forall sender_ok txs ->
    Execute txs x = (Done (txs', Ok keys), x1) -> (length keys <= 11)%nat ->
    waitForFinality false keys x1 = (Done None, x2) -> block_settled x x2.

Lemma Execute_keyed x gen txs txs' keys x1 : settled x gen -> Forall sender_ok txs ->
  Execute txs x = (Done (txs', Ok keys), x1) -> keyed (xledger x) -> keyed (xledger x1).
Proof.
  intros Hx Hf Hrun. destruct (Execute_inv _ _ _ _ _ _ Hx Hf Hrun) as (ex & _ & _ & _ & _ & _ & Hb).
  eapply keyed_block; [apply (se_gen _ _ Hx)| |exact Hb].
  eapply Forall_impl; [exact Hf|]. apply sender_ok_caller.
Qed.

Lemma rejects_keyed x gen ex x2 : pending x gen ex -> (length ex <= 11)%nat ->
  waitForFinality false (map Some ex) x = (Done None, x2) -> keyed (xledger x) -> keyed (xledger x2).
Proof.
  intros [[Q1 Q2 Q3 Q4] Hg Hs [I1 I2 I3]] Hl Hw HL.
  assert (Forall is_key ex) as Kex by (apply Forall_forall; intros pk Hpk; by apply I3).
  destruct (FetchAccounts_spec ex (exe_env x) Q1 Q2 Q3 Q4 Kex Hl) as (s' & Hr & _ & _ & HLs & _).
  unfold waitForFinality, revert in Hw. rewrite (bind_done _ _ _ _ _ (in_env_done _ _ _ _ Hr)) in Hw.
  injection Hw as <-. change (keyed (ledger s')). rewrite HLs. by apply keyed_fetched.
Qed.

Lemma block_settled_keeps `{!BoltLaws} x y gen : (forall db, bolt_commit db = None) -> block_settled x y ->
  settled x gen -> keyed (xledger x) ->
  settled y gen /\ keyed (xledger y) /\ total (xledger y) = total (xledger x).
Proof.
  intros Hc Hs Hx HL. destruct Hs as [gen' txs txs' keys x x1 x2 Hf Hall Hg Hrun Hlen Hw|txs txs' keys x x1 x2 Hf Hrun Hlen Hw].
  - assert (gen' = gen) as -> by (destruct (se_gen _ _ Hx); congruence).
    pose proof (Execute_keyed _ _ _ _ _ _ Hx Hf Hrun HL) as HL1.
    destruct (Execute_inv _ _ _ _ _ _ Hx Hf Hrun) as (ex0 & _ & _ & _ & _ & _ & Hb).
    destruct (spec_block_conserves _ _ _ _ _ _ _ _ (se_wf _ _ Hx) Hall Hb) as [Ht _].
    destruct (Execute_pending _ _ _ _ _ _ Hx Hf Hrun) as (ex & -> & Hp & _). rewrite length_map in Hlen.
    destruct (finality_accepts x1 gen ex Hc Hp Hlen) as (x3 & Hr & Hs3 & HL3 & _). rewrite Hw in Hr. injection Hr as <-.
    rewrite HL3. by split_and!.
  - pose proof (Execute_keyed _ _ _ _ _ _ Hx Hf Hrun HL) as HL1.
    destruct (Execute_pending _ _ _ _ _ _ Hx Hf Hrun) as (ex & -> & Hp & Hdb & _). rewrite length_map in Hlen.
    destruct (finality_rejects x1 gen ex Hp Hlen) as (x3 & Hr & Hs3 & Hdb3 & _). rewrite Hw in Hr. injection Hr as <-.
    pose proof (rejects_keyed _ _ _ _ Hp Hlen Hw HL1) as HL2. split_and!; [done|done|].
    apply total_ext. eapply settled_accounts; [done|exact Hx|congruence|done|done].
Qed.
End supply.

(** * Property *)

(** C3: the supply of money is constant: over any number of blocks, made final
    when none of their transactions failed or rejected whatever they did, the
    node returns to its settled state, in which memory and database agree and
    no account exceeds what was issued, every account in memory is that of a
    public key, and the total of all balances is what it was. *)
Theorem supply_constant `{Sha3, Base58, ExpSlices, MapOrder, Bolt, !ExpSlicesLaws, !Base58Laws, !BoltLaws} x y gen :
  (forall db, bolt_commit db = None) -> settled x gen -> keyed (xledger x) -> rtc block_settled x y ->
  settled y gen /\ keyed (xledger y) /\ total (xledger y) = total (xledger x).
Proof.
  intros Hc Hx HL Hr. induction Hr as [x|x z y Hs _ IH]; [by split_and!|].
  destruct (block_settled_keeps _ _ _ Hc Hs Hx HL) as (Hz & HLz & Ht).
  destruct (IH Hz HLz) as (Hy & HLy & Hty). split_and!; [done|done|congruence].
Qed.

Section supply_runs.
Import Toy.

Lemma node_keyed : keyed (xledger node).
Proof.
  assert (map_Forall (fun k _ => k ∈ map Encode [alice; bob; carol; gen_key]) (xledger node)) as Hall
    by (apply (bool_decide_unpack _); vm_compute; exact I).
  intros k [s Hs]. specialize (Hall k s Hs). apply list_elem_of_fmap in Hall as (pk & -> & Hin).
  exists pk. split; [|done]. clear Hs. revert pk Hin. apply Forall_forall. repeat constructor.
Qed.

(** Execute a block and settle it. *)
Definition settles (ok : bool) (txs : list Transaction) (x : Executer) : bool :=
  match Execute txs x with
  | (Done (_, Ok keys), x1) =>
      match waitForFinality ok keys x1 with (Done None, _) => (length keys <=? 11)%nat | _ => false end
  | _ => false
  end.

(** Two transfers are made final. *)
Lemma supply_constant_witness : exists x y,
  block_settled node x /\ total (xledger y) = 1100 /\ rtc block_settled node y.
Proof.
  assert (settles true good_block node = true) as K by (vm_compute; reflexivity). unfold settles in K.
  destruct (Execute good_block node) as [[[txs' [keys|e]]|w|w] x1] eqn:Erun; try discriminate K.
  destruct (waitForFinality true keys x1) as [[[e|]|w|w] y] eqn:Ew; try discriminate K. apply Nat.leb_le in K.
  assert (block_settled node y) as Hy.
  { eapply (settle_final gen_key); [exact good_senders| |reflexivity|exact Erun|exact K|exact Ew].
    vm_compute. repeat (split; [reflexivity|]). exact I. }
  assert (rtc block_settled node y) as Hr by (eapply rtc_l; [exact Hy|apply rtc_refl]).
  destruct (supply_constant node y gen_key ltac:(reflexivity) node_settled node_keyed Hr) as (_ & _ & Ht).
  exists y, y. split; [exact Hy|]. split; [|exact Hr]. rewrite Ht. vm_compute. reflexivity.
Defined.
End supply_runs.
