(* ===== verification/Producer.v ===== *)
(** Package [executers], part two: making and checking blocks
    (executers/block_producer.go).

    The operations run on the executer; [bc] is what [BlockchainInfo] reports
    and [w] the node's wallet.  The finality channel is represented by the
    executed keys its goroutine holds, as for [Execute].  Execution updates
    the transactions of the block in place, so the bundle of a new block holds
    the updated ones. *)
From S2P Require Import Prelude Json JsonLaws Common External Merkle Accounts Txs Blocks Rpc Memory.
From S2P Require Import Storage Executers.
Open Scope Z_scope.

Section producer.
Context `{Sha3, Ed25519, Base58, ExpSlices, MapOrder, Bolt}.

(** [now] is [time.Now().Unix()]. *)
Definition BlockProducer_NewBlock (now : Z) (bc : Blockchain) (w : Wallet)
  : M Executer (result (Block * publicKeys)) :=
  let* x := get in
  let* txsInBlock := lift (GetTxsForBlock (env_mem (exe_env x))) in
  let* r := Execute (default [] txsInBlock) in
  let '(executedTxs, res) := r in
  let bundle := mkTxBundle (match txsInBlock with Some _ => Some executedTxs | None => None end) in
  match res with
  | Err e => ret (Err e)
  | Ok finCh =>
      let* st := mem GetStateHash in
      match st with
      | Err e => ret (Err e)
      | Ok state =>
          let blk := NewBlock now (nextHeight bc) (Wallet_PublicKey w) bundle
                       (previousBlockHash bc) state in
          let* hashed := lift (HashBlock blk) in
          match hashed with
          | Err e => ret (Err e)
          | Ok blk =>
              let* sig := lift (Wallet_SignRaw w (bi_Hash (Info blk))) in
              ret (Ok (set_Block_Signature sig blk, finCh))
          end
      end
  end.

(** Check height and previous hash. *)
Definition CheckBlockInfo (bc : Blockchain) (blk : Block) : bool :=
  if negb (bi_Height (Info blk) =? nextHeight bc) then false
  else if negb (bytes_Equal (PreviousBlockHash blk) (previousBlockHash bc)) then false
  else true.

(** Check state. *)
Definition CheckStateHash (blk : Block) : M Executer (result (bool * gobytes)) :=
  let* r := mem GetStateHash in
  match r with
  | Err e => ret (Err e)
  | Ok stateHash =>
      if negb (bytes_Equal stateHash (StateHash blk)) then ret (Ok (false, stateHash))
      else ret (Ok (true, stateHash))
  end.

(** Check hash. *)
Definition CheckBlockHash (bc : Blockchain) (blk : Block) (stateHash : gobytes)
  : outcome (result bool) :=
  let^ r := HashTransactions (Bundle blk) in
  match r with
  | Err e => Done (Err e)
  | Ok txHash =>
      let add := raw txHash ++ raw (previousBlockHash bc) ++ raw stateHash in
      if negb (bytes_Equal (bi_Hash (Info blk)) (Some (Sum256 add))) then Done (Ok false)
      else Done (Ok true)
  end.

(** The bundle of a block after its transactions were executed in place. *)
Definition set_Transactions (l : list Transaction) (b : Block) : Block :=
  mkBlock (Info b)
    (mkTxBundle (match Transactions (Bundle b) with Some _ => Some l | None => None end))
    (PreviousBlockHash b) (StateHash b).

(** The verdict, the finality channel and the error; with the block, whose
    transactions have been updated. *)
Definition BlockProducer_Verify (bc : Blockchain) (blk : Block)
  : M Executer (bool * option publicKeys * option error * Block) :=
  if negb (CheckBlockInfo bc blk) then ret (false, None, None, blk)
  else
    let* r := Execute (default [] (Transactions (Bundle blk))) in
    let '(executedTxs, res) := r in
    let blk := set_Transactions executedTxs blk in
    match res with
    | Err e => ret (false, None, None, blk)
    | Ok finalizeCh =>
        let* st := CheckStateHash blk in
        match st with
        | Err e => ret (false, Some finalizeCh, Some e, blk)
        | Ok (ok, state) =>
            if negb ok then ret (false, Some finalizeCh, None, blk)
            else
              let* h := lift (CheckBlockHash bc blk state) in
              match h with
              | Err e => ret (false, Some finalizeCh, Some e, blk)
              | Ok ok =>
                  if negb ok then ret (false, Some finalizeCh, None, blk)
                  else ret (true, Some finalizeCh, None, blk)
              end
        end
    end.
End producer.
