(* ===== verification/ProducerProps.v ===== *)
(** Producers and verifiers agree: what [NewBlock] makes, [Verify] accepts on
    any node in the same state, and what it accepts has the hashes it claims. *)
From S2P Require Import Prelude Json JsonLaws Common External Merkle Accounts Txs Blocks Rpc Memory.
From S2P Require Import MemoryFacts MempoolFacts StateHash Ledger Storage StorageFacts Executers.
From S2P Require Import ExecuterFacts BlockExec Settlement ExecutionProps Producer.
Open Scope Z_scope.

Section facts.
Context `{Sha3, Ed25519, Base58, ExpSlices, MapOrder, Bolt, !ExpSlicesLaws, !Base58Laws}.

(** Execution depends on the database through the states it stores, and on a
    transaction through its data; executed transactions run the same way. *)
Lemma spec_block_replay db db' gen : (forall pk, is_key pk -> stored db' pk = stored db pk) -> is_key gen ->
  forall txs ex L txs' ex' L', Forall sender_ok txs ->
  spec_block db gen txs ex L = Some (txs', ex', L') ->
  spec_block db' gen txs' ex L = Some (txs', ex', L').
Proof.
  intros Hst Kg. assert (forall pks, Forall is_key pks -> fetched db' pks = fetched db pks) as Hf.
  { intros pks Hk. unfold fetched. induction Hk as [|pk pks Kpk _ IH]; cbn; [done|]. by rewrite IH, Hst. }
  induction txs as [|tx txs IH]; intros ex L txs' ex' L' Hs; cbn [spec_block].
  { by intros [= <- <- <-]. }
  apply Forall_cons in Hs as [Hs Hss].
  destruct (spec_tx db gen tx ex L) as [[[tx1 ex1] L1]|] eqn:E1; [|done].
  destruct (spec_block db gen txs ex1 L1) as [[[txs2 ex2] L2]|] eqn:E2; [|done].
  intros [= <- <- <-]. cbn [spec_block].
  assert (spec_tx db' gen tx1 ex L = Some (tx1, ex1, L1)) as ->.
  { assert (decode_op tx1 = decode_op tx /\ caller_of tx1 = caller_of tx
      /\ tx_InnerData tx1 = tx_InnerData tx /\ (decode_op tx <> None -> set_Status true tx1 = tx1)) as (D & C & I & S).
    { unfold spec_tx in E1. destruct (decode_op tx) as [o|] eqn:Eo.
      - destruct (spec_op _ _ _ _ _) as [other r]. unfold spec_finish in E1.
        assert (tx1 = set_Status true tx) as -> by (destruct (sp_err r); [destruct (sp_unread r)|]; congruence).
        by split_and!.
      - injection E1 as <- <- <-. by rewrite Eo. }
    unfold spec_tx in *. rewrite D, C, I. destruct (decode_op tx) as [o|] eqn:Eo; [|by injection E1 as <- <- <-].
    pose proof (spec_op_key gen (caller_of tx) (td_Nonce (tx_InnerData tx)) o L tx Eo Kg) as Ko.
    destruct (spec_op _ _ _ _ _) as [other r]. cbn [fst] in Ko. unfold spec_finish in *.
    rewrite Hf, S by (done || by apply touched_keys; [apply sender_ok_caller|]).
    destruct (sp_err r); [destruct (sp_unread r); [done|]|]; by injection E1 as <- <- <-. }
  by rewrite (IH _ _ _ _ _ Hss E2).
Qed.

(** What a returned block went through. *)
Lemma NewBlock_inv now bc w x blk keys x' :
  BlockProducer_NewBlock now bc w x = (Done (Ok (blk, keys)), x') ->
  exists txs txs' x1 st h sig,
    GetTxsForBlock (xmem x) = Done (Some txs)
    /\ Execute txs x = (Done (txs', Ok keys), x1)
    /\ mem GetStateHash x1 = (Done (Ok st), x')
    /\ HashTransactions (mkTxBundle (Some txs')) = Done (Ok h)
    /\ let hash := Some (Sum256 (raw h ++ raw (previousBlockHash bc) ++ raw st)) in
       Wallet_SignRaw w hash = Done sig
       /\ blk = mkBlock (mkBlockInfo (nextHeight bc) hash sig (Wallet_PublicKey w) now)
                  (mkTxBundle (Some txs')) (previousBlockHash bc) st.
Proof.
  unfold BlockProducer_NewBlock, bind at 1, get. unfold bind at 1, lift at 1.
  change (env_mem (exe_env x)) with (xmem x).
  destruct (GetTxsForBlock (xmem x)) as [o|w'|w']; [|done..].
  unfold bind at 1. destruct (Execute (default [] o) x) as [[[txs' [ks|e]]|w'|w'] x1] eqn:Ex; try done.
  unfold bind at 1. destruct (mem GetStateHash x1) as [[[st|e]|w'|w'] x2] eqn:Eg; try done.
  unfold bind at 1, lift at 1. rewrite HashBlock_run. unfold NewBlock. cbn [Bundle PreviousBlockHash StateHash].
  destruct o as [txs|]; [|done]. cbn [default id] in Ex.
  destruct (HashTransactions _) as [[h|e]|w'|w'] eqn:Eh; try done. cbn [outcome_bind result_bind].
  unfold bind at 1, lift at 1. cbn [set_Block_Hash Info bi_Hash].
  destruct (Wallet_SignRaw w _) as [sig|w'|w'] eqn:Es; try done. intros [= <- <- <-].
  exists txs, txs', x1, st, h, sig. by split_and!.
Qed.

Lemma CheckBlockInfo_true bc blk : bi_Height (Info blk) = nextHeight bc ->
  raw (PreviousBlockHash blk) = raw (previousBlockHash bc) -> CheckBlockInfo bc blk = true.
Proof.
  intros Hh Hp. unfold CheckBlockInfo. rewrite Hh, Z.eqb_refl. cbn [negb].
  by rewrite (proj2 (bytes_Equal_spec _ _) Hp).
Qed.

Lemma CheckBlockInfo_inv bc blk : CheckBlockInfo bc blk = true ->
  bi_Height (Info blk) = nextHeight bc /\ raw (PreviousBlockHash blk) = raw (previousBlockHash bc).
Proof.
  unfold CheckBlockInfo. destruct (_ =? _) eqn:E; [|done]. cbn [negb].
  destruct (bytes_Equal _ _) eqn:E2; [|done]. intros _. split; [by apply Z.eqb_eq|by apply bytes_Equal_spec].
Qed.

(** A block whose parts check out is accepted. *)
Lemma Verify_accepts bc blk x txs txs' keys x1 st x2 h :
  CheckBlockInfo bc blk = true -> Transactions (Bundle blk) = Some txs ->
  Execute txs x = (Done (txs', Ok keys), x1) ->
  mem GetStateHash x1 = (Done (Ok st), x2) -> raw st = raw (StateHash blk) ->
  HashTransactions (mkTxBundle (Some txs')) = Done (Ok h) ->
  raw (bi_Hash (Info blk)) = Sum256 (raw h ++ raw (previousBlockHash bc) ++ raw st) ->
  BlockProducer_Verify bc blk x = (Done (true, Some keys, None, set_Transactions txs' blk), x2).
Proof.
  intros Hi Ht He Hs Hst Hh Hhash. unfold BlockProducer_Verify. rewrite Hi, Ht. cbn [negb default id].
  rewrite (bind_done _ _ _ _ _ He). cbv beta iota zeta.
  unfold CheckStateHash. rewrite bind_assoc, (bind_done _ _ _ _ _ Hs). cbv beta iota.
  cbn [set_Transactions StateHash]. rewrite (proj2 (bytes_Equal_spec st _) Hst). cbn [negb].
  rewrite bind_ret_l. cbv beta iota. cbn [negb]. unfold bind at 1, lift, CheckBlockHash, set_Transactions at 1.
  cbn [Bundle]. rewrite Ht, Hh. cbn [outcome_bind set_Transactions Info].
  assert (bytes_Equal (bi_Hash (Info blk)) (Some (Sum256 (raw h ++ raw (previousBlockHash bc) ++ raw st))) = true)
    as -> by (by apply bytes_Equal_spec). done.
Qed.

Lemma quiet_hash x s' : quiet x -> hash_leaves (xmem x) s' ->
  quiet (set_xmem s' x) /\ xledger (set_xmem s' x) = xledger x.
Proof.
  intros [Q1 Q2 Q3 Q4] [L1 L2 L3 L4]. split; [split|]; try done.
  unfold idle in *. cbn. by rewrite L4.
Qed.

(** Settled nodes with one ledger store the same states. *)
Lemma settled_stored x y gen : settled x gen -> settled y gen -> xledger x = xledger y ->
  forall pk, is_key pk -> stored (xdb y) pk = stored (xdb x) pk.
Proof.
  intros Hx Hy HL pk Kpk. rewrite <- (se_agree _ _ Hx pk Kpk), <- (se_agree _ _ Hy pk Kpk). by rewrite HL.
Qed.

(** A second node that executes the executed transactions follows the first. *)
Lemma Execute_replay x y gen txs txs' keys x1 :
  settled x gen -> settled y gen -> xledger x = xledger y -> Forall sender_ok txs ->
  Execute txs x = (Done (txs', Ok keys), x1) ->
  exists y1, Execute txs' y = (Done (txs', Ok keys), y1) /\ quiet y1 /\ xledger y1 = xledger x1.
Proof.
  intros Hx Hy HL Hf Hrun.
  destruct (Execute_inv _ _ _ _ _ _ Hx Hf Hrun) as (ex & -> & _ & _ & _ & _ & Hb).
  pose proof (spec_block_replay _ (xdb y) gen (settled_stored _ _ _ Hx Hy HL) (proj2 (se_gen _ _ Hx)) _ _ _ _ _ _ Hf Hb) as Hb'.
  assert (Forall sender_ok txs') as Hs.
  { apply spec_block_status in Hb. eapply Forall2_Forall_r; [exact Hb|].
    eapply Forall_impl; [exact Hf|]. cbn. intros tx (pk & Hpk & Kpk) tx' (Hd & _). exists pk. by rewrite Hd. }
  pose proof (execute_loop_spec gen txs' y newPublicKeys (se_quiet _ _ Hy) Hs (proj1 (se_gen _ _ Hy)) (proj2 (se_gen _ _ Hy))) as Hdone.
  rewrite <- HL, Hb' in Hdone. destruct Hdone as (y1 & Hr & Hq & HL1 & _).
  exists y1. rewrite Execute_run. by split_and!.
Qed.
(** The transactions of a block come from the pool. *)
Lemma Mempool_get_Forall `{!MapOrderLaws} (P : Transaction -> Prop) n pool l :
  map_Forall (fun _ tx => P tx) pool -> Mempool_get n pool = Some l -> Forall P l.
Proof.
  intros HP. assert (Forall P (maps_Values pool)) as Hv.
  { rewrite maps_Values_perm. apply Forall_forall. intros tx Hin.
    apply list_elem_of_fmap in Hin as ([k tx'] & -> & Hin). apply elem_of_map_to_list in Hin. by apply (HP k). }
  unfold Mempool_get. destruct (n <=? 0); [done|]. destruct (_ <? _); [done|].
  destruct (n =? 1); intros [= <-]; [done|]. apply Forall_take. by rewrite SortFunc_perm.
Qed.

Lemma GetTxsForBlock_Forall `{!MapOrderLaws} (P : Transaction -> Prop) s l :
  map_Forall (fun _ tx => P tx) (mempool s) -> GetTxsForBlock s = Done (Some l) -> Forall P l.
Proof.
  intros HP. unfold GetTxsForBlock, Mempool_GetTxsForBlock. destruct (_ =? 0); [done|].
  destruct (_ =? 1).
  - intros [= Hg]. by eapply Mempool_get_Forall.
  - destruct (LastPowerOf2 _); [|done..]. intros [= Hg]. by eapply Mempool_get_Forall.
Qed.

(** Verification ignores the status. *)
Lemma Transaction_Verify_ext tx tx' : tx_InnerData tx' = tx_InnerData tx -> tx_Hash tx' = tx_Hash tx ->
  Transaction_Verify tx' = Transaction_Verify tx.
Proof.
  intros Hd Hh. rewrite !Transaction_Verify_run. unfold CheckContents. by rewrite Hd, Hh.
Qed.
(** The state hash computed on an executer. *)
Lemma mem_hash_inv `{!Sha3Laws, !MapOrderLaws} x st x' :
  quiet x -> mem GetStateHash x = (Done (Ok st), x') ->
  GetStateHash (xmem x) = (Done (Ok st), xmem x') /\ Z.of_nat (size (xledger x)) <= 2 ^ 62
  /\ xledger x' = xledger x /\ length (raw st) = 32%nat.
Proof.
  intros Hq. unfold mem, in_env, in_mem, zoom. change (env_mem (exe_env x)) with (xmem x).
  destruct (GetStateHash (xmem x)) as [o s1] eqn:E. intros [= -> <-].
  pose proof (GetStateHash_size _ _ _ (q_wf _ Hq) E) as Hsz.
  destruct (GetStateHash_total (xmem x) (q_wf _ Hq) Hsz) as (h & s2 & E2 & [L2 _ _ _] & Hl).
  rewrite E in E2. injection E2 as <- <-. by split_and!.
Qed.

(** A new block passes the checks on messages. *)
Lemma new_block_verifies `{!Sha3Laws, !Ed25519Laws} now bc w txs h st sig :
  wallet_ok w -> 0 < now -> len (raw (previousBlockHash bc)) = HashSize -> length (raw st) = 32%nat ->
  Forall (fun tx => Transaction_Verify tx = Done (Ok true)) txs ->
  HashTransactions (mkTxBundle (Some txs)) = Done (Ok h) ->
  let hash := Some (Sum256 (raw h ++ raw (previousBlockHash bc) ++ raw st)) in
  Wallet_SignRaw w hash = Done sig ->
  Block_Verify (mkBlock (mkBlockInfo (nextHeight bc) hash sig (Wallet_PublicKey w) now)
    (mkTxBundle (Some txs)) (previousBlockHash bc) st) = Done true.
Proof.
  intros [seed Hk] Hnow Hprev Hst Hf Hh hash Hs. unfold GenerateKey in Hk. cbn [result_bind] in Hk.
  pose proof (length_public seed) as Lpub. pose proof (length_private seed) as Lpri.
  pose proof (verify_sign seed (raw hash)) as Hv.
  assert (length (raw hash) = 32%nat) as Lh by apply length_Sum256.
  destruct (ed_keygen seed) as [pri pub]. injection Hk as Hk. cbn [fst snd] in *.
  unfold Wallet_SignRaw, KeyPair_SignRaw, ed25519_Sign in Hs. rewrite <- Hk in Hs.
  unfold len in Hs. cbn [PrivateKey raw default id] in Hs. rewrite Lpri in Hs. injection Hs as <-.
  match goal with |- Block_Verify ?b = _ => destruct (Block_Verify_spec b) as (v & -> & Hiff) end.
  f_equal. apply Hiff. cbn [Bundle Transactions StateHash PreviousBlockHash Info].
  destruct txs as [|tx txs]; [done|]. split_and!.
  - by exists tx, txs.
  - unfold len. by rewrite Hst.
  - exact Hprev.
  - match goal with |- BlockInfo_Verify ?i = _ => destruct (BlockInfo_Verify_spec i) as (w' & -> & Hiff') end.
    f_equal. apply Hiff'. unfold wf_block_info, Wallet_PublicKey. rewrite <- Hk.
    cbn [bi_PublicKey bi_Hash bi_Signature bi_Timestamp PublicKey raw default id].
    subst hash. unfold len. cbn [raw default id] in Hv, Lh |- *.
    rewrite Lpub, length_sign, Lh. split; [lia|exact Hv].
Qed.

(** Hashing the ledger between execution and finality. *)
Lemma pending_hash `{!Sha3Laws, !MapOrderLaws} x gen ex st x' : pending x gen ex ->
  mem GetStateHash x = (Done (Ok st), x') ->
  pending x' gen ex /\ xdb x' = xdb x /\ xledger x' = xledger x /\ same_pool (xmem x) (xmem x').
Proof.
  intros [Q Hg Hs Hi] Hr. destruct (mem_hash_inv _ _ _ Q Hr) as (Hst & Hsz & HL & _).
  destruct (GetStateHash_total (xmem x) (q_wf _ Q) Hsz) as (h & s' & Hst' & Hl & _).
  rewrite Hst in Hst'. injection Hst' as -> Hs'.
  assert (x' = set_xmem s' x) as ->.
  { revert Hr. unfold mem, in_env, in_mem, zoom. change (env_mem (exe_env x)) with (xmem x).
    rewrite Hst, Hs'. by intros [= <-]. }
  split_and!; [split|..]; try done; [by apply quiet_hash| |apply (hl_pool _ _ Hl)].
  by rewrite HL.
Qed.

(** A new block and its way through another node with the same ledger. *)
Lemma new_block_accepted `{!Sha3Laws, !Ed25519Laws, !MapOrderLaws} now bc w xp xv gen blk keys xp' :
  settled xp gen -> settled xv gen -> xledger xp = xledger xv ->
  map_Forall (fun _ tx => Transaction_Verify tx = Done (Ok true)) (mempool (xmem xp)) ->
  wallet_ok w -> 0 < now -> len (raw (previousBlockHash bc)) = HashSize ->
  BlockProducer_NewBlock now bc w xp = (Done (Ok (blk, keys)), xp') ->
  Block_Verify blk = Done true
  /\ exists xv' ex, BlockProducer_Verify bc blk xv = (Done (true, Some keys, None, blk), xv')
      /\ keys = map Some ex /\ xledger xv' = xledger xp'
      /\ pending xp' gen ex /\ xdb xp' = xdb xp /\ same_pool (xmem xp) (xmem xp')
      /\ pending xv' gen ex /\ xdb xv' = xdb xv /\ same_pool (xmem xv) (xmem xv').
Proof.
  intros Hp Hv HL Hpool Hw Hnow Hprev Hnew.
  destruct (NewBlock_inv _ _ _ _ _ _ _ Hnew) as (txs & txs' & x1 & st & h & sig & Hg & Hex & Hst & Hh & Hs & ->).
  pose proof (GetTxsForBlock_Forall _ _ _ Hpool Hg) as Htv.
  assert (Forall sender_ok txs) as Hsend by (eapply Forall_impl; [exact Htv|apply sender_ok_verified]).
  destruct (Execute_inv _ _ _ _ _ _ Hp Hsend Hex) as (ex0 & _ & _ & _ & _ & _ & Hb).
  pose proof (spec_block_status _ _ _ _ _ _ _ _ Hb) as Hstat.
  destruct (Execute_pending _ _ _ _ _ _ Hp Hsend Hex) as (ex & -> & P1 & D1 & S1).
  destruct (Execute_replay _ _ _ _ _ _ _ Hp Hv HL Hsend Hex) as (y1 & Hy & Qy & HLy).
  assert (Forall sender_ok txs') as Hsend'.
  { eapply Forall2_Forall_r; [exact Hstat|]. eapply Forall_impl; [exact Hsend|].
    cbn. intros tx (pk & Hpk & Kpk) tx' (Hd & _). exists pk. by rewrite Hd. }
  destruct (Execute_pending _ _ _ _ _ _ Hv Hsend' Hy) as (ex' & Heq & P2 & D2 & S2).
  apply (inj (map Some)) in Heq as <-.
  destruct (mem_hash_inv _ _ _ (pe_quiet _ _ _ P1) Hst) as (Hs1 & Hsz & HL1 & Hl32).
  destruct (GetStateHash_same (xmem x1) (xmem y1) st _ (q_wf _ (pe_quiet _ _ _ P1)) (q_wf _ Qy) (eq_sym HLy) Hsz Hs1)
    as (s2 & Hs2 & [L2 _ _ _]).
  assert (mem GetStateHash y1 = (Done (Ok st), set_xmem s2 y1)) as Hst2 by (by apply mem_done).
  destruct (pending_hash _ _ _ _ _ P1 Hst) as (P1' & D1' & _ & S1').
  destruct (pending_hash _ _ _ _ _ P2 Hst2) as (P2' & D2' & _ & S2').
  split.
  - apply new_block_verifies; try done.
    eapply Forall2_Forall_r; [exact Hstat|].
    eapply Forall_impl; [exact Htv|]. cbn. intros tx Htx tx' (Hd & Hhash & _).
    by rewrite (Transaction_Verify_ext tx tx' Hd Hhash).
  - exists (set_xmem s2 y1), ex. split_and!; try done.
    + match goal with |- BlockProducer_Verify _ ?b _ = _ =>
        change b with (set_Transactions txs' b) at 2 end.
      eapply Verify_accepts; [by apply CheckBlockInfo_true|reflexivity|exact Hy| |done|exact Hh|done].
      exact Hst2.
    + change (ledger s2 = xledger xp'). rewrite L2, HL1. exact HLy.
    + by rewrite D1'.
    + exact (same_pool_trans _ _ _ S1 S1').
    + exact (same_pool_trans _ _ _ S2 S2').
Qed.
(** Making a block loses no account. *)
Lemma NewBlock_grown `{!Sha3Laws, !Ed25519Laws, !MapOrderLaws} now bc w x gen blk keys x' : settled x gen ->
  map_Forall (fun _ tx => Transaction_Verify tx = Done (Ok true)) (mempool (xmem x)) ->
  BlockProducer_NewBlock now bc w x = (Done (Ok (blk, keys)), x') -> grown (xledger x) (xledger x').
Proof.
  intros Hx Hpool Hnew.
  destruct (NewBlock_inv _ _ _ _ _ _ _ Hnew) as (txs & txs' & x1 & st & h & sig & Hg & Hex & Hst & _).
  assert (Forall sender_ok txs) as Hsend
    by (eapply Forall_impl; [exact (GetTxsForBlock_Forall _ _ _ Hpool Hg)|apply sender_ok_verified]).
  destruct (Execute_pending _ _ _ _ _ _ Hx Hsend Hex) as (ex & -> & P1 & _).
  destruct (mem_hash_inv _ _ _ (pe_quiet _ _ _ P1) Hst) as (_ & _ & HL & _).
  rewrite HL. by eapply Execute_grown.
Qed.

(** A node that executes a block whose verdict is [ok]. *)
Definition settle_block (ok : bool) (txs : list Transaction) (x : Executer) : option Executer :=
  match Execute txs x with
  | (Done (_, Ok keys), x1) =>
      match waitForFinality ok keys x1 with (Done None, x2) => Some x2 | _ => None end
  | _ => None
  end.

(** What a node did when it accepted a block. *)
Lemma Verify_inv `{!Sha3Laws, !MapOrderLaws} bc blk x gen fin err blk' x' :
  settled x gen -> Forall sender_ok (default [] (Transactions (Bundle blk))) ->
  BlockProducer_Verify bc blk x = (Done (true, fin, err, blk'), x') ->
  CheckBlockInfo bc blk = true /\ err = None
  /\ exists txs' keys x1 st h,
      Execute (default [] (Transactions (Bundle blk))) x = (Done (txs', Ok keys), x1)
      /\ fin = Some keys /\ xledger x' = xledger x1 /\ quiet x1
      /\ GetStateHash (xmem x1) = (Done (Ok st), xmem x') /\ raw st = raw (StateHash blk)
      /\ HashTransactions (Bundle blk') = Done (Ok h)
      /\ raw (bi_Hash (Info blk)) = Sum256 (raw h ++ raw (previousBlockHash bc) ++ raw st).
Proof.
  intros Hx Hf. unfold BlockProducer_Verify.
  destruct (CheckBlockInfo bc blk) eqn:Ei; [|done]. cbn [negb]. unfold bind at 1.
  destruct (Execute _ x) as [[[txs' [keys|e]]|w'|w'] x1] eqn:Ex; try done.
  destruct (Execute_inv _ _ _ _ _ _ Hx Hf Ex) as (ex & -> & Q1 & _).
  unfold CheckStateHash. rewrite bind_assoc. unfold bind at 1.
  destruct (mem GetStateHash x1) as [[[st|e]|w'|w'] x2] eqn:Eg; try done.
  destruct (mem_hash_inv _ _ _ Q1 Eg) as (Hs1 & _ & HL1 & _). cbn [StateHash set_Transactions].
  destruct (bytes_Equal st (StateHash blk)) eqn:Est; cbn [negb]; rewrite bind_ret_l; cbv beta iota; cbn [negb];
    [|done].
  unfold bind at 1, lift, CheckBlockHash.
  destruct (HashTransactions _) as [[h|e]|w'|w'] eqn:Eh; try done. cbn [outcome_bind Info set_Transactions].
  destruct (bytes_Equal (bi_Hash _) _) eqn:Eb; cbn [negb]; [|done]. intros [= <- <- <- <-].
  apply bytes_Equal_spec in Est, Eb. split_and!; try done.
  exists txs', (map Some ex), x1, st, h. by split_and!.
Qed.

Lemma keys_ok_grown L L' : keys_ok L -> grown L L' -> wf_ledger L' -> keys_ok L'.
Proof.
  intros K G W k v Hv. split; [by eapply wf_state_u64, W|].
  destruct (decide (k = Encode (Decode k) /\ is_key (Decode k))) as [[Hk Kk]|Hk]; [by exists (Decode k)|].
  destruct (G k) as [_ Gf]. rewrite Gf in Hv; [by apply (K k v)|].
  intros pk Kpk ->. apply Hk. by rewrite Decode_Encode.
Qed.

(** Two nodes of which only one has an account do not both accept a block that
    leaves the account alone. *)
Lemma entry_forks `{!Sha3Laws, !MapOrderLaws} bc blk x y gen pk fin err blk1 x' fin2 err2 blk2 y' :
  settled x gen -> settled y gen -> keys_ok (xledger x) -> keys_ok (xledger y) -> is_key pk ->
  (length (Decode fakeKey) < 32)%nat ->
  is_Some (xledger x !! Encode pk) -> xledger y !! Encode pk = None ->
  Forall sender_ok (default [] (Transactions (Bundle blk))) ->
  Forall (fun tx => ~ concerns gen pk tx) (default [] (Transactions (Bundle blk))) ->
  BlockProducer_Verify bc blk x = (Done (true, fin, err, blk1), x') ->
  BlockProducer_Verify bc blk y = (Done (true, fin2, err2, blk2), y') ->
  NextPowerOf2 (Z.of_nat (size (xledger x'))) = NextPowerOf2 (Z.of_nat (size (xledger y'))) ->
  exists txs1 keys1 x1 txs2 keys2 y1,
    Execute (default [] (Transactions (Bundle blk))) x = (Done (txs1, Ok keys1), x1)
    /\ Execute (default [] (Transactions (Bundle blk))) y = (Done (txs2, Ok keys2), y1)
    /\ collision (state_inputs (xmem x1)) (leaf_input (fakeKey, zero_state) :: state_inputs (xmem y1)).
Proof.
  intros Hx Hy Kx Ky Kpk Hfk Sx Ny Hs Hn Vx Vy Hd.
  destruct (Verify_inv _ _ _ _ _ _ _ _ Hx Hs Vx) as (_ & _ & t1 & k1 & x1 & st1 & _ & Ex & _ & Lx & Qx & Gx & Hst1 & _).
  destruct (Verify_inv _ _ _ _ _ _ _ _ Hy Hs Vy) as (_ & _ & t2 & k2 & y1 & st2 & _ & Ey & _ & Ly & Qy & Gy & Hst2 & _).
  exists t1, k1, x1, t2, k2, y1. split; [exact Ex|]. split; [exact Ey|].
  pose proof (Execute_untouched _ _ _ _ _ _ _ Hx Hs Hn Ex) as Ux.
  pose proof (Execute_untouched _ _ _ _ _ _ _ Hy Hs Hn Ey) as Uy.
  pose proof (Execute_grown _ _ _ _ _ _ Hx Hs Ex) as Wx. pose proof (Execute_grown _ _ _ _ _ _ Hy Hs Ey) as Wy.
  destruct (Execute_pending _ _ _ _ _ _ Hx Hs Ex) as (e1 & _ & Px & _).
  destruct (Execute_pending _ _ _ _ _ _ Hy Hs Ey) as (e2 & _ & Py & _).
  apply (GetStateHash_entry (xmem x1) (xmem y1) st1 st2 (xmem x') (xmem y') pk).
  - apply Qx.
  - apply Qy.
  - exact (keys_ok_grown _ _ Kx Wx (bi_wf _ _ _ (pe_inv _ _ _ Px))).
  - exact (keys_ok_grown _ _ Ky Wy (bi_wf _ _ _ (pe_inv _ _ _ Py))).
  - change (NextPowerOf2 (Z.of_nat (size (xledger x1))) = NextPowerOf2 (Z.of_nat (size (xledger y1)))).
    by rewrite <- Lx, <- Ly.
  - exact Gx.
  - exact Gy.
  - change (is_Some (xledger x1 !! Encode pk)). by rewrite Ux.
  - change (xledger y1 !! Encode pk = None). by rewrite Uy.
  - exact Hfk.
  - congruence.
Qed.

Lemma settle_rejected x gen txs x2 : settled x gen -> Forall sender_ok txs ->
  settle_block false txs x = Some x2 -> settled x2 gen /\ xdb x2 = xdb x.
Proof.
  intros Hx Hf. unfold settle_block. destruct (Execute txs x) as [[[txs' [keys|e]]|w|w] x1] eqn:E; try done.
  destruct (Execute_pending _ _ _ _ _ _ Hx Hf E) as (ex & -> & Hp & Hd & _).
  destruct (decide (length ex <= 11)%nat) as [Hl|Hl].
  - destruct (finality_rejects x1 gen ex Hp Hl) as (x2' & -> & Hs & Hd2 & _). intros [= <-]. split; [done|congruence].
  - destruct (FetchAccounts_overflow ex (exe_env x1)) as (w & e' & Hb).
    + destruct Hp as [[Q _ _ _] _ _ _]. unfold idle, xmem in Q. rewrite Q. cbn. unfold stateCh_room. lia.
    + apply Hp.
    + apply Forall_forall. intros pk Hpk. by apply Hp.
    + destruct Hp as [[Q _ _ _] _ _ _]. unfold idle, xmem in Q. rewrite Q. cbn. unfold stateCh_room. lia.
    + unfold waitForFinality, revert. by rewrite (bind_blocked _ _ _ _ _ (in_env_blocked _ _ _ _ Hb)).
Qed.
End facts.

(** * Properties *)
Section producer_properties.
Context `{Sha3, Ed25519, Base58, ExpSlices, MapOrder, Bolt}.
Context `{!Sha3Laws, !Ed25519Laws, !Base58Laws, !ExpSlicesLaws, !MapOrderLaws}.

(** C5: producers and verifiers agree: a block that [NewBlock] makes from a
    pool of verified transactions passes [Block.Verify], and any node with the
    same chain position and the same ledger accepts it in [Verify], executes
    it to the same ledger and waits for finality on the same accounts. *)
Theorem producer_verifier_agree now bc w xp xv gen blk keys xp' :
  settled xp gen -> settled xv gen -> xledger xp = xledger xv ->
  map_Forall (fun _ tx => Transaction_Verify tx = Done (Ok true)) (mempool (xmem xp)) ->
  wallet_ok w -> 0 < now -> len (raw (previousBlockHash bc)) = HashSize ->
  BlockProducer_NewBlock now bc w xp = (Done (Ok (blk, keys)), xp') ->
  Block_Verify blk = Done true
  /\ exists xv', BlockProducer_Verify bc blk xv = (Done (true, Some keys, None, blk), xv')
      /\ xledger xv' = xledger xp'.
Proof.
  intros Hp Hv HL Hpool Hw Hnow Hprev Hnew.
  destruct (new_block_accepted _ _ _ _ _ _ _ _ _ Hp Hv HL Hpool Hw Hnow Hprev Hnew)
    as (Hb & xv' & ex & Hr & _ & HLv & _). split; [exact Hb|]. by exists xv'.
Qed.

(** C6: what [Verify] accepts is what it claims to be: the block continues
    the chain, its transactions execute, its state hash is the hash of the
    ledger they lead to on this node, and its hash is the digest of the
    transactions, the previous hash and that state hash. *)
Theorem Verify_sound bc blk x gen fin err blk' x' :
  settled x gen -> Forall sender_ok (default [] (Transactions (Bundle blk))) ->
  BlockProducer_Verify bc blk x = (Done (true, fin, err, blk'), x') ->
  err = None
  /\ bi_Height (Info blk) = nextHeight bc
  /\ raw (PreviousBlockHash blk) = raw (previousBlockHash bc)
  /\ exists txs' keys x1 s' st h,
      Execute (default [] (Transactions (Bundle blk))) x = (Done (txs', Ok keys), x1)
      /\ fin = Some keys /\ xledger x' = xledger x1
      /\ GetStateHash (xmem x1) = (Done (Ok st), s') /\ raw st = raw (StateHash blk)
      /\ HashTransactions (Bundle blk') = Done (Ok h)
      /\ raw (bi_Hash (Info blk)) = Sum256 (raw h ++ raw (previousBlockHash bc) ++ raw st).
Proof.
  intros Hx Hf Hv.
  destruct (Verify_inv _ _ _ _ _ _ _ _ Hx Hf Hv) as (Hi & He & txs' & keys & x1 & st & h & Ex & Hfin & HL & _ & R).
  apply CheckBlockInfo_inv in Hi as [Hh Hp]. split_and!; try done.
  by exists txs', keys, x1, (xmem x'), st, h.
Qed.
(** C26: empty accounts fork the chain.  When a block entered an account that
    the ledger did not have, by an airdrop to it or by the revert of a failed
    payment, and is rejected, the node keeps that account as an empty one, with
    the database unchanged.  Another node [y] with the ledger from before the
    block, which did not execute it, does not have the account; and no later
    block that leaves the account alone is accepted by both nodes, as the
    state hash covers the empty account, unless two of the strings they hash
    collide (for state trees of one height). *)
Theorem empty_accounts_fork x y gen txs txs' keys x1 pk :
  settled x gen -> settled y gen -> xledger y = xledger x -> keys_ok (xledger x) ->
  Forall sender_ok txs -> Execute txs x = (Done (txs', Ok keys), x1) -> (length keys <= 11)%nat ->
  is_key pk -> xledger x !! Encode pk = None -> is_Some (xledger x1 !! Encode pk) ->
  (length (Decode fakeKey) < 32)%nat ->
  exists x2, waitForFinality false keys x1 = (Done None, x2) /\ settled x2 gen /\ xdb x2 = xdb x
    /\ xledger x2 !! Encode pk = Some zero_state
    /\ forall bc blk fin err blk1 x3 fin2 err2 blk2 y3,
      let txs2 := default [] (Transactions (Bundle blk)) in
      Forall sender_ok txs2 -> Forall (fun tx => ~ concerns gen pk tx) txs2 ->
      BlockProducer_Verify bc blk x2 = (Done (true, fin, err, blk1), x3) ->
      BlockProducer_Verify bc blk y = (Done (true, fin2, err2, blk2), y3) ->
      NextPowerOf2 (Z.of_nat (size (xledger x3))) = NextPowerOf2 (Z.of_nat (size (xledger y3))) ->
      exists ex x2' ey y',
        Execute txs2 x2 = (Done ex, x2') /\ Execute txs2 y = (Done ey, y')
        /\ collision (state_inputs (xmem x2')) (leaf_input (fakeKey, zero_state) :: state_inputs (xmem y')).
Proof.
  intros Hx Hy HL Kx Hf Hr Hl Kpk Hn Hs Hfk.
  pose proof (Execute_grown _ _ _ _ _ _ Hx Hf Hr) as G1.
  destruct (Execute_pending _ _ _ _ _ _ Hx Hf Hr) as (ex & -> & Hp & Hd & _). rewrite length_map in Hl.
  destruct (finality_rejects x1 gen ex Hp Hl) as (x2 & Hw & Hx2 & Hd2 & _ & G2).
  pose proof (transitivity G1 G2) as G. apply (proj1 (G2 (Encode pk))) in Hs.
  assert (xledger x2 !! Encode pk = Some zero_state) as Hz.
  { destruct (settled_same_states _ _ _ Hx Hx2 ltac:(congruence) G (Encode pk)) as [He|[_ He]]; [|done].
    rewrite He, Hn in Hs. by destruct Hs. }
  exists x2. split_and!; [done|done|congruence|done|].
  intros bc blk fin err blk1 x3 fin2 err2 blk2 y3 txs2 Hf2 Hc V1 V2 Hsz.
  destruct (entry_forks bc blk x2 y gen pk fin err blk1 x3 fin2 err2 blk2 y3)
    as (t1 & k1 & x4 & t2 & k2 & y4 & E1 & E2 & Hcol); try done.
  - exact (keys_ok_grown _ _ Kx G (se_wf _ _ Hx2)).
  - by rewrite HL.
  - by rewrite HL.
  - by exists (t1, Ok k1), x4, (t2, Ok k2), y4.
Qed.
End producer_properties.

(** *** Witnesses *)
Section producer_runs.
Import Toy.

(** The node of [ExecutionProps] with a block's worth of pending transactions. *)
Definition pooled (txs : list Transaction) : Executer :=
  set_xmem (set_mempool (foldr Mempool_Append ∅ txs) (xmem node)) node.

Definition demo_chain : Blockchain := mkBlockchain 5 0 5 (Some (replicate 32 x11)).

Lemma pooled_settled txs : settled (pooled txs) gen_key.
Proof. destruct node_settled as [[Q1 Q2 Q3 Q4] S2 S3 S4 S5]. split; [by split|..]; done. Qed.

Lemma pooled_ledger txs : xledger (pooled txs) = xledger node.
Proof. unfold pooled. generalize node. by intros [[s db] g]. Qed.

Definition verifies (tx : Transaction) : bool :=
  match Transaction_Verify tx with Done (Ok true) => true | _ => false end.

Lemma verifies_all txs : forallb verifies txs = true ->
  Forall (fun tx => Transaction_Verify tx = Done (Ok true)) txs.
Proof.
  intros Hf. apply List.Forall_forall. intros tx Hin. apply (proj1 (forallb_forall _ _) Hf) in Hin.
  unfold verifies in Hin. by repeat case_match; subst.
Qed.

Lemma pool_verified (p : gmap string Transaction) : forallb verifies (map_to_list p).*2 = true ->
  map_Forall (fun _ tx => Transaction_Verify tx = Done (Ok true)) p.
Proof.
  intros Hf%verifies_all k tx Hk%elem_of_map_to_list. rewrite Forall_fmap in Hf.
  apply (proj1 (Forall_forall _ _) Hf _ Hk).
Qed.

Definition u64_tx_b (tx : Transaction) : bool :=
  let d := tx_InnerData tx in
  (0 <=? td_Nonce d) && (td_Nonce d <? 2 ^ 64) && (0 <=? td_Timestamp d) && (td_Timestamp d <? 2 ^ 63).

Lemma pool_ready (p : gmap string Transaction) : forallb (fun tx => verifies tx && u64_tx_b tx) (map_to_list p).*2 = true ->
  map_Forall (fun _ tx => Transaction_Verify tx = Done (Ok true) /\ u64_tx tx) p.
Proof.
  intros Hf k tx Hk%elem_of_map_to_list. pose proof (proj1 (forallb_forall _ _) Hf tx) as Ht.
  apply (list_elem_of_fmap_2 snd) in Hk. apply list_elem_of_In in Hk. apply Ht in Hk.
  apply andb_true_iff in Hk as [Hv Hu]. split.
  - unfold verifies in Hv. by repeat case_match; subst.
  - unfold u64_tx_b in Hu. unfold u64_tx, u64_tx_data, in_u64, in_s64. lia.
Qed.

Definition u64_block_b (b : Block) : bool :=
  (0 <=? bi_Height (Info b)) && (bi_Height (Info b) <? 2 ^ 64) && (0 <=? bi_Timestamp (Info b))
  && (bi_Timestamp (Info b) <? 2 ^ 63) && forallb u64_tx_b (default [] (Transactions (Bundle b))).

Lemma u64_tx_b_ok tx : u64_tx_b tx = true -> u64_tx tx.
Proof. unfold u64_tx_b, u64_tx, u64_tx_data, in_u64, in_s64. lia. Qed.

Lemma u64_block_b_ok b : u64_block_b b = true -> u64_block b.
Proof.
  unfold u64_block_b. intros [Hi Hf]%andb_true_iff. split; [unfold u64_block_info, in_u64, in_s64; lia|].
  unfold u64_bundle, opt_Forall. destruct (Transactions (Bundle b)) as [l|]; [|done]. cbn in Hf.
  apply List.Forall_forall. intros tx Hin. apply u64_tx_b_ok. by apply (proj1 (forallb_forall _ _) Hf).
Qed.

Lemma demo_wallet_ok : wallet_ok demo_wallet.
Proof. exists [x05]. reflexivity. Qed.

Definition made (o : outcome (result (Block * publicKeys))) : bool :=
  match o with Done (Ok _) => true | _ => false end.
Definition verified (o : outcome (bool * option publicKeys * option error * Block)) : bool :=
  match o with Done (b, _, _, _) => b | _ => false end.

Definition block_of (o : outcome (result (Block * publicKeys))) : Block :=
  match o with Done (Ok (blk, _)) => blk | _ => demo_block end.
Definition keys_of (o : outcome (result (Block * publicKeys))) : publicKeys :=
  match o with Done (Ok (_, keys)) => keys | _ => [] end.
Definition new_run := BlockProducer_NewBlock 9 demo_chain demo_wallet (pooled good_block).
Definition new_block : Block := block_of (fst new_run).
Definition new_keys : publicKeys := keys_of (fst new_run).

Lemma new_block_run : new_run = (Done (Ok (new_block, new_keys)), snd new_run).
Proof.
  assert (made (fst new_run) = true) as K by (vm_compute; reflexivity). unfold new_block, new_keys.
  destruct new_run as [[[[? ?]|?]|?|?] ?]; try discriminate K. reflexivity.
Qed.

Lemma producer_verifier_agree_witness :
  match BlockProducer_NewBlock 9 demo_chain demo_wallet (pooled good_block) with
  | (Done (Ok (blk, keys)), _) => Block_Verify blk = Done true
  | _ => False
  end.
Proof.
  assert (made (fst (BlockProducer_NewBlock 9 demo_chain demo_wallet (pooled good_block))) = true) as K
    by (vm_compute; reflexivity).
  destruct (BlockProducer_NewBlock _ _ _ _) as [[[[blk keys]|e]|w|w] x'] eqn:E; try discriminate K.
  apply (producer_verifier_agree 9 demo_chain demo_wallet (pooled good_block) node gen_key blk keys x').
  - apply pooled_settled.
  - apply node_settled.
  - apply pooled_ledger.
  - apply pool_verified. vm_compute. reflexivity.
  - apply demo_wallet_ok.
  - lia.
  - reflexivity.
  - exact E.
Defined.

Lemma new_block_senders : Forall sender_ok (default [] (Transactions (Bundle new_block))).
Proof.
  eapply (Forall_impl (fun tx => Transaction_Verify tx = Done (Ok true))); [|apply sender_ok_verified].
  apply verifies_all. vm_compute. reflexivity.
Qed.

Lemma Verify_sound_witness :
  match BlockProducer_Verify demo_chain new_block node with
  | (Done (true, fin, err, blk'), x') => err = None /\ bi_Height (Info new_block) = 5
  | _ => False
  end.
Proof.
  assert (verified (fst (BlockProducer_Verify demo_chain new_block node)) = true) as K
    by (vm_compute; reflexivity).
  destruct (BlockProducer_Verify _ _ _) as [[[[[v fin] err] blk']|w|w] x'] eqn:E; try discriminate K.
  cbn in K. subst v.
  destruct (Verify_sound demo_chain new_block node gen_key fin err blk' x') as (He & Hh & _).
  - apply node_settled.
  - apply new_block_senders.
  - exact E.
  - split; [exact He|exact Hh].
Defined.

(** *** Empty accounts fork the chain *)
Definition dave : bytes := replicate 32 x0d.

(** The hash of the states in memory. *)
Definition hash_of (x : Executer) : bytes :=
  match fst (mem GetStateHash x) with Done (Ok h) => raw h | _ => [] end.

(** The node started again over its database. *)
Definition restarted (x : Executer) : Executer :=
  snd (in_env FetchAllAccounts (mkExecuter (mkEnv NewMemoryService (xdb x)) (faucet_generator x))).

Definition differ (x y : Executer) : bool := bool_decide (hash_of x <> hash_of y).

Lemma failed_differs :
  match settle_block true [signed_transfer 3 1000 dave] node with
  | Some y => differ (restarted y) y
  | None => false
  end = true.
Proof. vm_compute. reflexivity. Qed.

(** The node with a fifth account, so that a sixth leaves the state tree as
    high as it is. *)
Definition erin : bytes := replicate 32 x0e.
Definition roomy : Executer := fund erin (mkAccountState 0 5) node.

Lemma roomy_settled : settled roomy gen_key.
Proof. apply fund_settled; [done|done|split; by vm_compute|apply node_settled]. Qed.

Lemma keys_ok_fund x pk v : settled x gen_key -> length pk = 32%nat -> u64_state v ->
  keys_ok (xledger x) -> keys_ok (xledger (fund pk v x)).
Proof.
  intros [[_ Q _ _] _ _ _ _] Hl Hv Hk. unfold fund, xledger, xmem at 1. cbn [env_mem exe_env].
  rewrite with_account_ledger by done. apply map_Forall_insert_2; [|exact Hk]. split; [exact Hv|by exists pk].
Qed.

Lemma roomy_keys : keys_ok (xledger roomy).
Proof.
  assert (forall pk v x, length pk = 32%nat -> wf_state v -> settled x gen_key /\ keys_ok (xledger x) ->
    settled (fund pk v x) gen_key /\ keys_ok (xledger (fund pk v x))) as Hf.
  { intros pk v x Hl Hv [Hs Hk]. split; [by apply fund_settled|]. apply keys_ok_fund; [done..|by apply wf_state_u64|done]. }
  unfold roomy, node. repeat (apply Hf; [reflexivity|split; by vm_compute|]).
  split; [apply new_db_settled|]. intros k v Hk. discriminate Hk.
Qed.

(** A payment to Dave, whom the node does not know. *)
Definition dave_block : list Transaction := [signed_transfer 3 10 dave].
Definition dave_run := Execute dave_block roomy.
Definition dave_keys : publicKeys :=
  match fst dave_run with Done (_, Ok keys) => keys | _ => [] end.

Definition ran_ok (o : outcome (list Transaction * result publicKeys)) : bool :=
  match o with Done (_, Ok _) => true | _ => false end.

Lemma dave_run_done : exists txs', Execute dave_block roomy = (Done (txs', Ok dave_keys), snd dave_run).
Proof.
  assert (ran_ok (fst (Execute dave_block roomy)) = true) as K by (vm_compute; reflexivity).
  unfold dave_keys, dave_run. destruct (Execute dave_block roomy) as [[[txs' [keys|e]]|w|w] x1]; try discriminate K. by exists txs'.
Qed.

(** The block that a node which never saw Dave's payment makes. *)
Definition roomy_pool : Executer := set_xmem (set_mempool (foldr Mempool_Append ∅ good_block) (xmem roomy)) roomy.
Definition roomy_block : Block := block_of (fst (BlockProducer_NewBlock 9 demo_chain demo_wallet roomy_pool)).

(** The node that rejected the payment. *)
Definition dave_rejected : option Executer := settle_block false dave_block roomy.

Definition height_of (x : Executer) : option Z :=
  match NextPowerOf2 (Z.of_nat (size (xledger x))) with Done n => Some n | _ => None end.

(** One accepts [roomy_block], the other does not. *)
Lemma rejected_differs :
  match dave_rejected with
  | Some x => differ x roomy
      && verified (fst (BlockProducer_Verify demo_chain roomy_block roomy))
      && negb (verified (fst (BlockProducer_Verify demo_chain roomy_block x)))
      && bool_decide (height_of (snd (BlockProducer_Verify demo_chain roomy_block roomy))
           = height_of (snd (BlockProducer_Verify demo_chain roomy_block x)))
  | None => false
  end = true.
Proof. vm_compute. reflexivity. Qed.

Definition concerns_b (gen pk : bytes) (tx : Transaction) : bool :=
  match decode_op tx with
  | None => false
  | Some o => bool_decide (pk = caller_of tx)
      || match o with OpAirdrop _ => bool_decide (pk = gen) | OpTransfer to _ => bool_decide (pk = to) end
  end.

Lemma concerns_b_ok gen pk tx : concerns gen pk tx -> concerns_b gen pk tx = true.
Proof.
  intros (o & Ho & Hc). unfold concerns_b. rewrite Ho. apply orb_true_iff.
  destruct Hc as [Hc|Hc]; [left|right]; [by apply bool_decide_eq_true|].
  destruct o; by apply bool_decide_eq_true.
Qed.

Lemma untouched_all gen pk txs : forallb (fun tx => negb (concerns_b gen pk tx)) txs = true ->
  Forall (fun tx => ~ concerns gen pk tx) txs.
Proof.
  intros Hf. apply Forall_forall. intros tx Hin Hc%concerns_b_ok.
  rewrite forallb_forall in Hf. apply list_elem_of_In in Hin. apply Hf in Hin. by rewrite Hc in Hin.
Qed.

Lemma roomy_block_senders : Forall sender_ok (default [] (Transactions (Bundle roomy_block))).
Proof.
  eapply (Forall_impl (fun tx => Transaction_Verify tx = Done (Ok true))); [|apply sender_ok_verified].
  apply verifies_all. vm_compute. reflexivity.
Qed.

Lemma roomy_block_untouched : Forall (fun tx => ~ concerns gen_key dave tx) (default [] (Transactions (Bundle roomy_block))).
Proof. apply untouched_all. vm_compute. reflexivity. Qed.

Lemma empty_accounts_fork_witness :
  exists x2, waitForFinality false dave_keys (snd dave_run) = (Done None, x2)
    /\ xledger x2 !! Encode dave = Some zero_state /\ xledger roomy !! Encode dave = None
    /\ forall fin err blk1 x3 fin2 err2 blk2 y3,
      BlockProducer_Verify demo_chain roomy_block x2 = (Done (true, fin, err, blk1), x3) ->
      BlockProducer_Verify demo_chain roomy_block roomy = (Done (true, fin2, err2, blk2), y3) ->
      NextPowerOf2 (Z.of_nat (size (xledger x3))) = NextPowerOf2 (Z.of_nat (size (xledger y3))) ->
      exists x2' y', collision (state_inputs (xmem x2'))
        (leaf_input (fakeKey, zero_state) :: state_inputs (xmem y')).
Proof.
  assert (bool_decide (xledger roomy !! Encode dave = None) = true) as Hn by (vm_compute; reflexivity).
  apply bool_decide_eq_true in Hn.
  assert (bool_decide (is_Some (xledger (snd dave_run) !! Encode dave)) = true) as Hs by (vm_compute; reflexivity).
  apply bool_decide_eq_true in Hs.
  assert (Forall sender_ok dave_block) as Hf.
  { eapply Forall_impl; [|apply sender_ok_verified]. apply verifies_all. vm_compute. reflexivity. }
  destruct dave_run_done as [txs' Hrun].
  destruct (empty_accounts_fork roomy roomy gen_key dave_block txs' dave_keys (snd dave_run) dave)
    as (x2 & Hw & _ & _ & Hz & Hall).
  - apply roomy_settled.
  - apply roomy_settled.
  - reflexivity.
  - apply roomy_keys.
  - exact Hf.
  - exact Hrun.
  - apply Nat.leb_le. vm_compute. reflexivity.
  - reflexivity.
  - exact Hn.
  - exact Hs.
  - apply Nat.ltb_lt. vm_compute. reflexivity.
  - exists x2. split; [exact Hw|]. split; [exact Hz|]. split; [exact Hn|].
    intros fin err blk1 x3 fin2 err2 blk2 y3 V1 V2 Hsz.
    destruct (Hall demo_chain roomy_block fin err blk1 x3 fin2 err2 blk2 y3 roomy_block_senders
      roomy_block_untouched V1 V2 Hsz) as (_ & x2' & _ & y' & _ & _ & Hc). by exists x2', y'.
Defined.
End producer_runs.
