(* ===== verification/P2p.v ===== *)
(** Package [p2p]: node addresses, messages and the peer-to-peer service
    (p2p/node_info.go, p2p/messages.go, p2p/p2pService.go, p2p/discovery.go).

    A message handed to the transporter is recorded in [sent]: its delivery is
    the network's business (p2p/transporter.go dials and writes, p2p/server.go
    accepts and reads).  The services built on top hold a [P2pService] and pass
    their own handlers to it; [HasP2p] is what they offer. *)
From S2P Require Import Prelude Json JsonLaws Common External.
Open Scope Z_scope.

(** ** Node addresses *)
Definition SyncNode : Z := 1.
Definition ConsensusNode : Z := 2.

Record NodeInfo := mkNodeInfo { Ip4 : string; Network : Z }.

#[export] Instance NodeInfo_json : JSON NodeInfo :=
  struct_codec (mkNodeInfo EmptyString 0)
    [ fld "Ip4" Ip4 (fun a x => mkNodeInfo a (Network x)) string_codec;
      fld "Network" Network (fun a x => mkNodeInfo (Ip4 x) a) (uint_codec 8) ].

Definition NewNodeInfo (port : string) (network : Z) : NodeInfo :=
  mkNodeInfo (Ip4Format port) network.

Definition IsSameIp (ni other : NodeInfo) : bool := bool_decide (Ip4 ni = Ip4 other).

(** The slice [ni.Ip4[:10]] is in range, after the length test. *)
Definition NodeInfo_Verify (ni : NodeInfo) : bool :=
  (String.length (Ip4 ni) =? 14)%nat && bool_decide (String.substring 0 10 (Ip4 ni) = "localhost:"%string).

(** ** Messages *)
Definition HelloMessage : byte := x01.
Definition WelcomeMessage : byte := x02.
Definition SyncMessage : byte := x03.
Definition ConsensusMessage : byte := x04.

Definition PackPayload {T} `{JSON T} (data : T) (msgKinds : list byte) : result bytes :=
  let? b := Marshal data in Ok (msgKinds ++ b).

Record HelloMsg := mkHelloMsg { hello_From : NodeInfo }.
Record WelcomeMsg := mkWelcomeMsg { welcome_From : NodeInfo; KnownPeer : option (list NodeInfo) }.

#[export] Instance HelloMsg_json : JSON HelloMsg :=
  struct_codec (mkHelloMsg (c_zero NodeInfo_json))
    [ fld "From" hello_From (fun a _ => mkHelloMsg a) NodeInfo_json ].

#[export] Instance WelcomeMsg_json : JSON WelcomeMsg :=
  struct_codec (mkWelcomeMsg (c_zero NodeInfo_json) None)
    [ fld "From" welcome_From (fun a x => mkWelcomeMsg a (KnownPeer x)) NodeInfo_json;
      fld "KnownPeer" KnownPeer (fun a x => mkWelcomeMsg (welcome_From x) a)
        (slice_codec NodeInfo_json) ].

Definition HelloMsg_Verify (hm : HelloMsg) : bool := NodeInfo_Verify (hello_From hm).

Definition WelcomeMsg_Verify (wm : WelcomeMsg) : bool :=
  if negb (NodeInfo_Verify (welcome_From wm)) then false
  else forallb NodeInfo_Verify (default [] (KnownPeer wm)).

(** ** The service *)
Record P2pService := mkP2pService {
  self : NodeInfo;
  peers : list NodeInfo;
  sent : list (NodeInfo * bytes)
}.

Definition NewP2pService (port : string) (network : Z) : P2pService :=
  mkP2pService (NewNodeInfo port network) [] [].

Definition set_peers (l : list NodeInfo) (ps : P2pService) : P2pService :=
  mkP2pService (self ps) l (sent ps).

(** [transporter.Send] starts a goroutine that dials and writes. *)
Definition Transporter_Send (to : NodeInfo) (data : bytes) : M P2pService unit :=
  modify (fun ps => mkP2pService (self ps) (peers ps) (sent ps ++ [(to, data)])).

Definition P2p_Send (to : NodeInfo) (data : bytes) : M P2pService unit :=
  let* ps := get in
  if negb (IsSameIp to (self ps)) then Transporter_Send to data else ret tt.

Fixpoint send_each (l : list NodeInfo) (data : bytes) : M P2pService unit :=
  match l with
  | [] => ret tt
  | p :: l' => let* _ := Transporter_Send p data in send_each l' data
  end.

(** The inner loop of [Broadcast]: one send per exception that is not [p]. *)
Fixpoint send_unless (p : NodeInfo) (data : bytes) (except : list NodeInfo) : M P2pService unit :=
  match except with
  | [] => ret tt
  | exc :: except' =>
      let* _ := (if negb (IsSameIp p exc) then Transporter_Send p data else ret tt) in
      send_unless p data except'
  end.

Fixpoint send_each_unless (l : list NodeInfo) (data : bytes) (except : list NodeInfo)
  : M P2pService unit :=
  match l with
  | [] => ret tt
  | p :: l' => let* _ := send_unless p data except in send_each_unless l' data except
  end.

Definition Broadcast (data : bytes) (except : list NodeInfo) : M P2pService unit :=
  let* ps := get in
  if len except =? 0 then send_each (peers ps) data
  else send_each_unless (peers ps) data except.

Definition LenPeers (ps : P2pService) : Z := len (peers ps).

Definition PeerByIndex (idx : Z) (ps : P2pService) : outcome (option NodeInfo) :=
  let peerLen := len (peers ps) in
  if peerLen =? 0 then Done None
  else if (idx <? 0) || (peerLen <? idx) then Done None
  else match peers ps !! Z.to_nat idx with
       | Some p => Done (Some p)
       | None => Panicked "index out of range"
       end.

Section p2p.
Context `{ExpSlices}.

Definition KnowsPeer (peer : NodeInfo) (ps : P2pService) : bool :=
  ContainsFunc (peers ps) (fun p => IsSameIp peer p).

Definition addPeer (peer : NodeInfo) : M P2pService unit :=
  let* ps := get in
  if negb (KnowsPeer peer ps) && negb (IsSameIp (self ps) peer)
  then modify (set_peers (peers ps ++ [peer]))
  else ret tt.

Definition removePeer (peer : NodeInfo) : M P2pService unit :=
  let* ps := get in
  let idx := IndexFunc (peers ps) (fun p => IsSameIp peer p) in
  if 0 <=? idx then modify (set_peers (Delete (peers ps) idx (idx + 1))) else ret tt.

(** *** Discovery *)
Definition Itoa (z : Z) : string := String.string_of_list_byte (format_int z).

Fixpoint discover_ports (ports : list Z) (payload : bytes) : M P2pService unit :=
  match ports with
  | [] => ret tt
  | p :: ports' =>
      let* ps := get in
      let to := NewNodeInfo (Itoa p) 0 in
      let* _ := (if IsSameIp (self ps) to then ret tt else Transporter_Send to payload) in
      discover_ports ports' payload
  end.

Definition localDiscovery (discoveryMin discoveryMax : Z) : M P2pService (option error) :=
  let* ps := get in
  match PackPayload (mkHelloMsg (self ps)) [HelloMessage] with
  | Err e => ret (Some e)
  | Ok payload =>
      let* _ := discover_ports (seqZ discoveryMin (discoveryMax - discoveryMin + 1)) payload in
      ret None
  end.

Definition handleJoin (raw : bytes) : M P2pService (option error) :=
  match Unmarshal (T := HelloMsg) raw with
  | Err _ => ret None
  | Ok hello =>
      if negb (HelloMsg_Verify hello) then ret None
      else
        let* ps := get in
        if negb (Network (hello_From hello) =? Network (self ps)) then ret None
        else
          let* _ := addPeer (hello_From hello) in
          let* ps := get in
          match PackPayload (mkWelcomeMsg (self ps) (Some (peers ps))) [WelcomeMessage] with
          | Err e => ret (Some e)
          | Ok payload =>
              let* _ := Transporter_Send (hello_From hello) payload in
              ret None
          end
  end.

Fixpoint hello_unknown (known : list NodeInfo) (payload : bytes) : M P2pService unit :=
  match known with
  | [] => ret tt
  | peer :: known' =>
      let* ps := get in
      let* _ := (if negb (KnowsPeer peer ps) && negb (IsSameIp (self ps) peer)
                 then Transporter_Send peer payload else ret tt) in
      hello_unknown known' payload
  end.

Definition handleWelcome (raw : bytes) : M P2pService (option error) :=
  match Unmarshal (T := WelcomeMsg) raw with
  | Err _ => ret None
  | Ok welcome =>
      if negb (WelcomeMsg_Verify welcome) then ret None
      else
        let* _ := addPeer (welcome_From welcome) in
        if 0 <? len (default [] (KnownPeer welcome)) then
          let* ps := get in
          match PackPayload (mkHelloMsg (self ps)) [HelloMessage] with
          | Err e => ret (Some e)
          | Ok payload =>
              let* _ := hello_unknown (default [] (KnownPeer welcome)) payload in
              ret None
          end
        else ret None
  end.
End p2p.

(** ** Services on top

    A service's state contains its [P2pService]. *)
Class HasP2p (S : Type) := {
  p2p_of : S -> P2pService;
  with_p2p : P2pService -> S -> S
}.

Class HasP2pLaws (S : Type) `{HasP2p S} : Prop := {
  p2p_of_with ps s : p2p_of (with_p2p ps s) = ps;
  with_p2p_of s : with_p2p (p2p_of s) s = s
}.

#[export] Instance P2pService_has : HasP2p P2pService :=
  {| p2p_of ps := ps; with_p2p ps _ := ps |}.
#[export] Instance P2pService_has_laws : HasP2pLaws P2pService.
Proof. by split. Qed.

Section inbound.
Context {S : Type} `{HasP2p S, ExpSlices}.

Definition in_p2p {A} (m : M P2pService A) : M S A := zoom p2p_of with_p2p m.

(** [conn] is what reading the connection to its end yields; [handlerFn] is the
    handler given to [Run]. *)
Definition handleInbound (handlerFn : bytes -> M S (option error)) (conn : result bytes)
  : M S (option error) :=
  match conn with
  | Err e => ret (Some e)
  | Ok raw0 =>
      if MaxPayloadSize <? len raw0 then ret None
      else
        match raw0 with
        | [] => panic "index out of range"
        | kind :: rest =>
            if bool_decide (kind = HelloMessage) then in_p2p (handleJoin rest)
            else if bool_decide (kind = WelcomeMessage) then in_p2p (handleWelcome rest)
            else handlerFn raw0
        end
  end.

(** One iteration of [onFail]: [failed] could not be dialled. *)
Definition onFail (onFailFn : option (NodeInfo -> M S unit)) (failed : NodeInfo) : M S unit :=
  let* _ := match onFailFn with Some fn => fn failed | None => ret tt end in
  in_p2p (removePeer failed).
End inbound.
