(* ===== verification/P2pProps.v ===== *)
(** Facts about the peer-to-peer service: whom a broadcast reaches, the
    invariant of the peer list, and the discovery handshake of two nodes. *)
From S2P Require Import Prelude Json JsonLaws JsonSize Common External Accounts P2p.
Open Scope Z_scope.

(** ** JSON laws *)
Definition wf_node (ni : NodeInfo) : Prop := ascii_string (Ip4 ni) /\ 0 <= Network ni < 2 ^ 8.

Lemma NodeInfo_codec_ok : codec_ok NodeInfo_json wf_node.
Proof. unfold wf_node. solve_struct_codec. Qed.
#[export] Hint Resolve NodeInfo_codec_ok : codec.

Lemma HelloMsg_codec_ok : codec_ok HelloMsg_json (fun m => wf_node (hello_From m)).
Proof. solve_struct_codec. Qed.

Definition wf_welcome (m : WelcomeMsg) : Prop :=
  wf_node (welcome_From m) /\ opt_Forall wf_node (KnownPeer m).

Lemma WelcomeMsg_codec_ok : codec_ok WelcomeMsg_json wf_welcome.
Proof. unfold wf_welcome. solve_struct_codec. Qed.

#[export] Instance NodeInfo_json_laws : JSONLaws NodeInfo := {| json_ok := NodeInfo_codec_ok |}.
#[export] Instance HelloMsg_json_laws : JSONLaws HelloMsg := {| json_ok := HelloMsg_codec_ok |}.
#[export] Instance WelcomeMsg_json_laws : JSONLaws WelcomeMsg := {| json_ok := WelcomeMsg_codec_ok |}.

(** ** Sending *)
Definition sends (l : list (NodeInfo * bytes)) (s : P2pService) : P2pService :=
  mkP2pService (self s) (peers s) (sent s ++ l).

Lemma sends_nil s : sends [] s = s.
Proof. destruct s. unfold sends. cbn. by rewrite app_nil_r. Qed.
Lemma sends_sends l1 l2 s : sends l2 (sends l1 s) = sends (l1 ++ l2) s.
Proof. unfold sends. cbn. by rewrite app_assoc. Qed.

Lemma send_each_run data l : forall s,
  send_each l data s = (Done tt, sends (map (fun p => (p, data)) l) s).
Proof.
  induction l as [|p l IH]; intros s; cbn [send_each map]; [by rewrite sends_nil|].
  unfold bind, Transporter_Send, modify. rewrite IH. unfold sends. cbn. by rewrite <- app_assoc.
Qed.

(** How many copies a broadcast sends to a peer. *)
Definition copies (except : list NodeInfo) (p : NodeInfo) : nat :=
  match except with
  | [] => 1
  | _ => length (List.filter (fun exc => negb (IsSameIp p exc)) except)
  end.

Definition broadcast_to (data : bytes) (except l : list NodeInfo) : list (NodeInfo * bytes) :=
  flat_map (fun p => replicate (copies except p) (p, data)) l.

Lemma send_unless_run p data except : forall s, send_unless p data except s
  = (Done tt, sends (replicate (length (List.filter (fun exc => negb (IsSameIp p exc)) except)) (p, data)) s).
Proof.
  induction except as [|exc except IH]; intros s; cbn [send_unless List.filter]; [by rewrite sends_nil|].
  unfold bind. destruct (IsSameIp p exc); cbn [negb ret length replicate]; [by rewrite IH|].
  unfold Transporter_Send, modify. rewrite IH. unfold sends. cbn. by rewrite <- app_assoc.
Qed.

Lemma Broadcast_run data except s :
  Broadcast data except s = (Done tt, sends (broadcast_to data except (peers s)) s).
Proof.
  unfold Broadcast, bind, get. destruct except as [|exc except].
  - change (len [] =? 0) with true. cbv iota. by rewrite send_each_run.
  - rewrite (proj2 (Z.eqb_neq _ _)) by (unfold len; cbn; lia).
    unfold broadcast_to, copies. generalize (peers s) as l. intros l. revert s.
    induction l as [|p l IH]; intros s; cbn [send_each_unless flat_map]; [by rewrite sends_nil|].
    unfold bind. rewrite send_unless_run, IH. by rewrite sends_sends.
Qed.

Section facts.
Context `{ExpSlices, !ExpSlicesLaws}.

Lemma IsSameIp_spec a b : IsSameIp a b = true <-> Ip4 a = Ip4 b.
Proof. apply bool_decide_eq_true. Qed.

Lemma KnowsPeer_spec p s : KnowsPeer p s = true <-> Ip4 p ∈ map Ip4 (peers s).
Proof.
  unfold KnowsPeer. rewrite ContainsFunc_spec, existsb_exists.
  change (map Ip4 (peers s)) with (Ip4 <$> peers s). rewrite list_elem_of_fmap. split.
  - intros (q & Hin & Heq%IsSameIp_spec). exists q. by rewrite list_elem_of_In.
  - intros (q & Heq & Hin). exists q. by rewrite <- list_elem_of_In, IsSameIp_spec.
Qed.

Lemma addPeer_run p s : addPeer p s =
  (Done tt, if decide (Ip4 p ∈ Ip4 (self s) :: map Ip4 (peers s)) then s
            else set_peers (peers s ++ [p]) s).
Proof.
  unfold addPeer, bind, get. destruct (decide _) as [Hin|Hout]; rewrite elem_of_cons in *.
  - destruct Hin as [Heq|Hin].
    + assert (IsSameIp (self s) p = true) as -> by by apply IsSameIp_spec. by rewrite andb_false_r.
    + by rewrite (proj2 (KnowsPeer_spec p s) Hin).
  - destruct (KnowsPeer p s) eqn:E; [apply KnowsPeer_spec in E; tauto|].
    destruct (IsSameIp (self s) p) eqn:E2; [apply IsSameIp_spec in E2; intuition congruence|]. done.
Qed.

Lemma index_from_bounds {A} (f : A -> bool) l : forall i, 0 <= i ->
  let k := index_from f l i in k = -1 \/ i <= k < i + len l.
Proof.
  unfold len. induction l as [|x l IH]; intros i Hi; cbn [index_from]; [by left|].
  destruct (f x); [right; cbn; lia|]. destruct (IH (i + 1)); cbn in *; [lia|by left|right; lia].
Qed.

(** A removed peer is gone from the list; the others keep their order. *)
Lemma removePeer_run p s : exists l, removePeer p s = (Done tt, set_peers l s) /\ l `sublist_of` peers s.
Proof.
  unfold removePeer, bind, get. rewrite IndexFunc_spec.
  destruct (index_from_bounds (fun q => IsSameIp p q) (peers s) 0 ltac:(lia)) as [Hi|Hi]; cbn zeta in Hi.
  - rewrite Hi. exists (peers s). split; [by destruct s|done].
  - rewrite (proj2 (Z.leb_le _ _)) by lia. eexists. split; [reflexivity|].
    rewrite Delete_spec by lia. set (i := Z.to_nat _).
    replace (Z.to_nat (index_from _ _ _ + 1)) with (i + 1)%nat by (subst i; lia).
    transitivity (take i (peers s) ++ drop i (peers s)); [|by rewrite take_drop].
    apply sublist_app; [done|]. rewrite <- drop_drop. apply sublist_drop.
Qed.

(** *** The invariant of the peer list: no address twice, not the node's own,
    and none that does not verify *)
Record peers_ok (s : P2pService) : Prop := {
  po_nodup : NoDup (map Ip4 (peers s));
  po_self : Ip4 (self s) ∉ map Ip4 (peers s);
  po_verified : Forall (fun p => NodeInfo_Verify p = true) (peers s)
}.

Lemma peers_ok_new port network : peers_ok (NewP2pService port network).
Proof. split; cbn; [constructor|apply not_elem_of_nil|constructor]. Qed.

Lemma peers_ok_sends l s : peers_ok s -> peers_ok (sends l s).
Proof. intros [? ? ?]. by split. Qed.

Lemma peers_ok_add p s : peers_ok s -> NodeInfo_Verify p = true ->
  exists s', addPeer p s = (Done tt, s') /\ peers_ok s' /\ self s' = self s /\ sent s' = sent s
    /\ (Ip4 p <> Ip4 (self s) -> Ip4 p ∈ map Ip4 (peers s'))
    /\ (forall q, q ∈ peers s' -> q ∈ peers s \/ q = p).
Proof.
  intros [Hn Hs Hv] Hp. rewrite addPeer_run. eexists. split; [reflexivity|].
  destruct (decide _) as [Hin|Hout]; rewrite elem_of_cons in *.
  - split_and!; try done; [tauto|]. by left.
  - cbn [set_peers self peers sent]. rewrite map_app. cbn [map]. split_and!; [|done|done| |].
    + split; cbn [set_peers self peers]; [|rewrite map_app; cbn [map]; set_solver|].
      * rewrite map_app. cbn [map]. apply NoDup_app. split_and!; [done|set_solver|apply NoDup_singleton].
      * apply Forall_app. split; [done|]. by constructor.
    + set_solver.
    + intros q. by rewrite elem_of_app, list_elem_of_singleton.
Qed.

Lemma peers_ok_remove p s : peers_ok s ->
  exists s', removePeer p s = (Done tt, s') /\ peers_ok s' /\ self s' = self s /\ sent s' = sent s.
Proof.
  intros [Hn Hs Hv]. destruct (removePeer_run p s) as (l & Hl & Hsub). eexists. split; [exact Hl|].
  split; [|done]. split; cbn [set_peers self peers].
  - eapply sublist_NoDup; [exact Hn|]. by apply (fmap_sublist Ip4).
  - intros Hin. apply Hs. eapply elem_of_sublist; [exact Hin|]. by apply (fmap_sublist Ip4).
  - rewrite Forall_forall in *. intros q Hq. apply Hv. by eapply elem_of_sublist.
Qed.
End facts.

(** ** What the handlers do *)
Section handlers.
Context `{ExpSlices, !ExpSlicesLaws}.

(** A step of the service: it returns, keeps the invariant and its own
    address, and only adds to what was sent. *)
Definition keeps (m : M P2pService (option error)) (s : P2pService) : Prop :=
  exists r s' l, m s = (Done r, s') /\ peers_ok s' /\ self s' = self s /\ sent s' = sent s ++ l.

Lemma keeps_skip r s : peers_ok s -> keeps (ret r) s.
Proof. intros Hok. exists r, s, []. by rewrite app_nil_r. Qed.

(** Messages to peers that are not known. *)
Definition unknown (s : P2pService) (l : list NodeInfo) : list NodeInfo :=
  List.filter (fun p => negb (KnowsPeer p s) && negb (IsSameIp (self s) p)) l.

Lemma hello_unknown_run payload l : forall s, hello_unknown l payload s
  = (Done tt, sends (map (fun p => (p, payload)) (unknown s l)) s).
Proof.
  induction l as [|p l IH]; intros s; cbn [hello_unknown unknown List.filter]; [by rewrite sends_nil|].
  unfold bind at 1, get. fold (unknown s l). destruct (_ && _); cbn [map].
  - unfold bind, Transporter_Send, modify. rewrite IH. unfold sends. cbn. by rewrite <- app_assoc.
  - by rewrite bind_ret_l, IH.
Qed.

Lemma handleJoin_run raw0 s : peers_ok s -> keeps (handleJoin raw0) s.
Proof.
  intros Hok. unfold handleJoin. destruct (Unmarshal raw0) as [hello|]; [|by apply keeps_skip].
  destruct (HelloMsg_Verify hello) eqn:Ev; cbn [negb]; [|by apply keeps_skip].
  unfold keeps, bind at 1, get. destruct (_ =? _); cbn [negb]; [|by apply keeps_skip].
  destruct (peers_ok_add _ s Hok Ev) as (s1 & Ha & Hok1 & Hself & Hsent & _).
  rewrite (bind_done _ _ _ _ _ Ha). unfold bind at 1, get. unfold PackPayload, Marshal. cbn [result_bind].
  unfold bind, Transporter_Send, modify. eexists _, _, _. split; [reflexivity|].
  split; [by apply (peers_ok_sends _ s1)|]. cbn [self sent]. by rewrite Hself, Hsent.
Qed.

Lemma handleWelcome_run raw0 s : peers_ok s -> keeps (handleWelcome raw0) s.
Proof.
  intros Hok. unfold handleWelcome. destruct (Unmarshal raw0) as [welcome|]; [|by apply keeps_skip].
  destruct (WelcomeMsg_Verify welcome) eqn:Ev; cbn [negb]; [|by apply keeps_skip].
  unfold WelcomeMsg_Verify in Ev. destruct (NodeInfo_Verify (welcome_From welcome)) eqn:Ef; [|done].
  destruct (peers_ok_add _ s Hok Ef) as (s1 & Ha & Hok1 & Hself & Hsent & _).
  unfold keeps. rewrite (bind_done _ _ _ _ _ Ha). rewrite <- Hself, <- Hsent.
  destruct (0 <? _); [|by apply keeps_skip]. unfold bind at 1, get. unfold PackPayload, Marshal. cbn [result_bind].
  unfold bind. rewrite hello_unknown_run. eexists _, _, _. split; [reflexivity|].
  split; [by apply peers_ok_sends|by split].
Qed.

Lemma discover_ports_run payload ports : forall s, exists l,
  discover_ports ports payload s = (Done tt, sends l s)
  /\ l = map (fun p => (NewNodeInfo (Itoa p) 0, payload))
       (List.filter (fun p => negb (IsSameIp (self s) (NewNodeInfo (Itoa p) 0))) ports).
Proof.
  induction ports as [|p ports IH]; intros s; cbn [discover_ports List.filter].
  { exists []. by rewrite sends_nil. }
  unfold bind at 1, get. destruct (IsSameIp (self s) _) eqn:E; cbn [negb map].
  - rewrite bind_ret_l. apply IH.
  - unfold bind, Transporter_Send, modify. destruct (IH (sends [(NewNodeInfo (Itoa p) 0, payload)] s)) as (l & Hl & El).
    unfold sends in Hl at 1. cbn [self peers sent] in Hl. rewrite Hl. eexists. split; [|reflexivity].
    by rewrite sends_sends, El.
Qed.

Lemma localDiscovery_run lo hi s : exists payload,
  PackPayload (mkHelloMsg (self s)) [HelloMessage] = Ok payload
  /\ localDiscovery lo hi s = (Done None, sends (map (fun p => (NewNodeInfo (Itoa p) 0, payload))
       (List.filter (fun p => negb (IsSameIp (self s) (NewNodeInfo (Itoa p) 0))) (seqZ lo (hi - lo + 1)))) s).
Proof.
  unfold localDiscovery, bind at 1, get. unfold PackPayload, Marshal. cbn [result_bind]. eexists. split; [reflexivity|].
  unfold bind. match goal with |- context [discover_ports ?ports ?pl s] =>
    destruct (discover_ports_run pl ports s) as (l & -> & ->) end. done.
Qed.
End handlers.

(** ** Steps of a service that embeds the peer-to-peer service *)
Section steps.
Context {S : Type} `{HasP2pLaws S, ExpSlices, !ExpSlicesLaws}.
Variable handlerFn : bytes -> M S (option error).
Variable onFailFn : option (NodeInfo -> M S unit).

Inductive p2p_step : S -> S -> Prop :=
| step_inbound conn r s s' : handleInbound handlerFn conn s = (Done r, s') -> p2p_step s s'
| step_fail n s s' : onFail onFailFn n s = (Done tt, s') -> p2p_step s s'
| step_discover lo hi r s s' : in_p2p (localDiscovery lo hi) s = (Done r, s') -> p2p_step s s'.

(** The peers are the peer-to-peer service's: what a handler of [S] may do. *)
Definition only_sends {A} (m : M S A) : Prop :=
  forall s r s', m s = (Done r, s') ->
    self (p2p_of s') = self (p2p_of s) /\ peers (p2p_of s') = peers (p2p_of s).

Lemma peers_ok_same s s' : peers_ok s -> self s' = self s -> peers s' = peers s -> peers_ok s'.
Proof. intros [Hn Hs Hv] E1 E2. split; by rewrite ?E1, ?E2. Qed.

Lemma in_p2p_run {A} (m : M P2pService A) s a ps :
  m (p2p_of s) = (Done a, ps) -> in_p2p m s = (Done a, with_p2p ps s).
Proof. unfold in_p2p, zoom. by intros ->. Qed.

Lemma in_p2p_done {A} (m : M P2pService A) s r s' :
  in_p2p m s = (Done r, s') -> exists ps, m (p2p_of s) = (Done r, ps) /\ p2p_of s' = ps.
Proof.
  unfold in_p2p, zoom. destruct (m (p2p_of s)) as [o ps]. intros [= -> <-].
  exists ps. split; [done|]. apply p2p_of_with.
Qed.

Hypothesis handler_ok : forall raw0, only_sends (handlerFn raw0).
Hypothesis onFail_ok : forall fn n, onFailFn = Some fn -> only_sends (fn n).

Lemma keeps_in_p2p (m : M P2pService (option error)) s r s' :
  peers_ok (p2p_of s) -> (forall ps, peers_ok ps -> keeps m ps) ->
  in_p2p m s = (Done r, s') -> peers_ok (p2p_of s').
Proof.
  intros Hok Hk (ps & Hm & ->)%in_p2p_done.
  destruct (Hk _ Hok) as (r' & s2 & l & Hm2 & Hok2 & _). rewrite Hm in Hm2. injection Hm2 as -> ->. exact Hok2.
Qed.

Lemma p2p_step_ok s s' : p2p_step s s' -> peers_ok (p2p_of s) -> peers_ok (p2p_of s').
Proof.
  intros [conn r s1 s1' Hi|n s1 s1' Hf|lo hi r s1 s1' Hd] Hok.
  - unfold handleInbound in Hi. destruct conn as [raw0|e]; [|by injection Hi as <- <-].
    destruct (_ <? _); [by injection Hi as <- <-|]. destruct raw0 as [|kind rest]; [done|].
    destruct (bool_decide _); [by eapply keeps_in_p2p; [..|exact Hi]; [done|intros; by apply handleJoin_run]|].
    destruct (bool_decide _); [by eapply keeps_in_p2p; [..|exact Hi]; [done|intros; by apply handleWelcome_run]|].
    destruct (handler_ok _ _ _ _ Hi) as [E1 E2]. by eapply peers_ok_same.
  - unfold onFail in Hf. destruct onFailFn as [fn|] eqn:Ef.
    + unfold bind in Hf. destruct (fn n s1) as [[[]|w|w] s2] eqn:E; try done.
      destruct (onFail_ok fn n eq_refl _ _ _ E) as [E1 E2].
      apply in_p2p_done in Hf as (ps & Hr & ->).
      destruct (peers_ok_remove n (p2p_of s2)) as (s3 & Hs3 & Hok3 & _); [by eapply peers_ok_same|].
      rewrite Hr in Hs3. by injection Hs3 as ->.
    + rewrite bind_ret_l in Hf. apply in_p2p_done in Hf as (ps & Hr & ->).
      destruct (peers_ok_remove n (p2p_of s1)) as (s3 & Hs3 & Hok3 & _); [done|].
      rewrite Hr in Hs3. by injection Hs3 as ->.
  - apply in_p2p_done in Hd as (ps & Hr & ->).
    destruct (localDiscovery_run lo hi (p2p_of s1)) as (pl & _ & Hr'). rewrite Hr in Hr'. injection Hr' as _ ->.
    by apply peers_ok_sends.
Qed.
End steps.

(** ** A hello always fits in a payload *)
Lemma hello_small ni hello : wf_node ni -> NodeInfo_Verify ni = true ->
  PackPayload (mkHelloMsg ni) [HelloMessage] = Ok hello -> len hello <= MaxPayloadSize.
Proof.
  destruct ni as [ip net]. intros [Ha Hn] Hv. unfold PackPayload. destruct (Marshal _) as [enc|] eqn:Hm; [|done]. intros [= <-].
  unfold NodeInfo_Verify in Hv. apply andb_prop in Hv as [Hl%Nat.eqb_eq _].
  pose proof (length_quote_body _ Ha) as Hq. rewrite length_bstr, Hl in Hq.
  pose proof (length_format_uint net) as Hf. unfold in_u64 in Hf. cbn [Ip4 Network] in *.
  apply Marshal_size in Hm. size_of Hm. unfold len, MaxPayloadSize. cbn [app length]. lia.
Qed.

Section handshake.
Context `{ExpSlices, !ExpSlicesLaws}.

Lemma handleJoin_accepts ni enc s s1 welcome :
  Marshal (mkHelloMsg ni) = Ok enc -> wf_node ni -> NodeInfo_Verify ni = true ->
  Network ni = Network (self s) -> addPeer ni s = (Done tt, s1) ->
  PackPayload (mkWelcomeMsg (self s1) (Some (peers s1))) [WelcomeMessage] = Ok welcome ->
  handleJoin enc s = (Done None, sends [(ni, welcome)] s1).
Proof.
  intros Hm Hw Hv Hn Ha Hp. unfold handleJoin. assert (Unmarshal enc = Ok (mkHelloMsg ni)) as -> by (by apply Unmarshal_Marshal).
  unfold HelloMsg_Verify. cbn [hello_From]. rewrite Hv. cbn [negb]. unfold bind at 1, get.
  rewrite Hn, Z.eqb_refl. cbn [negb]. rewrite (bind_done _ _ _ _ _ Ha). unfold bind at 1, get.
  by rewrite Hp.
Qed.

Lemma handleWelcome_accepts m enc s s1 hello :
  Marshal m = Ok enc -> wf_welcome m -> WelcomeMsg_Verify m = true ->
  addPeer (welcome_From m) s = (Done tt, s1) -> PackPayload (mkHelloMsg (self s1)) [HelloMessage] = Ok hello ->
  handleWelcome enc s
  = (Done None, sends (map (fun p => (p, hello)) (unknown s1 (default [] (KnownPeer m)))) s1).
Proof.
  intros Hm Hw Hv Ha Hp. unfold handleWelcome. assert (Unmarshal enc = Ok m) as -> by (by apply Unmarshal_Marshal). rewrite Hv. cbn [negb].
  rewrite (bind_done _ _ _ _ _ Ha). destruct (Z.ltb_spec 0 (len (default [] (KnownPeer m)))) as [Hl|Hl].
  - unfold bind at 1, get. rewrite Hp. unfold bind. by rewrite hello_unknown_run.
  - destruct (default [] (KnownPeer m)); [cbn; by rewrite sends_nil|unfold len in Hl; cbn in Hl; lia].
Qed.

Lemma inbound_hello (h : bytes -> M P2pService (option error)) kind enc s :
  len (kind :: enc) <= MaxPayloadSize -> handleInbound h (Ok (kind :: enc)) s
  = if bool_decide (kind = HelloMessage) then handleJoin enc s
    else if bool_decide (kind = WelcomeMessage) then handleWelcome enc s else h (kind :: enc) s.
Proof.
  intros Hl. unfold handleInbound. rewrite (proj2 (Z.ltb_ge _ _) Hl). unfold in_p2p, zoom.
  cbn [p2p_of with_p2p P2pService_has]. repeat case_match; done.
Qed.
End handshake.

(** * Properties *)
Section p2p_properties.
Context `{ExpSlices, !ExpSlicesLaws}.

(** A broadcast returns and sends every peer as many copies as there are
    exceptions that are not the peer (one without exceptions), in the order of
    the list.  So a single exception is left out and every other peer gets one
    copy; but two different exceptions leave nobody out. *)
Theorem Broadcast_correct data except s :
  exists s' out, Broadcast data except s = (Done tt, s')
  /\ self s' = self s /\ peers s' = peers s /\ sent s' = sent s ++ out
  /\ out = concat (map (fun p => replicate (copies except p) (p, data)) (peers s))
  /\ (forall exc, except = [exc] ->
        out = map (fun p => (p, data)) (List.filter (fun p => negb (IsSameIp p exc)) (peers s)))
  /\ (forall p e1 e2, p ∈ peers s -> e1 ∈ except -> e2 ∈ except -> Ip4 e1 <> Ip4 e2 ->
        (p, data) ∈ out).
Proof.
  rewrite Broadcast_run. eexists _, _. split; [reflexivity|]. split_and!; try done.
  - unfold broadcast_to. apply flat_map_concat_map.
  - intros exc ->. unfold broadcast_to. induction (peers s) as [|p l IH]; [done|].
    cbn [flat_map List.filter map]. rewrite IH. unfold copies. cbn [List.filter].
    by destruct (IsSameIp p exc).
  - intros p e1 e2 Hp H1 H2 Hne. unfold broadcast_to. apply list_elem_of_In, in_flat_map.
    exists p. split; [by apply list_elem_of_In|]. apply list_elem_of_In, elem_of_replicate. split; [done|].
    assert (exists e, e ∈ except /\ IsSameIp p e = false) as (e & He & Hd).
    { destruct (IsSameIp p e1) eqn:E1; [|by exists e1]. destruct (IsSameIp p e2) eqn:E2; [|by exists e2].
      apply IsSameIp_spec in E1, E2. congruence. }
    unfold copies. destruct except as [|x l]; [done|]. intros Hl%nil_length_inv.
    assert (e ∈ List.filter (fun exc => negb (IsSameIp p exc)) (x :: l)) as Hin.
    { apply list_elem_of_In, filter_In. split; [by apply list_elem_of_In|by rewrite Hd]. }
    rewrite Hl in Hin. by apply elem_of_nil in Hin.
Qed.

(** C33: whatever arrives (any bytes on any connection), whichever peers fail
    and whenever discovery runs, the peer list of a service keeps its
    invariant: no address twice, never the node's own address, and only
    addresses of the verified form.  The service's handlers have to leave the
    list alone, which those of the program do. *)
Theorem peers_invariant {S} `{HasP2pLaws S} (handlerFn : bytes -> M S (option error)) onFailFn port network s0 s :
  (forall raw0, only_sends (handlerFn raw0)) ->
  (forall fn n, onFailFn = Some fn -> only_sends (fn n)) ->
  p2p_of s0 = NewP2pService port network -> rtc (p2p_step handlerFn onFailFn) s0 s ->
  let ps := p2p_of s in
  NoDup (map Ip4 (peers ps)) /\ (Ip4 (self ps) ∉ map Ip4 (peers ps))
  /\ Forall (fun p => NodeInfo_Verify p = true) (peers ps).
Proof.
  intros Hh Hf Hstart Hsteps. assert (peers_ok (p2p_of s)) as [? ? ?]; [|done].
  assert (peers_ok (p2p_of s0)) as Hok by (rewrite Hstart; apply peers_ok_new). clear Hstart.
  induction Hsteps as [|s0 s1 s2 Hstep _ IH]; [done|]. apply IH. by eapply p2p_step_ok.
Qed.

(** C32: the discovery handshake introduces two nodes of one network to each
    other: a discovery over a port range with the other node's port sends it
    a hello that fits in a payload; the other node then knows this one and
    answers with its peer list; if the answer fits in a payload, this node
    then knows the other, and says hello to exactly those of its peers that
    it does not know; a larger answer is ignored. *)
Theorem discovery_handshake (h : bytes -> M P2pService (option error)) a b lo hi port :
  peers_ok a -> peers_ok b -> wf_node (self a) -> wf_node (self b) -> Forall wf_node (peers b) ->
  NodeInfo_Verify (self a) = true -> NodeInfo_Verify (self b) = true ->
  Network (self a) = Network (self b) -> Ip4 (self a) <> Ip4 (self b) ->
  lo <= port <= hi -> Ip4 (self b) = Ip4 (NewNodeInfo (Itoa port) 0) ->
  exists a1 b1 hello welcome,
    localDiscovery lo hi a = (Done None, a1) /\ (NewNodeInfo (Itoa port) 0, hello) ∈ sent a1
    /\ PackPayload (mkHelloMsg (self a)) [HelloMessage] = Ok hello
    /\ handleInbound h (Ok hello) b = (Done None, b1)
    /\ Ip4 (self a) ∈ map Ip4 (peers b1) /\ sent b1 = sent b ++ [(self a, welcome)]
    /\ (len welcome <= MaxPayloadSize -> exists a2,
          handleInbound h (Ok welcome) a1 = (Done None, a2) /\ Ip4 (self b) ∈ map Ip4 (peers a2)
          /\ sent a2 = sent a1 ++ map (fun p => (p, hello)) (unknown a2 (peers b1)))
    /\ (MaxPayloadSize < len welcome -> handleInbound h (Ok welcome) a1 = (Done None, a1)).
Proof.
  intros Ha Hb Wa Wb Wp Va Vb Hnet Hip Hport Haddr.
  destruct (localDiscovery_run lo hi a) as (hello & Hpack & Hdisc).
  pose proof (hello_small _ _ Wa Va Hpack) as Hsmall.
  unfold PackPayload in Hpack. destruct (Marshal (mkHelloMsg (self a))) as [enc|] eqn:Em; [|done].
  cbn [result_bind app] in Hpack. injection Hpack as <-.
  destruct (peers_ok_add (self a) b Hb Va) as (b1 & Hadd & Hok1 & Hself1 & Hsent1 & Hknow & Hpeers1).
  destruct (PackPayload (mkWelcomeMsg (self b) (Some (peers b1))) [WelcomeMessage]) as [welcome|] eqn:Ew; [|done].
  unfold PackPayload in Ew. destruct (Marshal (mkWelcomeMsg _ _)) as [wenc|] eqn:Ewm; [|done].
  cbn [result_bind app] in Ew. injection Ew as <-.
  set (a1 := sends _ a) in Hdisc.
  destruct (peers_ok_add (self b) a1 (peers_ok_sends _ _ Ha) Vb) as (a2 & Hadda & Hok2 & Hself2 & Hsent2 & Hknowa & _).
  exists a1, (sends [(self a, WelcomeMessage :: wenc)] b1), (HelloMessage :: enc), (WelcomeMessage :: wenc).
  split; [exact Hdisc|]. split; [|split; [unfold PackPayload; by rewrite Em|split; [|split; [|split; [|split]]]]].
  - cbn [sends sent a1]. apply elem_of_app. right.
    apply (list_elem_of_fmap_2' (fun p => (NewNodeInfo (Itoa p) 0, HelloMessage :: enc)) _ port); [|done].
    apply list_elem_of_In, filter_In. split; [apply list_elem_of_In, elem_of_seqZ; lia|].
    destruct (IsSameIp (self a) _) eqn:E; [|done]. apply IsSameIp_spec in E. congruence.
  - rewrite inbound_hello by done. change (bool_decide (HelloMessage = HelloMessage)) with true. cbv iota.
    eapply handleJoin_accepts; try done. unfold PackPayload. rewrite Hself1. by rewrite Ewm.
  - by apply Hknow.
  - cbn [sends sent]. by rewrite Hsent1.
  - intros Hl. exists (sends (map (fun p => (p, HelloMessage :: enc)) (unknown a2 (peers b1))) a2).
    split; [|split; [apply Hknowa; by apply not_eq_sym|]].
    + rewrite inbound_hello by done. change (bool_decide (WelcomeMessage = HelloMessage)) with false.
      change (bool_decide (WelcomeMessage = WelcomeMessage)) with true. cbv iota.
      eapply (handleWelcome_accepts (mkWelcomeMsg (self b) (Some (peers b1)))); try done.
      * split; [done|]. cbn [KnownPeer opt_Forall]. apply Forall_forall. intros q Hq.
        destruct (Hpeers1 q Hq) as [Hq'| ->]; [|done]. by apply (proj1 (Forall_forall _ _) Wp).
      * unfold WelcomeMsg_Verify. cbn [welcome_From KnownPeer default id]. rewrite Vb. cbn [negb].
        apply forallb_forall. intros q Hq. destruct Hok1 as [_ _ Hv].
        apply (proj1 (Forall_forall _ _) Hv). by apply list_elem_of_In.
      * rewrite Hself2. unfold PackPayload. cbn [self a1 sends]. by rewrite Em.
    + cbn [sends sent]. by rewrite Hsent2.
  - intros Hl. unfold handleInbound. by rewrite (proj2 (Z.ltb_lt _ _) Hl).
Qed.
End p2p_properties.

(** *** Witnesses *)
Section p2p_witnesses.
Import Toy.

(** A handler that echoes to all peers. *)
Definition echo (raw0 : bytes) : M P2pService (option error) :=
  let* _ := Broadcast raw0 [] in ret None.

Lemma echo_only_sends raw0 : only_sends (echo raw0).
Proof. intros s r s'. unfold echo, bind. rewrite Broadcast_run. by intros [= <- <-]. Qed.

Definition port_a : P2pService := NewP2pService "3000" SyncNode.
Definition port_b : P2pService := NewP2pService "3001" SyncNode.
Definition hello_a : bytes :=
  match PackPayload (mkHelloMsg (self port_a)) [HelloMessage] with Ok b => b | Err _ => [] end.

Lemma peers_invariant_witness :
  exists s, rtc (p2p_step echo None) port_b s /\ map Ip4 (peers s) = ["localhost:3000"%string]
    /\ NoDup (map Ip4 (peers s)).
Proof.
  set (s := snd (handleInbound echo (Ok hello_a) port_b)).
  assert (rtc (p2p_step echo None) port_b s) as Hsteps.
  { apply rtc_once. apply (step_inbound _ _ (Ok hello_a) None). vm_compute. reflexivity. }
  exists s. split; [exact Hsteps|]. split; [vm_compute; reflexivity|].
  destruct (peers_invariant echo None "3001" SyncNode port_b s) as [Hn _]; [|done|reflexivity|exact Hsteps|exact Hn].
  intros raw0. apply echo_only_sends.
Defined.

Lemma discovery_handshake_witness :
  exists a1 b1 hello welcome, localDiscovery 3000 3002 port_a = (Done None, a1)
    /\ handleInbound echo (Ok hello) port_b = (Done None, b1)
    /\ exists a2, handleInbound echo (Ok welcome) a1 = (Done None, a2)
         /\ Ip4 (self port_b) ∈ map Ip4 (peers a2).
Proof.
  assert (forall p, peers_ok (NewP2pService p SyncNode)) as Hok by (intros p; apply peers_ok_new).
  assert (forall p, ascii_string (Ip4Format p) -> wf_node (NewNodeInfo p SyncNode)) as Hwf.
  { intros p Hp. split; [exact Hp|by vm_compute]. }
  destruct (discovery_handshake echo port_a port_b 3000 3002 3001)
    as (a1 & b1 & hello & welcome & Hd & _ & Hh & Hj & _ & Hs & Hw & _).
  - apply Hok.
  - apply Hok.
  - apply Hwf. apply ascii_by_compute. vm_compute. reflexivity.
  - apply Hwf. apply ascii_by_compute. vm_compute. reflexivity.
  - constructor.
  - vm_compute. reflexivity.
  - vm_compute. reflexivity.
  - reflexivity.
  - vm_compute. discriminate.
  - lia.
  - vm_compute. reflexivity.
  - exists a1, b1, hello, welcome. split; [exact Hd|]. split; [exact Hj|].
    destruct Hw as (a2 & Ha & Hk & _); [|exists a2; split; [exact Ha|exact Hk]].
    assert (hello = hello_a) as -> by (unfold hello_a; by rewrite Hh).
    assert (forallb (fun m => len m.2 <=? MaxPayloadSize)
      (sent (snd (handleInbound echo (Ok hello_a) port_b))) = true) as K by (vm_compute; reflexivity).
    rewrite Hj in K. cbn [snd] in K. rewrite Hs in K. apply andb_prop in K as [K _]. apply Z.leb_le, K.
Defined.
End p2p_witnesses.
