(* ===== verification/Node.v ===== *)
(** Package [nodes], part one: the state that the services of a node share, and
    the operations of the node itself (nodes/node.go).

    The node's parts hold pointers to one another; here they are fields of one
    record.  [n_errs] collects what the services send on their error channels:
    the node ends on the first of them. *)
From S2P Require Import Prelude Json JsonLaws Common External Accounts Txs Blocks Memory Storage.
From S2P Require Import Executers P2p.
Open Scope Z_scope.

Section node.
Context `{Sha3, Base58, ExpSlices, MapOrder, Bolt}.

Record Node := mkNode {
  n_exe : Executer;                                 (* executer, memoryHandle, storageSevice *)
  n_bc : Blockchain;                                (* blockchain *)
  n_p2p : P2pService;                               (* syncService.p2pService *)
  n_chs : option (list Z);                          (* syncService.chs: the heights with a channel *)
  n_replies : list (Z * Result (option Block));     (* goroutines that send on one of them *)
  n_syncing : bool;                                 (* syncService.isSyncing *)
  n_errs : list error
}.

Definition set_n_exe (x : Executer) (n : Node) : Node :=
  mkNode x (n_bc n) (n_p2p n) (n_chs n) (n_replies n) (n_syncing n) (n_errs n).
Definition set_n_bc (bc : Blockchain) (n : Node) : Node :=
  mkNode (n_exe n) bc (n_p2p n) (n_chs n) (n_replies n) (n_syncing n) (n_errs n).
Definition set_n_p2p (ps : P2pService) (n : Node) : Node :=
  mkNode (n_exe n) (n_bc n) ps (n_chs n) (n_replies n) (n_syncing n) (n_errs n).
(** A new map of channels; senders on the old channels are never received. *)
Definition set_n_chs (chs : option (list Z)) (n : Node) : Node :=
  mkNode (n_exe n) (n_bc n) (n_p2p n) chs [] (n_syncing n) (n_errs n).
Definition set_n_replies (l : list (Z * Result (option Block))) (n : Node) : Node :=
  mkNode (n_exe n) (n_bc n) (n_p2p n) (n_chs n) l (n_syncing n) (n_errs n).
Definition set_n_syncing (b : bool) (n : Node) : Node :=
  mkNode (n_exe n) (n_bc n) (n_p2p n) (n_chs n) (n_replies n) b (n_errs n).
Definition report (e : error) : M Node unit :=
  modify (fun n => mkNode (n_exe n) (n_bc n) (n_p2p n) (n_chs n) (n_replies n) (n_syncing n) (n_errs n ++ [e])).

Definition in_exe {A} (m : M Executer A) : M Node A := zoom n_exe set_n_exe m.

#[export] Instance Node_has_p2p : HasP2p Node := {| p2p_of := n_p2p; with_p2p := set_n_p2p |}.
#[export] Instance Node_has_p2p_laws : HasP2pLaws Node.
Proof. split; [done|]. by intros []. Qed.

(** [NewNode], with the memory service given and the storage opened. *)
Definition NewNode (syncPort : string) (memory : MemoryService) (storage : result DB) : result Node :=
  let? storage := storage in
  Ok (mkNode (mkExecuter (mkEnv memory storage) None) NewBlockchain
        (NewP2pService syncPort SyncNode) None [] false []).

(** The handler of the event that a block was stored.  [now] is the clock. *)
Definition OnBlockStored (now : Z) (b : Block) : M Node (option error) :=
  let* err :=
    (if bi_Height (Info b) =? 0 then
       let* err := in_exe (Faucet_Init now) in
       match err with
       | Some e => ret (Some e)
       | None => in_exe (in_env (FetchAccounts [bi_PublicKey (Info b)]))
       end
     else ret None) in
  match err with
  | Some e => ret (Some e)
  | None =>
      let* _ := modify (fun n => set_n_bc (Increment (bi_Hash (Info b)) (n_bc n)) n) in
      ret None
  end.

(** The beginning of [Run], with [SyncService.Run] in it; the listeners and
    service loops it starts are the other operations of this development. *)
Definition Node_open : M Node unit :=
  let* _ := modify (set_n_syncing false) in
  let* err := in_p2p (localDiscovery 3000 3002) in
  match err with Some e => report e | None => ret tt end.

(** The rest of [Run], up to the error that it sends on [eCh] itself. *)
Definition Node_restore (now : Z) : M Node (option error) :=
  let* err := in_exe (Faucet_Init now) in
  match err with
  | Some e => ret (Some e)
  | None =>
      let* res := in_exe (db (Storage_Get BlocksKind RefLatest None)) in
      match ResErr res with
      | Some e => ret (Some e)
      | None =>
          let* err :=
            match Value res with
            | None => ret None
            | Some v =>
                match Unmarshal (T := Block) v with
                | Err e => ret (Some e)
                | Ok blk =>
                    let* _ := modify (fun n => set_n_bc
                      (Blockchain_Init (u64 (bi_Height (Info blk) + 1)) (bi_Hash (Info blk)) (n_bc n)) n) in
                    ret None
                end
            end in
          match err with
          | Some e => ret (Some e)
          | None => in_exe (in_env FetchAllAccounts)
          end
      end
  end.

Definition Node_Run (now : Z) : M Node unit :=
  let* _ := Node_open in
  let* err := Node_restore now in
  match err with Some e => report e | None => ret tt end.
End node.
