(* ===== verification/Sync.v ===== *)
(** Package [nodes/sync]: exchanging transactions and blocks with other nodes
    (nodes/sync/sync_msgs.go, nodes/sync/sync_service.go).

    The goroutines of a sync communicate over one channel per awaited height:
    [n_chs] says which heights have one, and [n_replies] which goroutines wait
    to send on them. *)
From S2P Require Import Prelude Json JsonLaws Common External Accounts Txs Blocks Rpc Memory Storage.
From S2P Require Import Executers Producer P2p Node.
Open Scope Z_scope.

Definition TxMsg : byte := x01.
Definition BlockRequestMessage : byte := x02.
Definition BlockResponseMessage : byte := x03.

Record TransactionMsg := mkTransactionMsg { Origins : option (list NodeInfo); tm_Tx : Transaction }.
Record BlockRequestMsg := mkBlockRequestMsg { brq_From : NodeInfo; brq_Height : Z }.
Record BlockResponseMsg := mkBlockResponseMsg { brs_From : NodeInfo; brs_Block : Block }.

#[export] Instance TransactionMsg_json : JSON TransactionMsg :=
  struct_codec (mkTransactionMsg None (c_zero Transaction_json))
    [ fld "Origins" Origins (fun a x => mkTransactionMsg a (tm_Tx x)) (slice_codec NodeInfo_json);
      fld "Tx" tm_Tx (fun a x => mkTransactionMsg (Origins x) a) Transaction_json ].

#[export] Instance BlockRequestMsg_json : JSON BlockRequestMsg :=
  struct_codec (mkBlockRequestMsg (c_zero NodeInfo_json) 0)
    [ fld "From" brq_From (fun a x => mkBlockRequestMsg a (brq_Height x)) NodeInfo_json;
      fld "Height" brq_Height (fun a x => mkBlockRequestMsg (brq_From x) a) (uint_codec 64) ].

#[export] Instance BlockResponseMsg_json : JSON BlockResponseMsg :=
  struct_codec (mkBlockResponseMsg (c_zero NodeInfo_json) (c_zero Block_json))
    [ fld "From" brs_From (fun a x => mkBlockResponseMsg a (brs_Block x)) NodeInfo_json;
      fld "Block" brs_Block (fun a x => mkBlockResponseMsg (brs_From x) a) Block_json ].

Section sync.
Context `{Sha3, Ed25519, Base58, ExpSlices, MapOrder, Bolt}.

Definition TransactionMsg_Verify (tm : TransactionMsg) : outcome (result bool) :=
  if negb (forallb NodeInfo_Verify (default [] (Origins tm))) then Done (Ok false)
  else Transaction_Verify (tm_Tx tm).

Definition BlockRequestMsg_Verify (bqm : BlockRequestMsg) : bool := NodeInfo_Verify (brq_From bqm).

Definition BlockResponseMsg_Verify (bsm : BlockResponseMsg) : outcome bool :=
  outcome_and (Done (NodeInfo_Verify (brs_From bsm))) (Block_Verify (brs_Block bsm)).

(** ** The interfaces of the service *)
Definition IsSyncing : M Node bool := gets n_syncing.

Definition BroadcastTx (tx : Transaction) (origin : list NodeInfo) : M Node (option error) :=
  let* n := get in
  let origin := origin ++ [self (n_p2p n)] in
  match PackPayload (mkTransactionMsg (Some origin) tx) [SyncMessage; TxMsg] with
  | Err e => ret (Some e)
  | Ok payload =>
      let* _ := in_p2p (Broadcast payload origin) in
      ret None
  end.

(** What the goroutine of [NewBlock] does when [ok] arrives on its channel. *)
Definition Sync_waitForFinality (now : Z) (ok : bool) (blk : Block) : M Node unit :=
  let keys := ToKeys (Bundle blk) in
  if ok then
    let* res := in_exe (db (Storage_Put BlocksKind (Some blk))) in
    match ResErr res with
    | Some e => report e
    | None =>
        let* _ := in_exe (mem (RemoveTxs keys)) in
        let* err := OnBlockStored now blk in
        match err with Some e => report e | None => ret tt end
    end
  else ret tt.

(** ** Handlers *)
Definition handleTx (raw_ : bytes) : M Node (option error) :=
  match Unmarshal (T := TransactionMsg) raw_ with
  | Err e => ret (Some e)
  | Ok msg =>
      let* v := lift (TransactionMsg_Verify msg) in
      match v with
      | Err e => ret (Some e)
      | Ok false => ret None
      | Ok true =>
          match Unmarshal (T := Call) (raw (td_Data (tx_InnerData (tm_Tx msg)))) with
          | Err _ => ret None
          | Ok call =>
              if negb (Call_Verify call) then ret None
              else
                let* n := get in
                if ContainsFunc (default [] (Origins msg)) (fun o => IsSameIp o (self (n_p2p n)))
                then ret None
                else if ContainsTx (tx_Hash (tm_Tx msg)) (env_mem (exe_env (n_exe n))) then ret None
                else
                  let* _ := in_exe (mem (AppendTx (tm_Tx msg))) in
                  BroadcastTx (tm_Tx msg) (default [] (Origins msg))
          end
      end
  end.

Definition handleBlockReq (raw_ : bytes) : M Node (option error) :=
  match Unmarshal (T := BlockRequestMsg) raw_ with
  | Err e => ret (Some e)
  | Ok reqmsg =>
      if negb (BlockRequestMsg_Verify reqmsg) then ret None
      else
        let* n := get in
        if u64 (nextHeight (n_bc n) - 1) <? brq_Height reqmsg then ret None
        else
          match ToHex Uint64 (brq_Height reqmsg) with
          | Err _ => ret None
          | Ok ref =>
              let* res := in_exe (db (Storage_Get BlocksKind RefIndex (Some ref))) in
              match ResErr res, Value res with
              | Some e, _ => ret (Some e)
              | None, None => ret None
              | None, Some v =>
                  match Unmarshal (T := Block) v with
                  | Err e => ret (Some e)
                  | Ok blk =>
                      match PackPayload (mkBlockResponseMsg (self (n_p2p n)) blk)
                              [SyncMessage; BlockResponseMessage] with
                      | Err e => ret (Some e)
                      | Ok payload =>
                          let* _ := in_p2p (P2p_Send (brq_From reqmsg) payload) in
                          ret None
                      end
                  end
              end
          end
  end.

(** The hashes of a genesis block, which does not pass [Verify]. *)
Definition genesis_hashes_ok (b : Block) : bool :=
  negb (is_nil (bi_Hash (Info b)) || negb (len (raw (bi_Hash (Info b))) =? HashSize)
        || is_nil (PreviousBlockHash b) || negb (len (raw (PreviousBlockHash b)) =? HashSize)
        || is_nil (StateHash b) || negb (len (raw (StateHash b)) =? HashSize)).

(** The final send, on a channel without buffer, keeps the handler waiting until
    a sync receives, for ever when none does; once received, it returns [None]. *)
Definition handleBlockRes (raw_ : bytes) : M Node (option error) :=
  match Unmarshal (T := BlockResponseMsg) raw_ with
  | Err e => ret (Some e)
  | Ok msg =>
      let blk := brs_Block msg in
      let* ok := (if negb (bi_Height (Info blk) =? 0) then lift (BlockResponseMsg_Verify msg)
                  else ret (genesis_hashes_ok blk)) in
      if negb ok then ret None
      else
        let* n := get in
        match n_chs n with
        | None => ret None
        | Some chs =>
            if negb (bool_decide (bi_Height (Info blk) ∈ chs)) then ret None
            else
              let* _ := modify (set_n_replies
                (n_replies n ++ [(bi_Height (Info blk), mkResult (Some blk) None)])) in
              block "send on the channel of a height"
        end
  end.

Definition handleSyncMessage (raw_ : bytes) : M Node (option error) :=
  match raw_ with
  | [] => panic "index out of range"
  | k :: rest =>
      if negb (bool_decide (k = SyncMessage)) then ret None
      else
        match rest with
        | [] => panic "index out of range"
        | kind :: body =>
            if bool_decide (kind = TxMsg) then handleTx body
            else if bool_decide (kind = BlockRequestMessage) then handleBlockReq body
            else if bool_decide (kind = BlockResponseMessage) then handleBlockRes body
            else ret None
        end
  end.

(** ** Catching up

    [StartSync] starts the goroutine [sync] unless one runs; the result is the
    target it was started with. *)
Definition StartSync (targetHeight : Z) : M Node (option Z) :=
  let* n := get in
  if n_syncing n then ret None
  else let* _ := modify (set_n_syncing true) in ret (Some targetHeight).

(** A goroutine that waits to send on the channel of a height. *)
Definition reply (height : Z) (r : Result (option Block)) : M Node unit :=
  modify (fun n => set_n_replies (n_replies n ++ [(height, r)]) n).

Definition blockRequest (height index : Z) : M Node unit :=
  let* n := get in
  match PackPayload (mkBlockRequestMsg (self (n_p2p n)) height) [SyncMessage; BlockRequestMessage] with
  | Err e => reply height (mkResult None (Some e))
  | Ok payload =>
      let* p := lift (PeerByIndex index (n_p2p n)) in
      match p with
      | None => reply height (mkResult None (Some "index out of peers"%string))
      | Some p => in_p2p (P2p_Send p payload)
      end
  end.

(** One request per peer, for consecutive heights up to the target; the result
    is the height after the last one. *)
Fixpoint block_requests (idxs : list Z) (current target : Z) : M Node Z :=
  match idxs with
  | [] => ret current
  | i :: idxs' =>
      let* _ := modify (fun n => mkNode (n_exe n) (n_bc n) (n_p2p n)
                  (Some (default [] (n_chs n) ++ [current])) (n_replies n) (n_syncing n) (n_errs n)) in
      let* _ := blockRequest current i in
      let current := u64 (current + 1) in
      if target <? current then ret current else block_requests idxs' current target
  end.

(** What happens while a sync waits: a message arrives, or the timer fires. *)
Inductive SyncEvent := Timeout | Inbound (conn : result bytes).

(** A connection is handled in a goroutine of its own, which may wait. *)
Definition serve (conn : result bytes) : M Node unit :=
  spawn (
    let* err := handleInbound handleSyncMessage conn in
    match err with Some e => report e | None => ret tt end).

(** The oldest sender on the channel of a height. *)
Fixpoint take_reply (height : Z) (l : list (Z * Result (option Block)))
  : option (Result (option Block) * list (Z * Result (option Block))) :=
  match l with
  | [] => None
  | (h, r) :: l' =>
      if h =? height then Some (r, l')
      else match take_reply height l' with
           | Some (r', rest) => Some (r', (h, r) :: rest)
           | None => None
           end
  end.

(** The [select] of the sync; [None] is the timeout, which also comes when
    nothing else does. *)
Fixpoint wait_reply (cache : Z) (evs : list SyncEvent)
  : M Node (option (Result (option Block)) * list SyncEvent) :=
  let* n := get in
  match take_reply cache (n_replies n) with
  | Some (r, rest) => let* _ := modify (set_n_replies rest) in ret (Some r, evs)
  | None =>
      match evs with
      | [] => ret (None, [])
      | Timeout :: evs' => ret (None, evs')
      | Inbound conn :: evs' => let* _ := serve conn in wait_reply cache evs'
      end
  end.

(** How an iteration ends: on to the next block; give up, to be retried on the
    next gossip; or an error was reported, and the goroutine returns. *)
Inductive sync_result := SyncContinue | SyncRetry | SyncStop.

Definition abandon : M Node sync_result :=
  let* _ := modify (set_n_chs None) in
  let* _ := modify (set_n_syncing false) in
  ret SyncRetry.
Definition stop (e : error) : M Node sync_result := let* _ := report e in ret SyncStop.

(** Check and execute a received block; genesis is taken as it is. *)
Definition sync_execute (blk : Block) : M Node (sync_result * Block) :=
  if 0 <? bi_Height (Info blk) then
    let* n := get in
    if negb (CheckBlockInfo (n_bc n) blk) then let* r := abandon in ret (r, blk)
    else
      let* ex := in_exe (ExecuteNow (default [] (Transactions (Bundle blk)))) in
      let '(executedTxs, res) := ex in
      let blk := set_Transactions executedTxs blk in
      match res with
      | Err e => let* r := stop e in ret (r, blk)
      | Ok executed =>
          let* st := in_exe (CheckStateHash blk) in
          match st with
          | Err e => let* r := stop e in ret (r, blk)
          | Ok (false, _) => let* r := abandon in ret (r, blk)
          | Ok (true, state) =>
              let* h := lift (CheckBlockHash (n_bc n) blk state) in
              match h with
              | Err e => let* r := stop e in ret (r, blk)
              | Ok false => let* r := abandon in ret (r, blk)
              | Ok true =>
                  let* err := in_exe (in_env (PushAccounts executed)) in
                  match err with
                  | Some e => let* r := stop e in ret (r, blk)
                  | None => ret (SyncContinue, blk)
                  end
              end
          end
      end
  else ret (SyncContinue, blk).

Definition sync_block (now : Z) (blk : Block) : M Node sync_result :=
  let* r := sync_execute blk in
  let '(r, blk) := r in
  match r with
  | SyncContinue =>
      let* putres := in_exe (db (Storage_Put BlocksKind (Some blk))) in
      match ResErr putres with
      | Some e => stop e
      | None =>
          let* err := OnBlockStored now blk in
          match err with Some e => stop e | None => ret SyncContinue end
      end
  | _ => ret r
  end.

(** Wait for [k] blocks from [cache] on. *)
Fixpoint sync_wait (now : Z) (k : nat) (cache : Z) (evs : list SyncEvent)
  : M Node (sync_result * list SyncEvent) :=
  match k with
  | O => ret (SyncContinue, evs)
  | S k' =>
      let* w := wait_reply cache evs in
      let '(res, evs) := w in
      match res with
      | None => let* r := abandon in ret (r, evs)
      | Some res =>
          match ResErr res, Value res with
          | Some e, _ => let* r := stop e in ret (r, evs)
          | None, None => panic "receiving nil pointer is not expected"
          | None, Some blk =>
              let* r := sync_block now blk in
              match r with
              | SyncContinue => sync_wait now k' (u64 (cache + 1)) evs
              | _ => ret (r, evs)
              end
          end
      end
  end.

(** The outer loop.  A round without peers only gives way to what arrives. *)
Fixpoint sync_rounds (now : Z) (fuel : nat) (target current : Z) (evs : list SyncEvent) : M Node unit :=
  match fuel with
  | O => block "sync: the loop spins without peers"
  | S fuel' =>
      let* _ := modify (set_n_chs (Some [])) in
      let* n := get in
      let peerLen := LenPeers (n_p2p n) in
      let cache := current in
      let* current := block_requests (seqZ 0 peerLen) current target in
      let* n := get in
      let* w := sync_wait now (length (default [] (n_chs n))) cache evs in
      let '(r, evs) := w in
      match r with
      | SyncContinue =>
          if target <? current then
            let* _ := modify (set_n_chs None) in
            modify (set_n_syncing false)
          else if peerLen =? 0 then
            match evs with
            | [] => sync_rounds now fuel' target current evs
            | Timeout :: evs' => sync_rounds now fuel' target current evs'
            | Inbound conn :: evs' => let* _ := serve conn in sync_rounds now fuel' target current evs'
            end
          else sync_rounds now fuel' target current evs
      | _ => ret tt
      end
  end.

(** A round with peers advances by at least one height, and one without takes
    an event; so the fuel is enough unless the loop spins. *)
Definition sync (now target : Z) (evs : list SyncEvent) : M Node unit :=
  let* n := get in
  let current := nextHeight (n_bc n) in
  sync_rounds now (Z.to_nat (target - current) + length evs + 2) target current evs.
End sync.
