(* ===== verification/NodeFacts.v ===== *)
(** Facts about a node between its operations: what it maintains, storing a
    final block, the faucet, and starting from a database. *)
From S2P Require Import Prelude Json JsonLaws Common External Merkle Accounts Txs Blocks Rpc Memory.
From S2P Require Import MemoryFacts MempoolFacts Ledger Storage StorageFacts StorageProps Executers.
From S2P Require Import ExecuterFacts BlockExec Settlement P2p P2pProps Node Sync.
Open Scope Z_scope.

Section node_facts.
Context `{Sha3, Ed25519, Base58, ExpSlices, MapOrder, Bolt, !ExpSlicesLaws, !Base58Laws, !BoltLaws}.

Definition nmem (n : Node) : MemoryService := xmem (n_exe n).
Definition ndb (n : Node) : DB := xdb (n_exe n).
Definition nledger (n : Node) : Ledger := xledger (n_exe n).

(** The pool that the queued requests lead to. *)
Definition pool_of (s : MemoryService) : gmap string Transaction := fold_left apply_tx (txCh s) (mempool s).

(** The latest block of a database, as it is stored. *)
Definition latest_block (db : DB) (b : Block) (enc : bytes) : Prop :=
  Marshal b = Ok enc
  /\ bolt_get db blocksBucket latestKey = Some (raw (bi_Hash (Info b)))
  /\ bolt_get db blocksBucket (raw (bi_Hash (Info b))) = Some enc.

(** Between two operations of a node. *)
Record node_ok (n : Node) (gen : bytes) : Prop := {
  no_settled : settled (n_exe n) gen;
  no_blocks : bolt_has_bucket (ndb n) blocksBucket = true;
  no_room : (length (txCh (nmem n)) <= txCh_room)%nat
}.

Lemma in_exe_done {A} (m : M Executer A) n a x :
  m (n_exe n) = (Done a, x) -> in_exe m n = (Done a, set_n_exe x n).
Proof. unfold in_exe, zoom. by intros ->. Qed.

Lemma in_exe_db {A} (m : M DB A) n a db' : m (ndb n) = (Done a, db') ->
  in_exe (db m) n = (Done a, set_n_exe (set_exe_env (set_env_db db' (exe_env (n_exe n))) (n_exe n)) n).
Proof.
  intros Hm. apply in_exe_done. unfold db, in_env, in_db, zoom. unfold ndb, xdb in Hm. by rewrite Hm.
Qed.

(** [settled] depends on the database through the accounts bucket. *)
Lemma settled_db x db' gen : settled x gen -> (forall db, bolt_commit db = None) ->
  bolt_has_bucket db' accountsBucket = true ->
  (forall k, is_key k -> bolt_get db' accountsBucket k = bolt_get (xdb x) accountsBucket k) ->
  settled (set_exe_env (set_env_db db' (exe_env x)) x) gen.
Proof.
  intros [[Q1 Q2 Q3 Q4] G S W A] Hc Hb Hg.
  assert (forall pk, is_key pk -> stored_state db' pk = stored_state (xdb x) pk) as Hs
    by (intros pk Kpk; unfold stored_state; by rewrite Hg).
  assert (forall pk, is_key pk -> stored db' pk = stored (xdb x) pk) as Hs'
    by (intros pk Kpk; unfold stored; by rewrite Hs).
  split; [split; [done|done| |apply Hc]|done|..].
  - split; [done|]. intros pk Kpk. change (xdb _) with db'. rewrite Hs by done. by apply Q3.
  - intros pk Kpk. change (xdb _) with db'. rewrite Hs' by done. by apply S.
  - exact W.
  - intros pk Kpk. unfold agree. change (xdb _) with db'. rewrite Hs' by done. by apply A.
Qed.

Lemma send_tx_run req x gen : settled x gen -> (length (txCh (xmem x)) <= txCh_room)%nat ->
  exists s', mem (send_tx req) x = (Done tt, set_xmem s' x) /\ settled (set_xmem s' x) gen
    /\ (length (txCh s') <= txCh_room)%nat /\ ledger s' = xledger x
    /\ pool_of s' = apply_tx (pool_of (xmem x)) req.
Proof.
  intros [[Q1 Q2 Q3 Q4] G S W A] Hl.
  destruct (send_tx_spec req (xmem x) Q1 Hl)
    as (s' & Hr & Hl' & Hp & Hq & Hh & Hm).
  assert (ledger s' = xledger x) as HL by (unfold ledger; by rewrite Hh, Hm).
  exists s'. split_and!; [by apply mem_done| |done|exact HL|exact Hp].
  split; [split|done|done|..].
  - unfold idle. cbn. by rewrite Hq.
  - unfold wf_mem. cbn. by rewrite Hh, Hm.
  - exact Q3.
  - exact Q4.
  - change (wf_ledger (ledger s')). by rewrite HL.
  - intros pk Kpk. unfold agree. change (xledger (set_xmem s' x)) with (ledger s'). rewrite HL. by apply A.
Qed.

Lemma RemoveTxs_run keys x gen : settled x gen -> (length (txCh (xmem x)) <= txCh_room)%nat ->
  exists s', mem (RemoveTxs keys) x = (Done tt, set_xmem s' x) /\ settled (set_xmem s' x) gen
    /\ (length (txCh s') <= txCh_room)%nat /\ ledger s' = xledger x
    /\ pool_of s' = Mempool_Remove keys (pool_of (xmem x)).
Proof. exact (send_tx_run (mkMempoolRequest MemRemove None (Some keys)) x gen). Qed.

(** A final block is stored, its transactions leave the pool and the chain
    moves on. *)
Lemma block_final now blk enc n gen :
  (forall db, bolt_commit db = None) -> node_ok n gen ->
  Marshal blk = Ok enc -> len enc <= MaxValueSize -> length (raw (bi_Hash (Info blk))) = 32%nat ->
  bi_Height (Info blk) <> 0 ->
  exists x', Sync_waitForFinality now true blk n
      = (Done tt, set_n_bc (Increment (bi_Hash (Info blk)) (n_bc n)) (set_n_exe x' n))
    /\ node_ok (set_n_exe x' n) gen /\ xledger x' = nledger n /\ latest_block (xdb x') blk enc
    /\ pool_of (xmem x') = Mempool_Remove (ToKeys (Bundle blk)) (pool_of (nmem n)).
Proof.
  intros Hc [Hs Hb Hr] Hm Hv Hl Hh.
  destruct (put_block_run blk (ndb n) enc Hc Hb Hl Hm Hv) as (db' & Hput & [G1 G2 G3 G4 Hbs Ho]).
  set (x1 := set_exe_env (set_env_db db' (exe_env (n_exe n))) (n_exe n)).
  assert (settled x1 gen) as Hs1.
  { apply settled_db; [done|done|rewrite Hbs; apply (q_db _ (se_quiet _ _ Hs))|].
    intros k _. apply Ho. left. by vm_compute. }
  destruct (RemoveTxs_run (ToKeys (Bundle blk)) x1 gen Hs1 Hr) as (s' & Hrm & Hs2 & Hr2 & HL & Hp).
  exists (set_xmem s' x1). split_and!.
  - unfold Sync_waitForFinality. rewrite (bind_done _ _ _ _ _ (in_exe_db _ _ _ _ Hput)). cbn [ResErr].
    assert (in_exe (mem (RemoveTxs (ToKeys (Bundle blk)))) (set_n_exe x1 n)
            = (Done tt, set_n_exe (set_xmem s' x1) n)) as Hrm' by exact (in_exe_done _ (set_n_exe x1 n) _ _ Hrm).
    rewrite (bind_done _ _ _ _ _ Hrm'). unfold OnBlockStored.
    by rewrite (proj2 (Z.eqb_neq _ _) Hh), bind_assoc, bind_ret_l.
  - split; [exact Hs2| |exact Hr2]. change (bolt_has_bucket db' blocksBucket = true). by rewrite Hbs.
  - exact HL.
  - by split_and!.
  - exact Hp.
Qed.

(** ** The faucet *)
Lemma accounts_get k db : bolt_has_bucket db accountsBucket = true ->
  Storage_Get AccountsKind RefKey (Some k) db = (Done (mkResult (bolt_get db accountsBucket k) None), db).
Proof.
  intros Hb. assert (Bucket accountsBucket db = (Done tt, db)) as HB by (unfold Bucket; by rewrite Hb).
  unfold Storage_Get, storage_get. cbn [andb is_nil]. unfold bind at 1, GetByKey.
  by rewrite (bind_done _ _ _ _ _ HB).
Qed.

Lemma accounts_put a k enc idx db : (forall db, bolt_commit db = None) ->
  bolt_has_bucket db accountsBucket = true -> Account_ToBytes a = Ok enc -> ac_PublicKey a = Some k ->
  is_key k -> Account_GetIndex a = Ok idx -> length idx = 8%nat -> len enc <= MaxValueSize ->
  exists db', Storage_Put AccountsKind (Some a) db = (Done (mkResult None None), db')
    /\ (forall b, bolt_has_bucket db' b = bolt_has_bucket db b)
    /\ (forall b k', b <> accountsBucket -> bolt_get db' b k' = bolt_get db b k')
    /\ forall k', is_key k' -> bolt_get db' accountsBucket k'
         = if decide (k' = k) then Some enc else bolt_get db accountsBucket k'.
Proof.
  intros Hc Hb He Hk Kk Hi Li Lv.
  assert (ToBytes a = Ok enc) as He' by exact He. assert (length k = 32%nat) as Lk by exact Kk.
  destruct (StorageDb_Put_run accountsBucket a db enc (Some k) idx Hc Hb He') as (db' & Hp & Hbs & Hg);
    [cbn; unfold Account_GetKey; by rewrite Hk|exact Hi|unfold len, MaxKeySize; cbn [raw default id]; lia|unfold len, MaxKeySize; lia|done|].
  exists db'. split_and!; [|exact Hbs| |].
  - unfold Storage_Put, storage_put. by rewrite (bind_done _ _ _ _ _ Hp).
  - intros b k' Hne. by rewrite Hg, decide_False.
  - intros k' Kk'. rewrite Hg, decide_True by done. cbn [raw default id]. unfold put_entries.
    repeat (rewrite decide_False by (intros ->; by revert Kk'; rewrite ?Li)). done.
Qed.

(** The block at height 0 names the generator. *)
Definition genesis_in (db : DB) (gen : bytes) : Prop :=
  is_key gen /\ exists h enc g, bolt_get db blocksBucket (replicate 8 x00) = Some h
    /\ bolt_get db blocksBucket h = Some enc /\ Unmarshal (T := Block) enc = Ok g
    /\ bi_PublicKey (Info g) = Some gen.

Definition generator_state : AccountState := mkAccountState 0 GeneratorBalance.

(** What the faucet leaves: the generator has an account. *)
Record funded (db db' : DB) (gen : bytes) : Prop := {
  fd_bucket b : bolt_has_bucket db' b = bolt_has_bucket db b;
  fd_other b k : b <> accountsBucket -> bolt_get db' b k = bolt_get db b k;
  fd_rest k : is_key k -> k <> gen -> bolt_get db' accountsBucket k = bolt_get db accountsBucket k;
  fd_gen : bolt_get db' accountsBucket gen <> None
    /\ stored_state db' gen = if decide (bolt_get db accountsBucket gen = None) then Ok generator_state
                              else stored_state db gen
}.

Lemma Faucet_Init_run now x gen : (forall db, bolt_commit db = None) ->
  bolt_has_bucket (xdb x) blocksBucket = true -> bolt_has_bucket (xdb x) accountsBucket = true ->
  genesis_in (xdb x) gen ->
  exists db', Faucet_Init now x = (Done None, mkExecuter (mkEnv (xmem x) db') (Some gen))
    /\ funded (xdb x) db' gen.
Proof.
  intros Hc Hb Ha (Kg & h & enc & g & G1 & G2 & Hu & Hpk).
  assert (forall {A} (m : M DB A) y a db', m (xdb y) = (Done a, db') ->
    db m y = (Done a, set_exe_env (set_env_db db' (exe_env y)) y)) as Hdb
    by (intros A m y a db' Hm; unfold db, in_env, in_db, zoom; unfold xdb in Hm; by rewrite Hm).
  assert (set_exe_env (set_env_db (xdb x) (exe_env x)) x = x) as Hx by (by destruct x as [[] ?]).
  destruct (Storage_Get_blocks (xdb x) Hb) as (_ & R2 & _). specialize (R2 (replicate 8 x00)).
  unfold raw_at in R2. rewrite G1 in R2. cbn [raw default id] in R2. rewrite G2 in R2.
  apply Hdb in R2. rewrite Hx in R2. unfold Faucet_Init. rewrite (bind_done _ _ _ _ _ R2). cbn [ResErr Value].
  rewrite Hu, Hpk. pose proof (accounts_get gen (xdb x) Ha) as R3. apply Hdb in R3. rewrite Hx in R3.
  rewrite (bind_done _ _ _ _ _ R3). cbn [ResErr Value].
  destruct (bolt_get (xdb x) accountsBucket gen) as [v|] eqn:Eg.
  - exists (xdb x). split; [by destruct x as [[] ?]|]. split; try done.
    split; [congruence|]. by rewrite decide_False by congruence.
  - set (a := mkAccount (Some gen) generator_state now).
    assert (u64_state generator_state) as Hg64 by (split; unfold in_u64; cbn; unfold GeneratorBalance; lia).
    destruct (put_state (xdb x) gen generator_state Ha Kg Hg64 _) as (enc' & db0 & Hm & Hput & _).
    destruct (accounts_put a gen enc' (be_encode 8 now) (xdb x) Hc Ha Hm eq_refl Kg eq_refl (length_be_encode 8 now))
      as (db' & R4 & Hbs & Ho & Hk). { injection Hm as <-. by vm_compute. }
    apply Hdb in R4. rewrite (bind_done _ _ _ _ _ R4). cbn [ResErr].
    exists db'. split; [by destruct x as [[] ?]|]. split; [done|done| |].
    + intros k Kk Hne. by rewrite Hk, decide_False.
    + assert (bolt_get db' accountsBucket gen = Some enc') as Hg by (by rewrite Hk, decide_True).
      split; [congruence|]. rewrite decide_True by done. unfold stored_state. rewrite Hg.
      by apply UnmarshalInto_Marshal.
Qed.

(** ** Starting from a database *)
Lemma NoDup_stored_accounts db : NoDup (stored_accounts db).
Proof. unfold stored_accounts, account_entries. apply NoDup_filter, bolt_cursor_nodup. Qed.

Lemma stored_accounts_key db pk : pk ∈ stored_accounts db -> is_key pk.
Proof. unfold stored_accounts, account_entries. by intros [Hk _]%list_elem_of_filter. Qed.

(** The accounts of a database, and the generator. *)
Definition accounts_with (gen : bytes) (db : DB) : list bytes :=
  if decide (gen ∈ stored_accounts db) then stored_accounts db else gen :: stored_accounts db.

Lemma accounts_with_spec gen db pk : pk ∈ accounts_with gen db <-> pk = gen \/ pk ∈ stored_accounts db.
Proof. unfold accounts_with. case_decide; rewrite ?elem_of_cons; intuition congruence. Qed.

Lemma funded_accounts db db' gen : is_key gen -> funded db db' gen ->
  (length (stored_accounts db') <= length (accounts_with gen db))%nat
  /\ forall pk, pk ∈ stored_accounts db' <-> pk ∈ accounts_with gen db.
Proof.
  intros Kg [_ _ Hr [Hg _]].
  assert (forall pk, pk ∈ stored_accounts db' <-> pk ∈ accounts_with gen db) as Hs.
  { intros pk. rewrite accounts_with_spec. split.
    - intros Hin. pose proof (stored_accounts_key _ _ Hin) as Kpk.
      destruct (decide (pk = gen)) as [->|Hne]; [by left|right].
      apply stored_accounts_spec in Hin; [|done]. apply stored_accounts_spec; [done|]. by rewrite <- Hr.
    - intros [->|Hin]; [by apply stored_accounts_spec|].
      pose proof (stored_accounts_key _ _ Hin) as Kpk.
      destruct (decide (pk = gen)) as [->|Hne]; [by apply stored_accounts_spec|].
      apply stored_accounts_spec in Hin; [|done]. apply stored_accounts_spec; [done|]. by rewrite Hr. }
  split; [|exact Hs]. apply submseteq_length, NoDup_submseteq; [apply NoDup_stored_accounts|].
  intros pk. apply Hs.
Qed.

Lemma funded_stored db db' gen pk : is_key gen -> is_key pk -> decodable db -> funded db db' gen ->
  stored_state db' pk = Ok (if decide (pk = gen /\ bolt_get db accountsBucket gen = None)
                            then generator_state else stored db pk).
Proof.
  intros Kg Kpk Hd [_ _ Hr [_ Hg]]. destruct (decide (pk = gen)) as [->|Hne].
  - rewrite Hg. destruct (decide (bolt_get db accountsBucket gen = None)).
    + by rewrite decide_True.
    + rewrite decide_False by tauto. by apply stored_ok.
  - rewrite decide_False by tauto. rewrite <- stored_ok by done. unfold stored_state. by rewrite Hr.
Qed.

(** The memory that the accounts of a funded database are loaded into. *)
Lemma loaded db db' gen s' : (forall db, bolt_commit db = None) ->
  is_key gen -> decodable db -> sane db -> funded db db' gen -> idle s' -> wf_mem s' ->
  ledger s' = put_all (encoded (fetched db' (stored_accounts db'))) ∅ ->
  settled (mkExecuter (mkEnv s' db') (Some gen)) gen
  /\ forall pk, is_key pk -> ledger s' !! Encode pk
       = if decide (pk ∈ accounts_with gen db)
         then Some (if decide (pk = gen /\ bolt_get db accountsBucket gen = None)
                    then generator_state else stored db pk)
         else None.
Proof.
  intros Hc Kg Hd Hs Hfd Hi Hwf HL. destruct (funded_accounts _ _ _ Kg Hfd) as [_ Hacc].
  pose proof (fun pk Kpk => funded_stored _ _ _ pk Kg Kpk Hd Hfd) as Hst.
  assert (forall pk, is_key pk -> stored db' pk = if decide (pk = gen /\ bolt_get db accountsBucket gen = None)
                                                 then generator_state else stored db pk) as Hst'
    by (intros pk Kpk; unfold stored at 1; by rewrite Hst).
  assert (sane db') as Hs'.
  { intros pk Kpk. rewrite Hst' by done. case_decide; [|by apply Hs].
    split; [split|]; cbn; unfold GeneratorBalance; lia. }
  split; [split; [split|..]|]; try done.
  - split; [rewrite (fd_bucket _ _ _ Hfd); apply Hd|]. intros pk Kpk. rewrite Hst by done. eauto.
  - change (wf_ledger (ledger s')). rewrite HL. apply put_all_wf; [|by intros ? ? ?].
    unfold encoded, fetched. rewrite map_map. apply Forall_map, Forall_forall.
    intros pk Hin. by apply Hs', stored_accounts_key with db'.
  - intros pk Kpk. unfold agree. change (xledger _) with (ledger s'). change (xdb _) with db'.
    rewrite HL, put_fetched_lookup, lookup_empty. case_decide as Hin; [done|]. cbn.
    unfold stored, stored_state. destruct (bolt_get db' accountsBucket pk) eqn:E; [|done].
    exfalso. apply Hin, stored_accounts_spec; congruence.
  - intros pk Kpk. rewrite HL, put_fetched_lookup, lookup_empty.
    destruct (decide (pk ∈ stored_accounts db')) as [Hin|Hin]; rewrite Hacc in Hin.
    + rewrite decide_True by done. by rewrite Hst'.
    + by rewrite decide_False.
Qed.

Lemma node_start now n gen blk enc :
  (forall db, bolt_commit db = None) ->
  nmem n = NewMemoryService -> bolt_has_bucket (ndb n) blocksBucket = true -> decodable (ndb n) ->
  sane (ndb n) -> genesis_in (ndb n) gen -> latest_block (ndb n) blk enc -> u64_block blk ->
  (length (accounts_with gen (ndb n)) <= 11)%nat ->
  exists n', Node_Run now n = (Done tt, n') /\ node_ok n' gen
    /\ n_bc n' = Blockchain_Init (u64 (bi_Height (Info blk) + 1)) (bi_Hash (Info blk)) (n_bc n)
    /\ n_errs n' = n_errs n /\ n_syncing n' = false /\ peers (n_p2p n') = peers (n_p2p n)
    /\ latest_block (ndb n') blk enc /\ funded (ndb n) (ndb n') gen
    /\ forall pk, is_key pk -> nledger n' !! Encode pk
         = if decide (pk ∈ accounts_with gen (ndb n))
           then Some (if decide (pk = gen /\ bolt_get (ndb n) accountsBucket gen = None)
                      then generator_state else stored (ndb n) pk)
           else None.
Proof.
  intros Hc Hn Hb Hd Hs Hgen [Hm [Hlk Hlb]] Hu Hlen. pose proof Hgen as [Kg _].
  destruct (Faucet_Init_run now (n_exe n) gen Hc Hb (proj1 Hd) Hgen) as (db' & Hf & Hfd).
  pose proof (funded_accounts _ _ _ Kg Hfd) as [Hle Hacc].
  pose proof (fun pk Kpk => funded_stored _ _ _ pk Kg Kpk Hd Hfd) as Hst.
  assert (decodable db') as Hd'.
  { split; [rewrite (fd_bucket _ _ _ Hfd); apply Hd|]. intros pk Kpk. rewrite Hst by done. eauto. }
  set (e := mkEnv NewMemoryService db').
  assert (exists s', FetchAllAccounts e = (Done None, set_env_mem s' e) /\ idle s' /\ wf_mem s'
    /\ same_pool NewMemoryService s' /\ ledger s' = put_all (encoded (fetched db' (stored_accounts db'))) ∅)
    as (s' & Hfa & Hi & Hwf & [Hp1 Hp2] & HL).
  { pose proof (FetchAll_run e eq_refl wf_mem_new eq_refl Hd') as HF.
    rewrite decide_True in HF by (change (env_db e) with db'; unfold ndb in *; lia). exact HF. }
  set (n1 := set_n_syncing false n). destruct (localDiscovery_run 3000 3002 (n_p2p n1)) as (pl & Hpe & Hld).
  match type of Hld with _ = (_, ?ps) => set (n2 := with_p2p ps n1) end.
  assert (Node_open n = (Done tt, n2)) as Hopen.
  { unfold Node_open. unfold bind at 1, modify. fold n1.
    by rewrite (bind_done _ _ _ _ _ (in_p2p_run _ _ _ _ Hld)). }
  unfold Node_Run. rewrite (bind_done _ _ _ _ _ Hopen). unfold Node_restore. rewrite bind_assoc.
  rewrite (bind_done _ _ _ _ _ (in_exe_done (Faucet_Init now) n2 _ _ Hf)). cbv beta iota.
  set (n3 := set_n_exe _ n2). assert (ndb n3 = db') as E3 by done.
  assert (latest_block db' blk enc) as Hlat.
  { split_and!; [exact Hm|..]; rewrite (fd_other _ _ _ Hfd) by (by vm_compute); done. }
  destruct (Storage_Get_blocks db') as (_ & _ & R3 & _); [by rewrite (fd_bucket _ _ _ Hfd)|].
  unfold raw_at in R3. destruct Hlat as (_ & L1 & L2). rewrite L1 in R3. cbn [raw default id] in R3.
  rewrite L2 in R3. rewrite bind_assoc, (bind_done _ _ _ _ _ (in_exe_db _ n3 _ _ R3)). cbn [ResErr Value].
  assert (Unmarshal enc = Ok blk) as -> by (by apply Unmarshal_Marshal).
  rewrite !bind_assoc. unfold bind at 1, modify. rewrite bind_ret_l. cbv beta iota.
  set (n4 := set_n_bc _ _).
  assert (in_exe (in_env FetchAllAccounts) n4 = (Done None, set_n_exe (set_xmem s' (n_exe n4)) n4)) as HF.
  { apply in_exe_done, in_env_done. replace (exe_env (n_exe n4)) with e; [exact Hfa|].
    cbn. unfold e. by rewrite <- Hn. }
  destruct (loaded _ _ gen s' Hc Kg Hd Hs Hfd Hi Hwf HL) as [Hset HL'].
  rewrite (bind_done _ _ _ _ _ HF). eexists. split; [reflexivity|]. split_and!; try done.
  - split; [exact Hset| |].
    + change (bolt_has_bucket db' blocksBucket = true). by rewrite (fd_bucket _ _ _ Hfd).
    + change (length (txCh s') <= txCh_room)%nat. rewrite Hp2. cbn. unfold txCh_room. lia.
Qed.
End node_facts.
