(* ===== verification/SyncProps.v ===== *)
(** The properties of the sync service: a node serves the blocks it stores, and
    a node that is behind catches up from a peer that has them. *)
From S2P Require Import Prelude Json JsonLaws JsonSize Common External Merkle Accounts Txs Blocks Rpc Memory.
From S2P Require Import MemoryFacts MempoolFacts StateHash Ledger Storage StorageFacts StorageProps Executers.
From S2P Require Import ExecuterFacts BlockExec Settlement ExecutionProps Producer ProducerProps P2p P2pProps.
From S2P Require Import Node NodeFacts Sync.
Open Scope Z_scope.

(** ** JSON laws *)
Definition wf_request (m : BlockRequestMsg) : Prop := wf_node (brq_From m) /\ in_u64 (brq_Height m).
Lemma BlockRequestMsg_codec_ok : codec_ok BlockRequestMsg_json wf_request.
Proof. unfold wf_request. solve_struct_codec. Qed.

Definition wf_response (m : BlockResponseMsg) : Prop := wf_node (brs_From m) /\ u64_block (brs_Block m).
Lemma BlockResponseMsg_codec_ok : codec_ok BlockResponseMsg_json wf_response.
Proof. unfold wf_response. solve_struct_codec. Qed.

#[export] Instance BlockRequestMsg_json_laws : JSONLaws BlockRequestMsg := {| json_ok := BlockRequestMsg_codec_ok |}.
#[export] Instance BlockResponseMsg_json_laws : JSONLaws BlockResponseMsg := {| json_ok := BlockResponseMsg_codec_ok |}.

Section sync_facts.
Context `{Sha3, Ed25519, Base58, ExpSlices, MapOrder, Bolt}.
Context `{!Sha3Laws, !Ed25519Laws, !Base58Laws, !ExpSlicesLaws, !MapOrderLaws, !BoltLaws}.
Implicit Types n : Node.

(** *** Blocks that every node accepts *)

(** A node at position [bc] with ledger [L] accepts the block, which touches
    the accounts [ex] and leads to the ledger [L']. *)
Definition accepted gen (bc : Blockchain) (L : Ledger) (blk : Block) (ex : list bytes) (L' : Ledger) : Prop :=
  forall x, settled x gen -> xledger x = L ->
  exists x', BlockProducer_Verify bc blk x = (Done (true, Some (map Some ex), None, blk), x')
    /\ pending x' gen ex /\ xledger x' = L' /\ xdb x' = xdb x /\ same_pool (xmem x) (xmem x').

Lemma produced_accepted now bc w xp gen blk keys xp' : settled xp gen ->
  map_Forall (fun _ tx => Transaction_Verify tx = Done (Ok true)) (mempool (xmem xp)) ->
  wallet_ok w -> 0 < now -> len (raw (previousBlockHash bc)) = HashSize ->
  BlockProducer_NewBlock now bc w xp = (Done (Ok (blk, keys)), xp') ->
  exists ex, keys = map Some ex /\ accepted gen bc (xledger xp) blk ex (xledger xp').
Proof.
  intros Hp Hpool Hw Hnow Hprev Hnew.
  destruct (new_block_accepted _ _ _ _ _ _ _ _ _ Hp Hp eq_refl Hpool Hw Hnow Hprev Hnew)
    as (_ & _ & ex & _ & Hk & _). exists ex. split; [exact Hk|]. intros x Hx HL.
  destruct (new_block_accepted _ _ _ _ _ _ _ _ _ Hp Hx (eq_sym HL) Hpool Hw Hnow Hprev Hnew)
    as (_ & x' & ex' & Hr & Hk' & HL' & _ & _ & _ & Hpend & Hdb & Hsp).
  rewrite Hk in Hk'. apply (inj (map Some)) in Hk' as <-. rewrite Hk in Hr. exists x'. by split_and!.
Qed.

(** A sync checks a block like [Verify] does, and writes its accounts. *)
Lemma sync_execute_verify n blk keys blk' x1 x2 : 0 < bi_Height (Info blk) ->
  BlockProducer_Verify (n_bc n) blk (n_exe n) = (Done (true, Some keys, None, blk'), x1) ->
  waitForFinality true keys x1 = (Done None, x2) ->
  sync_execute blk n = (Done (SyncContinue, blk'), set_n_exe x2 n).
Proof.
  intros Hh Hv Hw. unfold sync_execute. rewrite (proj2 (Z.ltb_lt _ _) Hh). unfold bind at 1, get.
  revert Hv. unfold BlockProducer_Verify.
  destruct (CheckBlockInfo (n_bc n) blk); [|done]. cbn [negb]. unfold bind at 1. rewrite Execute_run.
  destruct (ExecuteNow _ (n_exe n)) as [[[txs' [ks|e]]|w'|w'] y] eqn:Ex; try done.
  rewrite (bind_done _ _ _ _ _ (in_exe_done _ n _ _ Ex)). set (b := set_Transactions txs' blk). unfold bind at 1.
  destruct (CheckStateHash b y) as [[[[[] st]|e]|w'|w'] z] eqn:Es; try done.
  rewrite (bind_done _ _ _ _ _ (in_exe_done _ (set_n_exe y n) _ _ Es)). cbn [negb]. unfold bind at 1, lift.
  change (n_bc (set_n_exe y n)) with (n_bc n).
  destruct (CheckBlockHash (n_bc n) b st) as [[[]|e]|w'|w'] eqn:Eh; try done. cbn [negb]. intros [= -> <- <-].
  unfold bind at 1. cbv beta iota. change (set_n_exe z (set_n_exe y n)) with (set_n_exe z n).
  assert (in_exe (in_env (PushAccounts keys)) (set_n_exe z n) = (Done None, set_n_exe x2 n)) as Hp
    by (by apply (in_exe_done _ (set_n_exe z n) _ _)).
  by rewrite (bind_done _ _ _ _ _ Hp).
Qed.

(** *** Messages *)
Definition packed {T} `{JSON T} (msg : T) (kind : byte) : bytes :=
  match PackPayload msg [SyncMessage; kind] with Ok p => p | Err _ => [] end.

Definition request n (h : Z) : bytes := packed (mkBlockRequestMsg (self (n_p2p n)) h) BlockRequestMessage.
Definition response (ni : NodeInfo) (blk : Block) : bytes := packed (mkBlockResponseMsg ni blk) BlockResponseMessage.

Lemma request_small ni h : wf_node ni -> NodeInfo_Verify ni = true -> in_u64 h ->
  len (packed (mkBlockRequestMsg ni h) BlockRequestMessage) <= MaxPayloadSize.
Proof.
  intros [Ha Hn] Hv Hh. unfold packed, PackPayload. destruct (Marshal _) as [enc|] eqn:Hm; [|done]. cbn [result_bind].
  destruct ni as [ip net]. unfold NodeInfo_Verify in Hv. apply andb_prop in Hv as [Hl%Nat.eqb_eq _].
  pose proof (length_quote_body _ Ha) as Hq. rewrite length_bstr, Hl in Hq.
  pose proof (length_format_uint net) as Hf. pose proof (length_format_uint h Hh).
  unfold in_u64 in Hf. cbn [Ip4 Network] in *.
  apply Marshal_size in Hm. size_of Hm. unfold len, MaxPayloadSize. cbn [app length]. lia.
Qed.

Lemma Sync_inbound {T} `{JSON T} (msg : T) kind n : len (packed msg kind) <= MaxPayloadSize ->
  exists enc, Marshal msg = Ok enc
    /\ handleInbound handleSyncMessage (Ok (packed msg kind)) n = handleSyncMessage (SyncMessage :: kind :: enc) n.
Proof.
  unfold packed, PackPayload. destruct (Marshal msg) as [enc|] eqn:Hm; [|done]. cbn [result_bind app]. intros Hl.
  exists enc. split; [done|]. unfold handleInbound. by rewrite (proj2 (Z.ltb_ge _ _)).
Qed.

Lemma P2p_Send_run to data ps : Ip4 to <> Ip4 (self ps) -> P2p_Send to data ps = (Done tt, sends [(to, data)] ps).
Proof.
  intros Hne. unfold P2p_Send, bind, get. destruct (IsSameIp to (self ps)) eqn:E; [by apply IsSameIp_spec in E|done].
Qed.

(** *** A synced block *)
Record next_block gen bc L (blk : Block) (enc : bytes) (ex : list bytes) L' : Prop := {
  nb_accepted : accepted gen bc L blk ex L';
  nb_few : (length ex <= 11)%nat;
  nb_verified : Block_Verify blk = Done true;
  nb_u64 : u64_block blk;
  nb_height : bi_Height (Info blk) = nextHeight bc /\ 0 < nextHeight bc /\ nextHeight bc + 1 < 2 ^ 64;
  nb_hash : length (raw (bi_Hash (Info blk))) = 32%nat;
  nb_enc : Marshal blk = Ok enc /\ len enc <= MaxValueSize
}.

(** A synced block is executed and stored.  Its transactions stay in the pool. *)
Lemma sync_block_run now n gen L blk enc ex L' : (forall db, bolt_commit db = None) -> node_ok n gen ->
  nledger n = L -> next_block gen (n_bc n) L blk enc ex L' ->
  exists x', sync_block now blk n
      = (Done SyncContinue, set_n_bc (Increment (bi_Hash (Info blk)) (n_bc n)) (set_n_exe x' n))
    /\ node_ok (set_n_exe x' n) gen /\ xledger x' = L' /\ latest_block (xdb x') blk enc
    /\ same_pool (nmem n) (xmem x').
Proof.
  intros Hc [Hs Hb Hr] HL [Ha Hl _ _ (Hh & Hpos & _) Lh [He Hv]].
  destruct (Ha (n_exe n) Hs HL) as (x1 & Hver & Hp & HL1 & Hdb1 & [P1 T1]).
  destruct (finality_accepts x1 gen ex Hc Hp Hl) as (x2 & Hw & Hs2 & HL2 & [P2 T2] & Hbs & _).
  pose proof (sync_execute_verify n blk _ _ _ _ ltac:(lia) Hver Hw) as Hex.
  assert (bolt_has_bucket (xdb x2) blocksBucket = true) as Hb2 by (by rewrite Hbs, Hdb1).
  destruct (put_block_run blk (xdb x2) enc Hc Hb2 Lh He Hv) as (db' & Hput & [G1 G2 G3 G4 Hbs' Ho]).
  set (x3 := set_exe_env (set_env_db db' (exe_env x2)) x2).
  exists x3. split_and!.
  - unfold sync_block. rewrite (bind_done _ _ _ _ _ Hex). cbv beta iota.
    rewrite (bind_done _ _ _ _ _ (in_exe_db _ (set_n_exe x2 n) _ _ Hput)). cbn [ResErr].
    unfold OnBlockStored. rewrite (proj2 (Z.eqb_neq _ _)) by lia. by rewrite bind_assoc, bind_ret_l.
  - split; [|change (bolt_has_bucket db' blocksBucket = true); by rewrite Hbs'|].
    + apply settled_db; [done|done|rewrite Hbs'; apply (q_db _ (se_quiet _ _ Hs2))|].
      intros k _. apply Ho. left. by vm_compute.
    + change (length (txCh (xmem x2)) <= txCh_room)%nat. by rewrite T2, T1.
  - change (xledger x2 = L'). by rewrite HL2.
  - by split_and!.
  - change (same_pool (nmem n) (xmem x2)). unfold nmem. split; [by rewrite P2, P1|by rewrite T2, T1].
Qed.

(** *** A round of the sync, with one peer *)
Lemma serve_response n ni blk chs : wf_node ni -> NodeInfo_Verify ni = true -> u64_block blk ->
  Block_Verify blk = Done true -> bi_Height (Info blk) <> 0 -> len (response ni blk) <= MaxPayloadSize ->
  n_chs n = Some chs -> bi_Height (Info blk) ∈ chs ->
  serve (Ok (response ni blk)) n
  = (Done tt, set_n_replies (n_replies n ++ [(bi_Height (Info blk), mkResult (Some blk) None)]) n).
Proof.
  intros Hwf Hv Hu Hb Hh Hl Hchs Hin.
  destruct (Sync_inbound _ _ n Hl) as (enc & Hm & Hi). unfold serve, spawn, detach. unfold response in *.
  unfold bind at 1. rewrite Hi.
  change (handleSyncMessage _ n) with (handleBlockRes enc n). unfold handleBlockRes.
  assert (Unmarshal enc = Ok (mkBlockResponseMsg ni blk)) as -> by (by apply Unmarshal_Marshal).
  cbn [brs_Block]. rewrite (proj2 (Z.eqb_neq _ _)) by done. cbn [negb]. unfold bind at 1, lift.
  unfold BlockResponseMsg_Verify, outcome_and. cbn [brs_From brs_Block outcome_bind]. rewrite Hv, Hb. cbn [negb].
  unfold bind at 1, get. rewrite Hchs, bool_decide_eq_true_2 by done. reflexivity.
Qed.

(** A node that asked its only peer for the block at height [h]. *)
Definition asked n (p : NodeInfo) (h : Z) : Node :=
  mkNode (n_exe n) (n_bc n) (sends [(p, request n h)] (n_p2p n)) (Some [h]) [] (n_syncing n) (n_errs n).

Lemma block_requests_one n p h target : peers (n_p2p n) = [p] -> Ip4 p <> Ip4 (self (n_p2p n)) -> in_u64 (h + 1) ->
  block_requests (seqZ 0 (LenPeers (n_p2p n))) h target (set_n_chs (Some []) n) = (Done (h + 1), asked n p h).
Proof.
  intros Hp Hne Hh. unfold LenPeers. rewrite Hp. change (seqZ 0 (len [p])) with [0]. cbn [block_requests].
  unfold bind at 1, modify. set (n1 := mkNode _ _ _ _ _ _ _).
  assert (blockRequest h 0 n1 = (Done tt, asked n p h)) as Hr.
  { unfold blockRequest. unfold bind at 1, get. change (PackPayload _ _) with (Ok (request n h) : result bytes).
    cbv iota. unfold bind at 1, lift, PeerByIndex. change (n_p2p n1) with (n_p2p n). rewrite Hp.
    change (in_p2p (P2p_Send p (request n h)) n1 = (Done tt, asked n p h)).
    unfold in_p2p, zoom. change (p2p_of n1) with (n_p2p n). rewrite P2p_Send_run by done. reflexivity. }
  rewrite (bind_done _ _ _ _ _ Hr). rewrite u64_small by done. cbv zeta. by destruct (_ <? _).
Qed.

(** What catching up by some blocks leaves. *)
Record caught_up n n' gen (bc' : Blockchain) (L' : Ledger) : Prop := {
  cu_chain : n_bc n' = bc';
  cu_node : node_ok n' gen;
  cu_ledger : nledger n' = L';
  cu_pool : same_pool (nmem n) (nmem n');
  cu_peers : self (n_p2p n') = self (n_p2p n) /\ peers (n_p2p n') = peers (n_p2p n);
  cu_errs : n_errs n' = n_errs n
}.

Lemma sync_round now fuel target n gen L blk enc ex L' p ni evs : (forall db, bolt_commit db = None) ->
  node_ok n gen -> nledger n = L -> next_block gen (n_bc n) L blk enc ex L' ->
  peers (n_p2p n) = [p] -> Ip4 p <> Ip4 (self (n_p2p n)) ->
  wf_node ni -> NodeInfo_Verify ni = true -> len (response ni blk) <= MaxPayloadSize ->
  let h := nextHeight (n_bc n) in
  exists n', sync_rounds now (S fuel) target h (Inbound (Ok (response ni blk)) :: evs) n
      = (if target <? h + 1 then (let* _ := modify (set_n_chs None) in modify (set_n_syncing false))
         else sync_rounds now fuel target (h + 1) evs) n'
    /\ caught_up n n' gen (Increment (bi_Hash (Info blk)) (n_bc n)) L'
    /\ latest_block (ndb n') blk enc
    /\ sent (n_p2p n') = sent (n_p2p n) ++ [(p, request n h)].
Proof.
  intros Hc Hn HL Hb Hp Hne Hwf Hv Hfit h. destruct (Hb) as [_ _ Hbv Hu (Hh & Hpos & Hmax) _ _].
  assert (in_u64 (h + 1)) as Hh1 by (unfold in_u64, h in *; lia).
  set (n2 := asked n p h). set (n3 := set_n_replies [(h, mkResult (Some blk) None)] n2).
  assert (serve (Ok (response ni blk)) n2 = (Done tt, n3)) as Hserve.
  { rewrite (serve_response n2 ni blk [h]) by (first [done|lia|rewrite Hh; by left]). unfold n3, h. by rewrite Hh. }
  assert (node_ok (set_n_replies [] n3) gen) as Hn4 by (destruct Hn; by split).
  destruct (sync_block_run now (set_n_replies [] n3) gen L blk enc ex L' Hc Hn4 HL Hb)
    as (x' & Hrun & [S5 B5 R5] & HL' & Hlat & Hpool).
  set (n' := set_n_bc _ _) in Hrun. exists n'. split_and!; [|split; try done; by split|exact Hlat|done].
  cbn [sync_rounds]. unfold bind at 1, modify at 1. unfold bind at 1, get at 1.
  change (n_p2p (set_n_chs (Some []) n)) with (n_p2p n).
  rewrite (bind_done _ _ _ _ _ (block_requests_one n p h target Hp Hne Hh1)). fold n2.
  unfold bind at 1, get. change (length (default [] (n_chs n2))) with 1%nat.
  assert (sync_wait now 1 h (Inbound (Ok (response ni blk)) :: evs) n2 = (Done (SyncContinue, evs), n')) as Hwait.
  { cbn [sync_wait]. assert (wait_reply h (Inbound (Ok (response ni blk)) :: evs) n2
      = (Done (Some (mkResult (Some blk) None), evs), set_n_replies [] n3)) as Hw.
    { cbn [wait_reply]. unfold bind at 1, get. change (n_replies n2) with (@nil (Z * Result (option Block))).
      cbn [take_reply]. rewrite (bind_done _ _ _ _ _ Hserve).
      destruct evs as [|ev evs']; cbn [wait_reply]; unfold bind at 1, get;
        change (n_replies n3) with [(h, mkResult (Some blk) (@None error))]; cbn [take_reply];
        by rewrite Z.eqb_refl. }
    rewrite (bind_done _ _ _ _ _ Hw). cbn [ResErr Value]. by rewrite (bind_done _ _ _ _ _ Hrun). }
  rewrite (bind_done _ _ _ _ _ Hwait). cbv beta iota. destruct (target <? h + 1); [done|].
  unfold LenPeers. rewrite Hp. done.
Qed.

Lemma Increment_nextHeight h bc : in_u64 (nextHeight bc + 1) -> nextHeight (Increment h bc) = nextHeight bc + 1.
Proof.
  intros Hu. unfold Increment, icrementSlot. cbn [nextHeight]. destruct (_ =? 0); cbn; by apply u64_small.
Qed.

(** A sequence of blocks that every node accepts in turn. *)
Inductive history gen : Blockchain -> Ledger -> list Block -> Blockchain -> Ledger -> Prop :=
| history_nil bc L : history gen bc L [] bc L
| history_cons bc L blk enc ex L1 blks bc2 L2 :
    next_block gen bc L blk enc ex L1 -> history gen (Increment (bi_Hash (Info blk)) bc) L1 blks bc2 L2 ->
    history gen bc L (blk :: blks) bc2 L2.

Lemma caught_up_trans n n1 n2 gen bc1 L1 bc2 L2 :
  caught_up n n1 gen bc1 L1 -> caught_up n1 n2 gen bc2 L2 -> caught_up n n2 gen bc2 L2.
Proof.
  intros [C1 N1 D1 P1 [S1 Q1] E1] [C2 N2 D2 P2 [S2 Q2] E2].
  split; try done; [exact (same_pool_trans _ _ _ P1 P2)|by rewrite S2, Q2|by rewrite E2].
Qed.

(** The requests for the heights from [h] on. *)
Definition requests n (p : NodeInfo) (h : Z) (k : nat) : list (NodeInfo * bytes) :=
  map (fun i => (p, request n i)) (seqZ h (Z.of_nat k)).

Definition arrivals (ni : NodeInfo) (blks : list Block) : list SyncEvent :=
  map (fun blk => Inbound (Ok (response ni blk))) blks.

Lemma sync_rounds_history now gen p ni target bc' L' : (forall db, bolt_commit db = None) ->
  wf_node ni -> NodeInfo_Verify ni = true -> forall blks blk fuel n,
  node_ok n gen -> history gen (n_bc n) (nledger n) (blk :: blks) bc' L' ->
  Forall (fun blk => len (response ni blk) <= MaxPayloadSize) (blk :: blks) ->
  peers (n_p2p n) = [p] -> Ip4 p <> Ip4 (self (n_p2p n)) ->
  (length blks < fuel)%nat -> target = nextHeight (n_bc n) + Z.of_nat (length blks) ->
  exists n', sync_rounds now fuel target (nextHeight (n_bc n)) (arrivals ni (blk :: blks)) n = (Done tt, n')
    /\ caught_up n n' gen bc' L' /\ n_syncing n' = false
    /\ (exists b enc, last (blk :: blks) = Some b /\ latest_block (ndb n') b enc)
    /\ sent (n_p2p n') = sent (n_p2p n) ++ requests n p (nextHeight (n_bc n)) (S (length blks)).
Proof.
  intros Hc Hwf Hv. induction blks as [|blk2 blks IH]; intros blk fuel n Hn Hhist Hfit Hp Hne Hf Ht;
    (destruct fuel as [|fuel]; [lia|]);
    inversion Hhist as [|? ? ? enc ex L1 ? ? ? Hb Hrest]; apply Forall_cons in Hfit as [Hf1 Hf2].
  - inversion Hrest. subst. destruct (sync_round now fuel (nextHeight (n_bc n) + 0) n gen _ blk enc ex _ p ni []
      Hc Hn eq_refl Hb Hp Hne Hwf Hv Hf1) as (n1 & Hr & Hcu & Hlat & Hs).
    cbn [length Z.of_nat arrivals map]. change (Z.of_nat 0) with 0. rewrite Hr, (proj2 (Z.ltb_lt _ _)) by lia.
    eexists. split; [reflexivity|]. split_and!; [|done|by exists blk, enc|].
    + destruct Hcu as [C1 [S1 B1 R1] D1 P1 S2 E1]. split; try done.
    + exact Hs.
  - destruct (sync_round now fuel target n gen _ blk enc ex _ p ni (arrivals ni (blk2 :: blks))
      Hc Hn eq_refl Hb Hp Hne Hwf Hv Hf1) as (n1 & Hr & Hcu & Hlat & Hs). cbn [length] in *.
    destruct (nb_height _ _ _ _ _ _ _ Hb) as (_ & Hpos & Hmax).
    assert (nextHeight (n_bc n1) = nextHeight (n_bc n) + 1) as Hnh.
    { rewrite (cu_chain _ _ _ _ _ Hcu). apply Increment_nextHeight. unfold in_u64. lia. }
    destruct (IH blk2 fuel n1) as (n2 & Hr2 & Hcu2 & Hsy & Hlat2 & Hs2); [exact (cu_node _ _ _ _ _ Hcu)|..].
    + by rewrite (cu_chain _ _ _ _ _ Hcu), (cu_ledger _ _ _ _ _ Hcu).
    + done.
    + by rewrite (proj2 (cu_peers _ _ _ _ _ Hcu)).
    + by rewrite (proj1 (cu_peers _ _ _ _ _ Hcu)).
    + lia.
    + lia.
    + exists n2. split_and!; [|exact (caught_up_trans _ _ _ _ _ _ _ _ Hcu Hcu2)|exact Hsy| |].
      * change (arrivals ni (blk :: blk2 :: blks)) with (Inbound (Ok (response ni blk)) :: arrivals ni (blk2 :: blks)).
        rewrite Hr, (proj2 (Z.ltb_ge _ _)) by lia. rewrite <- Hnh. exact Hr2.
      * exact Hlat2.
      * rewrite Hs2, Hs, <- app_assoc. f_equal. rewrite Hnh. unfold requests.
        rewrite (seqZ_cons (nextHeight (n_bc n))) by lia. cbn [map app]. f_equal.
        replace (Z.pred (Z.of_nat (S (S (length blks))))) with (Z.of_nat (S (length blks))) by lia.
        unfold request. by rewrite (proj1 (cu_peers _ _ _ _ _ Hcu)).
Qed.
End sync_facts.

(** * Properties *)
Section sync_properties.
Context `{Sha3, Ed25519, Base58, ExpSlices, MapOrder, Bolt}.

(** A block of a database, as it is found by its height. *)
Definition stores (db : DB) (blk : Block) (enc : bytes) : Prop :=
  Marshal blk = Ok enc
  /\ bolt_get db blocksBucket (be_encode 8 (bi_Height (Info blk))) = Some (raw (bi_Hash (Info blk)))
  /\ bolt_get db blocksBucket (raw (bi_Hash (Info blk))) = Some enc.

(** A node serves its blocks: to a verified request for a height below its
    own next one, it answers with the block stored there, and sends the answer
    to the requester only; a request for a height it has not reached is
    ignored. *)
Theorem block_request_served n ni h : wf_node ni -> NodeInfo_Verify ni = true -> Ip4 ni <> Ip4 (self (n_p2p n)) ->
  in_u64 h -> 0 < nextHeight (n_bc n) < 2 ^ 64 -> bolt_has_bucket (ndb n) blocksBucket = true ->
  let asked := Ok (packed (mkBlockRequestMsg ni h) BlockRequestMessage) in
  (forall blk enc, stores (ndb n) blk enc -> u64_block blk -> bi_Height (Info blk) = h -> h < nextHeight (n_bc n) ->
     handleInbound handleSyncMessage asked n
     = (Done None, set_n_p2p (sends [(ni, response (self (n_p2p n)) blk)] (n_p2p n)) n))
  /\ (nextHeight (n_bc n) <= h -> handleInbound handleSyncMessage asked n = (Done None, n)).
Proof.
  intros Hwf Hv Hne Hh Hpos Hb. cbv zeta.
  destruct (Sync_inbound _ _ n (request_small ni h Hwf Hv Hh)) as (enc0 & Hm & Hi).
  assert (Unmarshal enc0 = Ok (mkBlockRequestMsg ni h)) as Hu0 by (by apply Unmarshal_Marshal).
  change (handleSyncMessage _ n) with (handleBlockReq enc0 n) in Hi.
  assert (u64 (nextHeight (n_bc n) - 1) = nextHeight (n_bc n) - 1) as Hpred by (apply u64_small; unfold in_u64; lia).
  unfold handleBlockReq in Hi. rewrite Hu0 in Hi. unfold BlockRequestMsg_Verify in Hi. cbn [brq_From brq_Height] in Hi.
  rewrite Hv in Hi. cbn [negb] in Hi. unfold bind at 1, get in Hi. rewrite Hpred in Hi. split.
  - intros blk enc (He & Hidx & Hkey) Hu <- Hlt. rewrite Hi, (proj2 (Z.ltb_ge _ _)) by lia. unfold ToHex.
    destruct (Storage_Get_blocks (ndb n) Hb) as (_ & R & _).
    specialize (R (be_encode 8 (bi_Height (Info blk)))). unfold raw_at in R. rewrite Hidx in R.
    cbn [raw default id] in R. rewrite Hkey in R.
    assert (in_exe (db (Storage_Get BlocksKind RefIndex (Some (be_encode 8 (bi_Height (Info blk)))))) n
      = (Done (mkResult (Some enc) None), n)) as HR by (rewrite (in_exe_db _ n _ _ R); by destruct n as [[[? ?] ?] ? ? ? ? ? ?]).
    change (IntKind_width Uint64) with 8%nat. rewrite (bind_done _ _ _ _ _ HR). cbn [ResErr Value].
    assert (Unmarshal enc = Ok blk) as -> by (by apply Unmarshal_Marshal).
    change (PackPayload _ _) with (Ok (response (self (n_p2p n)) blk) : result bytes). cbv iota.
    unfold bind, in_p2p, zoom. change (p2p_of n) with (n_p2p n). by rewrite P2p_Send_run.
  - intros Hge. by rewrite Hi, (proj2 (Z.ltb_lt _ _)) by lia.
Qed.

(** C12: a node that is behind catches up: with one peer, whose answers arrive
    in time and which sends a sequence of blocks that every node accepts in
    turn, [sync] requests one height after the other, executes and stores each
    block, and ends at the position and the ledger after the last one, which
    is the latest it stores.  It reports no error and is no longer syncing.
    Its pool is unchanged: the transactions of the blocks stay in it. *)
Theorem sync_catches_up `{!Sha3Laws, !Ed25519Laws, !Base58Laws, !ExpSlicesLaws, !MapOrderLaws, !BoltLaws}
    now n gen p ni blk blks bc' L' : (forall db, bolt_commit db = None) ->
  node_ok n gen -> peers (n_p2p n) = [p] -> Ip4 p <> Ip4 (self (n_p2p n)) ->
  wf_node ni -> NodeInfo_Verify ni = true ->
  history gen (n_bc n) (nledger n) (blk :: blks) bc' L' ->
  Forall (fun blk => len (response ni blk) <= MaxPayloadSize) (blk :: blks) ->
  let h := nextHeight (n_bc n) in
  exists n', sync now (h + len blks) (arrivals ni (blk :: blks)) n = (Done tt, n')
    /\ caught_up n n' gen bc' L' /\ n_syncing n' = false
    /\ (exists b enc, last (blk :: blks) = Some b /\ latest_block (ndb n') b enc)
    /\ sent (n_p2p n') = sent (n_p2p n) ++ requests n p h (S (length blks)).
Proof.
  intros Hc Hn Hp Hne Hwf Hv Hhist Hfit h. unfold sync. unfold bind, get. fold h.
  apply (sync_rounds_history now gen p ni (h + len blks) bc' L' Hc Hwf Hv blks blk); try done.
  unfold len, arrivals. rewrite length_map. cbn [length]. lia.
Qed.
End sync_properties.

(** *** Witnesses *)
Section sync_runs.
Import Toy.

(** Two nodes at height 5: one stores the next block, the other asks for it. *)
Definition seated (port : string) (x : Executer) (bc : Blockchain) : Node :=
  mkNode x bc (mkP2pService (NewNodeInfo port SyncNode) [NewNodeInfo "3009" SyncNode] []) None [] true [].
Definition behind : Node := seated "3001" node demo_chain.
Definition ahead : Node :=
  snd (in_exe (db (Storage_Put BlocksKind (Some new_block))) (seated "3009" node (Increment None demo_chain))).

Lemma port_ok port : port = "3001"%string \/ port = "3009"%string ->
  wf_node (NewNodeInfo port SyncNode) /\ NodeInfo_Verify (NewNodeInfo port SyncNode) = true.
Proof.
  intros [-> | ->]; (split; [split; [by apply ascii_by_compute; vm_compute|vm_compute; split; congruence]|by vm_compute]).
Qed.

Lemma new_block_u64 : u64_block new_block.
Proof. apply u64_block_b_ok. vm_compute. reflexivity. Qed.

Lemma block_request_served_witness :
  handleInbound handleSyncMessage
    (Ok (packed (mkBlockRequestMsg (self (n_p2p behind)) 5) BlockRequestMessage)) ahead
  = (Done None, set_n_p2p (sends [(self (n_p2p behind), response (self (n_p2p ahead)) new_block)] (n_p2p ahead)) ahead).
Proof.
  destruct (block_request_served ahead (self (n_p2p behind)) 5) as [Hs _].
  - apply port_ok. by left.
  - apply port_ok. by left.
  - vm_compute. discriminate.
  - unfold in_u64. lia.
  - vm_compute. split; congruence.
  - vm_compute. reflexivity.
  - apply (Hs new_block (bytes_of new_block)).
    + split_and!; vm_compute; reflexivity.
    + apply new_block_u64.
    + vm_compute. reflexivity.
    + vm_compute. reflexivity.
Defined.

Lemma new_block_next : exists L', history gen_key demo_chain (nledger behind) [new_block]
  (Increment (bi_Hash (Info new_block)) demo_chain) L'.
Proof.
  destruct (produced_accepted 9 demo_chain demo_wallet (pooled good_block) gen_key new_block new_keys (snd new_run))
    as (ex & Hk & Ha); [apply pooled_settled|apply pool_verified; vm_compute; reflexivity|apply demo_wallet_ok|lia|done|exact new_block_run|].
  rewrite pooled_ledger in Ha. exists (xledger (snd new_run)).
  apply (history_cons _ _ _ _ (bytes_of new_block) ex (xledger (snd new_run)) _ _ _); [|apply history_nil]. split; [exact Ha|..].
  - rewrite <- (length_map Some), <- Hk. apply Nat.leb_le. vm_compute. reflexivity.
  - vm_compute. reflexivity.
  - apply new_block_u64.
  - change (bi_Height (Info new_block) = 5 /\ 0 < 5 /\ 6 < 2 ^ 64). split_and!; [vm_compute; reflexivity|lia|lia].
  - vm_compute. reflexivity.
  - split; [reflexivity|]. apply Z.leb_le. vm_compute. reflexivity.
Qed.

Lemma sync_catches_up_witness :
  exists n', sync 9 5 (arrivals (NewNodeInfo "3009" SyncNode) [new_block]) behind = (Done tt, n')
    /\ nextHeight (n_bc n') = 6 /\ n_syncing n' = false.
Proof.
  destruct new_block_next as [L' Hh].
  destruct (sync_catches_up 9 behind gen_key (NewNodeInfo "3009" SyncNode) (NewNodeInfo "3009" SyncNode)
    new_block [] (Increment (bi_Hash (Info new_block)) demo_chain) L') as (n' & Hr & Hcu & Hsy & _).
  - reflexivity.
  - split; [apply node_settled|vm_compute; reflexivity|apply Nat.leb_le; vm_compute; reflexivity].
  - reflexivity.
  - vm_compute. discriminate.
  - apply port_ok. by right.
  - apply port_ok. by right.
  - exact Hh.
  - apply Forall_cons_2; [apply Z.leb_le; vm_compute; reflexivity|apply Forall_nil_2].
  - exists n'. split_and!; [exact Hr| |exact Hsy]. by rewrite (cu_chain _ _ _ _ _ Hcu).
Defined.
End sync_runs.
