(* ===== verification/Server.v ===== *)
(** Packages [nodes/rpc] and [clients]: the RPC server of a node and the client
    that talks to it (nodes/rpc/rpc_server.go, clients/client.go).

    A connection is the list of chunks in which the other side's bytes arrive:
    [conn.Read] takes from one chunk and never waits for the next, whatever
    the size of the buffer it fills. *)
From S2P Require Import Prelude Json JsonLaws Common External Accounts Txs Blocks Rpc Memory Storage.
From S2P Require Import Executers P2p Node Sync.
Open Scope Z_scope.

(** [conn.Read(buff)] for a zeroed [buff] of [n] bytes: the contents of [buff]
    afterwards, and what is left to read. *)
Definition conn_Read (n : Z) (conn : list bytes) : result (bytes * list bytes) :=
  if n <=? 0 then Ok ([], conn)
  else match conn with
  | [] => Err "EOF"
  | c :: rest =>
      let got := take (Z.to_nat n) c in
      let buff := got ++ replicate (Z.to_nat n - length got) x00 in
      Ok (buff, match drop (Z.to_nat n) c with [] => rest | c' => c' :: rest end)
  end.

Section server.
Context `{Sha3, Ed25519, Base58, ExpSlices, MapOrder, Bolt}.

(** ** The server *)
Definition handleCall (raw_ : bytes) : M Node (result gobytes) :=
  match Unmarshal (T := Call) raw_ with
  | Err _ => ret (Ok None)
  | Ok call =>
      if VerifyGetAccountStateCall call then
        let* res := in_exe (db (Storage_Get AccountsKind RefKey (call_Params call))) in
        match ResErr res, Value res with
        | Some _, _ => ret (Ok None)
        | None, None =>
            match Marshal (mkAccountState 0 0) with
            | Err e => ret (Err e)
            | Ok v => ret (Ok (Some v))
            end
        | None, Some v => ret (Ok (Some v))
        end
      else ret (Ok None)
  end.

Definition handleTransaction (raw_ : bytes) : M Node (result gobytes) :=
  match Unmarshal (T := Transaction) raw_ with
  | Err _ => ret (Ok None)
  | Ok tx =>
      let* v := lift (Transaction_Verify tx) in
      match v with
      | Err e => ret (Err e)
      | Ok false => ret (Ok None)
      | Ok true =>
          match Unmarshal (T := Call) (raw (td_Data (tx_InnerData tx))) with
          | Err _ => ret (Ok None)
          | Ok call =>
              if negb (Call_Verify call) then ret (Ok None)
              else
                let* n := get in
                if ContainsTx (tx_Hash tx) (env_mem (exe_env (n_exe n))) then ret (Ok None)
                else
                  let* _ := in_exe (mem (AppendTx tx)) in
                  let* err := BroadcastTx tx [] in
                  match err with
                  | Some e => ret (Err e)
                  | None => ret (Ok (Some (bstr "ok")))
                  end
          end
      end
  end.

(** The bytes written to the connection, if any, or the error returned. *)
Definition handleRpc (conn : list bytes) : M Node (result gobytes) :=
  match conn_Read 4 conn with
  | Err e => ret (Err e)
  | Ok (buff, conn) =>
      match FromHex Int32 buff with
      | Err e => ret (Err e)
      | Ok reqLen =>
          if (MaxPayloadSize <? reqLen) || (reqLen <? 1) then ret (Ok None)
          else
            match conn_Read reqLen conn with
            | Err e => ret (Err e)
            | Ok (buff, conn) =>
                match buff with
                | [] => panic "index out of range"
                | k :: body =>
                    let* res :=
                      (if bool_decide (k = SifnedRpc) then handleTransaction body
                       else if bool_decide (k = UnsignedRpc) then handleCall body
                       else ret (Ok None)) in
                    match res with
                    | Err e => ret (Err e)
                    | Ok None => ret (Ok None)
                    | Ok (Some res) =>
                        match ToHex Int32 (s32 (len res)) with
                        | Err e => ret (Err e)
                        | Ok prefixedData => ret (Ok (Some (prefixedData ++ res)))
                        end
                    end
                end
            end
      end
  end.
End server.

(** ** The client *)
Record Client := mkClient { c_name : string; c_wallet : Wallet }.

Section client.
Context `{Sha3, Ed25519, Base58}.

Definition NewClient (seed : result bytes) (io_err : option error) (name : string)
  (files : gmap string bytes) : result Client * gmap string bytes :=
  let '(w, files') := NewWallet seed io_err name files in
  ((let? w := w in Ok (mkClient name w)), files').

(** Dialling an address and writing to it: the chunks that come back. *)
Context {S : Type} (dial : string -> bytes -> M S (result (list bytes))).

Definition send (port : string) (data : bytes) : M S (result bytes) :=
  let ip4 := Ip4Format port in
  match ToHex Int32 (s32 (len data)) with
  | Err e => ret (Err e)
  | Ok prefixedData =>
      let* conn := dial ip4 (prefixedData ++ data) in
      match conn with
      | Err e => ret (Err e)
      | Ok conn =>
          match conn_Read 4 conn with
          | Err e => ret (Err e)
          | Ok (buff, conn) =>
              match FromHex Int32 buff with
              | Err e => ret (Err e)
              | Ok resLen =>
                  if resLen <? 0 then panic "makeslice: len out of range"
                  else
                    match conn_Read resLen conn with
                    | Err e => ret (Err e)
                    | Ok (buff, _) => ret (Ok buff)
                    end
              end
          end
      end
  end.

Definition sendCall (port : string) (call : Call) : M S (result bytes) :=
  match Marshal call with
  | Err e => ret (Err e)
  | Ok enc => send port (UnsignedRpc :: enc)
  end.

Definition sendTransaction (port : string) (tx : Transaction) : M S (result bytes) :=
  match Marshal tx with
  | Err e => ret (Err e)
  | Ok enc => send port (SifnedRpc :: enc)
  end.

Definition GetAccountInfo (port : string) (c : Client) : M S (result AccountState) :=
  let call := NewCall GetAccountState (Wallet_PublicKey (c_wallet c)) in
  let* res := sendCall port call in
  match res with
  | Err e => ret (Err e)
  | Ok res => ret (Unmarshal (T := AccountState) res)
  end.

(** The common end of [Airdrop] and [Transfer]: an error of [sendTransaction]
    is dropped, and an empty answer returned.  [now] is the clock. *)
Definition submit (now : Z) (port : string) (w : Wallet) (call : Call) : M S (result string) :=
  match Marshal call with
  | Err e => ret (Err e)
  | Ok encCall =>
      let* tx := lift (Wallet_Sign w (NewTransaction now (Some encCall))) in
      match tx with
      | Err e => ret (Err e)
      | Ok tx =>
          let* res := sendTransaction port tx in
          match res with
          | Err _ => ret (Ok EmptyString)
          | Ok res => ret (Ok (String.string_of_list_byte res))
          end
      end
  end.

Definition Client_Airdrop (now amount : Z) (port : string) (c : Client) : M S (result string * Client) :=
  let* info := GetAccountInfo port c in
  match info with
  | Err e => ret (Err e, c)
  | Ok info =>
      let w := Wallet_Init (c_wallet c) (st_Nonce info) (st_Balance info) in
      let c := mkClient (c_name c) w in
      match Marshal (mkAirdropParam amount) with
      | Err e => ret (Err e, c)
      | Ok encPara =>
          let* r := submit now port w (NewCall Airdrop (Some encPara)) in ret (r, c)
      end
  end.

Definition Client_Transfer (now amount : Z) (to port : string) (c : Client) : M S (result string * Client) :=
  let* info := GetAccountInfo port c in
  match info with
  | Err e => ret (Err e, c)
  | Ok info =>
      let w := Wallet_Init (c_wallet c) (st_Nonce info) (st_Balance info) in
      let c := mkClient (c_name c) w in
      match Marshal (mkTransferParam amount (Some (Decode to))) with
      | Err e => ret (Err e, c)
      | Ok encPara =>
          let* r := submit now port w (NewCall Transfer (Some encPara)) in ret (r, c)
      end
  end.
End client.
