(* ===== verification/ServerProps.v ===== *)
(** The properties of the RPC server and the client: what a client asks for is
    what it gets, and what it submits reaches the node's pool and its peers. *)
From S2P Require Import Prelude Json JsonLaws JsonSize Common External Merkle Accounts Txs Blocks Rpc Memory.
From S2P Require Import MemoryFacts MempoolFacts Ledger Storage StorageFacts StorageProps Executers ExecuterFacts.
From S2P Require Import BlockExec Settlement ExecutionProps ProducerProps P2p P2pProps Node NodeFacts Sync SyncProps Server.
Open Scope Z_scope.

(** ** Framing *)
Lemma conn_Read_prefix (hd body : bytes) : length hd = 4%nat ->
  conn_Read 4 [hd ++ body] = Ok (hd, match body with [] => [] | _ => [body] end).
Proof.
  intros Hl. unfold conn_Read. change (4 <=? 0) with false. cbv iota. change (Z.to_nat 4) with 4%nat.
  rewrite take_app_length', drop_app_length' by done. rewrite Hl. cbn [Nat.sub replicate]. rewrite app_nil_r. by destruct body.
Qed.

Lemma conn_Read_all (body : bytes) : conn_Read (len body) (match body with [] => [] | _ => [body] end) = Ok (body, []).
Proof.
  destruct body as [|b body]; [done|]. unfold conn_Read, len.
  rewrite (proj2 (Z.leb_gt _ _)) by (cbn [length]; lia). rewrite Nat2Z.id, take_ge, drop_ge by done.
  rewrite Nat.sub_diag. cbn [replicate]. by rewrite app_nil_r.
Qed.

Lemma frame (body : bytes) : len body < 2 ^ 31 ->
  exists hd, ToHex Int32 (s32 (len body)) = Ok hd /\ length hd = 4%nat /\ FromHex Int32 hd = Ok (len body).
Proof.
  intros Hl. assert (IntKind_in Int32 (len body)) as Hin by (cbn; unfold len in *; lia).
  eexists. split; [reflexivity|]. split; [apply length_be_encode|].
  assert (s32 (len body) = len body) as -> by (unfold s32, len in *; rewrite Z.mod_small; lia). pose proof (FromHex_ToHex Int32 (len body) _ [] Hin eq_refl) as Hf.
  by rewrite app_nil_r in Hf.
Qed.

Section server_facts.
Context `{Sha3, Ed25519, Base58, ExpSlices, MapOrder, Bolt}.
Context `{!Sha3Laws, !Ed25519Laws, !Base58Laws, !ExpSlicesLaws, !MapOrderLaws, !BoltLaws}.

(** A connection between a client and a node: each side's bytes arrive in one
    piece.  The node reports the error of its handler and closes it. *)
Definition dial_node (ip4 : string) (data : bytes) : M Node (result (list bytes)) :=
  let* r := handleRpc [data] in
  match r with
  | Err e => let* _ := report e in ret (Ok [])
  | Ok None => ret (Ok [])
  | Ok (Some res) => ret (Ok [res])
  end.

(** What the server does with a request, before the answer is framed. *)
Definition answer (k : byte) (body : bytes) : M Node (result gobytes) :=
  if bool_decide (k = SifnedRpc) then handleTransaction body
  else if bool_decide (k = UnsignedRpc) then handleCall body
  else ret (Ok None).

Lemma handleRpc_run hd k body n : length hd = 4%nat -> FromHex Int32 hd = Ok (len (k :: body)) ->
  len (k :: body) <= MaxPayloadSize ->
  handleRpc [hd ++ k :: body] n
  = (let* res := answer k body in
     match res with
     | Err e => ret (Err e)
     | Ok None => ret (Ok None)
     | Ok (Some res) =>
         match ToHex Int32 (s32 (len res)) with
         | Err e => ret (Err e)
         | Ok prefixedData => ret (Ok (Some (prefixedData ++ res)))
         end
     end) n.
Proof.
  intros Lhd Hf Hl. unfold handleRpc. rewrite conn_Read_prefix by done. rewrite Hf.
  rewrite (proj2 (Z.ltb_ge MaxPayloadSize _)), (proj2 (Z.ltb_ge _ 1)) by (unfold len in *; cbn [length] in *; lia).
  cbn [orb]. pose proof (conn_Read_all (k :: body)) as Hc. cbv iota in Hc. by rewrite Hc.
Qed.

(** A request and its answer. *)
Lemma send_run port k body n n' res : len (k :: body) <= MaxPayloadSize ->
  answer k body n = (Done (Ok (Some res)), n') -> len res < 2 ^ 31 ->
  send dial_node port (k :: body) n = (Done (Ok res), n').
Proof.
  intros Hl Ha Hr. destruct (frame (k :: body)) as (hd & Ht & Lhd & Hf); [unfold MaxPayloadSize in *; lia|].
  destruct (frame res Hr) as (hd' & Ht' & Lhd' & Hf').
  assert (handleRpc [hd ++ k :: body] n = (Done (Ok (Some (hd' ++ res))), n')) as Hrpc.
  { rewrite handleRpc_run, (bind_done _ _ _ _ _ Ha) by done. by rewrite Ht'. }
  unfold send. rewrite Ht. assert (dial_node (Ip4Format port) (hd ++ k :: body) n = (Done (Ok [hd' ++ res]), n')) as Hd
    by (unfold dial_node; by rewrite (bind_done _ _ _ _ _ Hrpc)).
  rewrite (bind_done _ _ _ _ _ Hd). rewrite conn_Read_prefix by done. rewrite Hf'.
  rewrite (proj2 (Z.ltb_ge _ 0)) by (unfold len; lia). by rewrite conn_Read_all.
Qed.

(** A request without an answer. *)
Lemma send_unanswered port k body n n' : len (k :: body) <= MaxPayloadSize ->
  answer k body n = (Done (Ok None), n') -> send dial_node port (k :: body) n = (Done (Err "EOF"%string), n').
Proof.
  intros Hl Ha. destruct (frame (k :: body)) as (hd & Ht & Lhd & Hf); [unfold MaxPayloadSize in *; lia|].
  assert (handleRpc [hd ++ k :: body] n = (Done (Ok None), n')) as Hrpc.
  { by rewrite handleRpc_run, (bind_done _ _ _ _ _ Ha). }
  unfold send. rewrite Ht. assert (dial_node (Ip4Format port) (hd ++ k :: body) n = (Done (Ok []), n')) as Hd
    by (unfold dial_node; by rewrite (bind_done _ _ _ _ _ Hrpc)).
  by rewrite (bind_done _ _ _ _ _ Hd).
Qed.

(** *** Reading an account *)
Lemma in_exe_read {A} (m : M DB A) n a : m (ndb n) = (Done a, ndb n) -> in_exe (db m) n = (Done a, n).
Proof. intros Hm. rewrite (in_exe_db _ _ _ _ Hm). by destruct n as [[[? ?] ?] ? ? ? ? ? ?]. Qed.

Lemma get_account_small key enc : is_key key -> Marshal (NewCall GetAccountState (Some key)) = Ok enc ->
  len (UnsignedRpc :: enc) <= MaxPayloadSize.
Proof.
  intros Kk Hm. assert (length key = 32%nat) as L by exact Kk. pose proof (length_format_uint 3 ltac:(unfold in_u64; lia)).
  apply Marshal_size in Hm. size_of Hm. rewrite quote_b64_32 in Hm by done.
  unfold len, MaxPayloadSize. cbn [length]. lia.
Qed.

Lemma GetAccountInfo_run port c n key st : Wallet_PublicKey (c_wallet c) = Some key -> is_key key ->
  bolt_has_bucket (ndb n) accountsBucket = true -> stored_state (ndb n) key = Ok st ->
  (forall v, bolt_get (ndb n) accountsBucket key = Some v -> len v < 2 ^ 31) ->
  GetAccountInfo dial_node port c n = (Done (Ok st), n).
Proof.
  intros Hpk Kk Hb Hst Hsmall. assert (length key = 32%nat) as L by exact Kk.
  unfold GetAccountInfo. rewrite Hpk. unfold sendCall.
  destruct (Marshal (NewCall GetAccountState (Some key))) as [enc|] eqn:Hm; [|done].
  pose proof (accounts_get key (ndb n) Hb) as Hg.
  assert (exists res, answer UnsignedRpc enc n = (Done (Ok (Some res)), n) /\ len res < 2 ^ 31
    /\ Unmarshal (T := AccountState) res = Ok st) as (res & Ha & Hl & Hu).
  { unfold answer. change (bool_decide (UnsignedRpc = SifnedRpc)) with false.
    change (bool_decide (UnsignedRpc = UnsignedRpc)) with true. cbv iota. unfold handleCall.
    assert (Unmarshal enc = Ok (NewCall GetAccountState (Some key))) as ->
      by (apply Unmarshal_Marshal; [by vm_compute|done]).
    unfold VerifyGetAccountStateCall. cbn [NewCall call_Call call_Params raw default id]. unfold len, PublicKeySize.
    rewrite L. change ((GetAccountState =? GetAccountState) && (Z.of_nat 32 =? 32)) with true. cbv iota.
    rewrite (bind_done _ _ _ _ _ (in_exe_read _ _ _ Hg)). cbn [ResErr Value]. unfold stored_state in Hst.
    destruct (bolt_get (ndb n) accountsBucket key) as [v|] eqn:E.
    - exists v. split_and!; [done|by apply Hsmall|exact Hst].
    - injection Hst as <-. exists (bytes_of (mkAccountState 0 0)). split_and!; [done|by vm_compute|by vm_compute]. }
  rewrite (bind_done _ _ _ _ _ (send_run port _ _ _ _ _ (get_account_small key enc Kk Hm) Ha Hl)). by rewrite Hu.
Qed.

(** *** Submitting a transaction *)
Definition relay n (tx : Transaction) : bytes := packed (mkTransactionMsg (Some [self (n_p2p n)]) tx) TxMsg.

(** A node that took a transaction: it told each of its peers. *)
Definition submitted (tx : Transaction) (s' : MemoryService) (n : Node) : Node :=
  set_n_p2p (sends (map (fun p => (p, relay n tx)) (peers (n_p2p n))) (n_p2p n)) (set_n_exe (set_xmem s' (n_exe n)) n).

Lemma broadcast_once payload ps : peers_ok ps ->
  broadcast_to payload [self ps] (peers ps) = map (fun p => (p, payload)) (peers ps).
Proof.
  intros [_ Hself _]. revert Hself. generalize (peers ps) as l. induction l as [|p l IH]; intros Hn; [done|].
  cbn [map] in Hn. apply not_elem_of_cons in Hn as [Hne Hn]. cbn [broadcast_to flat_map map].
  change (flat_map _ l) with (broadcast_to payload [self ps] l). rewrite (IH Hn). unfold copies.
  cbn [List.filter]. destruct (IsSameIp p (self ps)) eqn:E; [by apply IsSameIp_spec in E|done].
Qed.

Lemma handleTransaction_run tx enc call n gen : Marshal tx = Ok enc -> u64_tx tx ->
  Transaction_Verify tx = Done (Ok true) -> Unmarshal (T := Call) (raw (td_Data (tx_InnerData tx))) = Ok call ->
  Call_Verify call = true -> node_ok n gen -> peers_ok (n_p2p n) ->
  if ContainsTx (tx_Hash tx) (nmem n) then answer SifnedRpc enc n = (Done (Ok None), n)
  else exists s', answer SifnedRpc enc n = (Done (Ok (Some (bstr "ok"))), submitted tx s' n)
    /\ node_ok (submitted tx s' n) gen /\ ledger s' = nledger n
    /\ pool_of s' = Mempool_Append tx (pool_of (nmem n)).
Proof.
  intros Hm Hu Hv Hcall Hcv [Hs Hb Hr] Hps.
  assert (answer SifnedRpc enc n
    = if ContainsTx (tx_Hash tx) (nmem n) then (Done (Ok None), n)
      else (let* _ := in_exe (mem (AppendTx tx)) in
            let* err := BroadcastTx tx [] in
            match err with Some e => ret (Err e) | None => ret (Ok (Some (bstr "ok"))) end) n) as ->.
  { unfold answer. change (bool_decide (SifnedRpc = SifnedRpc)) with true. cbv iota. unfold handleTransaction.
    assert (Unmarshal enc = Ok tx) as -> by (by apply Unmarshal_Marshal).
    unfold bind at 1, lift. rewrite Hv, Hcall, Hcv. cbn [negb]. unfold bind at 1, get.
    change (env_mem (exe_env (n_exe n))) with (nmem n). by destruct (ContainsTx (tx_Hash tx) (nmem n)). }
  destruct (ContainsTx (tx_Hash tx) (nmem n)); [done|].
  destruct (send_tx_run (mkMempoolRequest MemAppend (Some tx) None) (n_exe n) gen Hs Hr) as (s' & Hrun & Hs' & Hr' & HL & Hp).
  exists s'. split_and!; [|by split|exact HL|exact Hp].
  change (send_tx _) with (AppendTx tx) in Hrun. rewrite (bind_done _ _ _ _ _ (in_exe_done _ n _ _ Hrun)).
  set (n1 := set_n_exe _ n). assert (BroadcastTx tx [] n1 = (Done None, submitted tx s' n)) as Hbc.
  { unfold BroadcastTx. unfold bind at 1, get. cbn [app]. change (self (n_p2p n1)) with (self (n_p2p n)).
    change (PackPayload _ _) with (Ok (relay n tx) : result bytes). cbv iota.
    pose proof (Broadcast_run (relay n tx) [self (n_p2p n)] (p2p_of n1)) as Hb1.
    change (p2p_of n1) with (n_p2p n) in Hb1. rewrite (broadcast_once _ _ Hps) in Hb1.
    unfold bind, in_p2p, zoom. change (p2p_of n1) with (n_p2p n). by rewrite Hb1. }
  by rewrite (bind_done _ _ _ _ _ Hbc).
Qed.

(** *** The transaction of a transfer *)
Lemma transfer_sizes amount key param data : in_u64 amount -> length key = 32%nat ->
  Marshal (mkTransferParam amount (Some key)) = Ok param -> Marshal (NewCall Transfer (Some param)) = Ok data ->
  (length data <= 300)%nat.
Proof.
  intros Ha Lk Hp Hd. pose proof (length_format_uint amount Ha) as Hf.
  pose proof (length_format_uint 2 ltac:(unfold in_u64; lia)) as Hf2.
  apply Marshal_size in Hp. size_of Hp. rewrite quote_b64_32 in Hp by done.
  apply Marshal_size in Hd. size_of Hd. pose proof (length_quote_b64 param) as Hq. unfold len in Hq.
  assert (Z.of_nat (length param) <= 128) by lia.
  assert ((Z.of_nat (length param) + 2) / 3 <= 43) by (Z.div_mod_to_equations; lia). lia.
Qed.

Lemma tx_small tx enc pk sig data h : Marshal tx = Ok enc -> u64_tx tx -> (length data <= 300)%nat ->
  td_PublicKey (tx_InnerData tx) = Some pk -> td_Signature (tx_InnerData tx) = Some sig ->
  td_Data (tx_InnerData tx) = Some data -> tx_Hash tx = Some h ->
  length pk = 32%nat -> length sig = 64%nat -> length h = 32%nat -> len (SifnedRpc :: enc) <= MaxPayloadSize.
Proof.
  destruct tx as [h' [d' p' nonce s' ts] st]. unfold u64_tx, u64_tx_data. cbn [tx_InnerData tx_Hash td_Data td_PublicKey td_Signature td_Nonce td_Timestamp].
  intros Hm [Hn Ht] Hd -> -> -> -> Lp Ls Lh.
  pose proof (length_format_uint nonce Hn). pose proof (length_format_int ts Ht).
  pose proof (length_quote_b64 data) as Hq. unfold len in Hq.
  assert ((Z.of_nat (length data) + 2) / 3 <= 100) by (Z.div_mod_to_equations; lia).
  apply Marshal_size in Hm. size_of Hm. rewrite (quote_b64_32 pk), (quote_b64_32 h), (quote_b64_64 sig) in Hm by done.
  unfold len, MaxPayloadSize. cbn [length]. destruct st; lia.
Qed.

(** A verified transfer as the executer will read it. *)
Lemma transfer_call amount key param data : 0 < amount < GeneratorBalance -> length key = 32%nat ->
  Marshal (mkTransferParam amount (Some key)) = Ok param -> Marshal (NewCall Transfer (Some param)) = Ok data ->
  Unmarshal (T := Call) data = Ok (NewCall Transfer (Some param)) /\ Call_Verify (NewCall Transfer (Some param)) = true
  /\ forall tx, raw (td_Data (tx_InnerData tx)) = data -> decode_op tx = Some (OpTransfer key amount).
Proof.
  intros Ha Lk Hp Hd. assert (Unmarshal (T := TransferParam) param = Ok (mkTransferParam amount (Some key))) as Hup.
  { apply Unmarshal_Marshal; [|exact Hp]. unfold GeneratorBalance in Ha. unfold wf_json. cbn. unfold u64_transfer, in_u64. cbn. lia. }
  assert (Unmarshal (T := Call) data = Ok (NewCall Transfer (Some param))) as Hud
    by (apply Unmarshal_Marshal; [by vm_compute|exact Hd]).
  assert (Call_Verify (NewCall Transfer (Some param)) = true) as Hv.
  { apply Call_Verify_correct. right. right. split; [done|]. eexists. split; [exact Hup|]. split; [exact Ha|].
    unfold len, PublicKeySize. cbn [tp_To raw default id]. by rewrite Lk. }
  split_and!; [exact Hud|exact Hv|]. intros tx Htx. unfold decode_op. rewrite Htx, Hud, Hv. cbn [negb NewCall call_Call call_Params].
  change (Transfer =? Airdrop) with false. change (Transfer =? Transfer) with true. cbv iota.
  cbn [raw default id]. by rewrite Hup.
Qed.

(** What a client's submission does: the transaction it makes, and the answer. *)
Lemma submit_run now port w param amount key n gen : wallet_ok w -> in_s64 now -> 0 < now -> in_u64 (wallet_nonce w) ->
  0 < amount < GeneratorBalance -> length key = 32%nat -> Marshal (mkTransferParam amount (Some key)) = Ok param ->
  node_ok n gen -> peers_ok (n_p2p n) ->
  exists tx, Transaction_Verify tx = Done (Ok true) /\ td_PublicKey (tx_InnerData tx) = Wallet_PublicKey w
    /\ td_Nonce (tx_InnerData tx) = wallet_nonce w /\ decode_op tx = Some (OpTransfer key amount)
    /\ if ContainsTx (tx_Hash tx) (nmem n)
       then submit dial_node now port w (NewCall Transfer (Some param)) n = (Done (Ok EmptyString), n)
       else exists s', submit dial_node now port w (NewCall Transfer (Some param)) n
              = (Done (Ok "ok"%string), submitted tx s' n)
            /\ node_ok (submitted tx s' n) gen /\ ledger s' = nledger n
            /\ pool_of s' = Mempool_Append tx (pool_of (nmem n)).
Proof.
  intros Hw Hs64 Hnow Hnonce Ha Lk Hp Hn Hps.
  destruct (Marshal (NewCall Transfer (Some param))) as [data|] eqn:Hd; [|done].
  assert (in_u64 amount) as Ha64 by (unfold in_u64, GeneratorBalance in *; lia).
  pose proof (transfer_sizes amount key param data Ha64 Lk Hp Hd) as Ldata.
  destruct (transfer_call amount key param data Ha Lk Hp Hd) as (Hud & Hcv & Hop).
  assert (data <> []) as Hne by (intros ->; by vm_compute in Hud).
  destruct (Wallet_Sign_run w now (Some data) Hw Hnow) as (pk & sig & enc & Hpk & Kpk & Lsig & Hm & Hsign & Hv).
  { unfold len, MaxPayloadSize. cbn [raw default id]. destruct data; [done|]. cbn [length] in *. lia. }
  set (tx := mkTransaction _ _ _) in Hsign, Hv. destruct (Marshal tx) as [txb|] eqn:Htx; [|done].
  assert (u64_tx tx) as Hu by (by split).
  assert (len (SifnedRpc :: txb) <= MaxPayloadSize) as Hfit
    by (by eapply (tx_small tx txb pk sig data (Sum256 enc)); try done; apply length_Sum256).
  exists tx. split_and!; [exact Hv|by rewrite Hpk|done|by apply Hop|].
  pose proof (handleTransaction_run tx txb _ n gen Htx Hu Hv Hud Hcv Hn Hps) as Hr.
  unfold submit. rewrite Hd. unfold bind at 1 3, lift. rewrite Hsign. unfold sendTransaction. rewrite Htx.
  destruct (ContainsTx (tx_Hash tx) (nmem n)).
  - by rewrite (bind_done _ _ _ _ _ (send_unanswered port _ _ _ _ Hfit Hr)).
  - destruct Hr as (s' & Hr & Hrest). exists s'. split; [|exact Hrest].
    rewrite (bind_done _ _ _ _ _ (send_run port _ _ _ _ _ Hfit Hr eq_refl)). reflexivity.
Qed.
End server_facts.

(** *** A client and a node *)
Section client_properties.
Context `{Sha3, Ed25519, Base58, ExpSlices, MapOrder, Bolt}.
Context `{!Sha3Laws, !Ed25519Laws, !Base58Laws, !ExpSlicesLaws, !MapOrderLaws, !BoltLaws}.

(** A client's transfer reaches the node: over a connection that delivers
    each side's bytes in one piece, [Transfer] reads the client's state as the
    node's database has it and submits a transaction that verifies, carries
    the client's key and the next nonce, and asks for this transfer.  If the
    pool has it already nothing changes and the answer is empty; otherwise the
    node appends it to its pool and sends it to each of its peers, its ledger
    is unchanged, and the client is answered [ok]. *)
Lemma client_transfer_run now amount to port c n gen key :
  node_ok n gen -> peers_ok (n_p2p n) -> wallet_ok (c_wallet c) -> Wallet_PublicKey (c_wallet c) = Some key ->
  (forall v, bolt_get (ndb n) accountsBucket key = Some v -> len v < 2 ^ 31) ->
  is_key (Decode to) -> 0 < amount < GeneratorBalance -> in_s64 now -> 0 < now ->
  let st := stored (ndb n) key in
  let c' := mkClient (c_name c) (Wallet_Init (c_wallet c) (st_Nonce st) (st_Balance st)) in
  exists tx, Transaction_Verify tx = Done (Ok true) /\ td_PublicKey (tx_InnerData tx) = Some key
    /\ td_Nonce (tx_InnerData tx) = st_Nonce st /\ decode_op tx = Some (OpTransfer (Decode to) amount)
    /\ if ContainsTx (tx_Hash tx) (nmem n)
       then Client_Transfer dial_node now amount to port c n = (Done (Ok EmptyString, c'), n)
       else exists s', Client_Transfer dial_node now amount to port c n = (Done (Ok "ok"%string, c'), submitted tx s' n)
            /\ node_ok (submitted tx s' n) gen /\ ledger s' = nledger n
            /\ pool_of s' = Mempool_Append tx (pool_of (nmem n)).
Proof.
  intros Hn Hps Hw Hpk Hsmall Kto Ha Hs64 Hnow st c'. destruct (Hn) as [Hs _ _].
  assert (is_key key) as Kk by (destruct (SignRaw_ok (c_wallet c) None Hw) as (pk & _ & Hpk' & Kpk & _); congruence).
  assert (stored_state (ndb n) key = Ok st) as Hst by (by apply stored_ok; [apply (q_db _ (se_quiet _ _ Hs))|]).
  pose proof (GetAccountInfo_run port c n key st Hpk Kk (proj1 (q_db _ (se_quiet _ _ Hs))) Hst Hsmall) as Hinfo.
  destruct (Marshal (mkTransferParam amount (Some (Decode to)))) as [param|] eqn:Hp; [|done].
  destruct (submit_run now port (c_wallet c') param amount (Decode to) n gen) as (tx & Hv & Hk & Hno & Hop & Hr); try done.
  { apply wf_state_u64. by apply (se_sane _ _ Hs). }
  exists tx. split_and!; [exact Hv|by rewrite Hk|exact Hno|exact Hop|].
  unfold Client_Transfer. rewrite (bind_done _ _ _ _ _ Hinfo). cbv zeta. fold c'. rewrite Hp.
  change (Wallet_Init _ _ _) with (c_wallet c').
  destruct (ContainsTx (tx_Hash tx) (nmem n)).
  - by rewrite (bind_done _ _ _ _ _ Hr).
  - destruct Hr as (s' & Hr & Hrest). exists s'. split; [|exact Hrest]. by rewrite (bind_done _ _ _ _ _ Hr).
Qed.
End client_properties.
