(* ===== verification/ConsensusMsgs.v ===== *)
(** Package [consensus], part one: the messages of the consensus service and
    their verification (consensus/consensus_msgs.go). *)
From S2P Require Import Prelude Json JsonLaws Common External Accounts Txs Blocks P2p.
Open Scope Z_scope.

Definition GossipMessage : byte := x01.
Definition StartBlockProcessingMessage : byte := x02.
Definition ProposeBlockMessage : byte := x03.
Definition VoteMessage : byte := x04.
Definition FinalizeMessage : byte := x05.

Definition ConsensusMsgSigContent : gobytes := Some (bstr "ConsensusMsgSignatureVersion2").

Record GossipMsg := mkGossipMsg {
  gm_From : NodeInfo;
  gm_FromPublicKey : gobytes;
  gm_Signature : gobytes;
  gm_IsSyncing : bool;
  gm_IsReady : bool;
  gm_NextHeight : Z;
  gm_NextEpoch : Z;
  gm_NextSlot : Z;
  BadNodes : option (list gobytes)
}.

Record StartBlockProcessingMsg := mkStartBlockProcessingMsg {
  sb_From : NodeInfo;
  sb_FromPublicKey : gobytes;
  sb_Signature : gobytes;
  sb_NextBlockProducer : gobytes;
  sb_NextAggregator : gobytes
}.

Record ProposeBlockMsg := mkProposeBlockMsg {
  pb_From : NodeInfo;
  pb_FromPublicKey : gobytes;
  pb_Signature : gobytes;
  pb_Block : Block
}.

(** [VoteMsg] and [FinalizeMsg] have the same fields. *)
Record VoteMsg := mkVoteMsg {
  vm_From : NodeInfo;
  vm_FromPublicKey : gobytes;
  vm_Signature : gobytes;
  vm_Height : Z;
  vm_Ok : bool
}.

Record FinalizeMsg := mkFinalizeMsg {
  fm_From : NodeInfo;
  fm_FromPublicKey : gobytes;
  fm_Signature : gobytes;
  fm_Height : Z;
  fm_Ok : bool
}.

#[export] Instance GossipMsg_json : JSON GossipMsg :=
  struct_codec (mkGossipMsg (c_zero NodeInfo_json) None None false false 0 0 0 None)
    [ fld "From" gm_From (fun a x => mkGossipMsg a (gm_FromPublicKey x) (gm_Signature x) (gm_IsSyncing x)
        (gm_IsReady x) (gm_NextHeight x) (gm_NextEpoch x) (gm_NextSlot x) (BadNodes x)) NodeInfo_json;
      fld "FromPublicKey" gm_FromPublicKey (fun a x => mkGossipMsg (gm_From x) a (gm_Signature x)
        (gm_IsSyncing x) (gm_IsReady x) (gm_NextHeight x) (gm_NextEpoch x) (gm_NextSlot x) (BadNodes x)) bytes_codec;
      fld "Signature" gm_Signature (fun a x => mkGossipMsg (gm_From x) (gm_FromPublicKey x) a
        (gm_IsSyncing x) (gm_IsReady x) (gm_NextHeight x) (gm_NextEpoch x) (gm_NextSlot x) (BadNodes x)) bytes_codec;
      fld "IsSyncing" gm_IsSyncing (fun a x => mkGossipMsg (gm_From x) (gm_FromPublicKey x) (gm_Signature x)
        a (gm_IsReady x) (gm_NextHeight x) (gm_NextEpoch x) (gm_NextSlot x) (BadNodes x)) bool_codec;
      fld "IsReady" gm_IsReady (fun a x => mkGossipMsg (gm_From x) (gm_FromPublicKey x) (gm_Signature x)
        (gm_IsSyncing x) a (gm_NextHeight x) (gm_NextEpoch x) (gm_NextSlot x) (BadNodes x)) bool_codec;
      fld "NextHeight" gm_NextHeight (fun a x => mkGossipMsg (gm_From x) (gm_FromPublicKey x) (gm_Signature x)
        (gm_IsSyncing x) (gm_IsReady x) a (gm_NextEpoch x) (gm_NextSlot x) (BadNodes x)) (uint_codec 64);
      fld "NextEpoch" gm_NextEpoch (fun a x => mkGossipMsg (gm_From x) (gm_FromPublicKey x) (gm_Signature x)
        (gm_IsSyncing x) (gm_IsReady x) (gm_NextHeight x) a (gm_NextSlot x) (BadNodes x)) (uint_codec 64);
      fld "NextSlot" gm_NextSlot (fun a x => mkGossipMsg (gm_From x) (gm_FromPublicKey x) (gm_Signature x)
        (gm_IsSyncing x) (gm_IsReady x) (gm_NextHeight x) (gm_NextEpoch x) a (BadNodes x)) (uint_codec 32);
      fld "BadNodes" BadNodes (fun a x => mkGossipMsg (gm_From x) (gm_FromPublicKey x) (gm_Signature x)
        (gm_IsSyncing x) (gm_IsReady x) (gm_NextHeight x) (gm_NextEpoch x) (gm_NextSlot x) a)
        (slice_codec bytes_codec) ].

#[export] Instance StartBlockProcessingMsg_json : JSON StartBlockProcessingMsg :=
  struct_codec (mkStartBlockProcessingMsg (c_zero NodeInfo_json) None None None None)
    [ fld "From" sb_From (fun a x => mkStartBlockProcessingMsg a (sb_FromPublicKey x) (sb_Signature x)
        (sb_NextBlockProducer x) (sb_NextAggregator x)) NodeInfo_json;
      fld "FromPublicKey" sb_FromPublicKey (fun a x => mkStartBlockProcessingMsg (sb_From x) a
        (sb_Signature x) (sb_NextBlockProducer x) (sb_NextAggregator x)) bytes_codec;
      fld "Signature" sb_Signature (fun a x => mkStartBlockProcessingMsg (sb_From x) (sb_FromPublicKey x) a
        (sb_NextBlockProducer x) (sb_NextAggregator x)) bytes_codec;
      fld "NextBlockProducer" sb_NextBlockProducer (fun a x => mkStartBlockProcessingMsg (sb_From x)
        (sb_FromPublicKey x) (sb_Signature x) a (sb_NextAggregator x)) bytes_codec;
      fld "NextAggregator" sb_NextAggregator (fun a x => mkStartBlockProcessingMsg (sb_From x)
        (sb_FromPublicKey x) (sb_Signature x) (sb_NextBlockProducer x) a) bytes_codec ].

#[export] Instance ProposeBlockMsg_json : JSON ProposeBlockMsg :=
  struct_codec (mkProposeBlockMsg (c_zero NodeInfo_json) None None (c_zero Block_json))
    [ fld "From" pb_From (fun a x => mkProposeBlockMsg a (pb_FromPublicKey x) (pb_Signature x) (pb_Block x))
        NodeInfo_json;
      fld "FromPublicKey" pb_FromPublicKey (fun a x => mkProposeBlockMsg (pb_From x) a (pb_Signature x)
        (pb_Block x)) bytes_codec;
      fld "Signature" pb_Signature (fun a x => mkProposeBlockMsg (pb_From x) (pb_FromPublicKey x) a
        (pb_Block x)) bytes_codec;
      fld "Block" pb_Block (fun a x => mkProposeBlockMsg (pb_From x) (pb_FromPublicKey x) (pb_Signature x) a)
        Block_json ].

#[export] Instance VoteMsg_json : JSON VoteMsg :=
  struct_codec (mkVoteMsg (c_zero NodeInfo_json) None None 0 false)
    [ fld "From" vm_From (fun a x => mkVoteMsg a (vm_FromPublicKey x) (vm_Signature x) (vm_Height x) (vm_Ok x))
        NodeInfo_json;
      fld "FromPublicKey" vm_FromPublicKey (fun a x => mkVoteMsg (vm_From x) a (vm_Signature x) (vm_Height x)
        (vm_Ok x)) bytes_codec;
      fld "Signature" vm_Signature (fun a x => mkVoteMsg (vm_From x) (vm_FromPublicKey x) a (vm_Height x)
        (vm_Ok x)) bytes_codec;
      fld "Height" vm_Height (fun a x => mkVoteMsg (vm_From x) (vm_FromPublicKey x) (vm_Signature x) a (vm_Ok x))
        (uint_codec 64);
      fld "Ok" vm_Ok (fun a x => mkVoteMsg (vm_From x) (vm_FromPublicKey x) (vm_Signature x) (vm_Height x) a)
        bool_codec ].

#[export] Instance FinalizeMsg_json : JSON FinalizeMsg :=
  struct_codec (mkFinalizeMsg (c_zero NodeInfo_json) None None 0 false)
    [ fld "From" fm_From (fun a x => mkFinalizeMsg a (fm_FromPublicKey x) (fm_Signature x) (fm_Height x) (fm_Ok x))
        NodeInfo_json;
      fld "FromPublicKey" fm_FromPublicKey (fun a x => mkFinalizeMsg (fm_From x) a (fm_Signature x) (fm_Height x)
        (fm_Ok x)) bytes_codec;
      fld "Signature" fm_Signature (fun a x => mkFinalizeMsg (fm_From x) (fm_FromPublicKey x) a (fm_Height x)
        (fm_Ok x)) bytes_codec;
      fld "Height" fm_Height (fun a x => mkFinalizeMsg (fm_From x) (fm_FromPublicKey x) (fm_Signature x) a
        (fm_Ok x)) (uint_codec 64);
      fld "Ok" fm_Ok (fun a x => mkFinalizeMsg (fm_From x) (fm_FromPublicKey x) (fm_Signature x) (fm_Height x) a)
        bool_codec ].

(** ** Verification *)
Section verify.
Context `{Sha3, Ed25519, Base58}.

Definition VerifyConsensusSignature (signature pubKey : gobytes) : outcome bool :=
  ed25519_Verify pubKey ConsensusMsgSigContent signature.

Definition is_public_key (pk : gobytes) : bool := len (raw pk) =? PublicKeySize.
Definition has_signature (sig : gobytes) : bool := negb (is_nil sig) && (0 <? len (raw sig)).

Definition GossipMsg_Verify (gm : GossipMsg) : outcome bool :=
  if negb (forallb is_public_key (default [] (BadNodes gm))) then Done false
  else
    outcome_and (Done (NodeInfo_Verify (gm_From gm)))
      (outcome_and (VerifyConsensusSignature (gm_Signature gm) (gm_FromPublicKey gm))
        (Done (is_public_key (gm_FromPublicKey gm) && has_signature (gm_Signature gm)))).

Definition StartBlockProcessingMsg_Verify (sbpm : StartBlockProcessingMsg) : outcome bool :=
  outcome_and (Done (NodeInfo_Verify (sb_From sbpm)))
    (outcome_and (VerifyConsensusSignature (sb_Signature sbpm) (sb_FromPublicKey sbpm))
      (Done (negb (is_nil (sb_FromPublicKey sbpm)) && is_public_key (sb_FromPublicKey sbpm)
             && has_signature (sb_Signature sbpm)
             && negb (is_nil (sb_NextBlockProducer sbpm)) && is_public_key (sb_NextBlockProducer sbpm)
             && negb (is_nil (sb_NextAggregator sbpm)) && is_public_key (sb_NextAggregator sbpm)))).

Definition ProposeBlockMsg_Verify (pbm : ProposeBlockMsg) : outcome bool :=
  outcome_and (Done (NodeInfo_Verify (pb_From pbm)))
    (outcome_and (VerifyConsensusSignature (pb_Signature pbm) (pb_FromPublicKey pbm))
      (outcome_and
        (Done (negb (is_nil (pb_FromPublicKey pbm)) && is_public_key (pb_FromPublicKey pbm)
               && has_signature (pb_Signature pbm)))
        (Block_Verify (pb_Block pbm)))).

Definition VoteMsg_Verify (vm : VoteMsg) : outcome bool :=
  outcome_and (Done (NodeInfo_Verify (vm_From vm)))
    (outcome_and (VerifyConsensusSignature (vm_Signature vm) (vm_FromPublicKey vm))
      (Done (negb (is_nil (vm_FromPublicKey vm)) && is_public_key (vm_FromPublicKey vm)
             && has_signature (vm_Signature vm)))).

Definition FinalizeMsg_Verify (fm : FinalizeMsg) : outcome bool :=
  outcome_and (Done (NodeInfo_Verify (fm_From fm)))
    (outcome_and (VerifyConsensusSignature (fm_Signature fm) (fm_FromPublicKey fm))
      (Done (negb (is_nil (fm_FromPublicKey fm)) && is_public_key (fm_FromPublicKey fm)
             && has_signature (fm_Signature fm)))).
End verify.
