(* ===== verification/Consensus.v ===== *)
(** Package [consensus], part two: the consensus service
    (consensus/consensus_service.go, consensus/handlers.go).

    A goroutine that waits on a channel is the data it waits with: [timeouts]
    are the goroutines of [timeout], each by the number of the channel
    [finalizeCh] it was started with; [accountCh] holds the keys of the
    goroutine of [Execute], and [blockCh] the block of the goroutine of
    [NewBlock].  An unbuffered send needs such a receiver; without one it
    blocks for ever.  The handlers run one after another (they are not
    synchronized in the code, as it says itself). *)
From S2P Require Import Prelude Json JsonLaws Common External Accounts Txs Blocks Memory Storage.
From S2P Require Import Executers Producer P2p Node Sync ConsensusMsgs.
Open Scope Z_scope.

(** The fields that [reset] clears. *)
Record Round := mkRound {
  nextValidators : list bytes;
  nextBlockProducer : gobytes;
  nextAggregator : gobytes;
  finalizeCh : option nat;
  accountCh : option publicKeys;
  blockCh : option Block;
  numVoted : Z;
  numVotedOk : Z;
  waitingFinality : bool
}.

Definition NewRound : Round := mkRound [] None None None None None 0 0 false.

Definition set_nextValidators l (r : Round) : Round :=
  mkRound l (nextBlockProducer r) (nextAggregator r) (finalizeCh r) (accountCh r) (blockCh r)
    (numVoted r) (numVotedOk r) (waitingFinality r).
Definition set_committee p a (r : Round) : Round :=
  mkRound (nextValidators r) p a (finalizeCh r) (accountCh r) (blockCh r)
    (numVoted r) (numVotedOk r) (waitingFinality r).
Definition set_finalizeCh c (r : Round) : Round :=
  mkRound (nextValidators r) (nextBlockProducer r) (nextAggregator r) c (accountCh r) (blockCh r)
    (numVoted r) (numVotedOk r) (waitingFinality r).
Definition set_accountCh c (r : Round) : Round :=
  mkRound (nextValidators r) (nextBlockProducer r) (nextAggregator r) (finalizeCh r) c (blockCh r)
    (numVoted r) (numVotedOk r) (waitingFinality r).
Definition set_blockCh c (r : Round) : Round :=
  mkRound (nextValidators r) (nextBlockProducer r) (nextAggregator r) (finalizeCh r) (accountCh r) c
    (numVoted r) (numVotedOk r) (waitingFinality r).
Definition set_votes v o (r : Round) : Round :=
  mkRound (nextValidators r) (nextBlockProducer r) (nextAggregator r) (finalizeCh r) (accountCh r)
    (blockCh r) v o (waitingFinality r).
Definition set_waiting b (r : Round) : Round :=
  mkRound (nextValidators r) (nextBlockProducer r) (nextAggregator r) (finalizeCh r) (accountCh r)
    (blockCh r) (numVoted r) (numVotedOk r) b.

Section consensus.
Context `{Sha3, Ed25519, Base58, ExpSlices, MapOrder, Bolt}.

(** [cs_node] stands for memHandle, syncHandle, blockchainInfo and what
    producer refers to; [cs_errs] for the error channel; [cs_syncs] for the
    goroutines that [StartSync] started, with their targets. *)
Record ConsensusService := mkConsensusService {
  cs_node : Node;
  cs_p2p : P2pService;
  nodeWallet : Wallet;
  cs_errs : list error;
  round : Round;
  timeouts : list nat;
  cs_chans : nat;
  peersStatus : gmap string bool;
  badPeers : list bytes;
  cs_syncs : list Z
}.

Definition set_cs_node n s := mkConsensusService n (cs_p2p s) (nodeWallet s) (cs_errs s) (round s)
  (timeouts s) (cs_chans s) (peersStatus s) (badPeers s) (cs_syncs s).
Definition set_cs_p2p p s := mkConsensusService (cs_node s) p (nodeWallet s) (cs_errs s) (round s)
  (timeouts s) (cs_chans s) (peersStatus s) (badPeers s) (cs_syncs s).
Definition set_round r s := mkConsensusService (cs_node s) (cs_p2p s) (nodeWallet s) (cs_errs s) r
  (timeouts s) (cs_chans s) (peersStatus s) (badPeers s) (cs_syncs s).
Definition set_timeouts l s := mkConsensusService (cs_node s) (cs_p2p s) (nodeWallet s) (cs_errs s) (round s)
  l (cs_chans s) (peersStatus s) (badPeers s) (cs_syncs s).
Definition set_peersStatus m s := mkConsensusService (cs_node s) (cs_p2p s) (nodeWallet s) (cs_errs s)
  (round s) (timeouts s) (cs_chans s) m (badPeers s) (cs_syncs s).
Definition set_badPeers l s := mkConsensusService (cs_node s) (cs_p2p s) (nodeWallet s) (cs_errs s) (round s)
  (timeouts s) (cs_chans s) (peersStatus s) l (cs_syncs s).
Definition add_sync t s := mkConsensusService (cs_node s) (cs_p2p s) (nodeWallet s) (cs_errs s) (round s)
  (timeouts s) (cs_chans s) (peersStatus s) (badPeers s) (cs_syncs s ++ [t]).
Definition fail_cs (e : error) : M ConsensusService unit := modify (fun s =>
  mkConsensusService (cs_node s) (cs_p2p s) (nodeWallet s) (cs_errs s ++ [e]) (round s) (timeouts s)
    (cs_chans s) (peersStatus s) (badPeers s) (cs_syncs s)).
Definition upd_round (f : Round -> Round) : M ConsensusService unit :=
  modify (fun s => set_round (f (round s)) s).

#[export] Instance Consensus_has_p2p : HasP2p ConsensusService :=
  {| p2p_of := cs_p2p; with_p2p := set_cs_p2p |}.
#[export] Instance Consensus_has_p2p_laws : HasP2pLaws ConsensusService.
Proof. split; [done|]. by intros []. Qed.

Definition in_node {A} (m : M Node A) : M ConsensusService A := zoom cs_node set_cs_node m.

Definition NewConsensusService (port : string) (n : Node) (wallet : Wallet) : ConsensusService :=
  mkConsensusService n (NewP2pService port ConsensusNode) wallet [] NewRound [] 0 ∅ [] [].

(** What the operations read. *)
Definition self_key (s : ConsensusService) : gobytes := Wallet_PublicKey (nodeWallet s).
Definition info (s : ConsensusService) : Blockchain := n_bc (cs_node s).
Definition self_is_aggregator (s : ConsensusService) : bool :=
  bytes_Equal (nextAggregator (round s)) (self_key s).

Definition reset : M ConsensusService unit := upd_round (fun _ => NewRound).

Definition onPeerDisapear (n : NodeInfo) : M ConsensusService unit :=
  let* _ := modify (fun s => set_peersStatus (delete (Ip4 n) (peersStatus s)) s) in
  reset.

(** ** Validators and bad peers *)
Definition has_key (l : list bytes) (pk : gobytes) : bool :=
  ContainsFunc l (fun p => bytes_Equal pk (Some p)).

Definition removeFromNextValidators (pk : gobytes) : M ConsensusService unit :=
  if negb (len (raw pk) =? PublicKeySize) then ret tt
  else
    let* s := get in
    let l := nextValidators (round s) in
    let idx := IndexFunc l (fun p => bytes_Equal pk (Some p)) in
    if 0 <=? idx then upd_round (set_nextValidators (Delete l idx (idx + 1))) else ret tt.

Definition addToNextValidators (pk : gobytes) : M ConsensusService unit :=
  if negb (len (raw pk) =? PublicKeySize) then ret tt
  else
    let* s := get in
    let l := nextValidators (round s) in
    if negb (has_key l pk) then upd_round (set_nextValidators (l ++ [raw pk])) else ret tt.

Definition addToBadPeer (pk : gobytes) : M ConsensusService unit :=
  if negb (len (raw pk) =? PublicKeySize) then ret tt
  else
    let* s := get in
    if negb (has_key (badPeers s) pk) then modify (set_badPeers (badPeers s ++ [raw pk])) else ret tt.

Definition ready (s : ConsensusService) : bool :=
  negb (is_nil (nextBlockProducer (round s))) && negb (is_nil (nextAggregator (round s))).

Definition allPeerReady (s : ConsensusService) : bool := forallb snd (map_range (peersStatus s)).

(** ** Committee *)
Definition hash_less (a b : bytes) : bool := be_decode (Sum256 a) <? be_decode (Sum256 b).

Definition decideCommittee : M ConsensusService unit :=
  let* s := get in
  let l := SortFunc hash_less (nextValidators (round s)) in
  let* _ := upd_round (set_nextValidators l) in
  let numValidators := len l in
  if numValidators =? 0 then panic "integer divide by zero"
  else
    let nextBlockProducerIdx := nextHeight (info s) mod numValidators in
    let nextAggregatorIdx := u64 (nextBlockProducerIdx + 1) mod numValidators in
    match l !! Z.to_nat nextBlockProducerIdx, l !! Z.to_nat nextAggregatorIdx with
    | Some p, Some a => upd_round (set_committee (Some p) (Some a))
    | _, _ => panic "index out of range"
    end.

(** ** Timeout and finality *)
Definition startTimer : M ConsensusService unit :=
  modify (fun s => mkConsensusService (cs_node s) (cs_p2p s) (nodeWallet s) (cs_errs s)
    (set_finalizeCh (Some (cs_chans s)) (round s)) (timeouts s ++ [cs_chans s]) (S (cs_chans s))
    (peersStatus s) (badPeers s) (cs_syncs s)).

(** [finalizeCh <- ok]: received by the goroutine of [timeout] that waits on
    the channel, which then ends. *)
Definition send_finalize : M ConsensusService unit :=
  let* s := get in
  match finalizeCh (round s) with
  | None => block "send on a nil channel"
  | Some c =>
      if bool_decide (c ∈ timeouts s)
      then modify (set_timeouts (filter (fun c' => c' <> c) (timeouts s)))
      else block "nobody receives from finalizeCh"
  end.

(** [now] is the clock. *)
Definition finalize (now : Z) (ok : bool) : M ConsensusService unit :=
  let* _ := send_finalize in
  let* s := get in
  let* _ :=
    match accountCh (round s) with
    | Some keys => spawn (
        let* err := in_node (in_exe (waitForFinality ok keys)) in
        match err with Some e => fail_cs e | None => ret tt end)
    | None => ret tt
    end in
  let* _ :=
    match blockCh (round s) with
    | Some blk => spawn (in_node (Sync_waitForFinality now ok blk))
    | None => ret tt
    end in
  reset.

(** The timer of the goroutine that waits on channel [c] fires. *)
Definition timeout (now : Z) (c : nat) : M ConsensusService unit :=
  let* s := get in
  if negb (bool_decide (c ∈ timeouts s)) then ret tt
  else
    let* _ := modify (set_timeouts (filter (fun c' => c' <> c) (timeouts s))) in
    finalize now false.

(** ** Messages sent *)
Definition broadcast {T} `{JSON T} (msg : T) (kind : byte) : M ConsensusService (option error) :=
  match PackPayload msg [ConsensusMessage; kind] with
  | Err e => ret (Some e)
  | Ok payload => let* _ := in_p2p (Broadcast payload []) in ret None
  end.

Definition sign_content : M ConsensusService gobytes :=
  let* s := get in lift (Wallet_SignRaw (nodeWallet s) ConsensusMsgSigContent).

Definition broadcastFinality (now : Z) (ok : bool) : M ConsensusService (option error) :=
  let* s := get in
  if negb (self_is_aggregator s) then ret None
  else
    let* sig := sign_content in
    let vote := mkFinalizeMsg (self (cs_p2p s)) (self_key s) sig (nextHeight (info s)) ok in
    let* err := broadcast vote FinalizeMessage in
    match err with
    | Some e => ret (Some e)
    | None => let* _ := finalize now ok in ret None
    end.

Definition aggregate (now : Z) (ok : bool) : M ConsensusService unit :=
  let* s := get in
  if negb (self_is_aggregator s) then ret tt
  else
    let voted := s64 (numVoted (round s) + 1) in
    let votedOk := if ok then s64 (numVotedOk (round s) + 1) else numVotedOk (round s) in
    let* _ := upd_round (set_votes voted votedOk) in
    let numValidators := len (nextValidators (round s)) in
    let modTotal := if negb (Z.rem numValidators 2 =? 0) then numValidators + 1 else numValidators in
    if voted =? numValidators - 1 then
      let* _ := broadcastFinality now (Z.quot modTotal 2 - 1 <? votedOk) in ret tt
    else ret tt.

Definition vote (now : Z) (ok : bool) : M ConsensusService (option error) :=
  let* _ := startTimer in
  let* s := get in
  if self_is_aggregator s then let* _ := aggregate now ok in ret None
  else
    let* sig := sign_content in
    let vote := mkVoteMsg (self (cs_p2p s)) (self_key s) sig (nextHeight (info s)) ok in
    let* err := broadcast vote VoteMessage in
    match err with
    | Some e => ret (Some e)
    | None =>
        let* _ := (if negb ok then addToBadPeer (nextBlockProducer (round s)) else ret tt) in
        ret None
    end.

Definition proposeBlock (now : Z) : M ConsensusService (option error) :=
  let* s := get in
  let* r := in_node (in_exe (BlockProducer_NewBlock now (info s) (nodeWallet s))) in
  match r with
  | Err e => ret (Some e)
  | Ok (blk, ch) =>
      let* sig := sign_content in
      let msg := mkProposeBlockMsg (self (cs_p2p s)) (self_key s) sig blk in
      let* err := broadcast msg ProposeBlockMessage in
      match err with
      | Some e => ret (Some e)
      | None =>
          let* _ := upd_round (set_blockCh (Some blk)) in
          let* _ := upd_round (set_accountCh (Some ch)) in
          ret None
      end
  end.

Definition broadcastStartBlockProcessing : M ConsensusService (option error) :=
  let* s := get in
  let* sig := sign_content in
  broadcast (mkStartBlockProcessingMsg (self (cs_p2p s)) (self_key s) sig
    (nextBlockProducer (round s)) (nextAggregator (round s))) StartBlockProcessingMessage.

Definition broadcastGossip : M ConsensusService (option error) :=
  let* s := get in
  let* sig := sign_content in
  broadcast (mkGossipMsg (self (cs_p2p s)) (self_key s) sig (n_syncing (cs_node s)) (ready s)
    (nextHeight (info s)) (nextEpoch (info s)) (nextSlot (info s))
    (Some (map Some (badPeers s)))) GossipMessage.

(** ** The loop: one tick, from the counter [tick] to the next one; [None] when
    the loop returns. *)
Definition next_tick (tick : Z) : M ConsensusService (option Z) := ret (Some (Z.rem (s32 (tick + 1)) 4)).

Definition start_block (now : Z) : M ConsensusService unit :=
  let* s := get in
  if 0 <? LenTx (env_mem (exe_env (n_exe (cs_node s)))) then
    if bytes_Equal (nextBlockProducer (round s)) (self_key s) then
      let* err := proposeBlock now in
      let* _ := match err with Some e => fail_cs e | None => ret tt end in
      let* _ := upd_round (set_waiting true) in
      startTimer
    else ret tt
  else ret tt.

Definition loop_tick (now tick : Z) : M ConsensusService (option Z) :=
  let* s := get in
  if LenPeers (cs_p2p s) =? 0 then ret (Some tick)
  else if waitingFinality (round s) then ret (Some tick)
  else if tick <? 2 then
    let* err := broadcastGossip in
    match err with
    | Some e => let* _ := fail_cs e in ret None
    | None => next_tick tick
    end
  else if tick =? 2 then
    if n_syncing (cs_node s) then ret (Some tick)
    else if len (nextValidators (round s)) =? 0 then ret (Some tick)
    else
      let* _ := addToNextValidators (self_key s) in
      let* _ := decideCommittee in
      let* s := get in
      if ready s && allPeerReady s then
        let* err := broadcastStartBlockProcessing in
        match err with
        | Some e => let* _ := fail_cs e in ret None
        | None => let* _ := start_block now in next_tick tick
        end
      else next_tick tick
  else next_tick tick.

(** [Run]: what it does before the loop starts. *)
Definition Consensus_Run : M ConsensusService unit :=
  let* err := in_p2p (localDiscovery 5000 5002) in
  let* _ := match err with Some e => fail_cs e | None => ret tt end in
  upd_round (fun r => set_waiting false (set_votes 0 0 r)).

(** ** Handlers *)
Definition handleVote (now : Z) (raw_ : bytes) : M ConsensusService (option error) :=
  let* s := get in
  if negb (self_is_aggregator s) then ret None
  else
    match Unmarshal (T := VoteMsg) raw_ with
    | Err e => ret (Some e)
    | Ok msg =>
        let* ok := lift (VoteMsg_Verify msg) in
        if negb ok then ret None
        else if negb (ContainsFunc (nextValidators (round s))
                        (fun pk => bytes_Equal (Some pk) (vm_FromPublicKey msg))) then ret None
        else let* _ := aggregate now (vm_Ok msg) in ret None
    end.

Definition handleFinalize (now : Z) (raw_ : bytes) : M ConsensusService (option error) :=
  match Unmarshal (T := FinalizeMsg) raw_ with
  | Err e => ret (Some e)
  | Ok msg =>
      let* ok := lift (FinalizeMsg_Verify msg) in
      if negb ok then ret None
      else
        let* s := get in
        if negb (bytes_Equal (fm_FromPublicKey msg) (nextAggregator (round s)))
        then let* _ := addToBadPeer (fm_FromPublicKey msg) in ret None
        else let* _ := finalize now (fm_Ok msg) in ret None
  end.

Definition handleProposeBlock (now : Z) (raw_ : bytes) : M ConsensusService (option error) :=
  match Unmarshal (T := ProposeBlockMsg) raw_ with
  | Err e => ret (Some e)
  | Ok msg =>
      let* ok := lift (ProposeBlockMsg_Verify msg) in
      if negb ok then ret None
      else
        let* s := get in
        if negb (bytes_Equal (pb_FromPublicKey msg) (nextBlockProducer (round s)))
        then let* _ := addToBadPeer (pb_FromPublicKey msg) in ret None
        else
          let* r := in_node (in_exe (BlockProducer_Verify (info s) (pb_Block msg))) in
          let '(ok, ch, err, blk) := r in
          let* _ := upd_round (set_accountCh ch) in
          match err with
          | Some e => ret (Some e)
          | None =>
              let* _ := upd_round (set_waiting true) in
              if negb ok then vote now ok
              else let* _ := upd_round (set_blockCh (Some blk)) in vote now ok
          end
  end.

Definition handleStartBlockProcessing (raw_ : bytes) : M ConsensusService (option error) :=
  match Unmarshal (T := StartBlockProcessingMsg) raw_ with
  | Err e => ret (Some e)
  | Ok msg =>
      let* ok := lift (StartBlockProcessingMsg_Verify msg) in
      if negb ok then ret None
      else
        let* s := get in
        if negb (bytes_Equal (sb_NextBlockProducer msg) (nextBlockProducer (round s)))
           || negb (bytes_Equal (sb_NextAggregator msg) (nextAggregator (round s)))
        then let* _ := addToBadPeer (sb_FromPublicKey msg) in ret None
        else ret None
  end.

Definition handleGossip (raw_ : bytes) : M ConsensusService (option error) :=
  let* s := get in
  if waitingFinality (round s) then ret None
  else if n_syncing (cs_node s) then ret None
  else
    match Unmarshal (T := GossipMsg) raw_ with
    | Err e => ret (Some e)
    | Ok msg =>
        let* ok := lift (GossipMsg_Verify msg) in
        if negb ok then ret None
        else if gm_IsSyncing msg then ret None
        else if (0 <? len (badPeers s))
             && ContainsFunc (badPeers s) (fun pk => bytes_Equal (gm_FromPublicKey msg) (Some pk))
        then ret None
        else
          let selfNextHeight := nextHeight (info s) in
          if selfNextHeight <? gm_NextHeight msg then
            let* started := in_node (StartSync (u64 (gm_NextHeight msg - 1))) in
            let* _ := match started with Some t => modify (add_sync t) | None => ret tt end in
            ret None
          else if gm_NextHeight msg <? selfNextHeight then
            let* _ := removeFromNextValidators (gm_FromPublicKey msg) in ret None
          else if negb (gm_NextEpoch msg =? nextEpoch (info s)) then
            let* _ := removeFromNextValidators (gm_FromPublicKey msg) in ret None
          else if negb (gm_NextSlot msg =? nextSlot (info s)) then
            let* _ := removeFromNextValidators (gm_FromPublicKey msg) in ret None
          else
            let* _ := modify (fun s =>
              set_peersStatus (<[Ip4 (gm_From msg) := gm_IsReady msg]> (peersStatus s)) s) in
            let* _ := addToNextValidators (gm_FromPublicKey msg) in
            ret None
    end.

Definition handleConsensusMessage (now : Z) (raw_ : bytes) : M ConsensusService (option error) :=
  match raw_ with
  | [] => panic "index out of range"
  | k :: rest =>
      if negb (bool_decide (k = ConsensusMessage)) then ret None
      else
        match rest with
        | [] => panic "index out of range"
        | kind :: body =>
            if bool_decide (kind = GossipMessage) then handleGossip body
            else if bool_decide (kind = StartBlockProcessingMessage) then handleStartBlockProcessing body
            else if bool_decide (kind = ProposeBlockMessage) then handleProposeBlock now body
            else if bool_decide (kind = VoteMessage) then handleVote now body
            else if bool_decide (kind = FinalizeMessage) then handleFinalize now body
            else ret None
        end
  end.
End consensus.
