(* ===== verification/ConsensusFacts.v ===== *)
(** Facts about the consensus service: the codecs and the verification of its
    messages, the committee, and the run of each operation. *)
From S2P Require Import Prelude Json JsonLaws JsonSize Common External Accounts Txs Blocks Memory Storage.
From S2P Require Import MemoryFacts Executers BlockExec Settlement Producer P2p P2pProps Node NodeFacts Sync.
From S2P Require Import ConsensusMsgs Consensus.
From stdpp Require Import sorting.
Open Scope Z_scope.

(** ** JSON laws *)
Definition wf_gossip (m : GossipMsg) : Prop :=
  wf_node (gm_From m) /\ in_u64 (gm_NextHeight m) /\ in_u64 (gm_NextEpoch m) /\ in_u32 (gm_NextSlot m)
  /\ opt_Forall (fun _ => True) (BadNodes m).
Lemma GossipMsg_codec_ok : codec_ok GossipMsg_json wf_gossip.
Proof.
  unfold wf_gossip. apply struct_codec_ok; [by vm_compute|..].
  - repeat (apply Forall_cons_2; [split; [apply ascii_by_compute; by vm_compute|]|]);
      [..|apply Forall_nil_2]; intros x Hx; cbn [f_enc fld]; (eapply enc_canonical; [eauto with codec|field_side]).
  - intros x old Hx. unfold apply_fields. cbn [foldl f_enc f_dec fld].
    repeat (field_law; cbn [fmap option_fmap option_map foldl f_enc f_dec fld gm_From gm_FromPublicKey
      gm_Signature gm_IsSyncing gm_IsReady gm_NextHeight gm_NextEpoch gm_NextSlot BadNodes]).
    by destruct x.
Qed.

Lemma StartBlockProcessingMsg_codec_ok :
  codec_ok StartBlockProcessingMsg_json (fun m => wf_node (sb_From m)).
Proof. solve_struct_codec. Qed.

Definition wf_propose (m : ProposeBlockMsg) : Prop := wf_node (pb_From m) /\ u64_block (pb_Block m).
Lemma ProposeBlockMsg_codec_ok : codec_ok ProposeBlockMsg_json wf_propose.
Proof. unfold wf_propose. solve_struct_codec. Qed.

Definition wf_vote (m : VoteMsg) : Prop := wf_node (vm_From m) /\ in_u64 (vm_Height m).
Lemma VoteMsg_codec_ok : codec_ok VoteMsg_json wf_vote.
Proof. unfold wf_vote. solve_struct_codec. Qed.

Definition wf_finalize (m : FinalizeMsg) : Prop := wf_node (fm_From m) /\ in_u64 (fm_Height m).
Lemma FinalizeMsg_codec_ok : codec_ok FinalizeMsg_json wf_finalize.
Proof. unfold wf_finalize. solve_struct_codec. Qed.

#[export] Instance GossipMsg_json_laws : JSONLaws GossipMsg := {| json_ok := GossipMsg_codec_ok |}.
#[export] Instance StartBlockProcessingMsg_json_laws : JSONLaws StartBlockProcessingMsg :=
  {| json_ok := StartBlockProcessingMsg_codec_ok |}.
#[export] Instance ProposeBlockMsg_json_laws : JSONLaws ProposeBlockMsg := {| json_ok := ProposeBlockMsg_codec_ok |}.
#[export] Instance VoteMsg_json_laws : JSONLaws VoteMsg := {| json_ok := VoteMsg_codec_ok |}.
#[export] Instance FinalizeMsg_json_laws : JSONLaws FinalizeMsg := {| json_ok := FinalizeMsg_codec_ok |}.

(** ** Verification *)
Section verification.
Context `{Sha3, Ed25519, Base58}.

(** The sender's key and signature, which a message must carry. *)
Definition signed_by (pk sig : gobytes) : Prop :=
  exists k s, pk = Some k /\ is_key k /\ sig = Some s /\ s <> []
    /\ ed_verify k (raw ConsensusMsgSigContent) s = true.

Lemma signed_check pk sig : signed_by pk sig ->
  VerifyConsensusSignature sig pk = Done true /\ is_nil pk = false /\ is_public_key pk = true
  /\ has_signature sig = true.
Proof.
  intros (k & s & -> & Kk & -> & Hs & Hv). unfold VerifyConsensusSignature, ed25519_Verify, is_public_key, len.
  cbn [raw default id]. rewrite Kk. split_and!; try done; [by rewrite <- Hv|].
  unfold has_signature, len. cbn. destruct s; [done|]. by apply Z.ltb_lt.
Qed.

Lemma check_signed pk sig b : (let^ x := VerifyConsensusSignature sig pk in
    if x then Done (is_public_key pk && has_signature sig) else Done false) = Done b ->
  length (raw pk) = 32%nat /\ (b = true <-> signed_by pk sig).
Proof.
  unfold VerifyConsensusSignature, ed25519_Verify, len.
  destruct (Z.eqb_spec (Z.of_nat (length (raw pk))) 32) as [E|E]; [|done].
  cbn [outcome_bind]. intros Hb. split; [lia|]. unfold signed_by.
  destruct pk as [k|]; [|cbn in E; lia]. cbn [raw default id] in *.
  assert (is_public_key (Some k) = true) as Hk by (unfold is_public_key, len; cbn; by apply Z.eqb_eq).
  rewrite Hk in Hb. destruct sig as [s|]; cbn [raw default id] in *.
  - destruct (ed_verify k _ s) eqn:Ev.
    + injection Hb as <-. cbn [andb]. unfold has_signature, len. cbn. split.
      * intros Hs%Z.ltb_lt. exists k, s. split_and!; try done; [lia|]. by intros ->.
      * intros (k' & s' & [= <-] & _ & [= <-] & Hs & _). destruct s; [done|]. by apply Z.ltb_lt.
    + injection Hb as <-. split; [done|]. intros (k' & s' & [= <-] & _ & [= <-] & _ & Hv).
      unfold raw in Hv. cbn in Ev, Hv. congruence.
  - destruct (ed_verify k _ []); injection Hb as <-; (split; [done|]); by intros (? & ? & _ & _ & ? & _).
Qed.

Lemma FinalizeMsg_Verify_ok m : NodeInfo_Verify (fm_From m) = true ->
  signed_by (fm_FromPublicKey m) (fm_Signature m) -> FinalizeMsg_Verify m = Done true.
Proof.
  intros Hf Hs. destruct (signed_check _ _ Hs) as (H1' & H2' & H3' & H4').
  unfold FinalizeMsg_Verify, outcome_and. rewrite Hf, H1'. cbn [outcome_bind]. by rewrite H2', H3', H4'.
Qed.

Lemma VoteMsg_Verify_ok m : NodeInfo_Verify (vm_From m) = true ->
  signed_by (vm_FromPublicKey m) (vm_Signature m) -> VoteMsg_Verify m = Done true.
Proof.
  intros Hf Hs. destruct (signed_check _ _ Hs) as (H1' & H2' & H3' & H4').
  unfold VoteMsg_Verify, outcome_and. rewrite Hf, H1'. cbn [outcome_bind]. by rewrite H2', H3', H4'.
Qed.

Lemma ProposeBlockMsg_Verify_ok m : NodeInfo_Verify (pb_From m) = true ->
  signed_by (pb_FromPublicKey m) (pb_Signature m) -> Block_Verify (pb_Block m) = Done true ->
  ProposeBlockMsg_Verify m = Done true.
Proof.
  intros Hf Hs Hb. destruct (signed_check _ _ Hs) as (H1' & H2' & H3' & H4').
  unfold ProposeBlockMsg_Verify, outcome_and. rewrite Hf, H1'. cbn [outcome_bind]. by rewrite H2', H3', H4'.
Qed.
End verification.

(** ** The committee *)
Section committee.
Context `{Sha3, Ed25519, Base58, ExpSlices, MapOrder, Bolt, !Sha3Laws, !ExpSlicesLaws}.
Implicit Types s : ConsensusService.

Lemma hash_less_strict_weak : strict_weak hash_less.
Proof. unfold strict_weak, hash_less. split_and!; intros *; rewrite ?Z.ltb_lt, ?Z.ltb_ge; lia. Qed.

(** Two sorted lists of the same keys are one list, or two keys collide. *)
Lemma sorted_validators_unique l1 l2 : l1 ≡ₚ l2 ->
  collision l1 l2 \/ SortFunc hash_less l1 = SortFunc hash_less l2.
Proof.
  intros Hp. destruct (decide (Exists (fun x => Exists (fun y => x <> y /\ Sum256 x = Sum256 y) l2) l1)) as [Hc|Hc].
  - left. apply Exists_exists in Hc as (x & Hx & Hc). apply Exists_exists in Hc as (y & Hy & Hne & He).
    by exists x, y.
  - right. pose proof (SortFunc_perm hash_less l1) as P1. pose proof (SortFunc_perm hash_less l2) as P2.
    apply (StronglySorted_unique_strong (fun a b => hash_less b a = false)).
    + intros x y Hx Hy. unfold hash_less. rewrite !Z.ltb_ge. intros H1' H2'.
      destruct (decide (x = y)) as [|Hne]; [done|]. exfalso. apply Hc.
      apply Exists_exists. exists x. split; [by rewrite <- P1|]. apply Exists_exists. exists y.
      split; [by rewrite <- P2|]. split; [done|]. apply be_decode_inj; [by rewrite !length_Sum256|lia].
    + apply SortFunc_sorted, hash_less_strict_weak.
    + apply SortFunc_sorted, hash_less_strict_weak.
    + by rewrite P1, P2.
Qed.

Definition sorted_validators s : list bytes := SortFunc hash_less (nextValidators (round s)).

Lemma decideCommittee_run s : nextValidators (round s) <> [] -> len (nextValidators (round s)) < 2 ^ 63 ->
  0 <= nextHeight (info s) ->
  let l := sorted_validators s in
  exists p a, l !! Z.to_nat (nextHeight (info s) mod len l) = Some p
    /\ l !! Z.to_nat ((nextHeight (info s) + 1) mod len l) = Some a
    /\ decideCommittee s
       = (Done tt, set_round (set_committee (Some p) (Some a) (set_nextValidators l (round s))) s).
Proof.
  intros Hne Hmax Hh. cbv zeta. set (l := sorted_validators s).
  assert (l ≡ₚ nextValidators (round s)) as Hp by apply SortFunc_perm.
  assert (0 < len l < 2 ^ 63) as Hl.
  { unfold len in *. rewrite (Permutation_length Hp). destruct (nextValidators (round s)); [done|]. cbn in *. lia. }
  assert (forall i, exists v, l !! Z.to_nat (i mod len l) = Some v) as Hat.
  { intros i. apply lookup_lt_is_Some_2. pose proof (Z.mod_pos_bound i (len l) ltac:(lia)). unfold len in *. lia. }
  destruct (Hat (nextHeight (info s))) as [p Ep]. destruct (Hat (nextHeight (info s) + 1)) as [a Ea].
  exists p, a. split_and!; [exact Ep|exact Ea|].
  unfold decideCommittee. unfold bind at 1, get. fold (sorted_validators s). fold l.
  unfold bind at 1, upd_round at 1, modify. rewrite (proj2 (Z.eqb_neq (len l) 0)) by lia.
  pose proof (Z.mod_pos_bound (nextHeight (info s)) (len l) ltac:(lia)).
  rewrite u64_small by (unfold in_u64; lia). rewrite Zplus_mod_idemp_l, Ep, Ea. by destruct s.
Qed.

Lemma committee_members s p a : 
  sorted_validators s !! Z.to_nat (nextHeight (info s) mod len (sorted_validators s)) = Some p ->
  sorted_validators s !! Z.to_nat ((nextHeight (info s) + 1) mod len (sorted_validators s)) = Some a ->
  p ∈ nextValidators (round s) /\ a ∈ nextValidators (round s)
  /\ (NoDup (nextValidators (round s)) -> (2 <= length (nextValidators (round s)))%nat -> p <> a).
Proof.
  set (l := sorted_validators s). assert (l ≡ₚ nextValidators (round s)) as Hp by apply SortFunc_perm.
  intros Ep Ea. split_and!.
  - rewrite <- Hp. by eapply list_elem_of_lookup_2.
  - rewrite <- Hp. by eapply list_elem_of_lookup_2.
  - intros Hnd Hl <-. rewrite <- Hp in Hnd. rewrite <- (Permutation_length Hp) in Hl.
    pose proof (NoDup_lookup _ _ _ _ Hnd Ep Ea) as He. unfold len in He.
    set (h := nextHeight (info s)) in *. set (n := Z.of_nat (length l)) in *.
    pose proof (Z.mod_pos_bound h n ltac:(lia)). pose proof (Z.mod_pos_bound (h + 1) n ltac:(lia)).
    assert (h mod n = (h + 1) mod n) as He' by lia.
    assert ((h + 1 - h) mod n = 0) as Hz by (rewrite Zminus_mod, He'; by rewrite Z.sub_diag, Z.mod_0_l by lia).
    replace (h + 1 - h) with 1 in Hz by lia. rewrite Z.mod_1_l in Hz by lia. lia.
Qed.
End committee.

(** ** The operations *)
Section operations.
Context `{Sha3, Ed25519, Base58, ExpSlices, MapOrder, Bolt}.
Implicit Types s : ConsensusService.

Lemma spawn_done {S} (m : M S unit) (x x' : S) : m x = (Done tt, x') -> spawn m x = (Done tt, x').
Proof. unfold spawn, detach. by intros ->. Qed.

Lemma in_node_done {A} (m : M Node A) s a n :
  m (cs_node s) = (Done a, n) -> in_node m s = (Done a, set_cs_node n s).
Proof. unfold in_node, zoom. by intros ->. Qed.

(** What a service has broadcast. *)
Definition announced (payload : bytes) s : ConsensusService :=
  set_cs_p2p (sends (map (fun p => (p, payload)) (peers (cs_p2p s))) (cs_p2p s)) s.

Lemma broadcast_run {T} `{JSON T} (msg : T) kind s :
  exists enc, Marshal msg = Ok enc
    /\ broadcast msg kind s = (Done None, announced (ConsensusMessage :: kind :: enc) s).
Proof.
  unfold broadcast, PackPayload. destruct (Marshal msg) as [enc|] eqn:Hm; [|done]. exists enc. split; [done|].
  cbn [result_bind app]. rewrite (bind_done _ _ _ _ _ (in_p2p_run _ _ _ _ (Broadcast_run _ _ (p2p_of s)))).
  assert (forall l, broadcast_to (ConsensusMessage :: kind :: enc) [] l
    = map (fun p => (p, ConsensusMessage :: kind :: enc)) l) as Hb by (induction l as [|p l IHl]; [done|]; cbn; by f_equal).
  by rewrite Hb.
Qed.

Lemma sign_content_run `{!Ed25519Laws} s : wallet_ok (nodeWallet s) -> exists sig,
  sign_content s = (Done (Some sig), s) /\ signed_by (self_key s) (Some sig) /\ length sig = 64%nat.
Proof.
  intros Hw. destruct (SignRaw_ok _ ConsensusMsgSigContent Hw) as (pk & sig & Hpk & Kpk & Hs & Hl & Hv).
  exists sig. split_and!; [|exists pk, sig; split_and!; try done; by intros ->|done].
  unfold sign_content, bind, get, lift. by rewrite Hs.
Qed.

(** The send on [finalizeCh] wakes the goroutine that waits on it, if any. *)
Definition woken (c : nat) s : ConsensusService := set_timeouts (filter (fun c' => c' <> c) (timeouts s)) s.

Lemma send_finalize_run s c : finalizeCh (round s) = Some c -> c ∈ timeouts s ->
  send_finalize s = (Done tt, woken c s).
Proof.
  intros Hc Hin. unfold send_finalize, bind, get. rewrite Hc. by rewrite bool_decide_eq_true_2.
Qed.

Lemma send_finalize_blocked s : (forall c, finalizeCh (round s) = Some c -> c ∉ timeouts s) ->
  exists w, send_finalize s = (Blocked w, s).
Proof.
  intros Hc. unfold send_finalize, bind, get. destruct (finalizeCh (round s)) as [c|]; [|by eexists].
  rewrite bool_decide_eq_false_2 by (by apply Hc). by eexists.
Qed.

(** A timer that is started. *)
Definition timed s : ConsensusService :=
  mkConsensusService (cs_node s) (cs_p2p s) (nodeWallet s) (cs_errs s)
    (set_finalizeCh (Some (cs_chans s)) (round s)) (timeouts s ++ [cs_chans s]) (S (cs_chans s))
    (peersStatus s) (badPeers s) (cs_syncs s).

(** *** Counting votes *)
Definition count_ok (vs : list bool) : Z := len (List.filter (fun v => v) vs).

Definition votes_counted (vs : list bool) s : ConsensusService :=
  set_round (set_votes (numVoted (round s) + len vs) (numVotedOk (round s) + count_ok vs) (round s)) s.

Fixpoint aggregates (now : Z) (vs : list bool) : M ConsensusService unit :=
  match vs with
  | [] => ret tt
  | v :: vs' => let* _ := aggregate now v in aggregates now vs'
  end.

Lemma half_up n : 0 <= n -> Z.quot (if negb (Z.rem n 2 =? 0) then n + 1 else n) 2 = (n + 1) / 2.
Proof.
  intros Hn. rewrite Z.rem_mod_nonneg by lia.
  destruct (Z.eqb_spec (n mod 2) 0) as [E|E]; cbn [negb]; rewrite Z.quot_div_nonneg by lia; [|done].
  Z.div_mod_to_equations. lia.
Qed.

Lemma aggregate_run now v s : self_is_aggregator s = true ->
  0 <= numVoted (round s) < 2 ^ 62 -> 0 <= numVotedOk (round s) <= numVoted (round s) ->
  let n := len (nextValidators (round s)) in
  let s1 := votes_counted [v] s in
  aggregate now v s =
    if numVoted (round s) + 1 =? n - 1
    then (let* _ := broadcastFinality now (n <=? 2 * numVotedOk (round s1)) in ret tt) s1
    else (Done tt, s1).
Proof.
  intros Ha Hv Ho. cbv zeta. unfold aggregate. unfold bind at 1, get. rewrite Ha. cbn [negb].
  rewrite s64_small by (unfold in_s64; lia).
  assert ((if v then s64 (numVotedOk (round s) + 1) else numVotedOk (round s))
          = numVotedOk (round s) + count_ok [v]) as ->.
  { unfold count_ok, len. destruct v; cbn; [by rewrite s64_small by (unfold in_s64; lia)|lia]. }
  unfold bind at 1, upd_round, modify. unfold votes_counted. change (len [v]) with 1.
  set (s1 := set_round _ s). set (n := len (nextValidators (round s))).
  assert (0 <= n) by (unfold n, len; lia). rewrite half_up by done.
  destruct (_ =? _); [|done]. change (numVotedOk (round s1)) with (numVotedOk (round s) + count_ok [v]).
  set (o := numVotedOk (round s) + count_ok [v]).
  replace ((n + 1) / 2 - 1 <? o) with (n <=? 2 * o); [done|].
  destruct (Z.leb_spec n (2 * o)); destruct (Z.ltb_spec ((n + 1) / 2 - 1) o); try done;
    Z.div_mod_to_equations; lia.
Qed.
End operations.
