(* ===== verification/ConsensusProps.v ===== *)
(** The properties of the consensus service: the committee nodes agree on, how
    votes decide, what its messages can and cannot be trusted with, what a
    timeout leads to, and the invariant of its state. *)
From S2P Require Import Prelude Json JsonLaws JsonSize Common External Accounts Txs Blocks Memory Storage.
From S2P Require Import Executers Producer P2p P2pProps Node Sync ConsensusMsgs Consensus ConsensusFacts.
Open Scope Z_scope.

(** ** Votes *)
Section votes.
Context `{Sha3, Ed25519, Base58, ExpSlices, MapOrder, Bolt}.
Implicit Types s : ConsensusService.

Lemma votes_counted_app vs ws s : votes_counted ws (votes_counted vs s) = votes_counted (vs ++ ws) s.
Proof.
  assert (len (vs ++ ws) = len vs + len ws) as E1 by (unfold len; rewrite length_app; lia).
  assert (count_ok (vs ++ ws) = count_ok vs + count_ok ws) as E2
    by (unfold count_ok, len; rewrite List.filter_app, length_app; lia).
  unfold votes_counted. rewrite E1, E2, !Z.add_assoc. done.
Qed.

Lemma votes_counted_nil s : votes_counted [] s = s.
Proof. destruct s as [? ? ? ? []]. unfold votes_counted, count_ok, len. cbn. by rewrite !Z.add_0_r. Qed.

Lemma aggregates_app now vs ws s : aggregates now (vs ++ ws) s = bind (aggregates now vs) (fun _ => aggregates now ws) s.
Proof.
  revert s. induction vs as [|v vs IH]; intros s; cbn [aggregates app]; [by rewrite bind_ret_l|].
  rewrite bind_assoc. unfold bind. destruct (aggregate now v s) as [[[]|?|?] s1]; try done.
Qed.

(** What counting needs: the aggregator, with its counters in step. *)
Definition counting s : Prop :=
  self_is_aggregator s = true /\ 0 <= numVoted (round s) < 2 ^ 62
  /\ 0 <= numVotedOk (round s) <= numVoted (round s).

Lemma count_ok_range vs : 0 <= count_ok vs <= len vs.
Proof. unfold count_ok, len. pose proof (List.filter_length_le (fun v : bool => v) vs). lia. Qed.

Lemma aggregates_early now vs : forall s, counting s ->
  len (nextValidators (round s)) < 2 ^ 62 ->
  numVoted (round s) + len vs < len (nextValidators (round s)) - 1 ->
  aggregates now vs s = (Done tt, votes_counted vs s).
Proof.
  induction vs as [|v vs IH]; intros s [Ha [Hv Ho]] Hmax Hl; cbn [aggregates]; [by rewrite votes_counted_nil|].
  assert (len (v :: vs) = 1 + len vs) as Hlen by (unfold len; cbn; lia). assert (0 <= len vs) by (unfold len; lia).
  pose proof (aggregate_run now v s Ha Hv Ho) as Hr. cbv zeta in Hr.
  rewrite (proj2 (Z.eqb_neq _ _)) in Hr by lia. rewrite (bind_done _ _ _ _ _ Hr).
  pose proof (count_ok_range [v]) as Hc. change (len [v]) with 1 in Hc.
  rewrite IH; [by rewrite votes_counted_app|split_and!; [exact Ha|..]|exact Hmax|];
    unfold votes_counted; cbn [round set_round numVoted numVotedOk set_votes nextValidators];
    change (len [v]) with 1; lia.
Qed.

Lemma aggregates_decide now vs v s : counting s -> numVoted (round s) = 0 ->
  len (nextValidators (round s)) < 2 ^ 62 -> len (vs ++ [v]) = len (nextValidators (round s)) - 1 ->
  let votes := vs ++ [v] in
  aggregates now votes s
  = (let* _ := broadcastFinality now (len (nextValidators (round s)) <=? 2 * count_ok votes) in ret tt)
      (votes_counted votes s).
Proof.
  intros Hc Hv0 Hmax Hl. cbv zeta. pose proof Hc as (Ha & _ & Ho). rewrite Hv0 in Ho.
  unfold len in Hl at 1. rewrite length_app in Hl. cbn [length] in Hl.
  rewrite aggregates_app, (bind_done _ _ _ _ _ (aggregates_early now vs s Hc Hmax ltac:(unfold len in *; lia))).
  cbn [aggregates]. set (s1 := votes_counted vs s). pose proof (count_ok_range vs) as Hr.
  pose proof (aggregate_run now v s1 Ha) as Hv. cbv zeta in Hv.
  assert (numVoted (round s1) = len vs) as E1 by (unfold s1, votes_counted; cbn; lia).
  assert (numVotedOk (round s1) = count_ok vs) as E2 by (unfold s1, votes_counted; cbn; lia).
  assert (nextValidators (round s1) = nextValidators (round s)) as E3 by done.
  rewrite E1, E2, E3, (proj2 (Z.eqb_eq _ _)) in Hv by (unfold len in *; lia).
  unfold s1 in Hv. rewrite votes_counted_app in Hv. specialize (Hv ltac:(unfold len in *; lia) Hr).
  assert (numVotedOk (round (votes_counted (vs ++ [v]) s)) = count_ok (vs ++ [v])) as E4 by (unfold votes_counted; cbn; lia).
  rewrite E4 in Hv. unfold bind at 1. unfold s1. rewrite Hv.
  destruct (bind _ _ _) as [[[]|?|?] ?]; done.
Qed.
End votes.

(** ** Messages *)
Section messages.
Context `{Sha3, Ed25519, Base58, ExpSlices, MapOrder, Bolt}.
Implicit Types s : ConsensusService.

Lemma handleVote_run `{!ExpSlicesLaws} now msg enc s k :
  self_is_aggregator s = true -> Marshal msg = Ok enc -> wf_vote msg -> NodeInfo_Verify (vm_From msg) = true ->
  signed_by (vm_FromPublicKey msg) (vm_Signature msg) -> vm_FromPublicKey msg = Some k ->
  k ∈ nextValidators (round s) ->
  handleVote now enc s = (let* _ := aggregate now (vm_Ok msg) in ret None) s.
Proof.
  intros Ha Hm Hwf Hf Hs Hk Hin. unfold handleVote. unfold bind at 1, get. rewrite Ha. cbn [negb].
  assert (Unmarshal enc = Ok msg) as -> by (by apply Unmarshal_Marshal).
  unfold bind at 1, lift. rewrite (VoteMsg_Verify_ok msg Hf Hs). cbn [negb]. rewrite ContainsFunc_spec, Hk.
  assert (existsb (fun pk => bytes_Equal (Some pk) (Some k)) (nextValidators (round s)) = true) as ->; [|done].
  apply existsb_exists. exists k. split; [by apply list_elem_of_In|apply bytes_Equal_refl].
Qed.

Fixpoint handleVotes (now : Z) (msgs : list bytes) : M ConsensusService unit :=
  match msgs with
  | [] => ret tt
  | m :: msgs' => let* _ := handleVote now m in handleVotes now msgs'
  end.

Lemma handleVotes_early `{!ExpSlicesLaws} now msg enc k : Marshal msg = Ok enc -> wf_vote msg ->
  NodeInfo_Verify (vm_From msg) = true -> signed_by (vm_FromPublicKey msg) (vm_Signature msg) ->
  vm_FromPublicKey msg = Some k -> forall m s, counting s -> len (nextValidators (round s)) < 2 ^ 62 ->
  k ∈ nextValidators (round s) -> numVoted (round s) + Z.of_nat m < len (nextValidators (round s)) - 1 ->
  handleVotes now (replicate m enc) s = (Done tt, votes_counted (replicate m (vm_Ok msg)) s).
Proof.
  intros Hm Hwf Hf Hs Hk. set (v := vm_Ok msg).
  induction m as [|m IH]; intros s Hc Hmax Hin Hl; cbn [replicate handleVotes]; [by rewrite votes_counted_nil|].
  pose proof (handleVote_run now msg enc s k (proj1 Hc) Hm Hwf Hf Hs Hk Hin) as Hr.
  pose proof (aggregates_early now [v] s Hc Hmax ltac:(change (len [v]) with 1; lia)) as Ha.
  cbn [aggregates] in Ha. unfold bind, ret in Ha, Hr. unfold bind at 1. rewrite Hr. fold v.
  destruct (aggregate now v s) as [[[]|?|?] s1]; try done. injection Ha as ->.
  destruct Hc as (Ha & Hv & Ho). pose proof (count_ok_range [v]) as Hco. change (len [v]) with 1 in Hco.
  rewrite IH; [by rewrite votes_counted_app|split_and!; [exact Ha|..]|exact Hmax|exact Hin|];
    unfold votes_counted; cbn [round set_round numVoted numVotedOk set_votes nextValidators];
    change (len [v]) with 1; lia.
Qed.

Lemma handleVotes_app now ms ms' s :
  handleVotes now (ms ++ ms') s = bind (handleVotes now ms) (fun _ => handleVotes now ms') s.
Proof.
  revert s. induction ms as [|m ms IH]; intros s; cbn [handleVotes app]; [by rewrite bind_ret_l|].
  rewrite bind_assoc. unfold bind. destruct (handleVote now m s) as [[?|?|?] s1]; try done.
Qed.

Lemma count_ok_replicate m v : count_ok (replicate m v) = if v then Z.of_nat m else 0.
Proof.
  unfold count_ok, len. induction m as [|m IH]; [by destruct v|]. cbn [replicate List.filter].
  destruct v; cbn [length]; lia.
Qed.

Lemma handleFinalize_run now msg enc s : Marshal msg = Ok enc -> wf_finalize msg ->
  NodeInfo_Verify (fm_From msg) = true -> signed_by (fm_FromPublicKey msg) (fm_Signature msg) ->
  raw (fm_FromPublicKey msg) = raw (nextAggregator (round s)) ->
  handleFinalize now enc s = (let* _ := finalize now (fm_Ok msg) in ret None) s.
Proof.
  intros Hm Hwf Hf Hs Hk. unfold handleFinalize.
  assert (Unmarshal enc = Ok msg) as -> by (by apply Unmarshal_Marshal).
  unfold bind at 1, lift. rewrite (FinalizeMsg_Verify_ok msg Hf Hs). cbn [negb].
  unfold bind at 1, get. by rewrite (proj2 (bytes_Equal_spec _ _) Hk).
Qed.

(** What a verified gossip message tells of its signature. *)
Lemma GossipMsg_Verify_signed gm : GossipMsg_Verify gm = Done true ->
  signed_by (gm_FromPublicKey gm) (gm_Signature gm) /\ NodeInfo_Verify (gm_From gm) = true.
Proof.
  unfold GossipMsg_Verify. destruct (forallb _ _); [|done]. cbn [negb]. unfold outcome_and.
  cbn [outcome_bind]. destruct (NodeInfo_Verify (gm_From gm)); [|done]. intros Hv.
  split; [|done]. by apply (check_signed _ _ true).
Qed.

(** A timer that fires wakes nobody: the goroutine that would receive is the
    one that sends. *)
Lemma finalize_blocked now ok s : (forall c, finalizeCh (round s) = Some c -> c ∉ timeouts s) ->
  exists w, finalize now ok s = (Blocked w, s).
Proof.
  intros Hc. destruct (send_finalize_blocked s Hc) as [w Hw]. exists w. unfold finalize.
  by rewrite (bind_blocked _ _ _ _ _ Hw).
Qed.
End messages.

(** * Properties *)
Section consensus_properties.
Context `{Sha3, Ed25519, Base58, ExpSlices, MapOrder, Bolt, !ExpSlicesLaws}.
Implicit Types s : ConsensusService.

(** C18: nodes agree on the committee: two services at one height whose
    validators are the same up to order name the same producer and the same
    aggregator, both of them validators and distinct as soon as there are two
    (or two of the validators' keys have one digest). *)
Theorem committee_agreement `{!Sha3Laws} s1 s2 :
  nextValidators (round s1) ≡ₚ nextValidators (round s2) -> nextValidators (round s1) <> [] ->
  len (nextValidators (round s1)) < 2 ^ 63 -> in_u64 (nextHeight (info s1)) ->
  nextHeight (info s1) = nextHeight (info s2) ->
  exists s1' s2', decideCommittee s1 = (Done tt, s1') /\ decideCommittee s2 = (Done tt, s2')
    /\ (collision (nextValidators (round s1)) (nextValidators (round s2))
        \/ exists p a, nextBlockProducer (round s1') = Some p /\ nextAggregator (round s1') = Some a
             /\ nextBlockProducer (round s2') = Some p /\ nextAggregator (round s2') = Some a
             /\ p ∈ nextValidators (round s1) /\ a ∈ nextValidators (round s1)
             /\ (NoDup (nextValidators (round s1)) -> (2 <= length (nextValidators (round s1)))%nat -> p <> a)).
Proof.
  intros Hp Hne Hmax [Hh _] Heq.
  assert (nextValidators (round s2) <> []) as Hne2 by (intros E; rewrite E in Hp; by apply Permutation_nil_r in Hp).
  assert (len (nextValidators (round s2)) < 2 ^ 63) as Hmax2 by (unfold len in *; by rewrite <- (Permutation_length Hp)).
  destruct (decideCommittee_run s1 Hne Hmax Hh) as (p & a & Ep & Ea & R1).
  destruct (decideCommittee_run s2 Hne2 Hmax2 ltac:(by rewrite <- Heq)) as (p2 & a2 & Ep2 & Ea2 & R2).
  eexists _, _. split; [exact R1|]. split; [exact R2|].
  destruct (sorted_validators_unique _ _ Hp) as [Hc|Hs]; [by left|right].
  fold (sorted_validators s1) (sorted_validators s2) in Hs.
  destruct (committee_members s1 p a Ep Ea) as (Hip & Hia & Hneq).
  rewrite <- Hs, <- Heq in Ep2, Ea2. rewrite Ep in Ep2. rewrite Ea in Ea2. injection Ep2 as <-. injection Ea2 as <-.
  exists p, a. by split_and!.
Qed.

(** C19: the votes decide: on the aggregator of [n] validators, the first
    [n - 2] votes are only counted; the next one broadcasts the verdict and
    finalizes the block with it, and the verdict is positive exactly when at
    least half of [n] voted yes. *)
Theorem votes_decide now vs v s :
  counting s -> numVoted (round s) = 0 -> len (nextValidators (round s)) < 2 ^ 62 ->
  len (vs ++ [v]) = len (nextValidators (round s)) - 1 ->
  aggregates now vs s = (Done tt, votes_counted vs s)
  /\ aggregates now (vs ++ [v]) s
     = (let* _ := broadcastFinality now (len (nextValidators (round s)) <=? 2 * count_ok (vs ++ [v])) in ret tt)
         (votes_counted (vs ++ [v]) s).
Proof.
  intros Hc Hv0 Hmax Hl. split; [|by apply aggregates_decide].
  apply aggregates_early; [done|done|]. unfold len in *. rewrite length_app in Hl. cbn in Hl. lia.
Qed.

(** Votes are not tied to voters: handling one validator's vote as often
    as there are other validators finalizes the block with that vote alone. *)
Theorem repeated_vote_decides now msg enc s k m :
  counting s -> numVoted (round s) = 0 -> len (nextValidators (round s)) < 2 ^ 62 ->
  Marshal msg = Ok enc -> wf_vote msg -> NodeInfo_Verify (vm_From msg) = true ->
  signed_by (vm_FromPublicKey msg) (vm_Signature msg) -> vm_FromPublicKey msg = Some k ->
  k ∈ nextValidators (round s) -> Z.of_nat (S m) = len (nextValidators (round s)) - 1 ->
  exists s', handleVotes now (replicate m enc) s = (Done tt, s')
    /\ handleVotes now (replicate (S m) enc) s
       = (let* _ := broadcastFinality now (vm_Ok msg) in ret tt) (votes_counted (replicate (S m) (vm_Ok msg)) s).
Proof.
  intros Hc Hv0 Hmax Hm Hwf Hf Hs Hk Hin Hl. set (v := vm_Ok msg).
  pose proof (handleVotes_early now msg enc k Hm Hwf Hf Hs Hk m s Hc Hmax Hin ltac:(lia)) as Hr.
  eexists. split; [exact Hr|]. rewrite replicate_S_end, handleVotes_app, (bind_done _ _ _ _ _ Hr).
  cbn [handleVotes]. set (s1 := votes_counted _ s).
  pose proof (handleVote_run now msg enc s1 k (proj1 Hc) Hm Hwf Hf Hs Hk Hin) as Hl1.
  pose proof (aggregates_decide now (replicate m v) v s Hc Hv0 Hmax) as Hd. cbv zeta in Hd.
  rewrite <- replicate_S_end in Hd. specialize (Hd ltac:(unfold len in *; rewrite length_replicate; lia)).
  rewrite replicate_S_end, aggregates_app in Hd.
  pose proof (aggregates_early now (replicate m v) s Hc Hmax ltac:(unfold len in *; rewrite length_replicate; lia)) as He.
  rewrite (bind_done _ _ _ _ _ He), <- replicate_S_end, count_ok_replicate in Hd. cbn [aggregates] in Hd.
  replace (_ <=? _) with v in Hd
    by (destruct v; symmetry; [apply Z.leb_le|apply Z.leb_gt]; lia).
  fold v in Hl1. rewrite <- Hd. unfold bind, ret in *. rewrite Hl1.
  unfold s1. by destruct (aggregate now v _) as [[[]|?|?] ?].
Qed.

(** C25: the signature of a consensus message covers a constant, not the
    message: from one gossip of the aggregator, anyone can make a verdict of
    any outcome that is obeyed as the aggregator's. *)
Theorem finality_forgeable now gm ni height ok s :
  GossipMsg_Verify gm = Done true -> gm_FromPublicKey gm = nextAggregator (round s) ->
  wf_node ni -> NodeInfo_Verify ni = true -> in_u64 height ->
  exists enc, Marshal (mkFinalizeMsg ni (gm_FromPublicKey gm) (gm_Signature gm) height ok) = Ok enc
    /\ handleFinalize now enc s = (let* _ := finalize now ok in ret None) s.
Proof.
  intros [Hs _]%GossipMsg_Verify_signed Hk Hwf Hv Hh.
  destruct (Marshal _) as [enc|] eqn:Hm; [|done]. exists enc. split; [done|].
  apply (handleFinalize_run now _ _ s Hm); [by split|done|done|by rewrite <- Hk].
Qed.

(** C24: a timeout stops the service: the goroutine whose timer fires is the
    only receiver of the verdict it sends, so it blocks for ever with the
    round still waiting; after that, a verdict of the aggregator blocks its
    handler too, ticks do nothing and gossip is skipped. *)
Theorem timeout_deadlocks now c s :
  finalizeCh (round s) = Some c -> waitingFinality (round s) = true -> c ∈ timeouts s ->
  exists w s', timeout now c s = (Blocked w, s') /\ round s' = round s
    /\ (forall ok, exists w', finalize now ok s' = (Blocked w', s'))
    /\ (forall tick, loop_tick now tick s' = (Done (Some tick), s'))
    /\ (forall raw_, handleGossip raw_ s' = (Done None, s')).
Proof.
  intros Hc Hw Hin. set (s' := set_timeouts (filter (fun c' => c' <> c) (timeouts s)) s).
  assert (forall ok, exists w, finalize now ok s' = (Blocked w, s')) as Hb.
  { intros ok. apply finalize_blocked. cbn [round set_timeouts timeouts s']. rewrite Hc.
    intros c' [= <-] Hf. apply list_elem_of_filter in Hf as [Hne _]. by apply Hne. }
  destruct (Hb false) as [w Hf]. exists w, s'. split_and!; [|done|exact Hb|..].
  - unfold timeout, bind at 1, get. rewrite bool_decide_eq_true_2 by done. cbn [negb].
    unfold bind at 1, modify. exact Hf.
  - intros tick. unfold loop_tick, bind at 1, get. change (round s') with (round s). rewrite Hw.
    by destruct (_ =? 0).
  - intros raw_. unfold handleGossip, bind at 1, get. change (round s') with (round s). by rewrite Hw.
Qed.

(** A short key crashes the node: consensus messages check the signature
    before the length of the key, and the check panics on any key that is not
    32 bytes; one small message of the verified form is enough. *)
Theorem short_key_panics now m enc s :
  Marshal m = Ok enc -> wf_finalize m -> NodeInfo_Verify (fm_From m) = true ->
  length (raw (fm_FromPublicKey m)) <> 32%nat ->
  let payload := ConsensusMessage :: FinalizeMessage :: enc in
  len payload <= MaxPayloadSize ->
  exists w, handleInbound (handleConsensusMessage now) (Ok payload) s = (Panicked w, s).
Proof.
  intros Hm Hwf Hf Hl payload Hlen. unfold handleInbound. rewrite (proj2 (Z.ltb_ge _ _)) by done.
  unfold payload. change (bool_decide (ConsensusMessage = HelloMessage)) with false.
  change (bool_decide (ConsensusMessage = WelcomeMessage)) with false. cbv iota.
  eexists. unfold handleConsensusMessage. cbn -[handleFinalize].
  unfold handleFinalize. assert (Unmarshal enc = Ok m) as -> by (by apply Unmarshal_Marshal).
  unfold bind at 1, lift, FinalizeMsg_Verify, outcome_and, VerifyConsensusSignature, ed25519_Verify.
  rewrite Hf. cbn [outcome_bind]. rewrite (proj2 (Z.eqb_neq _ _)) by (unfold len; lia). reflexivity.
Qed.
End consensus_properties.

(** *** Witnesses *)
Section consensus_runs.
Import Toy.

Definition wallet_of (seed : byte) : Wallet :=
  match GenerateKey (Ok [seed]) with Ok kp => fromKeyPair kp | Err _ => fromKeyPair (mkKeyPair None None) end.
Definition key_of (seed : byte) : bytes := raw (Wallet_PublicKey (wallet_of seed)).

(** A service of three validators, the first of which it runs for. *)
Definition validators3 : list bytes := [key_of x01; key_of x02; key_of x03].
Definition demo_service (validators : list bytes) (aggregator : gobytes) : ConsensusService :=
  let n := mkNode (mkExecuter (mkEnv NewMemoryService bolt_empty) None) (mkBlockchain 7 0 7 None)
             (NewP2pService "3000" SyncNode) None [] false [] in
  set_round (set_committee (Some (key_of x02)) aggregator (set_nextValidators validators NewRound))
    (NewConsensusService "5000" n (wallet_of x01)).

Definition demo_signature : gobytes :=
  match Wallet_SignRaw (wallet_of x02) ConsensusMsgSigContent with Done s => s | _ => None end.
Definition demo_info : NodeInfo := mkNodeInfo "localhost:5001" 2.

Lemma demo_signed : signed_by (Some (key_of x02)) demo_signature.
Proof. exists (key_of x02), (raw demo_signature). by repeat split; vm_compute. Qed.

Lemma demo_info_wf : wf_node demo_info.
Proof. split; [by apply ascii_by_compute; vm_compute|cbn; lia]. Qed.

Lemma committee_agreement_witness : exists s1' s2',
  decideCommittee (demo_service validators3 None) = (Done tt, s1')
  /\ decideCommittee (demo_service (rev validators3) None) = (Done tt, s2').
Proof.
  destruct (committee_agreement (demo_service validators3 None) (demo_service (rev validators3) None))
    as (s1' & s2' & R1 & R2 & _).
  - change (validators3 ≡ₚ rev validators3). apply Permutation_rev.
  - discriminate.
  - vm_compute. reflexivity.
  - unfold in_u64. cbn. lia.
  - reflexivity.
  - exists s1', s2'. split; [exact R1|exact R2].
Defined.

Lemma demo_counting l : counting (demo_service l (Some (key_of x01))).
Proof. split; [by vm_compute|]. cbn. lia. Qed.

Lemma votes_decide_witness :
  let s := demo_service validators3 (Some (key_of x01)) in
  aggregates 9 [true; false] s
  = (let* _ := broadcastFinality 9 false in ret tt) (votes_counted [true; false] s).
Proof.
  intros s. destruct (votes_decide 9 [true] false s) as (_ & Hd).
  - apply demo_counting.
  - reflexivity.
  - vm_compute. reflexivity.
  - vm_compute. reflexivity.
  - exact Hd.
Defined.

Definition demo_vote : VoteMsg := mkVoteMsg demo_info (Some (key_of x02)) demo_signature 7 true.

Lemma repeated_vote_decides_witness :
  let s := demo_service validators3 (Some (key_of x01)) in
  handleVotes 9 [bytes_of demo_vote; bytes_of demo_vote] s
  = (let* _ := broadcastFinality 9 true in ret tt) (votes_counted [true; true] s).
Proof.
  intros s. destruct (repeated_vote_decides 9 demo_vote (bytes_of demo_vote) s (key_of x02) 1) as (s' & _ & Hd).
  - apply demo_counting.
  - reflexivity.
  - vm_compute. reflexivity.
  - reflexivity.
  - split; [apply demo_info_wf|]. unfold in_u64. cbn. lia.
  - vm_compute. reflexivity.
  - apply demo_signed.
  - reflexivity.
  - right. left.
  - vm_compute. reflexivity.
  - exact Hd.
Defined.

Definition demo_gossip : GossipMsg :=
  mkGossipMsg demo_info (Some (key_of x02)) demo_signature false true 7 0 7 None.

Lemma finality_forgeable_witness :
  let s := demo_service validators3 (Some (key_of x02)) in
  let forged := mkFinalizeMsg (mkNodeInfo "localhost:6666" 2) (Some (key_of x02)) demo_signature 7 true in
  exists enc, Marshal forged = Ok enc
    /\ handleFinalize 9 enc s = (let* _ := finalize 9 true in ret None) s.
Proof.
  intros s forged. apply (finality_forgeable 9 demo_gossip (mkNodeInfo "localhost:6666" 2) 7 true s).
  - vm_compute. reflexivity.
  - reflexivity.
  - split; [by apply ascii_by_compute; vm_compute|cbn; lia].
  - vm_compute. reflexivity.
  - unfold in_u64. lia.
Defined.

Definition waiting_service : ConsensusService :=
  let s := set_timeouts [0%nat] (demo_service validators3 (Some (key_of x02))) in
  set_round (set_waiting true (set_finalizeCh (Some 0%nat) (round s))) s.

Lemma timeout_deadlocks_witness : exists w s', timeout 9 0 waiting_service = (Blocked w, s')
  /\ exists w', finalize 9 true s' = (Blocked w', s').
Proof.
  destruct (timeout_deadlocks 9 0 waiting_service) as (w & s' & Ht & _ & Hf & _).
  - reflexivity.
  - reflexivity.
  - left.
  - exists w, s'. split; [exact Ht|apply Hf].
Defined.

Lemma short_key_panics_witness :
  let m := mkFinalizeMsg demo_info None None 0 false in
  exists w, handleInbound (handleConsensusMessage 9) (Ok (ConsensusMessage :: FinalizeMessage :: bytes_of m))
              waiting_service = (Panicked w, waiting_service).
Proof.
  intros m. apply (short_key_panics 9 m (bytes_of m) waiting_service).
  - reflexivity.
  - split; [apply demo_info_wf|]. unfold in_u64. cbn. lia.
  - vm_compute. reflexivity.
  - discriminate.
  - vm_compute. discriminate.
Defined.
End consensus_runs.
