(* ===== verification/ConsensusInv.v ===== *)
(** The invariant of the consensus service, over everything that can happen to
    it: messages, ticks, timers, peers that disappear, and the other services
    of its node.

    A step leaves the state that the operation reached, also when its goroutine
    then blocks for ever: the other goroutines go on from there. *)
From S2P Require Import Prelude Json JsonLaws Common External Accounts Txs Blocks Memory Storage.
From S2P Require Import Executers Producer P2p P2pProps Node Sync ConsensusMsgs Consensus ConsensusFacts.
Open Scope Z_scope.

Section invariant.
Context `{Sha3, Ed25519, Base58, ExpSlices, MapOrder, Bolt, !ExpSlicesLaws}.
Implicit Types s : ConsensusService.

(** Distinct public keys. *)
Definition key_set (l : list bytes) : Prop := NoDup l /\ Forall is_key l.
Definition key_or_nil (k : gobytes) : Prop := k = None \/ length (raw k) = 32%nat.

Record round_ok (r : Round) : Prop := {
  ro_validators : key_set (nextValidators r);
  ro_producer : key_or_nil (nextBlockProducer r);
  ro_aggregator : key_or_nil (nextAggregator r)
}.

Record cs_ok s : Prop := {
  ck_round : round_ok (round s);
  ck_bad : key_set (badPeers s);
  ck_timeouts : NoDup (timeouts s) /\ Forall (fun c => c < cs_chans s)%nat (timeouts s);
  ck_channel c : finalizeCh (round s) = Some c -> (c < cs_chans s)%nat;
  ck_peers : peers_ok (cs_p2p s)
}.

Definition preserves {A} (m : M ConsensusService A) : Prop := forall s, cs_ok s -> cs_ok (snd (m s)).

(** *** The glue *)
Lemma pres_const {A} (o : outcome A) : preserves (lift o).
Proof. by intros s Hs. Qed.
Lemma pres_ret {A} (a : A) : preserves (ret a).
Proof. by intros s Hs. Qed.
Lemma pres_get : preserves get.
Proof. by intros s Hs. Qed.
Lemma pres_panic {A} w : preserves (panic (A := A) w).
Proof. by intros s Hs. Qed.
Lemma pres_block {A} w : preserves (block (A := A) w).
Proof. by intros s Hs. Qed.

Lemma pres_bind {A B} (m : M ConsensusService A) (k : A -> M ConsensusService B) :
  preserves m -> (forall a, preserves (k a)) -> preserves (bind m k).
Proof.
  intros Hm Hk s Hs. specialize (Hm s Hs). unfold bind. destruct (m s) as [[a|w|w] s1]; [by apply Hk|done..].
Qed.

Lemma pres_spawn (m : M ConsensusService unit) : preserves m -> preserves (spawn m).
Proof. intros Hm s Hs. specialize (Hm s Hs). unfold spawn, detach. by destruct (m s) as [[a|w|w] s1]. Qed.

Lemma pres_in_node {A} (m : M Node A) : preserves (in_node m).
Proof. intros s [R B T C P]. unfold in_node, zoom. destruct (m (cs_node s)) as [o n]. by split. Qed.

Lemma pres_modify f : (forall s, cs_ok s -> cs_ok (f s)) -> preserves (modify f).
Proof. intros Hf s Hs. by apply Hf. Qed.

(** Changes to the round that keep its keys and its channel. *)
Lemma pres_upd_round f : (forall r, round_ok r -> round_ok (f r)) ->
  (forall r, finalizeCh (f r) = finalizeCh r \/ finalizeCh (f r) = None) -> preserves (upd_round f).
Proof.
  intros Hf Hc. apply pres_modify. intros s [R B T C P]. split; try done; cbn; [by apply Hf|].
  intros c. destruct (Hc (round s)) as [->| ->]; [apply C|done].
Qed.

Lemma pres_in_p2p {A} (m : M P2pService A) : (forall ps, peers_ok ps -> peers_ok (snd (m ps))) ->
  preserves (in_p2p m).
Proof.
  intros Hm s [R B T C P]. unfold in_p2p, zoom. change (p2p_of s) with (cs_p2p s).
  specialize (Hm _ P). destruct (m (cs_p2p s)) as [o ps]. by split.
Qed.

Lemma pres_fail e : preserves (fail_cs e).
Proof. apply pres_modify. intros s [R B T C P]. by split. Qed.

Lemma new_round_ok : round_ok NewRound.
Proof. split; [split; [constructor|constructor]|by left..]. Qed.

(** *** The key sets *)
Lemma has_key_spec l pk : has_key l pk = true <-> raw pk ∈ l.
Proof.
  unfold has_key. rewrite ContainsFunc_spec, existsb_exists. split.
  - intros (p & Hin & Heq%bytes_Equal_spec). cbn in Heq. rewrite Heq. by apply list_elem_of_In.
  - intros Hin. exists (raw pk). split; [by apply list_elem_of_In|]. by apply bytes_Equal_spec.
Qed.

Lemma key_set_add l pk : key_set l -> length (raw pk) = 32%nat -> has_key l pk = false -> key_set (l ++ [raw pk]).
Proof.
  intros [Hn Hk] Hl Hh. assert (raw pk ∉ l) as Hnin by (intros Hin%has_key_spec; congruence). split.
  - apply NoDup_app. split_and!; [done| |by apply NoDup_singleton].
    intros x Hx ->%list_elem_of_singleton. done.
  - apply Forall_app. split; [done|]. by repeat constructor.
Qed.

Lemma key_size pk : negb (len (raw pk) =? PublicKeySize) = false -> length (raw pk) = 32%nat.
Proof. intros Hn%negb_false_iff%Z.eqb_eq. unfold len, PublicKeySize in Hn. lia. Qed.

Lemma index_from_range {A} (f : A -> bool) l i : 0 <= i ->
  index_from f l i = -1 \/ i <= index_from f l i < i + len l.
Proof.
  revert i. induction l as [|x l IH]; intros i Hi; cbn; [by left|]. unfold len in *. cbn [length].
  destruct (f x); [right; lia|]. destruct (IH (i + 1) ltac:(lia)); [by left|right; lia].
Qed.

Lemma key_set_delete l idx : key_set l -> 0 <= idx -> idx + 1 <= len l -> key_set (Delete l idx (idx + 1)).
Proof.
  intros [Hn Hk] Hi Hl. rewrite Delete_spec by lia.
  replace (Z.to_nat (idx + 1)) with (S (Z.to_nat idx)) by lia. rewrite <- delete_take_drop.
  pose proof (sublist_delete l (Z.to_nat idx)) as Hs. split; [by eapply sublist_NoDup|].
  apply Forall_forall. intros x Hx. apply (proj1 (Forall_forall _ _) Hk).
  by eapply elem_of_submseteq; [exact Hx|apply sublist_submseteq].
Qed.

Lemma pres_removeFromNextValidators pk : preserves (removeFromNextValidators pk).
Proof.
  unfold removeFromNextValidators. destruct (negb _); [apply pres_ret|].
  intros s Hs. unfold bind, get. set (l := nextValidators (round s)).
  rewrite IndexFunc_spec. pose proof (index_from_range (fun p => bytes_Equal pk (Some p)) l 0 ltac:(lia)) as Hr.
  destruct (Z.leb_spec 0 (index_from (fun p => bytes_Equal pk (Some p)) l 0)); [|done].
  destruct Hs as [[V Pr Ag] B T C P]. split; try done. split; [|done..]. cbn. apply key_set_delete; [done|lia..].
Qed.

Lemma pres_addToNextValidators pk : preserves (addToNextValidators pk).
Proof.
  unfold addToNextValidators. destruct (negb _) eqn:El; [apply pres_ret|]. apply key_size in El.
  intros s Hs. unfold bind, get. destruct (has_key _ pk) eqn:Eh; [done|]. cbn [negb].
  destruct Hs as [[V Pr Ag] B T C P]. split; try done. split; [|done..]. by apply key_set_add.
Qed.

Lemma pres_addToBadPeer pk : preserves (addToBadPeer pk).
Proof.
  unfold addToBadPeer. destruct (negb _) eqn:El; [apply pres_ret|]. apply key_size in El.
  intros s Hs. unfold bind, get. destruct (has_key _ pk) eqn:Eh; [done|]. cbn [negb].
  destruct Hs as [R B T C P]. split; try done. by apply key_set_add.
Qed.

Lemma pres_decideCommittee : preserves decideCommittee.
Proof.
  intros s [[V Pr Ag] B T C P]. unfold decideCommittee, bind at 1, get.
  set (l := SortFunc hash_less (nextValidators (round s))).
  assert (key_set l) as Hl.
  { destruct V as [Vn Vk]. unfold key_set, l. by rewrite SortFunc_perm. }
  unfold bind at 1, upd_round at 1, modify. destruct (_ =? 0).
  { split; try done. }
  destruct (l !! _) as [p|] eqn:Ep; [|by split]. destruct (l !! Z.to_nat (u64 _ mod _)) as [a|] eqn:Ea; [|by split].
  destruct Hl as [Ln Lk]. split; try done. split; [done|..]; right; cbn;
    [apply (Forall_lookup_1 _ _ _ _ Lk Ep)|apply (Forall_lookup_1 _ _ _ _ Lk Ea)].
Qed.

Lemma pres_startTimer : preserves startTimer.
Proof.
  intros s [[V Pr Ag] B [Tn Tl] C P]. split; try done; cbn.
  - split.
    + apply NoDup_app. split_and!; [done| |by apply NoDup_singleton].
      intros c Hc ->%list_elem_of_singleton. apply (proj1 (Forall_forall _ _) Tl) in Hc. lia.
    + apply Forall_app. split; [|repeat constructor; lia]. eapply Forall_impl; [exact Tl|]. cbn. lia.
  - intros c [= <-]. lia.
Qed.

Lemma drop_timeout c s : cs_ok s -> cs_ok (set_timeouts (filter (fun c' => c' <> c) (timeouts s)) s).
Proof.
  intros [R B [Tn Tl] C P]. split; try done. split; cbn; [by apply NoDup_filter|].
  apply Forall_forall. intros x [_ Hx]%list_elem_of_filter. by apply (proj1 (Forall_forall _ _) Tl).
Qed.

Lemma pres_send_finalize : preserves send_finalize.
Proof.
  intros s Hs. unfold send_finalize, bind, get. destruct (finalizeCh (round s)) as [c|]; [|done].
  destruct (bool_decide _); [|done]. by apply drop_timeout.
Qed.

Lemma pres_Broadcast data except : preserves (in_p2p (Broadcast data except)).
Proof. apply pres_in_p2p. intros ps Hp. rewrite Broadcast_run. by apply peers_ok_sends. Qed.

Lemma pres_localDiscovery lo hi : preserves (in_p2p (localDiscovery lo hi)).
Proof.
  apply pres_in_p2p. intros ps Hp. destruct (localDiscovery_run lo hi ps) as (pl & _ & ->). by apply peers_ok_sends.
Qed.

(** What the operations are made of. *)
Create HintDb pres discriminated.
#[local] Hint Resolve pres_const pres_ret pres_get pres_panic pres_block pres_in_node pres_fail
  pres_removeFromNextValidators pres_addToNextValidators pres_addToBadPeer pres_decideCommittee
  pres_startTimer pres_send_finalize pres_Broadcast pres_localDiscovery : pres.

Ltac round_step := apply pres_upd_round; [intros r Hr; by (apply new_round_ok || destruct Hr)|intros r; by (left + right)].
Ltac state_step := apply pres_modify; intros ? [? ? ? ? ?]; by split.

(** Follow the structure of an operation down to its parts. *)
Ltac pres :=
  repeat first
    [ solve [auto with pres]
    | apply pres_bind; [|intros ?]
    | apply pres_spawn
    | match goal with
      | |- preserves (match ?x with _ => _ end) => destruct x
      | |- preserves (let '(_, _) := ?x in _) => destruct x
      end
    | round_step
    | state_step ].

Lemma pres_reset : preserves reset.
Proof. unfold reset. pres. Qed.
#[local] Hint Resolve pres_reset : pres.

Lemma pres_finalize now ok : preserves (finalize now ok).
Proof. unfold finalize. pres. Qed.
#[local] Hint Resolve pres_finalize : pres.

Lemma pres_timeout now c : preserves (timeout now c).
Proof.
  intros s Hs. unfold timeout, bind at 1, get. destruct (negb _); [done|].
  unfold bind, modify. apply pres_finalize. by apply drop_timeout.
Qed.

Lemma pres_broadcast {T} `{JSON T} (msg : T) kind : preserves (broadcast msg kind).
Proof. unfold broadcast. pres. Qed.
Lemma pres_sign_content : preserves sign_content.
Proof. unfold sign_content. pres. Qed.
#[local] Hint Resolve pres_broadcast pres_sign_content : pres.

Lemma pres_broadcastFinality now ok : preserves (broadcastFinality now ok).
Proof. unfold broadcastFinality. pres. Qed.
#[local] Hint Resolve pres_broadcastFinality : pres.

Lemma pres_aggregate now ok : preserves (aggregate now ok).
Proof. unfold aggregate. pres. Qed.
#[local] Hint Resolve pres_aggregate : pres.

Lemma pres_vote now ok : preserves (vote now ok).
Proof. unfold vote. pres. Qed.
Lemma pres_proposeBlock now : preserves (proposeBlock now).
Proof. unfold proposeBlock. pres. Qed.
#[local] Hint Resolve pres_vote pres_proposeBlock : pres.

Lemma pres_loop_tick now tick : preserves (loop_tick now tick).
Proof. unfold loop_tick, next_tick, broadcastGossip, broadcastStartBlockProcessing, start_block. pres. Qed.

Lemma pres_handleConsensusMessage now raw_ : preserves (handleConsensusMessage now raw_).
Proof.
  unfold handleConsensusMessage, handleGossip, handleStartBlockProcessing, handleProposeBlock, handleVote,
    handleFinalize. pres.
Qed.
#[local] Hint Resolve pres_loop_tick pres_handleConsensusMessage pres_timeout : pres.

Lemma pres_keeps m : (forall ps, peers_ok ps -> keeps m ps) -> preserves (in_p2p m).
Proof. intros Hk. apply pres_in_p2p. intros ps Hp. by destruct (Hk ps Hp) as (r & ps' & l & -> & ? & _). Qed.

Lemma pres_handleInbound now conn : preserves (handleInbound (handleConsensusMessage now) conn).
Proof.
  unfold handleInbound. destruct conn as [raw0|e]; [|pres]. destruct (_ <? _); [pres|]. destruct raw0 as [|kind rest]; [pres|].
  destruct (bool_decide _); [apply pres_keeps; intros; by apply handleJoin_run|].
  destruct (bool_decide _); [apply pres_keeps; intros; by apply handleWelcome_run|pres].
Qed.

Lemma pres_onFail n : preserves (onFail (Some onPeerDisapear) n).
Proof.
  unfold onFail, onPeerDisapear. apply pres_bind; [pres|intros _]. apply pres_in_p2p. intros ps Hp.
  by destruct (peers_ok_remove n ps Hp) as (ps' & -> & ? & _).
Qed.

(** ** What can happen to the service *)
Inductive cs_step : ConsensusService -> ConsensusService -> Prop :=
| cs_run s : cs_step s (snd (Consensus_Run s))
| cs_message now conn s : cs_step s (snd (handleInbound (handleConsensusMessage now) conn s))
| cs_peer_lost n s : cs_step s (snd (onFail (Some onPeerDisapear) n s))
| cs_tick now tick s : cs_step s (snd (loop_tick now tick s))
| cs_timer now c s : cs_step s (snd (timeout now c s))
| cs_node_service n s : cs_step s (set_cs_node n s).

Lemma cs_step_ok s s' : cs_step s s' -> cs_ok s -> cs_ok s'.
Proof.
  intros [] Hs.
  - assert (preserves Consensus_Run) as Hr by (unfold Consensus_Run; pres). by apply Hr.
  - by apply pres_handleInbound.
  - by apply pres_onFail.
  - by apply pres_loop_tick.
  - by apply pres_timeout.
  - destruct Hs. by split.
Qed.

Lemma NewConsensusService_ok port n w : cs_ok (NewConsensusService port n w).
Proof.
  split; cbn; [apply new_round_ok|split; constructor|split; constructor|done|apply peers_ok_new].
Qed.
End invariant.

(** * Property *)

(** C17: whatever arrives, whenever the ticker and the timers fire, whichever
    peers disappear and whatever the node's other services do, a consensus
    service keeps its invariant: the validators are distinct 32-byte keys, and
    so are the bad peers; producer and aggregator are keys; no two timeouts
    wait on one channel; the peer list has no address twice, never the node's
    own, and only verified ones. *)
Theorem consensus_invariant `{Sha3, Ed25519, Base58, ExpSlices, MapOrder, Bolt, !ExpSlicesLaws} port n w s :
  rtc cs_step (NewConsensusService port n w) s ->
  key_set (nextValidators (round s)) /\ key_set (badPeers s)
  /\ key_or_nil (nextBlockProducer (round s)) /\ key_or_nil (nextAggregator (round s))
  /\ NoDup (timeouts s) /\ (forall c, finalizeCh (round s) = Some c -> (c < cs_chans s)%nat)
  /\ peers_ok (cs_p2p s).
Proof.
  intros Hsteps. assert (cs_ok s) as [[V P A] B [T _] C Pe]; [|by split_and!].
  pose proof (NewConsensusService_ok port n w) as Hok.
  induction Hsteps as [|s0 s1 s2 Hstep _ IH]; [done|]. apply IH. by eapply cs_step_ok.
Qed.

Section invariant_run.
Import Toy.

Definition idle_node : Node :=
  mkNode (mkExecuter (mkEnv NewMemoryService bolt_empty) None) NewBlockchain (NewP2pService "3000" SyncNode)
    None [] false [].
Definition no_wallet : Wallet := fromKeyPair (mkKeyPair None None).

Lemma consensus_invariant_witness :
  let s := snd (loop_tick 9 0 (snd (Consensus_Run (NewConsensusService "5000" idle_node no_wallet)))) in
  key_set (nextValidators (round s)) /\ peers_ok (cs_p2p s).
Proof.
  intros s. destruct (consensus_invariant "5000" idle_node no_wallet s) as (V & _ & _ & _ & _ & _ & P).
  - eapply rtc_l; [apply cs_run|]. eapply rtc_l; [apply (cs_tick 9 0)|]. apply rtc_refl.
  - split; [exact V|exact P].
Defined.
End invariant_run.
