(* ===== verification/RoundProps.v ===== *)
(** A round of the consensus between two nodes: the producer proposes a block,
    the aggregator verifies it and votes, and both make it final. *)
From S2P Require Import Prelude Json JsonLaws JsonSize Common External Merkle Accounts Txs Blocks Rpc Memory.
From S2P Require Import MemoryFacts MempoolFacts StateHash Ledger Storage StorageFacts StorageProps Executers.
From S2P Require Import ExecuterFacts BlockExec Settlement ExecutionProps Producer ProducerProps P2p P2pProps.
From S2P Require Import Node NodeFacts Sync ConsensusMsgs Consensus ConsensusFacts ConsensusProps.
Open Scope Z_scope.

Section round.
Context `{Sha3, Ed25519, Base58, ExpSlices, MapOrder, Bolt}.
Context `{!Sha3Laws, !Ed25519Laws, !Base58Laws, !ExpSlicesLaws, !MapOrderLaws, !BoltLaws}.
Implicit Types s : ConsensusService.

(** A service of a node that waits for the finality of a block. *)
Record awaiting s (gen : bytes) (ex : list bytes) (blk : Block) (enc : bytes) : Prop := {
  aw_channel : exists c, finalizeCh (round s) = Some c /\ c ∈ timeouts s;
  aw_account : accountCh (round s) = Some (map Some ex);
  aw_block : blockCh (round s) = Some blk;
  aw_pending : pending (n_exe (cs_node s)) gen ex;
  aw_few : (length ex <= 11)%nat;
  aw_blocks : bolt_has_bucket (ndb (cs_node s)) blocksBucket = true;
  aw_room : (length (txCh (nmem (cs_node s))) <= txCh_room)%nat;
  aw_enc : Marshal blk = Ok enc /\ len enc <= MaxValueSize;
  aw_hash : length (raw (bi_Hash (Info blk))) = 32%nat /\ bi_Height (Info blk) <> 0
}.

(** Once it is final: the node has the block and is ready for the next. *)
Record finalized s s' (gen : bytes) (blk : Block) (enc : bytes) (L : Ledger) : Prop := {
  fi_round : round s' = NewRound;
  fi_chain : info s' = Increment (bi_Hash (Info blk)) (info s);
  fi_node : node_ok (cs_node s') gen;
  fi_ledger : nledger (cs_node s') = L;
  fi_block : latest_block (ndb (cs_node s')) blk enc;
  fi_pool : pool_of (nmem (cs_node s')) = Mempool_Remove (ToKeys (Bundle blk)) (pool_of (nmem (cs_node s)));
  fi_errs : cs_errs s' = cs_errs s /\ n_errs (cs_node s') = n_errs (cs_node s)
}.

Lemma finalize_accepts now s gen ex blk enc : (forall db, bolt_commit db = None) ->
  awaiting s gen ex blk enc ->
  exists s', finalize now true s = (Done tt, s') /\ cs_p2p s' = cs_p2p s
    /\ finalized s s' gen blk enc (nledger (cs_node s)).
Proof.
  intros Hc [(c & Hch & Hin) Ha Hb Hp Hl Hbk Hr [He Hv] [Hh Hn]].
  destruct (finality_accepts (n_exe (cs_node s)) gen ex Hc Hp Hl) as (x2 & Hw & Hs2 & HL2 & [Hp1 Hp2] & Hbs & _).
  set (n2 := set_n_exe x2 (cs_node s)).
  assert (node_ok n2 gen) as Hn2.
  { split; [exact Hs2|change (bolt_has_bucket (xdb x2) blocksBucket = true); by rewrite Hbs|].
    change (length (txCh (xmem x2)) <= txCh_room)%nat. by rewrite Hp2. }
  destruct (block_final now blk enc n2 gen Hc Hn2 He Hv Hh Hn) as (x3 & Hf & Hn3 & HL3 & Hlat & Hpool).
  unfold finalize. rewrite (bind_done _ _ _ _ _ (send_finalize_run s c Hch Hin)). set (s1 := woken c s).
  unfold bind at 1, get. change (round s1) with (round s). rewrite Ha, Hb.
  assert (forall k : unit -> M ConsensusService unit, bind (spawn (let* err := in_node (in_exe (waitForFinality true (map Some ex))) in
      match err with Some e => fail_cs e | None => ret tt end)) k s1 = k tt (set_cs_node n2 s1)) as Hw1.
  { intros k. apply bind_done, spawn_done.
    rewrite (bind_done _ _ _ _ _ (in_node_done _ s1 _ _ (in_exe_done _ (cs_node s1) _ _ Hw))). done. }
  rewrite Hw1. rewrite (bind_done _ _ _ _ _ (spawn_done _ _ _ (in_node_done _ (set_cs_node n2 s1) _ _ Hf))).
  eexists. split; [reflexivity|]. split; [done|]. split; try done.
  - destruct Hn3 as [S3 B3 R3]. by split.
  - change (xledger x3 = nledger (cs_node s)). rewrite HL3. exact HL2.
  - change (pool_of (xmem x3) = Mempool_Remove (ToKeys (Bundle blk)) (pool_of (nmem (cs_node s)))). rewrite Hpool.
    unfold pool_of. change (nmem n2) with (xmem x2). by rewrite Hp1, Hp2.
Qed.

(** *** The producer *)
Definition signature s : gobytes :=
  match Wallet_SignRaw (nodeWallet s) ConsensusMsgSigContent with Done sig => sig | _ => None end.

Lemma signature_run s : wallet_ok (nodeWallet s) ->
  sign_content s = (Done (signature s), s) /\ signed_by (self_key s) (signature s)
  /\ length (raw (signature s)) = 64%nat /\ length (raw (self_key s)) = 32%nat.
Proof.
  intros Hw. destruct (SignRaw_ok _ ConsensusMsgSigContent Hw) as (pk & sig & Hpk & Kpk & Hs & Hl & Hv).
  unfold signature, sign_content, bind, get, lift, self_key. rewrite Hs, Hpk. split_and!; try done.
  exists pk, sig. split_and!; try done. by intros ->.
Qed.

(** A service that holds a block and the accounts it executed. *)
Definition holding (keys : publicKeys) (blk : Block) (x : Executer) s : ConsensusService :=
  set_round (set_waiting true (set_accountCh (Some keys) (set_blockCh (Some blk) (round s))))
    (set_cs_node (set_n_exe x (cs_node s)) s).

Definition proposal s (blk : Block) : ProposeBlockMsg :=
  mkProposeBlockMsg (self (cs_p2p s)) (self_key s) (signature s) blk.

(** Such a service waits for the finality of the block. *)
Lemma holding_awaits s s' gen ex blk enc x c : node_ok (cs_node s) gen ->
  pending x gen ex -> xdb x = ndb (cs_node s) -> same_pool (nmem (cs_node s)) (xmem x) ->
  cs_node s' = set_n_exe x (cs_node s) -> accountCh (round s') = Some (map Some ex) ->
  blockCh (round s') = Some blk -> finalizeCh (round s') = Some c -> c ∈ timeouts s' ->
  (length ex <= 11)%nat -> Marshal blk = Ok enc -> len enc <= MaxValueSize ->
  length (raw (bi_Hash (Info blk))) = 32%nat -> bi_Height (Info blk) <> 0 ->
  awaiting s' gen ex blk enc.
Proof.
  intros [Ns Nb Nr] Hp Hdb [_ Ht] Hn Ha Hb Hc Hin Hl He Hv Lh Hh.
  split; try done; [by exists c|rewrite Hn; exact Hp|..].
  - rewrite Hn. change (bolt_has_bucket (xdb x) blocksBucket = true). by rewrite Hdb.
  - rewrite Hn. change (length (txCh (xmem x)) <= txCh_room)%nat. by rewrite Ht.
Qed.

Lemma start_block_run now s blk keys x : wallet_ok (nodeWallet s) -> 0 < LenTx (nmem (cs_node s)) ->
  raw (nextBlockProducer (round s)) = raw (self_key s) ->
  BlockProducer_NewBlock now (info s) (nodeWallet s) (n_exe (cs_node s)) = (Done (Ok (blk, keys)), x) ->
  exists enc, Marshal (proposal s blk) = Ok enc
    /\ start_block now s
       = (Done tt, timed (announced (ConsensusMessage :: ProposeBlockMessage :: enc) (holding keys blk x s))).
Proof.
  intros Hw Hlen Hp Hnew. destruct (signature_run s Hw) as (Hsig & _).
  set (s1 := set_cs_node (set_n_exe x (cs_node s)) s).
  destruct (broadcast_run (proposal s blk) ProposeBlockMessage s1) as (enc & Hm & Hb).
  exists enc. split; [exact Hm|].
  assert (proposeBlock now s = (Done None, set_round (set_accountCh (Some keys) (set_blockCh (Some blk) (round s)))
      (announced (ConsensusMessage :: ProposeBlockMessage :: enc) s1))) as Hprop.
  { unfold proposeBlock. unfold bind at 1, get.
    rewrite (bind_done _ _ _ _ _ (in_node_done _ s _ _ (in_exe_done _ (cs_node s) _ _ Hnew))).
    assert (sign_content s1 = (Done (signature s), s1)) as Hsig1.
    { destruct (signature_run s1 Hw) as (Hs1 & _). exact Hs1. }
    cbv beta iota. fold s1. rewrite (bind_done _ _ _ _ _ Hsig1). cbv zeta.
    change (mkProposeBlockMsg _ _ _ _) with (proposal s blk).
    by rewrite (bind_done _ _ _ _ _ Hb). }
  unfold start_block. unfold bind at 1, get. change (env_mem (exe_env (n_exe (cs_node s)))) with (nmem (cs_node s)).
  rewrite (proj2 (Z.ltb_lt _ _) Hlen), (proj2 (bytes_Equal_spec _ _) Hp).
  rewrite (bind_done _ _ _ _ _ Hprop). reflexivity.
Qed.

(** *** A node that verifies the proposal *)
Lemma handleProposeBlock_run now msg enc s keys x : Marshal msg = Ok enc -> wf_propose msg ->
  ProposeBlockMsg_Verify msg = Done true -> raw (pb_FromPublicKey msg) = raw (nextBlockProducer (round s)) ->
  BlockProducer_Verify (info s) (pb_Block msg) (n_exe (cs_node s)) = (Done (true, Some keys, None, pb_Block msg), x) ->
  handleProposeBlock now enc s = vote now true (holding keys (pb_Block msg) x s).
Proof.
  intros Hm Hwf Hv Hk Hr. unfold handleProposeBlock.
  assert (Unmarshal enc = Ok msg) as -> by (by apply Unmarshal_Marshal).
  unfold bind at 1, lift. rewrite Hv. cbn [negb]. unfold bind at 1, get.
  rewrite (proj2 (bytes_Equal_spec _ _) Hk). cbn [negb].
  rewrite (bind_done _ _ _ _ _ (in_node_done _ s _ _ (in_exe_done _ (cs_node s) _ _ Hr))). reflexivity.
Qed.

(** The aggregator of two validators: its own vote decides. *)
Definition verdict s (ok : bool) : FinalizeMsg :=
  mkFinalizeMsg (self (cs_p2p s)) (self_key s) (signature s) (nextHeight (info s)) ok.

Lemma broadcastFinality_run now ok s : wallet_ok (nodeWallet s) -> self_is_aggregator s = true ->
  exists enc, Marshal (verdict s ok) = Ok enc
    /\ broadcastFinality now ok s = (let* _ := finalize now ok in ret None)
         (announced (ConsensusMessage :: FinalizeMessage :: enc) s).
Proof.
  intros Hw Ha. destruct (broadcast_run (verdict s ok) FinalizeMessage s) as (enc & Hm & Hb).
  exists enc. split; [exact Hm|]. unfold broadcastFinality. unfold bind at 1, get. rewrite Ha. cbn [negb].
  destruct (signature_run s Hw) as (Hsig & _). rewrite (bind_done _ _ _ _ _ Hsig).
  cbv zeta. change (mkFinalizeMsg _ _ _ _ _) with (verdict s ok). by rewrite (bind_done _ _ _ _ _ Hb).
Qed.

Lemma vote_decides now s : wallet_ok (nodeWallet s) -> self_is_aggregator s = true ->
  length (nextValidators (round s)) = 2%nat -> numVoted (round s) = 0 -> numVotedOk (round s) = 0 ->
  exists enc, Marshal (verdict s true) = Ok enc
    /\ vote now true s = (let* _ := finalize now true in ret None)
        (announced (ConsensusMessage :: FinalizeMessage :: enc) (votes_counted [true] (timed s))).
Proof.
  intros Hw Ha Hl Hv Ho. set (s1 := timed s). set (s2 := votes_counted [true] s1).
  destruct (broadcastFinality_run now true s2 Hw Ha) as (enc & Hm & Hf).
  exists enc. split; [exact Hm|]. unfold vote. unfold bind at 1, startTimer, modify. fold (timed s). fold s1.
  unfold bind at 1, get. change (self_is_aggregator s1) with (self_is_aggregator s). rewrite Ha.
  pose proof (aggregate_run now true s1 Ha ltac:(cbn; lia) ltac:(cbn; lia)) as Hr. cbv zeta in Hr.
  change (numVoted (round s1)) with (numVoted (round s)) in Hr.
  change (nextValidators (round s1)) with (nextValidators (round s)) in Hr. fold s2 in Hr.
  change (numVotedOk (round s2)) with (numVotedOk (round s) + count_ok [true]) in Hr.
  unfold len in Hr. rewrite Hl, Hv, Ho in Hr. cbn [Z.add Z.eqb] in Hr.
  change (0 + 1 =? Z.of_nat 2 - 1) with true in Hr. change (Z.of_nat 2 <=? 2 * (0 + count_ok [true])) with true in Hr.
  unfold bind at 1. rewrite Hr. unfold bind at 1. rewrite Hf. unfold bind.
  by destruct (finalize now true _) as [[?|?|?] ?].
Qed.

(** *** The new block *)
Lemma new_block_shape now bc w x gen blk keys x' : settled x gen ->
  map_Forall (fun _ tx => Transaction_Verify tx = Done (Ok true) /\ u64_tx tx) (mempool (xmem x)) ->
  in_s64 now -> in_u64 (nextHeight bc) -> BlockProducer_NewBlock now bc w x = (Done (Ok (blk, keys)), x') ->
  u64_block blk /\ length (raw (bi_Hash (Info blk))) = 32%nat /\ bi_Height (Info blk) = nextHeight bc.
Proof.
  intros Hx Hpool Hnow Hh Hnew.
  destruct (NewBlock_inv _ _ _ _ _ _ _ Hnew) as (txs & txs' & x1 & st & h & sig & Hg & Hex & _ & _ & _ & ->).
  pose proof (GetTxsForBlock_Forall _ _ _ Hpool Hg) as Htv.
  assert (Forall sender_ok txs) as Hsend by (eapply Forall_impl; [exact Htv|]; intros tx [Ht _]; by apply sender_ok_verified).
  destruct (Execute_inv _ _ _ _ _ _ Hx Hsend Hex) as (ex & _ & _ & _ & _ & _ & Hb).
  split_and!; [split; [by split|]|apply length_Sum256|done].
  change (Forall u64_tx txs'). apply spec_block_status in Hb. eapply Forall2_Forall_r; [exact Hb|].
  eapply Forall_impl; [exact Htv|]. cbn. intros tx [_ Hu] tx' (Hd & _). unfold u64_tx. by rewrite Hd.
Qed.

(** The verdict fits into a payload. *)
Lemma verdict_fits s ok enc : wallet_ok (nodeWallet s) -> wf_node (self (cs_p2p s)) ->
  NodeInfo_Verify (self (cs_p2p s)) = true -> in_u64 (nextHeight (info s)) -> Marshal (verdict s ok) = Ok enc ->
  len (ConsensusMessage :: FinalizeMessage :: enc) <= MaxPayloadSize.
Proof.
  intros Hw [Ha Hn] Hv Hh Hm. destruct (signature_run s Hw) as (_ & _ & L64 & L32).
  unfold verdict in Hm. destruct (self_key s) as [pk|]; [|done]. destruct (signature s) as [sig|]; [|done].
  cbn [raw default id] in *. apply andb_true_iff in Hv as [Hl%Nat.eqb_eq _].
  destruct (self (cs_p2p s)) as [ip nw]. cbn [Ip4 Network] in *.
  pose proof (length_quote_body _ Ha) as Hq. rewrite length_bstr, Hl in Hq.
  pose proof (length_format_uint nw) as Hf. revert Hh Hm. generalize (nextHeight (info s)) as h. intros h Hh Hm.
  pose proof (length_format_uint h Hh). unfold in_u64 in Hf.
  apply Marshal_size in Hm. size_of Hm. rewrite (quote_b64_32 pk), quote_b64_64 in Hm by done.
  unfold len, MaxPayloadSize. cbn [length]. destruct ok; lia.
Qed.

(** A validator between two rounds. *)
Record validator s gen : Prop := {
  va_node : node_ok (cs_node s) gen;
  va_wallet : wallet_ok (nodeWallet s);
  va_self : wf_node (self (cs_p2p s)) /\ NodeInfo_Verify (self (cs_p2p s)) = true
}.

(** It has sent a message to each of its peers. *)
Definition tells s s' (payload : bytes) : Prop :=
  sent (cs_p2p s') = sent (cs_p2p s) ++ map (fun p => (p, payload)) (peers (cs_p2p s)).

(** What both nodes of a round start from. *)
Record agreed sp sa : Prop := {
  ag_chain : info sp = info sa;
  ag_ledger : nledger (cs_node sp) = nledger (cs_node sa);
  ag_producer : raw (nextBlockProducer (round sp)) = raw (self_key sp)
    /\ raw (nextBlockProducer (round sa)) = raw (self_key sp);
  ag_aggregator : raw (nextAggregator (round sp)) = raw (self_key sa)
    /\ raw (nextAggregator (round sa)) = raw (self_key sa);
  ag_votes : length (nextValidators (round sa)) = 2%nat /\ numVoted (round sa) = 0 /\ numVotedOk (round sa) = 0
}.

Lemma handleInbound_consensus now k kind body s : k = ConsensusMessage ->
  len (k :: kind :: body) <= MaxPayloadSize ->
  handleInbound (handleConsensusMessage now) (Ok (k :: kind :: body)) s = handleConsensusMessage now (k :: kind :: body) s.
Proof.
  intros -> Hl. unfold handleInbound. by rewrite (proj2 (Z.ltb_ge _ _)).
Qed.

(** A round of two validators: a producer whose block keeps to the limits
    of the code proposes it; the aggregator, with the same chain position and
    the same ledger, accepts it, and its vote is the verdict, which makes the
    block final on both.  Both end with the block as the latest one stored,
    the same chain position and the same ledger (that of the block), without
    its transactions in their pools, and ready for the next round. *)
Theorem two_node_round now now1 now2 sp sa gen blk keys xp enc :
  (forall db, bolt_commit db = None) -> validator sp gen -> validator sa gen -> agreed sp sa ->
  in_u64 (nextHeight (info sp)) -> nextHeight (info sp) <> 0 ->
  len (raw (previousBlockHash (info sp))) = HashSize ->
  0 < LenTx (nmem (cs_node sp)) ->
  map_Forall (fun _ tx => Transaction_Verify tx = Done (Ok true) /\ u64_tx tx) (mempool (nmem (cs_node sp))) ->
  in_s64 now -> 0 < now ->
  BlockProducer_NewBlock now (info sp) (nodeWallet sp) (n_exe (cs_node sp)) = (Done (Ok (blk, keys)), xp) ->
  (length keys <= 11)%nat -> Marshal blk = Ok enc -> len enc <= MaxValueSize ->
  len (bytes_of (proposal sp blk)) + 2 <= MaxPayloadSize ->
  exists proposed decided sp1 sp2 sa',
    start_block now sp = (Done tt, sp1) /\ tells sp sp1 proposed
    /\ handleInbound (handleConsensusMessage now1) (Ok proposed) sa = (Done None, sa') /\ tells sa sa' decided
    /\ handleInbound (handleConsensusMessage now2) (Ok decided) sp1 = (Done None, sp2)
    /\ finalized sp sp2 gen blk enc (xledger xp) /\ finalized sa sa' gen blk enc (xledger xp).
Proof.
  intros Hc [Np Wp [Ip Vp]] [Na Wa [Ia Va]] [Hinfo HL [Hpp Hpa] [Hap Haa] (Hl2 & Hv & Ho)] Hh Hh0 Hprev Hlen Hpool
    Hnow Hnow0 Hnew Hkeys He Hval Hfit.
  destruct (new_block_shape _ _ _ _ _ _ _ _ (no_settled _ _ Np) Hpool Hnow Hh Hnew) as (Hu & Lh & Hbh).
  assert (map_Forall (fun _ tx => Transaction_Verify tx = Done (Ok true)) (mempool (nmem (cs_node sp)))) as Hpool'
    by (eapply map_Forall_impl; [exact Hpool|]; by intros ? ? []).
  destruct (new_block_accepted _ _ _ _ _ _ _ _ _ (no_settled _ _ Np) (no_settled _ _ Na) HL Hpool' Wp Hnow0 Hprev Hnew)
    as (Hbv & xa & ex & Hver & -> & HLa & Pp & Dp & Mp & Pa & Da & Ma).
  rewrite length_map in Hkeys. rewrite Hinfo in Hver.
  assert (in_u64 (nextHeight (info sa))) as Hha by (by rewrite <- Hinfo).
  (* the proposal *)
  destruct (start_block_run now sp blk _ xp Wp Hlen Hpp Hnew) as (menc & Hm & Hstart).
  assert (bytes_of (proposal sp blk) = menc) as Hbytes by (unfold bytes_of; by rewrite Hm).
  set (pay := ConsensusMessage :: ProposeBlockMessage :: menc) in *. set (sp1 := timed _) in Hstart.
  destruct (signature_run sp Wp) as (_ & Sp & _).
  (* the verdict *)
  set (s2 := holding (map Some ex) blk xa sa).
  assert (handleProposeBlock now1 menc sa = vote now1 true s2) as Hprop.
  { apply (handleProposeBlock_run now1 (proposal sp blk) menc sa); [exact Hm|by split|by apply ProposeBlockMsg_Verify_ok|by rewrite Hpa|exact Hver]. }
  destruct (vote_decides now1 s2 Wa) as (venc & Hvm & Hvote); [by apply bytes_Equal_spec|exact Hl2|exact Hv|exact Ho|].
  set (dec := ConsensusMessage :: FinalizeMessage :: venc) in *. set (s3 := announced _ _) in Hvote.
  assert (bi_Height (Info blk) <> 0) as Hb0 by (by rewrite Hbh).
  (* both make it final *)
  assert (awaiting s3 gen ex blk enc) as Wt3.
  { apply (holding_awaits sa s3 gen ex blk enc xa (cs_chans s2)); try done. apply elem_of_app. right. by left. }
  destruct (finalize_accepts now1 s3 gen ex blk enc Hc Wt3) as (sa' & Hfa & Qa & Fa).
  assert (awaiting sp1 gen ex blk enc) as Wt1.
  { apply (holding_awaits sp sp1 gen ex blk enc xp (cs_chans sp)); try done. apply elem_of_app. right. by left. }
  destruct (finalize_accepts now2 sp1 gen ex blk enc Hc Wt1) as (sp2 & Hfp & Qp & Fp).
  exists pay, dec, sp1, sp2, sa'. split_and!; [exact Hstart|done|..].
  - unfold pay. rewrite handleInbound_consensus by (first [done|unfold len in *; cbn [length] in *; rewrite <- Hbytes; lia]).
    change (handleProposeBlock now1 menc sa = (Done None, sa')). rewrite Hprop, Hvote. by rewrite (bind_done _ _ _ _ _ Hfa).
  - unfold tells. by rewrite Qa.
  - unfold dec. rewrite handleInbound_consensus.
    2:{ done. }
    2:{ apply (verdict_fits s2 true venc Wa Ia Va); [exact Hha|exact Hvm]. }
    change (handleFinalize now2 venc sp1 = (Done None, sp2)).
    rewrite (handleFinalize_run now2 (verdict s2 true) venc sp1 Hvm); [by rewrite (bind_done _ _ _ _ _ Hfp)|by split|exact Va|..].
    + apply (signature_run s2 Wa).
    + change (raw (self_key sa) = raw (nextAggregator (round sp))). by rewrite Hap.
  - destruct Fp as [F1 F2 F3 F4 F5 F6 F7]. split; try done.
    rewrite F6. unfold pool_of. change (nmem (cs_node sp1)) with (xmem xp). by destruct Mp as [-> ->].
  - destruct Fa as [F1 F2 F3 F4 F5 F6 F7]. split; try done; [rewrite F4; exact HLa|].
    rewrite F6. unfold pool_of. change (nmem (cs_node s3)) with (xmem xa). by destruct Ma as [-> ->].
Qed.
End round.

(** *** Witness: one round over a block of two transfers *)
Section round_runs.
Import Toy.

Definition seat (port : string) (x : Executer) (w : Wallet) : ConsensusService :=
  let producer := Wallet_PublicKey demo_wallet in
  let aggregator := Wallet_PublicKey (wallet_of x01) in
  set_round (set_committee producer aggregator (set_nextValidators [raw producer; raw aggregator] NewRound))
    (NewConsensusService port (mkNode x demo_chain (NewP2pService "3000" SyncNode) None [] false []) w).
Definition proposer : ConsensusService := seat "5000" (pooled good_block) demo_wallet.
Definition decider : ConsensusService := seat "5001" node (wallet_of x01).

Lemma seat_validator port x w : settled x gen_key -> bolt_has_bucket (xdb x) blocksBucket = true ->
  length (txCh (xmem x)) = 0%nat -> wallet_ok w -> port = "5000"%string \/ port = "5001"%string ->
  validator (seat port x w) gen_key.
Proof.
  intros Hs Hb Hr Hw Hp. split; [split; [exact Hs|exact Hb|]|exact Hw|].
  - change (length (txCh (xmem x)) <= txCh_room)%nat. rewrite Hr. unfold txCh_room. lia.
  - destruct Hp as [-> | ->]; (split; [split; [by apply ascii_by_compute; vm_compute|vm_compute; split; congruence]|by vm_compute]).
Qed.

Lemma two_node_round_witness :
  exists proposed decided sp1 sp2 sa',
    start_block 9 proposer = (Done tt, sp1)
    /\ handleInbound (handleConsensusMessage 9) (Ok proposed) decider = (Done None, sa')
    /\ handleInbound (handleConsensusMessage 9) (Ok decided) sp1 = (Done None, sp2)
    /\ info sp2 = info sa' /\ nledger (cs_node sp2) = nledger (cs_node sa').
Proof.
  destruct (two_node_round 9 9 9 proposer decider gen_key new_block new_keys (snd new_run) (bytes_of new_block))
    as (proposed & decided & sp1 & sp2 & sa' & R1 & _ & R2 & _ & R3 & F1 & F2).
  - reflexivity.
  - apply seat_validator; [apply pooled_settled|vm_compute; reflexivity|vm_compute; reflexivity|apply demo_wallet_ok|by left].
  - apply seat_validator; [apply node_settled|vm_compute; reflexivity|vm_compute; reflexivity|eexists; reflexivity|by right].
  - split; [reflexivity|apply pooled_ledger|split; reflexivity|split; reflexivity|split_and!; reflexivity].
  - unfold in_u64. cbn. lia.
  - discriminate.
  - reflexivity.
  - vm_compute. reflexivity.
  - apply pool_ready. vm_compute. reflexivity.
  - unfold in_s64. lia.
  - lia.
  - exact new_block_run.
  - apply Nat.leb_le. vm_compute. reflexivity.
  - reflexivity.
  - apply Z.leb_le. vm_compute. reflexivity.
  - apply Z.leb_le. vm_compute. reflexivity.
  - exists proposed, decided, sp1, sp2, sa'. split_and!; [exact R1|exact R2|exact R3|..].
    + rewrite (fi_chain _ _ _ _ _ _ F1), (fi_chain _ _ _ _ _ _ F2). reflexivity.
    + by rewrite (fi_ledger _ _ _ _ _ _ F1), (fi_ledger _ _ _ _ _ _ F2).
Defined.
End round_runs.
