(* ===== verification/QuorumProps.v ===== *)
(** A round of the consensus among any number of validators, with votes that
    arrive in any order and some of which may be cast against the block. *)
From S2P Require Import Prelude Json JsonLaws JsonSize Common External Merkle Accounts Txs Blocks Rpc Memory.
From S2P Require Import MemoryFacts MempoolFacts StateHash Ledger Storage StorageFacts StorageProps Executers.
From S2P Require Import ExecuterFacts BlockExec Settlement ExecutionProps Producer ProducerProps P2p P2pProps.
From S2P Require Import Node NodeFacts Sync SyncProps ConsensusMsgs Consensus ConsensusFacts ConsensusProps RoundProps.
Open Scope Z_scope.

Section quorum.
Context `{Sha3, Ed25519, Base58, ExpSlices, MapOrder, Bolt}.
Context `{!Sha3Laws, !Ed25519Laws, !Base58Laws, !ExpSlicesLaws, !MapOrderLaws, !BoltLaws}.
Implicit Types s : ConsensusService.

(** A message arrives. *)
Definition deliver (now : Z) (payload : bytes) : M ConsensusService (option error) :=
  handleInbound (handleConsensusMessage now) (Ok payload).

Fixpoint delivers (now : Z) (payloads : list bytes) : M ConsensusService unit :=
  match payloads with
  | [] => ret tt
  | p :: ps => let* _ := deliver now p in delivers now ps
  end.

Lemma delivers_app now ps qs s :
  delivers now (ps ++ qs) s = bind (delivers now ps) (fun _ => delivers now qs) s.
Proof.
  revert s. induction ps as [|p ps IH]; intros s; cbn [delivers app]; [by rewrite bind_ret_l|].
  rewrite bind_assoc. unfold bind. destruct (deliver now p s) as [[?|?|?] s1]; try done.
Qed.

(** *** A verdict against the block *)

(** Round, position, database and pool are as before the block, and so is the
    state of every account; the memory may have gained empty accounts. *)
Record rolled_back (L0 : Ledger) s s' (gen : bytes) : Prop := {
  rb_round : round s' = NewRound;
  rb_chain : info s' = info s;
  rb_node : node_ok (cs_node s') gen;
  rb_db : ndb (cs_node s') = ndb (cs_node s);
  rb_states : same_states L0 (nledger (cs_node s'));
  rb_pool : pool_of (nmem (cs_node s')) = pool_of (nmem (cs_node s));
  rb_errs : cs_errs s' = cs_errs s /\ n_errs (cs_node s') = n_errs (cs_node s)
}.

Lemma finalize_rejects now s gen ex blk enc x0 : settled x0 gen -> xdb x0 = ndb (cs_node s) ->
  grown (xledger x0) (nledger (cs_node s)) -> awaiting s gen ex blk enc ->
  exists s', finalize now false s = (Done tt, s') /\ cs_p2p s' = cs_p2p s /\ rolled_back (xledger x0) s s' gen.
Proof.
  intros Hs0 Hdb0 Hg0 [(c & Hch & Hin) Ha Hb Hp Hl Hbk Hr _ _].
  destruct (finality_rejects (n_exe (cs_node s)) gen ex Hp Hl) as (x2 & Hw & Hs2 & Hdb & [Hp1 Hp2] & Hg2).
  set (n2 := set_n_exe x2 (cs_node s)).
  unfold finalize. rewrite (bind_done _ _ _ _ _ (send_finalize_run s c Hch Hin)). set (s1 := woken c s).
  unfold bind at 1, get. change (round s1) with (round s). rewrite Ha, Hb.
  assert (forall k : unit -> M ConsensusService unit,
    bind (spawn (let* err := in_node (in_exe (waitForFinality false (map Some ex))) in
      match err with Some e => fail_cs e | None => ret tt end)) k s1 = k tt (set_cs_node n2 s1)) as ->.
  { intros k. apply bind_done, spawn_done.
    rewrite (bind_done _ _ _ _ _ (in_node_done _ s1 _ _ (in_exe_done _ (cs_node s1) _ _ Hw))). done. }
  assert (Sync_waitForFinality now false blk n2 = (Done tt, n2)) as Hf by done.
  rewrite (bind_done _ _ _ _ _ (spawn_done _ _ _ (in_node_done _ (set_cs_node n2 s1) _ _ Hf))).
  eexists. split; [reflexivity|]. split; [done|]. split; try done.
  - split; [exact Hs2|change (bolt_has_bucket (xdb x2) blocksBucket = true); by rewrite Hdb|].
    change (length (txCh (xmem x2)) <= txCh_room)%nat. by rewrite Hp2.
  - apply (settled_same_states x0 x2 gen Hs0 Hs2); [by rewrite Hdb|]. etransitivity; [exact Hg0|exact Hg2].
  - change (pool_of (xmem x2) = pool_of (nmem (cs_node s))). unfold pool_of. by rewrite Hp1, Hp2.
Qed.

(** How a round ends at a node that started it with the accounts [L0]. *)
Definition concluded_from (L0 : Ledger) (ok : bool) s s' gen blk enc (L : Ledger) : Prop :=
  if ok then finalized s s' gen blk enc L else rolled_back L0 s s' gen.
Definition concluded (ok : bool) s s' gen blk enc (L : Ledger) : Prop :=
  concluded_from (nledger (cs_node s)) ok s s' gen blk enc L.

Lemma finalize_concludes now ok s gen ex blk enc x0 : (forall db, bolt_commit db = None) ->
  settled x0 gen -> xdb x0 = ndb (cs_node s) -> grown (xledger x0) (nledger (cs_node s)) ->
  awaiting s gen ex blk enc ->
  exists s', finalize now ok s = (Done tt, s') /\ cs_p2p s' = cs_p2p s
    /\ concluded_from (xledger x0) ok s s' gen blk enc (nledger (cs_node s)).
Proof. intros Hc Hs0 Hdb0 Hg0 Hw. destruct ok; [by eapply finalize_accepts|by eapply finalize_rejects]. Qed.

(** *** Votes *)
Definition vote_payload (m : VoteMsg) : bytes := ConsensusMessage :: VoteMessage :: bytes_of m.

Record countable (validators : list bytes) (m : VoteMsg) : Prop := {
  ct_wf : wf_vote m;
  ct_from : NodeInfo_Verify (vm_From m) = true;
  ct_signed : signed_by (vm_FromPublicKey m) (vm_Signature m);
  ct_validator : exists k, vm_FromPublicKey m = Some k /\ k ∈ validators;
  ct_fits : len (vote_payload m) <= MaxPayloadSize
}.

Lemma deliver_vote now m s : self_is_aggregator s = true -> countable (nextValidators (round s)) m ->
  deliver now (vote_payload m) s = (let* _ := aggregate now (vm_Ok m) in ret None) s.
Proof.
  intros Ha [Hwf Hf Hs (k & Hk & Hin) Hl]. unfold deliver, vote_payload in *.
  rewrite handleInbound_consensus by done. unfold bytes_of. destruct (Marshal m) as [enc|] eqn:Hm; [|done].
  change (handleConsensusMessage now _ s) with (handleVote now enc s). by eapply handleVote_run.
Qed.

Lemma count_ok_app vs ws : count_ok (vs ++ ws) = count_ok vs + count_ok ws.
Proof. unfold count_ok, len. rewrite List.filter_app, length_app. lia. Qed.

Lemma counting_more vs s : counting s -> numVoted (round s) + len vs < 2 ^ 62 -> counting (votes_counted vs s).
Proof.
  intros (Ha & Hv & Ho) Hl. pose proof (count_ok_range vs). split_and!; [exact Ha|..]; cbn; lia.
Qed.

(** Votes before the last one are counted. *)
Lemma delivers_early now ms : forall s, counting s -> Forall (countable (nextValidators (round s))) ms ->
  len (nextValidators (round s)) < 2 ^ 62 -> numVoted (round s) + len ms < len (nextValidators (round s)) - 1 ->
  delivers now (map vote_payload ms) s = (Done tt, votes_counted (map vm_Ok ms) s).
Proof.
  induction ms as [|m ms IH]; intros s Hc Hf Hmax Hl; cbn [map delivers]; [by rewrite votes_counted_nil|].
  apply Forall_cons in Hf as [Hm Hf]. assert (len (m :: ms) = 1 + len ms) as Hlen by (unfold len; cbn; lia).
  assert (0 <= len ms) by (unfold len; lia).
  pose proof (aggregates_early now [vm_Ok m] s Hc Hmax ltac:(change (len [vm_Ok m]) with 1; lia)) as Ha.
  cbn [aggregates] in Ha. unfold bind at 1. rewrite (deliver_vote now m s (proj1 Hc) Hm).
  unfold bind, ret in Ha |- *. destruct (aggregate now (vm_Ok m) s) as [[[]|?|?] s1]; try done. injection Ha as ->.
  rewrite IH; [by rewrite votes_counted_app| |exact Hf|exact Hmax|].
  - apply counting_more; [exact Hc|]. change (len [vm_Ok m]) with 1. lia.
  - cbn. change (len [vm_Ok m]) with 1. lia.
Qed.

(** The last one decides. *)
Definition outcome_of s (v : bool) : bool :=
  len (nextValidators (round s)) <=? 2 * (numVotedOk (round s) + count_ok [v]).

Lemma last_vote now v s : wallet_ok (nodeWallet s) -> counting s ->
  numVoted (round s) + 1 = len (nextValidators (round s)) - 1 ->
  exists enc, Marshal (verdict s (outcome_of s v)) = Ok enc
    /\ forall s', finalize now (outcome_of s v)
         (announced (ConsensusMessage :: FinalizeMessage :: enc) (votes_counted [v] s)) = (Done tt, s') ->
       aggregate now v s = (Done tt, s').
Proof.
  intros Hw (Ha & Hv & Ho) Hl. pose proof (aggregate_run now v s Ha Hv Ho) as Hr. cbv zeta in Hr.
  rewrite (proj2 (Z.eqb_eq _ _) Hl) in Hr. set (s1 := votes_counted [v] s) in *.
  change (_ <=? _) with (outcome_of s v) in Hr.
  destruct (broadcastFinality_run now (outcome_of s v) s1 Hw Ha) as (enc & Hm & Hf).
  exists enc. split; [exact Hm|]. intros s' Hfin. rewrite Hr. unfold bind at 1. rewrite Hf.
  by rewrite (bind_done _ _ _ _ _ Hfin).
Qed.

Lemma vote_aggregates now ok s : self_is_aggregator s = true ->
  vote now ok s = (let* _ := aggregate now ok in ret None) (timed s).
Proof.
  intros Ha. unfold vote. unfold bind at 1, startTimer, modify. fold (timed s). unfold bind at 1, get.
  change (self_is_aggregator (timed s)) with (self_is_aggregator s). by rewrite Ha.
Qed.

(** The vote of a node that accepts the block. *)
Definition vote_of s : VoteMsg :=
  mkVoteMsg (self (cs_p2p s)) (self_key s) (signature s) (nextHeight (info s)) true.

Lemma vote_casts now s : self_is_aggregator s = false -> wallet_ok (nodeWallet s) ->
  vote now true s = (Done None, announced (vote_payload (vote_of s)) (timed s)).
Proof.
  intros Ha Hw. unfold vote. unfold bind at 1, startTimer, modify. fold (timed s). unfold bind at 1, get.
  change (self_is_aggregator (timed s)) with (self_is_aggregator s). rewrite Ha.
  destruct (signature_run (timed s) Hw) as (Hsig & _). rewrite (bind_done _ _ _ _ _ Hsig). cbv zeta.
  change (mkVoteMsg _ _ _ _ _) with (vote_of s).
  destruct (broadcast_run (vote_of s) VoteMessage (timed s)) as (enc & Hm & Hb).
  rewrite (bind_done _ _ _ _ _ Hb). cbn [negb]. unfold vote_payload, bytes_of. by rewrite Hm.
Qed.

(** *** The aggregator, with votes before and after the proposal *)

(** It holds an executed block, and has sent a message to its peers. *)
Record held s s' (keys : publicKeys) (blk : Block) (x : Executer) (payload : bytes) : Prop := {
  he_node : cs_node s' = set_n_exe x (cs_node s);
  he_block : accountCh (round s') = Some keys /\ blockCh (round s') = Some blk;
  he_timer : exists c, finalizeCh (round s') = Some c /\ c ∈ timeouts s';
  he_tells : tells s s' payload;
  he_errs : cs_errs s' = cs_errs s
}.

Lemma held_intro s keys blk x vs1 vs2 payload :
  held s (announced payload (votes_counted vs2 (timed (holding keys blk x (votes_counted vs1 s))))) keys blk x payload.
Proof.
  split; [done|done| |done|done]. exists (cs_chans s). split; [done|]. apply elem_of_app. right. by left.
Qed.

(** What a proposal must be for a node to vote for it. *)
Record acceptable s (msg : ProposeBlockMsg) (keys : publicKeys) (x : Executer) : Prop := {
  ac_wf : wf_propose msg;
  ac_verified : ProposeBlockMsg_Verify msg = Done true;
  ac_producer : raw (pb_FromPublicKey msg) = raw (nextBlockProducer (round s));
  ac_accepted : BlockProducer_Verify (info s) (pb_Block msg) (n_exe (cs_node s))
                = (Done (true, Some keys, None, pb_Block msg), x)
}.

Definition proposal_payload (msg : ProposeBlockMsg) : bytes := ConsensusMessage :: ProposeBlockMessage :: bytes_of msg.

Lemma deliver_proposal now msg s keys x : acceptable s msg keys x -> len (proposal_payload msg) <= MaxPayloadSize ->
  deliver now (proposal_payload msg) s = vote now true (holding keys (pb_Block msg) x s).
Proof.
  intros [Hwf Hv Hk Hr] Hl. unfold deliver, proposal_payload, bytes_of in *.
  destruct (Marshal msg) as [enc|] eqn:Hm; [|done]. rewrite handleInbound_consensus by done.
  change (handleConsensusMessage now _ s) with (handleProposeBlock now enc s).
  by apply (handleProposeBlock_run now msg enc s keys x).
Qed.

(** The node's own vote, and those that arrive after it. *)
Lemma late_votes now s v ms : wallet_ok (nodeWallet s) -> counting s ->
  Forall (countable (nextValidators (round s))) ms -> len (nextValidators (round s)) < 2 ^ 62 ->
  numVoted (round s) + 1 + len ms = len (nextValidators (round s)) - 1 ->
  let vs := v :: map vm_Ok ms in
  let ok := len (nextValidators (round s)) <=? 2 * (numVotedOk (round s) + count_ok vs) in
  exists enc, Marshal (verdict s ok) = Ok enc
    /\ forall s', finalize now ok (announced (ConsensusMessage :: FinalizeMessage :: enc) (votes_counted vs s)) = (Done tt, s') ->
       (let* _ := aggregate now v in delivers now (map vote_payload ms)) s = (Done tt, s').
Proof.
  intros Hw Hc Hf Hmax Hl. cbv zeta. destruct ms as [|m ms _] using rev_ind.
  - change (len (@nil VoteMsg)) with 0 in Hl. destruct (last_vote now v s Hw Hc) as (enc & Hm & Hfin); [lia|].
    exists enc. split; [exact Hm|]. intros s' Hs'. apply Hfin in Hs'. by rewrite (bind_done _ _ _ _ _ Hs').
  - rewrite (map_app vm_Ok ms [m]). change (map vm_Ok [m]) with [vm_Ok m].
    apply Forall_app in Hf as [Hf Hm]. apply Forall_cons in Hm as [Hm _].
    assert (len (ms ++ [m]) = len ms + 1) as Hl2 by (unfold len; rewrite length_app; cbn; lia).
    assert (0 <= len ms) by (unfold len; lia). assert (len (map vm_Ok ms) = len ms) as Hlm by (unfold len; by rewrite length_map).
    pose proof (aggregates_early now [v] s Hc Hmax ltac:(change (len [v]) with 1; lia)) as R1. cbn [aggregates] in R1.
    set (s1 := votes_counted [v] s) in *.
    assert (counting s1) as Hc1 by (apply counting_more; [exact Hc|change (len [v]) with 1; lia]).
    assert (numVoted (round s1) = numVoted (round s) + 1) as E1 by done.
    change (nextValidators (round s)) with (nextValidators (round s1)) in *.
    pose proof (delivers_early now ms s1 Hc1 Hf Hmax ltac:(rewrite E1; lia)) as R2.
    set (s2 := votes_counted (map vm_Ok ms) s1) in *.
    assert (counting s2) as Hc2 by (apply counting_more; [exact Hc1|rewrite E1, Hlm; lia]).
    assert (numVoted (round s2) = numVoted (round s) + 1 + len ms) as E2
      by (change (numVoted (round s2)) with (numVoted (round s1) + len (map vm_Ok ms)); rewrite E1, Hlm; lia).
    destruct (last_vote now (vm_Ok m) s2 Hw Hc2) as (enc & Hme & Hfin);
      [rewrite E2; change (nextValidators (round s2)) with (nextValidators (round s1)); lia|].
    assert (outcome_of s2 (vm_Ok m) = (len (nextValidators (round s1)) <=?
      2 * (numVotedOk (round s) + count_ok (v :: map vm_Ok ms ++ [vm_Ok m])))) as Eok.
    { unfold outcome_of. change (nextValidators (round s2)) with (nextValidators (round s1)).
      change (numVotedOk (round s2)) with (numVotedOk (round s) + count_ok [v] + count_ok (map vm_Ok ms)).
      change (v :: ?l ++ ?k) with ([v] ++ l ++ k). rewrite !count_ok_app. f_equal. lia. }
    rewrite Eok in Hme, Hfin. exists enc. split; [exact Hme|]. intros s' Hs'.
    unfold s2, s1 in Hfin. rewrite !votes_counted_app in Hfin. apply Hfin in Hs'.
    unfold bind, ret in R1. unfold bind at 1. destruct (aggregate now v s) as [[[]|?|?] s1']; try done. injection R1 as ->.
    rewrite map_app, delivers_app, (bind_done _ _ _ _ _ R2). cbn [map delivers]. unfold bind at 1.
    rewrite (deliver_vote now m s2 (proj1 Hc2) Hm). unfold s2, s1. rewrite !votes_counted_app.
    by rewrite (bind_done _ _ _ _ _ Hs').
Qed.

Lemma aggregator_run now s msg keys x ms1 ms2 :
  wallet_ok (nodeWallet s) -> self_is_aggregator s = true -> numVoted (round s) = 0 -> numVotedOk (round s) = 0 ->
  len (nextValidators (round s)) < 2 ^ 62 -> len (ms1 ++ ms2) = len (nextValidators (round s)) - 2 ->
  Forall (countable (nextValidators (round s))) (ms1 ++ ms2) ->
  acceptable s msg keys x -> len (proposal_payload msg) <= MaxPayloadSize ->
  let ok := len (nextValidators (round s)) <=? 2 * (1 + count_ok (map vm_Ok (ms1 ++ ms2))) in
  exists enc sf, Marshal (verdict s ok) = Ok enc
    /\ held s sf keys (pb_Block msg) x (ConsensusMessage :: FinalizeMessage :: enc)
    /\ forall s', finalize now ok sf = (Done tt, s') ->
         delivers now (map vote_payload ms1 ++ proposal_payload msg :: map vote_payload ms2) s = (Done tt, s').
Proof.
  intros Hw Ha Hv Ho Hmax Hl Hf Hacc Hfit ok. apply Forall_app in Hf as [Hf1 Hf2].
  assert (counting s) as Hc by (split_and!; [exact Ha|lia..]).
  assert (len (ms1 ++ ms2) = len ms1 + len ms2) as Hlen by (unfold len; rewrite length_app; lia).
  assert (0 <= len ms1 /\ 0 <= len ms2) as [H1' H2'] by (unfold len; lia).
  assert (len (map vm_Ok ms1) = len ms1) as Hlm by (unfold len; by rewrite length_map).
  set (s1 := votes_counted (map vm_Ok ms1) s). set (s2 := timed (holding keys (pb_Block msg) x s1)).
  pose proof (delivers_early now ms1 s Hc Hf1 Hmax ltac:(lia)) as R1. fold s1 in R1.
  assert (counting s2) as Hc2 by (exact (counting_more (map vm_Ok ms1) s Hc ltac:(rewrite Hlm; lia))).
  assert (acceptable s1 msg keys x) as Hacc1 by (destruct Hacc; by split).
  assert (deliver now (proposal_payload msg) s1 = (let* _ := aggregate now true in ret None) s2) as R2
    by (rewrite (deliver_proposal _ _ _ _ _ Hacc1 Hfit); by rewrite vote_aggregates).
  assert (numVoted (round s2) = len ms1) as E1 by (change (numVoted (round s2)) with (numVoted (round s) + len (map vm_Ok ms1)); lia).
  assert (numVotedOk (round s2) = count_ok (map vm_Ok ms1)) as E2
    by (change (numVotedOk (round s2)) with (numVotedOk (round s) + count_ok (map vm_Ok ms1)); lia).
  destruct (late_votes now s2 true ms2 Hw Hc2 Hf2 Hmax) as (enc & Hm & Hfin);
    [rewrite E1; change (nextValidators (round s2)) with (nextValidators (round s)); lia|].
  rewrite E2 in Hm, Hfin. change (nextValidators (round s2)) with (nextValidators (round s)) in Hm, Hfin.
  replace (len (nextValidators (round s)) <=? _) with ok in Hm, Hfin.
  2:{ unfold ok. rewrite map_app. change (true :: ?l) with ([true] ++ l). rewrite !count_ok_app. f_equal.
      change (count_ok [true]) with 1. lia. }
  exists enc, (announced (ConsensusMessage :: FinalizeMessage :: enc) (votes_counted (true :: map vm_Ok ms2) s2)).
  split_and!; [exact Hm|apply held_intro|]. intros s' Hs'. apply Hfin in Hs'.
  rewrite delivers_app, (bind_done _ _ _ _ _ R1). cbn [delivers]. unfold bind at 1. rewrite R2.
  unfold bind, ret in Hs' |- *. by destruct (aggregate now true s2) as [[[]|?|?] ?].
Qed.

(** *** The end of the round at a node that holds the block *)
Record ran s gen (ex : list bytes) (L : Ledger) (x : Executer) : Prop := {
  rn_pending : pending x gen ex;
  rn_ledger : xledger x = L;
  rn_grown : grown (nledger (cs_node s)) L;
  rn_db : xdb x = ndb (cs_node s);
  rn_pool : same_pool (nmem (cs_node s)) (xmem x)
}.

(** What the limits of the code ask of a block. *)
Record within_limits (blk : Block) (enc : bytes) (ex : list bytes) : Prop := {
  wl_few : (length ex <= 11)%nat;
  wl_enc : Marshal blk = Ok enc /\ len enc <= MaxValueSize;
  wl_hash : length (raw (bi_Hash (Info blk))) = 32%nat;
  wl_height : bi_Height (Info blk) <> 0
}.

Lemma held_concludes now ok s sf gen ex blk enc x payload L : (forall db, bolt_commit db = None) ->
  node_ok (cs_node s) gen -> ran s gen ex L x -> within_limits blk enc ex ->
  held s sf (map Some ex) blk x payload ->
  exists s', finalize now ok sf = (Done tt, s') /\ concluded ok s s' gen blk enc L /\ tells s s' payload.
Proof.
  intros Hc Hn [Hp HL Hg Hdb Hpool] [Hl [He Hv] Lh Hh] [Hnode [Ha Hb] (c & Hch & Hin) Ht Herr].
  assert (awaiting sf gen ex blk enc) as Hw by (by eapply (holding_awaits s sf gen ex blk enc x c)).
  destruct (finalize_concludes now ok sf gen ex blk enc (n_exe (cs_node s)) Hc (no_settled _ _ Hn)) as (s' & Hf & Hq & Hco);
    [by rewrite Hnode|rewrite Hnode; change (grown (nledger (cs_node s)) (xledger x)); by rewrite HL|exact Hw|].
  exists s'. split_and!; [exact Hf| |unfold tells; rewrite Hq; exact Ht].
  assert (info sf = info s) as Hi by (unfold info; by rewrite Hnode).
  assert (n_errs (cs_node sf) = n_errs (cs_node s)) as Hne by (by rewrite Hnode).
  assert (pool_of (nmem (cs_node sf)) = pool_of (nmem (cs_node s))) as Hpo
    by (rewrite Hnode; unfold pool_of; destruct Hpool as [Hm Ht']; change (nmem (set_n_exe x (cs_node s))) with (xmem x); by rewrite Hm, Ht').
  destruct ok.
  - destruct Hco as [F1 F2 F3 F4 F5 F6 F7]. split; try done; rewrite ?F2, ?F6, ?Hi, ?Hpo; try done.
    + rewrite F4, Hnode. exact HL.
    + by rewrite <- Herr, <- Hne.
  - destruct Hco as [F1 F2 F3 F4 Fs F5 F6]. split; try done; rewrite ?F2, ?F4, ?F5, ?Hi, ?Hpo; try done.
    + rewrite Hnode. exact Hdb.
    + by rewrite <- Herr, <- Hne.
Qed.

Lemma vote_fits s : wallet_ok (nodeWallet s) -> wf_node (self (cs_p2p s)) ->
  NodeInfo_Verify (self (cs_p2p s)) = true -> in_u64 (nextHeight (info s)) ->
  len (vote_payload (vote_of s)) <= MaxPayloadSize.
Proof.
  intros Hw [Ha Hn] Hv Hh. destruct (signature_run s Hw) as (_ & _ & L64 & L32).
  unfold vote_payload, bytes_of. destruct (Marshal (vote_of s)) as [enc|] eqn:Hm; [|done].
  unfold vote_of in Hm. destruct (self_key s) as [pk|]; [|done]. destruct (signature s) as [sig|]; [|done].
  cbn [raw default id] in *. apply andb_true_iff in Hv as [Hl%Nat.eqb_eq _].
  destruct (self (cs_p2p s)) as [ip nw]. cbn [Ip4 Network] in *.
  pose proof (length_quote_body _ Ha) as Hq. rewrite length_bstr, Hl in Hq.
  pose proof (length_format_uint nw) as Hf. revert Hh Hm. generalize (nextHeight (info s)) as h. intros h Hh Hm.
  pose proof (length_format_uint h Hh). unfold in_u64 in Hf.
  apply Marshal_size in Hm. size_of Hm. rewrite (quote_b64_32 pk), quote_b64_64 in Hm by done.
  unfold len, MaxPayloadSize. cbn [length]. lia.
Qed.

Lemma vote_of_countable s validators : wallet_ok (nodeWallet s) -> wf_node (self (cs_p2p s)) ->
  NodeInfo_Verify (self (cs_p2p s)) = true -> in_u64 (nextHeight (info s)) ->
  raw (self_key s) ∈ validators -> countable validators (vote_of s).
Proof.
  intros Hw Hwf Hv Hh Hin. destruct (signature_run s Hw) as (_ & Hs & _).
  split; [by split|exact Hv|exact Hs| |by apply vote_fits].
  destruct Hs as (k & _ & Hk & _). exists k. split; [exact Hk|]. unfold vote_of in Hk. cbn [vm_FromPublicKey] in Hk.
  by rewrite Hk in Hin.
Qed.

(** The votes of the voters, whatever their order. *)
Lemma votes_cast (voters : list ConsensusService) others ms : ms ≡ₚ map vote_of voters ++ others ->
  len ms = len voters + len others /\ count_ok (map vm_Ok ms) = len voters + count_ok (map vm_Ok others).
Proof.
  intros Hp. split; [unfold len; rewrite Hp, length_app, length_map; lia|].
  assert (forall l1 l2, l1 ≡ₚ l2 -> count_ok l1 = count_ok l2) as Hperm
    by (unfold count_ok, len; induction 1 as [|[] ? ? ? IH|[] [] ?|]; cbn in *; lia).
  rewrite (Hperm _ _ (Permutation_map vm_Ok Hp)), map_app, count_ok_app. f_equal.
  clear Hp Hperm. induction voters as [|v l IH]; [done|]. cbn [map].
  change (?a :: ?l) with ([a] ++ l) at 1. rewrite count_ok_app, IH. unfold len. cbn [length].
  change (count_ok [vm_Ok (vote_of v)]) with 1. lia.
Qed.

(** The producer holds the block it proposes. *)
Lemma producer_run now sp blk keys xp : wallet_ok (nodeWallet sp) -> 0 < LenTx (nmem (cs_node sp)) ->
  raw (nextBlockProducer (round sp)) = raw (self_key sp) ->
  BlockProducer_NewBlock now (info sp) (nodeWallet sp) (n_exe (cs_node sp)) = (Done (Ok (blk, keys)), xp) ->
  exists sp1, start_block now sp = (Done tt, sp1) /\ held sp sp1 keys blk xp (proposal_payload (proposal sp blk))
    /\ nextAggregator (round sp1) = nextAggregator (round sp).
Proof.
  intros Hw Hlen Hp Hnew. destruct (start_block_run now sp blk keys xp Hw Hlen Hp Hnew) as (enc & Hm & Hs).
  eexists. split; [exact Hs|]. split; [|done]. unfold proposal_payload, bytes_of. rewrite Hm.
  split; [done|done| |done|done]. exists (cs_chans sp). split; [done|]. apply elem_of_app. right. by left.
Qed.

(** *** A round *)

(** The node is at the start of the round: its position, its ledger and its
    committee are those of the others. *)
Record aboard (producer aggregator : bytes) (bc : Blockchain) (L : Ledger) (gen : bytes) s : Prop := {
  ab_validator : validator s gen;
  ab_chain : info s = bc;
  ab_ledger : nledger (cs_node s) = L;
  ab_producer : raw (nextBlockProducer (round s)) = producer;
  ab_aggregator : raw (nextAggregator (round s)) = aggregator
}.

Lemma deliver_verdict now ok sa s gen enc : validator sa gen -> in_u64 (nextHeight (info sa)) ->
  Marshal (verdict sa ok) = Ok enc -> raw (nextAggregator (round s)) = raw (self_key sa) ->
  deliver now (ConsensusMessage :: FinalizeMessage :: enc) s = (let* _ := finalize now ok in ret None) s.
Proof.
  intros [_ Hw [Hwf Hv]] Hh Hm Ha. unfold deliver.
  rewrite handleInbound_consensus by (first [done|by apply (verdict_fits sa ok enc)]).
  change (handleConsensusMessage now _ s) with (handleFinalize now enc s).
  apply (handleFinalize_run now (verdict sa ok) enc s Hm); [by split|exact Hv|apply (signature_run sa Hw)|by rewrite Ha].
Qed.

(** The proposal is acceptable to everyone aboard. *)
Lemma proposal_acceptable sp s bc L gen aggregator blk ex L' : validator sp gen ->
  u64_block blk -> Block_Verify blk = Done true -> accepted gen bc L blk ex L' -> grown L L' ->
  aboard (raw (self_key sp)) aggregator bc L gen s ->
  exists x, acceptable s (proposal sp blk) (map Some ex) x /\ ran s gen ex L' x.
Proof.
  intros [_ Hw [Hwf Hv]] Hu Hb Hacc Hg [[Hn _ _] Hbc HL Hp _].
  destruct (Hacc (n_exe (cs_node s)) (no_settled _ _ Hn) HL) as (x & Hr & Hpend & HL' & Hdb & Hpool).
  destruct (signature_run sp Hw) as (_ & Hs & _). exists x. split; [|split; try done; by rewrite HL].
  split; [by split|by apply ProposeBlockMsg_Verify_ok|by rewrite Hp|by rewrite Hbc].
Qed.

(** A node that votes for the block and hears the verdict. *)
Lemma voter_round now1 now2 ok sp sa v bc L gen blk enc venc ex L' : (forall db, bolt_commit db = None) ->
  aboard (raw (self_key sp)) (raw (self_key sa)) bc L gen v -> validator sp gen -> validator sa gen ->
  raw (self_key v) <> raw (self_key sa) -> in_u64 (nextHeight (info sa)) ->
  u64_block blk -> Block_Verify blk = Done true -> accepted gen bc L blk ex L' -> grown L L' -> within_limits blk enc ex ->
  len (proposal_payload (proposal sp blk)) <= MaxPayloadSize -> Marshal (verdict sa ok) = Ok venc ->
  exists v1 v2, deliver now1 (proposal_payload (proposal sp blk)) v = (Done None, v1)
    /\ tells v v1 (vote_payload (vote_of v))
    /\ deliver now2 (ConsensusMessage :: FinalizeMessage :: venc) v1 = (Done None, v2)
    /\ concluded ok v v2 gen blk enc L'.
Proof.
  intros Hc Hab Hvp Hva Hne Hh Hu Hb Hacc Hg Hlim Hfit Hm.
  destruct (proposal_acceptable sp v bc L gen _ blk ex L' Hvp Hu Hb Hacc Hg Hab) as (x & Hac & Hran).
  destruct Hab as [[Hn Hw _] _ _ _ Ha].
  assert (self_is_aggregator v = false) as Hna.
  { unfold self_is_aggregator. apply not_true_iff_false. rewrite bytes_Equal_spec, Ha. congruence. }
  set (v1 := announced (vote_payload (vote_of v)) (timed (holding (map Some ex) blk x v))).
  assert (held v v1 (map Some ex) blk x (vote_payload (vote_of v))) as Hheld.
  { split; [done|done| |done|done]. exists (cs_chans v). split; [done|]. apply elem_of_app. right. by left. }
  destruct (held_concludes now2 ok v v1 gen ex blk enc x _ L' Hc Hn Hran Hlim Hheld) as (v2 & Hf & Hco & _).
  exists v1, v2. split_and!; [|apply Hheld| |exact Hco].
  - rewrite (deliver_proposal now1 _ v (map Some ex) x Hac Hfit). by rewrite vote_casts.
  - rewrite (deliver_verdict now2 ok sa v1 gen venc Hva Hh Hm Ha). by rewrite (bind_done _ _ _ _ _ Hf).
Qed.
End quorum.

(** * Property *)
Section quorum_properties.
Context `{Sha3, Ed25519, Base58, ExpSlices, MapOrder, Bolt}.
Context `{!Sha3Laws, !Ed25519Laws, !Base58Laws, !ExpSlicesLaws, !MapOrderLaws, !BoltLaws}.

(** C1: a round of the consensus: of [n] validators that agree on position,
    ledger and committee, one proposes a block that keeps to the limits of the
    code, the voters vote for it, and others, which may be faulty, send votes
    of either kind.  The aggregator may receive all of these votes in any
    order, before and after the proposal.  It announces the verdict when the
    last of them is there: positive exactly when at least half of [n] voted
    for the block.  On a positive verdict every correct node stores the block
    as its latest, and all have the same position and the same ledger, that of
    the block; on a negative one every correct node has the position, the
    database, the pool and the state of every account it started with, though
    its memory may have gained entries of empty accounts. *)
Theorem committee_round now now1 now2 sp sa voters others ms1 ms2 gen blk keys xp enc :
  (forall db, bolt_commit db = None) ->
  Forall (aboard (raw (self_key sp)) (raw (self_key sa)) (info sp) (nledger (cs_node sp)) gen) (sp :: sa :: voters) ->
  let validators := nextValidators (round sa) in let n := len validators in
  numVoted (round sa) = 0 -> numVotedOk (round sa) = 0 -> n < 2 ^ 62 ->
  Forall (fun v => raw (self_key v) <> raw (self_key sa) /\ raw (self_key v) ∈ validators) voters ->
  Forall (countable validators) others -> n = 2 + len voters + len others ->
  ms1 ++ ms2 ≡ₚ map vote_of voters ++ others ->
  in_u64 (nextHeight (info sp)) -> nextHeight (info sp) <> 0 ->
  len (raw (previousBlockHash (info sp))) = HashSize -> 0 < LenTx (nmem (cs_node sp)) ->
  map_Forall (fun _ tx => Transaction_Verify tx = Done (Ok true) /\ u64_tx tx) (mempool (nmem (cs_node sp))) ->
  in_s64 now -> 0 < now ->
  BlockProducer_NewBlock now (info sp) (nodeWallet sp) (n_exe (cs_node sp)) = (Done (Ok (blk, keys)), xp) ->
  (length keys <= 11)%nat -> Marshal blk = Ok enc -> len enc <= MaxValueSize ->
  len (proposal_payload (proposal sp blk)) <= MaxPayloadSize ->
  let ok := n <=? 2 * (1 + len voters + count_ok (map vm_Ok others)) in
  exists proposed decided sp1 sp2 sa',
    start_block now sp = (Done tt, sp1) /\ tells sp sp1 proposed
    /\ delivers now1 (map vote_payload ms1 ++ proposed :: map vote_payload ms2) sa = (Done tt, sa')
    /\ tells sa sa' decided /\ concluded ok sa sa' gen blk enc (xledger xp)
    /\ deliver now2 decided sp1 = (Done None, sp2) /\ concluded ok sp sp2 gen blk enc (xledger xp)
    /\ Forall (fun v => exists v1 v2, deliver now1 proposed v = (Done None, v1)
           /\ tells v v1 (vote_payload (vote_of v))
           /\ deliver now2 decided v1 = (Done None, v2) /\ concluded ok v v2 gen blk enc (xledger xp)) voters.
Proof.
  intros Hc Hab validators n Hv0 Ho0 Hmax Hvoters Hothers Hn Hperm Hh Hh0 Hprev Hlen Hpool Hnow Hnow0 Hnew Hkeys He Hval Hfit ok.
  apply Forall_cons in Hab as [Hp Hab]. apply Forall_cons in Hab as [Ha Hab].
  destruct (Hp) as [Vp _ _ Ep Eap]. destruct (Ha) as [Va Ebc _ _ Eaa].
  pose proof (no_settled _ _ (va_node _ _ Vp)) as Sp. pose proof (va_wallet _ _ Vp) as Wp.
  destruct (new_block_shape _ _ _ _ _ _ _ _ Sp Hpool Hnow Hh Hnew) as (Hu & Lh & Hbh).
  assert (map_Forall (fun _ tx => Transaction_Verify tx = Done (Ok true)) (mempool (nmem (cs_node sp)))) as Hpool'
    by (eapply map_Forall_impl; [exact Hpool|]; by intros ? ? []).
  destruct (new_block_accepted _ _ _ _ _ _ _ _ _ Sp Sp eq_refl Hpool' Wp Hnow0 Hprev Hnew)
    as (Hbv & _ & ex & _ & -> & _ & Pp & Dp & Mp & _).
  destruct (produced_accepted _ _ _ _ _ _ _ _ Sp Hpool' Wp Hnow0 Hprev Hnew) as (ex' & Hex & Hacc).
  apply (inj (map Some)) in Hex as <-. rewrite length_map in Hkeys.
  pose proof (NewBlock_grown _ _ _ _ _ _ _ _ Sp Hpool' Hnew) as Hgrown.
  assert (within_limits blk enc ex) as Hlim by (split; [done|done|done|by rewrite Hbh]).
  assert (in_u64 (nextHeight (info sa))) as Hha by (by rewrite Ebc).
  destruct (votes_cast voters others _ Hperm) as [Hlms Hcount].
  (* the producer *)
  destruct (producer_run now sp blk _ xp Wp Hlen Ep Hnew) as (sp1 & Hstart & Hheld & Hagg).
  (* the aggregator *)
  destruct (proposal_acceptable sp sa _ _ gen _ blk ex _ Vp Hu Hbv Hacc Hgrown Ha) as (xa & Hac & Hran).
  assert (Forall (countable validators) (ms1 ++ ms2)) as Hcm.
  { rewrite Hperm. apply Forall_app. split; [|exact Hothers]. apply Forall_map, Forall_forall. intros v Hin.
    destruct (proj1 (Forall_forall _ _) Hab v Hin) as [[_ Wv [Iv Vv]] Ev _ _ _].
    apply vote_of_countable; try done; [by rewrite Ev|by apply (proj1 (Forall_forall _ _) Hvoters v Hin)]. }
  destruct (aggregator_run now1 sa (proposal sp blk) _ xa ms1 ms2 (va_wallet _ _ Va)
    (proj2 (bytes_Equal_spec _ _) Eaa) Hv0 Ho0 Hmax ltac:(fold validators; fold n; lia) Hcm Hac Hfit) as (venc & sf & Hvm & Hhe & Hfin).
  fold validators n in Hvm, Hfin. rewrite Hcount, Z.add_assoc in Hvm, Hfin. fold ok in Hvm, Hfin.
  destruct (held_concludes now1 ok sa sf gen ex blk enc xa _ _ Hc (va_node _ _ Va) Hran Hlim Hhe) as (sa' & Hf & Hca & Hta).
  (* the verdict *)
  destruct (held_concludes now2 ok sp sp1 gen ex blk enc xp _ (xledger xp) Hc (va_node _ _ Vp)
    ltac:(by split) Hlim Hheld) as (sp2 & Hfp & Hcp & _).
  exists (proposal_payload (proposal sp blk)), (ConsensusMessage :: FinalizeMessage :: venc), sp1, sp2, sa'.
  split_and!; [exact Hstart|apply Hheld|by apply Hfin|exact Hta|exact Hca| |exact Hcp|].
  - rewrite (deliver_verdict now2 ok sa sp1 gen venc Va Hha Hvm) by (by rewrite Hagg). by rewrite (bind_done _ _ _ _ _ Hfp).
  - apply Forall_forall. intros v Hin. pose proof (proj1 (Forall_forall _ _) Hab v Hin) as Hv.
    eapply (voter_round now1 now2 ok sp sa v); try done. apply (proj1 (Forall_forall _ _) Hvoters v Hin).
Qed.
End quorum_properties.

(** *** Witness: four validators, one of which votes against the block *)
Section quorum_runs.
Import Toy.

Definition table4 : list bytes := map (fun w => raw (Wallet_PublicKey w)) [demo_wallet; wallet_of x01; wallet_of x02; wallet_of x03].
Definition seat4 (port : string) (x : Executer) (w : Wallet) : ConsensusService :=
  set_round (set_nextValidators table4 (round (seat port x w))) (seat port x w).
Definition proposer4 : ConsensusService := seat4 "5000" (pooled good_block) demo_wallet.
Definition decider4 : ConsensusService := seat4 "5001" node (wallet_of x01).
Definition voter4 : ConsensusService := seat4 "5002" node (wallet_of x02).
Definition against : VoteMsg :=
  mkVoteMsg (NewNodeInfo "5003" ConsensusNode) (Wallet_PublicKey (wallet_of x03))
    (signature (seat4 "5003" node (wallet_of x03))) 5 false.

Lemma seat4_aboard port x w : settled x gen_key -> bolt_has_bucket (xdb x) blocksBucket = true ->
  length (txCh (xmem x)) = 0%nat -> wallet_ok w -> xledger x = xledger node ->
  port ∈ ["5000"; "5001"; "5002"]%string ->
  aboard (raw (self_key proposer4)) (raw (self_key decider4)) demo_chain (xledger node) gen_key (seat4 port x w).
Proof.
  intros Hs Hb Hr Hw HL Hp. split; [|reflexivity|exact HL|reflexivity|reflexivity].
  split; [split; [exact Hs|exact Hb|]|exact Hw|].
  - change (length (txCh (xmem x)) <= txCh_room)%nat. rewrite Hr. unfold txCh_room. lia.
  - repeat (apply elem_of_cons in Hp as [->|Hp];
      [split; [split; [by apply ascii_by_compute; vm_compute|vm_compute; split; congruence]|by vm_compute]|]).
    by apply elem_of_nil in Hp.
Qed.

Lemma proposer4_aboard : aboard (raw (self_key proposer4)) (raw (self_key decider4)) demo_chain (xledger node) gen_key proposer4.
Proof. apply seat4_aboard; [apply pooled_settled|vm_compute; reflexivity|vm_compute; reflexivity|apply demo_wallet_ok|apply pooled_ledger|set_solver]. Qed.
Lemma decider4_aboard : aboard (raw (self_key proposer4)) (raw (self_key decider4)) demo_chain (xledger node) gen_key decider4.
Proof. apply seat4_aboard; [apply node_settled|vm_compute; reflexivity|vm_compute; reflexivity|by exists [x01]|reflexivity|set_solver]. Qed.
Lemma voter4_aboard : aboard (raw (self_key proposer4)) (raw (self_key decider4)) demo_chain (xledger node) gen_key voter4.
Proof. apply seat4_aboard; [apply node_settled|vm_compute; reflexivity|vm_compute; reflexivity|by exists [x02]|reflexivity|set_solver]. Qed.

Lemma against_countable : countable table4 against.
Proof.
  split.
  - split; [split; [by apply ascii_by_compute; vm_compute|vm_compute; split; congruence]|unfold in_u64; cbn; lia].
  - by vm_compute.
  - exists (raw (vm_FromPublicKey against)), (raw (vm_Signature against)). by repeat split; vm_compute.
  - exists (raw (Wallet_PublicKey (wallet_of x03))). split; [reflexivity|]. right. right. right. left.
  - apply Z.leb_le. vm_compute. reflexivity.
Qed.

Lemma committee_round_witness :
  exists proposed decided sp1 sp2 sa',
    start_block 9 proposer4 = (Done tt, sp1)
    /\ delivers 9 [vote_payload against; proposed; vote_payload (vote_of voter4)] decider4 = (Done tt, sa')
    /\ deliver 9 decided sp1 = (Done None, sp2)
    /\ info sp2 = info sa' /\ nledger (cs_node sp2) = nledger (cs_node sa').
Proof.
  destruct (committee_round 9 9 9 proposer4 decider4 [voter4] [against] [against] [vote_of voter4] gen_key
    new_block new_keys (snd new_run) (bytes_of new_block))
    as (proposed & decided & sp1 & sp2 & sa' & R1 & _ & R2 & _ & C1 & R3 & C2 & _).
  - reflexivity.
  - assert (nledger (cs_node proposer4) = xledger node) as -> by apply pooled_ledger.
    repeat apply Forall_cons_2; [apply proposer4_aboard|apply decider4_aboard|apply voter4_aboard|apply Forall_nil_2].
  - reflexivity.
  - reflexivity.
  - vm_compute. reflexivity.
  - apply Forall_cons_2; [|apply Forall_nil_2]. split; [vm_compute; discriminate|]. right. right. left.
  - apply Forall_cons_2; [apply against_countable|apply Forall_nil_2].
  - vm_compute. reflexivity.
  - apply perm_swap.
  - unfold in_u64. cbn. lia.
  - discriminate.
  - reflexivity.
  - vm_compute. reflexivity.
  - apply pool_ready. vm_compute. reflexivity.
  - unfold in_s64. lia.
  - lia.
  - exact new_block_run.
  - apply Nat.leb_le. vm_compute. reflexivity.
  - reflexivity.
  - apply Z.leb_le. vm_compute. reflexivity.
  - apply Z.leb_le. vm_compute. reflexivity.
  - exists proposed, decided, sp1, sp2, sa'. split_and!; [exact R1|exact R2|exact R3|..].
    + transitivity (Increment (bi_Hash (Info new_block)) demo_chain); [exact (fi_chain _ _ _ _ _ _ C2)|].
      symmetry. exact (fi_chain _ _ _ _ _ _ C1).
    + transitivity (xledger (snd new_run)); [exact (fi_ledger _ _ _ _ _ _ C2)|]. symmetry. exact (fi_ledger _ _ _ _ _ _ C1).
Defined.
End quorum_runs.
