(* ===== verification/FullNode.v ===== *)
(** Packages [genesis] and [fullnode]: making the first block of a chain
    (genesis/genesis.go), and a node with its consensus service
    (fullnode/full_node.go).

    A full node is its consensus service, whose state contains the node's.
    What the two constructors read from the machine is passed to them: the
    database file and the key files, and the errors of opening and reading
    them. *)
From S2P Require Import Prelude Json JsonLaws Common External Accounts Txs Blocks Memory Storage.
From S2P Require Import Executers P2p Node ConsensusMsgs Consensus.
Open Scope Z_scope.

Section fullnode.
Context `{Sha3, Ed25519, Base58, ExpSlices, MapOrder, Bolt}.

(** ** Genesis *)
Record GenesisGenerator := mkGenerator { gen_wallet : Wallet; gen_storage : DB }.

(** [existing] is the database file, [files] the directory of key files. *)
Definition NewGenerator (existing : option DB) (open_err : option error) (seed : result bytes)
  (io_err : option error) (name : string) (files : gmap string bytes)
  : outcome (result GenesisGenerator) * gmap string bytes :=
  match existing with
  | Some _ => (Done (Err "file already exist"), files)
  | None =>
      match NewStorageService None open_err with
      | Panicked w => (Panicked w, files)
      | Blocked w => (Blocked w, files)
      | Done (Err e) => (Done (Err e), files)
      | Done (Ok s) =>
          let '(w, files) := NewWallet seed io_err name files in
          (Done (let? w := w in Ok (mkGenerator w s)), files)
      end
  end.

(** [prev] and [state] are what [rand.Read] yields, [now] is the clock. *)
Definition genesis_block (now : Z) (prev state : bytes) (w : Wallet) : outcome Block :=
  let hash := Sum256 (prev ++ state) in
  let^ sig := Wallet_SignRaw w (Some hash) in
  Done (mkBlock (mkBlockInfo 0 (Some hash) sig (Wallet_PublicKey w) now) (mkTxBundle None)
          (Some prev) (Some state)).

Definition Generate (now : Z) (prev state : result bytes) : M GenesisGenerator (option error) :=
  match prev, state with
  | Err e, _ => ret (Some e)
  | Ok _, Err e => ret (Some e)
  | Ok prev, Ok state =>
      let* gen := get in
      let* b := lift (genesis_block now prev state (gen_wallet gen)) in
      let* res := zoom gen_storage (fun d gen => mkGenerator (gen_wallet gen) d)
                    (Storage_Put BlocksKind (Some b)) in
      match ResErr res with
      | Some e => ret (Some e)
      | None => ret None
      end
  end.

(** ** Full nodes *)
Definition NewFullNode (existing : option DB) (open_err : option error) (seed : result bytes)
  (io_err : option error) (name syncPort consensusPort : string) (files : gmap string bytes)
  : outcome (result ConsensusService) * gmap string bytes :=
  let ms := NewMemoryService in
  match NewStorageService existing open_err with
  | Panicked w => (Panicked w, files)
  | Blocked w => (Blocked w, files)
  | Done storage =>
      match NewNode syncPort ms storage with
      | Err e => (Done (Err e), files)
      | Ok n =>
          let '(w, files) := NewWallet seed io_err name files in
          (Done (let? w := w in Ok (NewConsensusService consensusPort n w)), files)
      end
  end.

(** [syncTime]: the nanoseconds it waits, by a clock at [nowMic] microseconds. *)
Definition syncTime (nowMic : Z) : Z :=
  let nowSec := nowMic / 1000000 in
  let t := s64 (s64 (nowSec + 1) * 1000000) in
  let w := s64 (t - nowMic) in
  s64 (1000 * w).

(** [Run] after [syncTime], up to the wait for an error. *)
Definition FullNode_Run (now : Z) : M ConsensusService unit :=
  let* _ := Consensus_Run in
  in_node (Node_Run now).
End fullnode.
