(* ===== verification/FullNodeProps.v ===== *)
(** Starting nodes: a new chain from its genesis block, and a node again from
    the database it left. *)
From S2P Require Import Prelude Json JsonLaws JsonSize Common External Merkle Accounts Txs Blocks Memory.
From S2P Require Import MemoryFacts Ledger Storage StorageFacts StorageProps Executers.
From S2P Require Import ExecuterFacts BlockExec Settlement P2p P2pProps Node NodeFacts.
From S2P Require Import Consensus ConsensusFacts FullNode.
Open Scope Z_scope.

Section fullnode_facts.
Context `{Sha3, Ed25519, Base58, ExpSlices, MapOrder, Bolt}.
Context `{!Sha3Laws, !Ed25519Laws, !Base58Laws, !ExpSlicesLaws, !BoltLaws}.

Lemma NewWallet_new seed name files w files' :
  NewWallet seed None name files = (Ok w, files') -> files !! (name ++ ".key")%string = None ->
  wallet_ok w /\ forall seed', NewWallet seed' None name files' = (Ok w, files').
Proof.
  unfold NewWallet. intros Hn Hf. rewrite Hf in Hn.
  destruct (GenerateKey seed) as [key|] eqn:Ek; [|done].
  destruct (Marshal key) as [enc|] eqn:Em; [|done]. injection Hn as <- <-. split.
  - destruct seed as [s|]; [|done]. by exists s.
  - intros seed'. rewrite lookup_insert_eq. assert (Unmarshal enc = Ok key) as -> by (by apply Unmarshal_Marshal).
    done.
Qed.

(** Nodes start on the next full second. *)
Lemma syncTime_correct nowMic : 0 <= nowMic < 2 ^ 62 ->
  0 < syncTime nowMic <= 1000000000 /\ (1000 * nowMic + syncTime nowMic) mod 1000000000 = 0.
Proof.
  intros Hr. pose proof (Z.div_mod nowMic 1000000 ltac:(lia)) as Hd.
  pose proof (Z.mod_pos_bound nowMic 1000000 ltac:(lia)) as Hm.
  assert (syncTime nowMic = 1000 * (1000000 - nowMic mod 1000000)) as ->.
  { unfold syncTime. set (q := nowMic / 1000000) in *.
    assert (0 <= q) by (apply Z.div_pos; lia).
    rewrite (s64_small (q + 1)) by (unfold in_s64; lia). rewrite (s64_small ((q + 1) * 1000000)) by (unfold in_s64; lia).
    rewrite (s64_small (_ - nowMic)) by (unfold in_s64; lia). rewrite s64_small by (unfold in_s64; lia). lia. }
  split; [lia|]. apply Z.mod_divide; [lia|]. exists (nowMic / 1000000 + 1). lia.
Qed.

(** A genesis block is small. *)
Lemma genesis_size b enc pk sig : Marshal b = Ok enc -> Bundle b = mkTxBundle None ->
  Info b = mkBlockInfo 0 (bi_Hash (Info b)) (Some sig) (Some pk) (bi_Timestamp (Info b)) ->
  in_s64 (bi_Timestamp (Info b)) -> length pk = 32%nat -> length sig = 64%nat ->
  length (raw (bi_Hash (Info b))) = 32%nat -> length (raw (PreviousBlockHash b)) = 32%nat ->
  length (raw (StateHash b)) = 32%nat -> len enc <= MaxPayloadSize.
Proof.
  destruct b as [[h hash sig' pk' ts] bun prev st]. cbn [Info Bundle PreviousBlockHash StateHash bi_Hash bi_Timestamp].
  intros Hm%Marshal_size -> [= -> -> ->] Hts Lp Ls Lh Lpr Lst.
  destruct hash as [hash|]; [|done]. destruct prev as [prev|]; [|done]. destruct st as [st|]; [|done].
  cbn [raw default id] in *. size_of Hm.
  rewrite (quote_b64_32 hash), (quote_b64_32 prev), (quote_b64_32 st), (quote_b64_32 pk), quote_b64_64 in Hm by done.
  pose proof (length_format_int ts Hts). pose proof (length_format_uint 0 ltac:(unfold in_u64; lia)).
  unfold len, MaxPayloadSize. lia.
Qed.

Lemma Generate_run now prev state gen : wallet_ok (gen_wallet gen) -> in_s64 now ->
  (forall db, bolt_commit db = None) -> bolt_has_bucket (gen_storage gen) blocksBucket = true ->
  length prev = 32%nat -> length state = 32%nat ->
  exists b enc db' pk, genesis_block now prev state (gen_wallet gen) = Done b
    /\ Wallet_PublicKey (gen_wallet gen) = Some pk /\ is_key pk /\ bi_PublicKey (Info b) = Some pk
    /\ Generate now (Ok prev) (Ok state) gen = (Done None, mkGenerator (gen_wallet gen) db')
    /\ Marshal b = Ok enc /\ len enc <= MaxPayloadSize /\ holds_block (gen_storage gen) db' b enc
    /\ u64_block b /\ bi_Height (Info b) = 0 /\ bi_Hash (Info b) = Some (Sum256 (prev ++ state)).
Proof.
  intros Hw Hnow Hc Hb Lp Lst. set (hash := Sum256 (prev ++ state)).
  destruct (SignRaw_ok (gen_wallet gen) (Some hash) Hw) as (pk & sig & Hpk & Kpk & Hsig & Ls & _).
  set (b := mkBlock (mkBlockInfo 0 (Some hash) (Some sig) (Some pk) now) (mkTxBundle None) (Some prev) (Some state)).
  assert (genesis_block now prev state (gen_wallet gen) = Done b) as Hg
    by (unfold genesis_block; fold hash; by rewrite Hsig, Hpk).
  destruct (Marshal b) as [enc|] eqn:Hm; [|done].
  pose proof (genesis_size b enc pk sig Hm eq_refl eq_refl Hnow Kpk Ls (length_Sum256 _) Lp Lst) as Hsz.
  destruct (put_block_run b (gen_storage gen) enc Hc Hb (length_Sum256 _) Hm) as (db' & Hput & Hh);
    [unfold MaxPayloadSize, MaxValueSize in *; lia|].
  exists b, enc, db', pk. split_and!; try done.
  unfold Generate. unfold bind at 1, get. unfold bind at 1, lift. rewrite Hg.
  unfold bind, zoom. by rewrite Hput.
Qed.

Lemma no_accounts db : (forall k, bolt_get db accountsBucket k = None) ->
  bolt_has_bucket db accountsBucket = true ->
  decodable db /\ sane db /\ stored_accounts db = [].
Proof.
  intros Hg Hb. assert (forall pk, stored_state db pk = Ok zero_state) as Hs
    by (intros pk; unfold stored_state; by rewrite Hg).
  split_and!.
  - split; [done|]. intros pk _. rewrite Hs. eauto.
  - intros pk _. unfold stored. rewrite Hs. apply wf_zero.
  - destruct (stored_accounts db) as [|k l] eqn:E; [done|exfalso].
    assert (k ∈ stored_accounts db) as Hin by (rewrite E; constructor).
    apply stored_accounts_spec in Hin; [by rewrite Hg in Hin|by eapply stored_accounts_key].
Qed.

Lemma Consensus_Run_run s : exists pl, Consensus_Run s
  = (Done tt, set_round (set_waiting false (set_votes 0 0 (round s))) (set_cs_p2p (sends pl (cs_p2p s)) s)).
Proof.
  destruct (localDiscovery_run 5000 5002 (p2p_of s)) as (payload & _ & Hd). unfold Consensus_Run.
  rewrite (bind_done _ _ _ _ _ (in_p2p_run _ _ _ _ Hd)). rewrite bind_ret_l.
  unfold upd_round, modify. match goal with |- context [sends ?pl _] => by exists pl end.
Qed.

(** From nothing to a running node: the state it reaches, and its database. *)
Lemma genesis_chain now now' prev state seed seed' name syncPort consPort files gen files1 :
  (forall db, bolt_commit db = None) -> files !! (name ++ ".key")%string = None ->
  in_s64 now -> length prev = 32%nat -> length state = 32%nat ->
  NewGenerator None None seed None name files = (Done (Ok gen), files1) ->
  exists gen' pk fn fn' b enc,
    Generate now (Ok prev) (Ok state) gen = (Done None, gen')
    /\ Wallet_PublicKey (gen_wallet gen) = Some pk
    /\ NewFullNode (Some (gen_storage gen')) None seed' None name syncPort consPort files1
       = (Done (Ok fn), files1)
    /\ FullNode_Run now' fn = (Done tt, fn')
    /\ nodeWallet fn' = gen_wallet gen
    /\ info fn' = mkBlockchain 1 0 1 (Some (Sum256 (prev ++ state)))
    /\ node_ok (cs_node fn') pk
    /\ (forall k, is_key k -> nledger (cs_node fn') !! Encode k
          = if decide (k = pk) then Some (mkAccountState 0 GeneratorBalance) else None)
    /\ cs_errs fn' = [] /\ n_errs (cs_node fn') = []
    /\ genesis_in (gen_storage gen') pk /\ funded (gen_storage gen') (ndb (cs_node fn')) pk
    /\ latest_block (ndb (cs_node fn')) b enc /\ u64_block b
    /\ bi_Height (Info b) = 0 /\ bi_Hash (Info b) = Some (Sum256 (prev ++ state))
    /\ accounts_with pk (gen_storage gen') = [pk].
Proof.
  intros Hc Hf Hnow Lp Lst. unfold NewGenerator.
  destruct (NewStorageService_new Hc) as (db0 & Hdb0 & Hb0 & Ha0 & He0). rewrite Hdb0.
  destruct (NewWallet seed None name files) as [w files'] eqn:Ew. intros [= Hgen ->].
  destruct w as [w|]; [|done]. injection Hgen as <-.
  destruct (NewWallet_new _ _ _ _ _ Ew Hf) as [Hw Hre].
  destruct (Generate_run now prev state (mkGenerator w db0) Hw Hnow Hc Hb0 Lp Lst)
    as (b & enc & db' & pk & Hgb & Hpk & Kpk & Hbpk & Hrun & Hm & Hsz & [G1 G2 G3 _ Gb Go] & Hu & Hh & Hhash).
  cbn [gen_wallet gen_storage] in *.
  assert (forall k, bolt_get db' accountsBucket k = None) as Hacc
    by (intros k; rewrite Go by (left; by vm_compute); apply He0).
  destruct (no_accounts db' Hacc) as (Hd & Hs & Hst); [by rewrite Gb|].
  assert (accounts_with pk db' = [pk]) as Haw by (unfold accounts_with; by rewrite Hst).
  set (n := mkNode (mkExecuter (mkEnv NewMemoryService db') None) NewBlockchain
              (NewP2pService syncPort SyncNode) None [] false []).
  destruct (Consensus_Run_run (NewConsensusService consPort n w)) as (pl & Hcr).
  assert (genesis_in db' pk) as Hgen.
  { split; [exact Kpk|]. exists (raw (bi_Hash (Info b))), enc, b.
    split_and!; [rewrite Hh in G2; exact G2|exact G1| |exact Hbpk]. by apply Unmarshal_Marshal. }
  destruct (node_start now' n pk b enc Hc eq_refl) as (n' & Hns & Hok & Hbc & Herr & _ & _ & Hlat & Hfd & HL);
    [change (bolt_has_bucket db' blocksBucket = true); by rewrite Gb|exact Hd|exact Hs|exact Hgen|by split_and!|exact Hu| |].
  { change (ndb n) with db'. rewrite Haw. cbn. lia. }
  eexists _, pk, (NewConsensusService consPort n w), (set_cs_node n' _), b, enc.
  split_and!; [exact Hrun|exact Hpk| | | | | | | | |exact Hgen|exact Hfd|exact Hlat|exact Hu|exact Hh|exact Hhash|exact Haw].
  - unfold NewFullNode, NewStorageService, NewStorageDb, NewNode. cbn [result_bind gen_storage].
    by rewrite Hre.
  - unfold FullNode_Run. rewrite (bind_done _ _ _ _ _ Hcr). by apply in_node_done.
  - done.
  - unfold info. cbn [cs_node set_cs_node]. rewrite Hbc, Hh, Hhash. by vm_compute.
  - exact Hok.
  - intros k Kk. cbn [cs_node set_cs_node]. rewrite HL by done. change (ndb n) with db'. rewrite Haw, Hacc.
    destruct (decide (k = pk)) as [->|Hne].
    + by rewrite !decide_True by (by constructor || by split).
    + by rewrite !decide_False by (by rewrite ?list_elem_of_singleton).
  - done.
  - cbn [cs_node set_cs_node]. by rewrite Herr.
Qed.
End fullnode_facts.

(** * Properties *)
Section fullnode_properties.
Context `{Sha3, Ed25519, Base58, ExpSlices, MapOrder, Bolt}.
Context `{!Sha3Laws, !Ed25519Laws, !Base58Laws, !ExpSlicesLaws, !BoltLaws}.

(** A chain starts from its genesis block: a generator made under a new
    name stores the block, and a full node then started under that name finds
    the same wallet, stands at height 1 behind the genesis hash, and holds one
    account, the generator's, with everything that will ever be issued. *)
Theorem genesis_starts_chain now now' prev state seed seed' name syncPort consPort files gen files1 :
  (forall db, bolt_commit db = None) -> files !! (name ++ ".key")%string = None ->
  in_s64 now -> length prev = 32%nat -> length state = 32%nat ->
  NewGenerator None None seed None name files = (Done (Ok gen), files1) ->
  exists gen' pk fn fn',
    Generate now (Ok prev) (Ok state) gen = (Done None, gen')
    /\ Wallet_PublicKey (gen_wallet gen) = Some pk
    /\ NewFullNode (Some (gen_storage gen')) None seed' None name syncPort consPort files1
       = (Done (Ok fn), files1)
    /\ FullNode_Run now' fn = (Done tt, fn')
    /\ nodeWallet fn' = gen_wallet gen
    /\ info fn' = mkBlockchain 1 0 1 (Some (Sum256 (prev ++ state)))
    /\ node_ok (cs_node fn') pk
    /\ (forall k, is_key k -> nledger (cs_node fn') !! Encode k
          = if decide (k = pk) then Some (mkAccountState 0 GeneratorBalance) else None)
    /\ cs_errs fn' = [] /\ n_errs (cs_node fn') = [].
Proof.
  intros Hc Hf Hnow Lp Lst Hgen.
  destruct (genesis_chain now now' prev state seed seed' name syncPort consPort files gen files1 Hc Hf Hnow Lp Lst Hgen)
    as (gen' & pk & fn & fn' & b & enc & R1 & R2 & R3 & R4 & R5 & R6 & R7 & R8 & R9 & R10 & _).
  exists gen', pk, fn, fn'. by split_and!.
Qed.

(** C10: a node that stops and starts again is where it was: from the database
    of a node between two operations, a new node of the same name reaches the
    same position in the chain, with every account in the state it had (for at
    most eleven accounts; more hang it). *)
Theorem restart_recovers now n gen blk enc port n1 :
  (forall db, bolt_commit db = None) -> node_ok n gen -> genesis_in (ndb n) gen ->
  latest_block (ndb n) blk enc -> u64_block blk ->
  bolt_get (ndb n) accountsBucket gen <> None -> (length (stored_accounts (ndb n)) <= 11)%nat ->
  counters_ok (n_bc n) -> nextHeight (n_bc n) = bi_Height (Info blk) + 1 -> nextHeight (n_bc n) < 2 ^ 32 ->
  previousBlockHash (n_bc n) = bi_Hash (Info blk) ->
  NewNode port NewMemoryService (Ok (ndb n)) = Ok n1 ->
  exists n2, Node_Run now n1 = (Done tt, n2) /\ node_ok n2 gen /\ n_bc n2 = n_bc n /\ n_errs n2 = []
    /\ forall pk, is_key pk ->
        default zero_state (nledger n2 !! Encode pk) = default zero_state (nledger n !! Encode pk).
Proof.
  intros Hc [Hs Hb _] Hgen Hl Hu Hg Hlen [He Hsl] Hh Hmax Hprev [= <-]. pose proof Hgen as [Kg _].
  assert (accounts_with gen (ndb n) = stored_accounts (ndb n)) as Haw
    by (unfold accounts_with; rewrite decide_True by (by apply stored_accounts_spec); done).
  match goal with |- exists n2, Node_Run now ?m = _ /\ _ => set (n1 := m) end.
  destruct (node_start now n1 gen blk enc Hc eq_refl Hb) as (n2 & Hr & Hok & Hbc & Herr & _ & _ & _ & _ & HL);
    try done; [apply (q_db _ (se_quiet _ _ Hs))|apply (se_sane _ _ Hs)|change (ndb n1) with (ndb n); by rewrite Haw|].
  exists n2. split_and!; [exact Hr|exact Hok| |exact Herr|].
  - rewrite Hbc. unfold Blockchain_Init. pose proof (proj1 (proj1 Hu)) as Hr0. unfold in_u64 in Hr0.
    rewrite u64_small by (unfold in_u64; lia). rewrite <- Hh. unfold u32, SlotsInEpoch. rewrite (Z.mod_small (nextHeight _) (2 ^ 32)) by lia.
    rewrite <- He, <- Hsl, <- Hprev. by destruct (n_bc n).
  - intros pk Kpk. rewrite HL by done. change (ndb n1) with (ndb n). rewrite Haw.
    rewrite (decide_False (P := pk = gen /\ _)) by tauto.
    pose proof (se_agree _ _ Hs pk Kpk) as Ha. unfold agree in Ha. change (xledger (n_exe n)) with (nledger n) in Ha.
    rewrite Ha. change (xdb (n_exe n)) with (ndb n). case_decide as Hin; [done|]. cbn.
    rewrite stored_accounts_spec in Hin by done. unfold stored, stored_state.
    destruct (bolt_get (ndb n) accountsBucket pk); [|done]. exfalso. by apply Hin.
Qed.
End fullnode_properties.

Section fullnode_runs.
Import Toy.

Definition demo_prev : bytes := replicate 32 x01.
Definition demo_state : bytes := replicate 32 x02.
Definition demo_generator : outcome (result GenesisGenerator) * gmap string bytes :=
  NewGenerator None None (Ok [x05]) None "node" ∅.
Definition generated (o : outcome (result GenesisGenerator)) : bool :=
  match o with Done (Ok _) => true | _ => false end.

Lemma genesis_starts_chain_witness :
  match demo_generator with
  | (Done (Ok gen), files1) => exists gen' fn fn',
      Generate 7 (Ok demo_prev) (Ok demo_state) gen = (Done None, gen')
      /\ NewFullNode (Some (gen_storage gen')) None (Err "no entropy"%string) None "node" "3000" "5000" files1
         = (Done (Ok fn), files1)
      /\ FullNode_Run 9 fn = (Done tt, fn') /\ nextHeight (info fn') = 1
  | _ => False
  end.
Proof.
  assert (generated (fst demo_generator) = true) as K by (vm_compute; reflexivity).
  destruct demo_generator as [[[gen|e]|w|w] files1] eqn:E; try discriminate K.
  destruct (genesis_starts_chain 7 9 demo_prev demo_state (Ok [x05]) (Err "no entropy"%string) "node" "3000"
    "5000" ∅ gen files1) as (gen' & pk & fn & fn' & R1 & _ & R3 & R4 & _ & R6 & _).
  - reflexivity.
  - reflexivity.
  - unfold in_s64. lia.
  - reflexivity.
  - reflexivity.
  - exact E.
  - exists gen', fn, fn'. rewrite R6. split; [exact R1|]. split; [exact R3|]. split; [exact R4|reflexivity].
Defined.

Lemma restart_recovers_witness : exists n n1 n2,
  NewNode "3000" NewMemoryService (Ok (ndb n)) = Ok n1 /\ Node_Run 11 n1 = (Done tt, n2) /\ n_bc n2 = n_bc n
  /\ nextHeight (n_bc n) = 1.
Proof.
  assert (generated (fst demo_generator) = true) as K by (vm_compute; reflexivity).
  destruct demo_generator as [[[gen|e]|w|w] files1] eqn:E; try discriminate K.
  destruct (genesis_chain 7 9 demo_prev demo_state (Ok [x05]) (Err "no entropy"%string) "node" "3000"
    "5000" ∅ gen files1) as (gen' & pk & fn & fn' & b & enc & _ & _ & _ & _ & _ & R6 & R7 & _ & _ & _
      & R11 & R12 & R13 & R14 & R15 & R16 & R17);
    [reflexivity|reflexivity|unfold in_s64; lia|reflexivity|reflexivity|exact E|].
  unfold info in R6. set (n := cs_node fn') in *. pose proof R11 as [Kpk (h & e & g & G1 & G2 & G3 & G4)].
  destruct (restart_recovers 11 n pk b enc "3000"
    (mkNode (mkExecuter (mkEnv NewMemoryService (ndb n)) None) NewBlockchain
       (NewP2pService "3000" SyncNode) None [] false [])) as (n2 & Hr & _ & Hbc & _).
  - reflexivity.
  - exact R7.
  - split; [exact Kpk|]. exists h, e, g. rewrite !(fd_other _ _ _ R12) by (by vm_compute). by split_and!.
  - exact R13.
  - exact R14.
  - apply (fd_gen _ _ _ R12).
  - etransitivity; [apply (funded_accounts _ _ _ Kpk R12)|]. rewrite R17. cbn. lia.
  - rewrite R6. split; reflexivity.
  - rewrite R6, R15. reflexivity.
  - rewrite R6. cbn. lia.
  - rewrite R6, R16. reflexivity.
  - reflexivity.
  - eexists n, _, n2. split; [reflexivity|]. split; [exact Hr|]. split; [exact Hbc|]. by rewrite R6.
Defined.
End fullnode_runs.
