(* ===== verification/NetworkProps.v ===== *)
(** What arrives at the RPC and the sync port cannot harm a node: whatever bytes
    come in over an RPC connection or from a peer, ledger, database and chain
    are as before, and the handlers return, but for those that wait to hand a
    block to a running sync. *)
From S2P Require Import Prelude Json JsonLaws Common External Accounts Txs Blocks Rpc Memory.
From S2P Require Import MemoryFacts MempoolFacts Ledger Storage StorageFacts StorageProps Executers ExecuterFacts.
From S2P Require Import BlockExec Settlement ExecutionProps ProducerProps P2p P2pProps Node NodeFacts Sync.
From S2P Require Import SyncProps Server ServerProps.
Open Scope Z_scope.

Section network.
Context `{Sha3, Ed25519, Base58, ExpSlices, MapOrder, Bolt}.
Context `{!Sha3Laws, !Ed25519Laws, !Base58Laws, !ExpSlicesLaws, !MapOrderLaws, !BoltLaws}.

(** A node between two operations, with its peers in order. *)
Definition sound (gen : bytes) (n : Node) : Prop := node_ok n gen /\ peers_ok (n_p2p n).

(** What a message may change: the peers, the messages sent, the goroutines
    that wait to answer a sync, and the pool, which may gain verified
    transactions only. *)
Record harmless (n n' : Node) : Prop := {
  ha_ledger : nledger n' = nledger n;
  ha_db : ndb n' = ndb n;
  ha_bc : n_bc n' = n_bc n;
  ha_syncing : n_syncing n' = n_syncing n /\ n_chs n' = n_chs n /\ n_errs n' = n_errs n;
  ha_self : self (n_p2p n') = self (n_p2p n);
  ha_kept : forall k, is_Some (pool_of (nmem n) !! k) -> is_Some (pool_of (nmem n') !! k);
  ha_gained : forall k tx, pool_of (nmem n') !! k = Some tx ->
    pool_of (nmem n) !! k = Some tx \/ Transaction_Verify tx = Done (Ok true)
}.

#[export] Instance harmless_preorder : PreOrder harmless.
Proof.
  split.
  - intros n. split; auto.
  - intros n1 n2 n3 [] []. split; try congruence; try naive_solver congruence.
Qed.

(** [m] returns from [n], and does no harm. *)
Definition safe {A} (gen : bytes) (m : M Node A) (n : Node) : Prop :=
  exists r n', m n = (Done r, n') /\ sound gen n' /\ harmless n n'.

(** [m] does no harm, and waits for ever unless another goroutine helps. *)
Definition waits {A} (gen : bytes) (m : M Node A) (n : Node) : Prop :=
  exists w n', m n = (Blocked w, n') /\ sound gen n' /\ harmless n n'.

Lemma safe_ret {A} gen (r : A) n : sound gen n -> safe gen (ret r) n.
Proof. intros Hn. by exists r, n. Qed.

Lemma safe_bind {A B} gen (m : M Node A) (k : A -> M Node B) n :
  safe gen m n -> (forall r n', sound gen n' -> safe gen (k r) n') -> safe gen (bind m k) n.
Proof.
  intros (r & n1 & Hm & Hs & Hh) Hk. destruct (Hk r n1 Hs) as (r' & n2 & Hk' & Hs' & Hh').
  exists r', n2. split; [by rewrite (bind_done _ _ _ _ _ Hm)|]. split; [exact Hs'|by etransitivity].
Qed.

Lemma safe_get {A} gen (k : Node -> M Node A) n : safe gen (k n) n -> safe gen (bind get k) n.
Proof. done. Qed.

Lemma safe_lift {A B} gen (o : outcome A) (k : A -> M Node B) n a :
  o = Done a -> safe gen (k a) n -> safe gen (bind (lift o) k) n.
Proof. by intros ->. Qed.

(** Walk through a handler up to its next effect. *)
Ltac safe :=
  repeat first
    [ by apply safe_ret
    | progress cbv beta iota
    | match goal with |- safe _ (bind get _) _ => apply safe_get end
    | match goal with |- safe _ (match ?x with _ => _ end) _ => destruct x eqn:? end ].

(** Sending and the peer list. *)
Lemma safe_p2p {A} gen (m : M P2pService A) n : sound gen n ->
  (exists r ps, m (n_p2p n) = (Done r, ps) /\ peers_ok ps /\ self ps = self (n_p2p n)) -> safe gen (in_p2p m) n.
Proof.
  intros [Hn _] (r & ps & Hm & Hps & Hself). exists r, (set_n_p2p ps n).
  split; [exact (in_p2p_run (S := Node) m n r ps Hm)|]. split; [split; [|exact Hps]|by split; auto].
  destruct Hn. by split.
Qed.

Lemma safe_Broadcast gen data except n : sound gen n -> safe gen (in_p2p (Broadcast data except)) n.
Proof.
  intros Hn. apply safe_p2p; [exact Hn|]. eexists _, _. split; [apply Broadcast_run|].
  split; [by apply peers_ok_sends, Hn|done].
Qed.

Lemma safe_BroadcastTx gen tx origin n : sound gen n -> safe gen (BroadcastTx tx origin) n.
Proof.
  intros Hn. unfold BroadcastTx. safe. apply safe_bind; [by apply safe_Broadcast|]. intros. safe.
Qed.

(** A verified transaction that the pool does not have. *)
Lemma safe_AppendTx gen tx n : sound gen n -> Transaction_Verify tx = Done (Ok true) ->
  safe gen (in_exe (mem (AppendTx tx))) n.
Proof.
  intros [[Hs Hb Hr] Hps] Hv.
  destruct (send_tx_run (mkMempoolRequest MemAppend (Some tx) None) (n_exe n) gen Hs Hr) as (s' & Hrun & Hs' & Hr' & HL & Hp).
  change (send_tx _) with (AppendTx tx) in Hrun. exists tt, (set_n_exe (set_xmem s' (n_exe n)) n).
  split; [by apply in_exe_done|]. split; [split; [by split|exact Hps]|].
  split; try done.
  - intros k Hk. change (is_Some (pool_of s' !! k)). rewrite Hp. cbn [apply_tx]. unfold Mempool_Append.
    apply lookup_insert_is_Some. destruct (decide (Encode (raw (tx_Hash tx)) = k)); auto.
  - intros k tx' Hk. change (pool_of s' !! k = Some tx') in Hk. rewrite Hp in Hk. cbn in Hk. unfold Mempool_Append in Hk.
    apply lookup_insert_Some in Hk as [[_ <-]|[_ Hk]]; auto.
Qed.

(** Reading the database. *)
Lemma safe_read {A} gen (m : M DB A) n a : sound gen n -> m (ndb n) = (Done a, ndb n) -> safe gen (in_exe (db m)) n.
Proof. intros Hn Hm. exists a, n. split; [by apply in_exe_read|by split]. Qed.

(** *** RPC connections *)
Lemma safe_handleTransaction gen body n : sound gen n -> safe gen (handleTransaction body) n.
Proof.
  intros Hn. unfold handleTransaction. destruct (Unmarshal body) as [tx|e]; [|safe].
  eapply safe_lift; [apply Transaction_Verify_run|]. pose proof (Transaction_Verify_run tx) as Hv.
  destruct (_ && _) in *; safe. apply safe_bind; [by apply safe_AppendTx|]. intros _ n1 Hn1.
  apply safe_bind; [by apply safe_BroadcastTx|]. intros r n2 Hn2. safe.
Qed.

Lemma safe_handleCall gen body n : sound gen n -> safe gen (handleCall body) n.
Proof.
  intros Hn. unfold handleCall. destruct (Unmarshal body) as [call|e]; [|safe].
  destruct (VerifyGetAccountStateCall call) eqn:Ev; [|safe].
  unfold VerifyGetAccountStateCall in Ev. split_andb. destruct (call_Params call) as [key|]; [|done].
  apply safe_bind.
  - eapply safe_read; [exact Hn|]. apply accounts_get. apply (q_db _ (se_quiet _ _ (no_settled _ _ (proj1 Hn)))).
  - intros res n1 Hn1. safe.
Qed.

Lemma conn_Read_length k conn buff rest : 0 < k -> conn_Read k conn = Ok (buff, rest) -> length buff = Z.to_nat k.
Proof.
  unfold conn_Read. intros Hk. rewrite (proj2 (Z.leb_gt _ _) Hk). destruct conn as [|c conn]; [done|].
  intros [= <- _]. rewrite length_app, length_take, length_replicate. lia.
Qed.

Lemma safe_handleRpc gen conn n : sound gen n -> safe gen (handleRpc conn) n.
Proof.
  intros Hn. unfold handleRpc. destruct (conn_Read 4 conn) as [[buff conn']|e]; [|safe].
  destruct (FromHex Int32 buff) as [reqLen|e]; [|safe]. destruct (_ || _) eqn:Er; [safe|].
  apply orb_false_iff in Er as [_ Hr%Z.ltb_ge].
  destruct (conn_Read reqLen conn') as [[buff' rest]|e] eqn:Eb; [|safe].
  apply conn_Read_length in Eb; [|lia]. destruct buff' as [|k body]; [cbn in Eb; lia|].
  apply safe_bind; [|intros res n1 Hn1; safe].
  safe; [by apply safe_handleTransaction|by apply safe_handleCall].
Qed.

(** *** Messages of peers *)
Lemma safe_handleTx gen body n : sound gen n -> safe gen (handleTx body) n.
Proof.
  intros Hn. unfold handleTx. destruct (Unmarshal body) as [msg|e]; [|safe].
  assert (exists b, TransactionMsg_Verify msg = Done (Ok b) /\ (b = true -> Transaction_Verify (tm_Tx msg) = Done (Ok true)))
    as (b & Hb & Hv).
  { unfold TransactionMsg_Verify. destruct (forallb _ _); cbn [negb]; [|by exists false].
    eexists. split; [apply Transaction_Verify_run|]. intros Hb. by rewrite Transaction_Verify_run, Hb. }
  eapply safe_lift; [exact Hb|]. destruct b; safe.
  apply safe_bind; [by apply safe_AppendTx; [|apply Hv]|]. intros _ n1 Hn1. by apply safe_BroadcastTx.
Qed.

Lemma safe_P2p_Send gen to data n : sound gen n -> safe gen (in_p2p (P2p_Send to data)) n.
Proof.
  intros Hn. apply safe_p2p; [exact Hn|]. unfold P2p_Send, bind, get. destruct (negb _).
  - eexists _, _. split; [reflexivity|]. split; [apply (peers_ok_sends [(to, data)]), Hn|done].
  - eexists _, _. split; [reflexivity|]. split; [apply Hn|done].
Qed.

Lemma safe_handleBlockReq gen body n : sound gen n -> safe gen (handleBlockReq body) n.
Proof.
  intros Hn. unfold handleBlockReq. safe. apply safe_bind.
  - eapply safe_read; [exact Hn|]. apply (Storage_Get_blocks (ndb n)). apply Hn.
  - intros res n1 Hn1. safe. apply safe_bind; [by apply safe_P2p_Send|]. intros. safe.
Qed.

(** A sync waits for blocks; a block for it is handed over in person. *)
Lemma handleBlockRes_ends gen body n : sound gen n ->
  safe gen (handleBlockRes body) n \/ (n_chs n <> None /\ waits gen (handleBlockRes body) n).
Proof.
  intros Hn. unfold handleBlockRes. destruct (Unmarshal body) as [msg|e]; [|left; safe].
  assert (exists ok, (if negb (bi_Height (Info (brs_Block msg)) =? 0) then lift (BlockResponseMsg_Verify msg)
    else ret (genesis_hashes_ok (brs_Block msg))) n = (Done ok, n)) as [ok Hok].
  { destruct (negb _); [|by eexists]. unfold BlockResponseMsg_Verify.
    destruct (Block_Verify_spec (brs_Block msg)) as (v & Hv & _). exists (NodeInfo_Verify (brs_From msg) && v).
    unfold lift. rewrite Hv. unfold outcome_and. cbn. by destruct (NodeInfo_Verify _). }
  unfold safe, waits. rewrite (bind_done _ _ _ _ _ Hok). destruct ok; cbn [negb]; [|left; by exists None, n].
  unfold bind, get. destruct (n_chs n) as [chs|] eqn:Ec; [|left; by exists None, n].
  destruct (bool_decide _); cbn [negb]; [right|left; by exists None, n].
  split; [done|]. eexists _, _. split; [reflexivity|]. destruct Hn as [[] Hps].
  split; [by split|by split; auto].
Qed.

Lemma safe_keeps gen m n : sound gen n -> keeps m (n_p2p n) -> safe gen (in_p2p m) n.
Proof. intros Hn (r & ps & l & Hm & Hps & Hself & _). apply safe_p2p; [exact Hn|]. by exists r, ps. Qed.

(** The two messages that panic: an empty one, and one that consists of the
    byte of sync messages. *)
Definition too_short (conn : result bytes) : bool :=
  match conn with
  | Ok raw_ => bool_decide (raw_ = [] \/ raw_ = [SyncMessage])
  | Err _ => false
  end.

Definition answers (conn : result bytes) : Prop :=
  exists body, conn = Ok (SyncMessage :: BlockResponseMessage :: body).

Lemma safe_inbound gen conn n : sound gen n ->
  if too_short conn then handleInbound handleSyncMessage conn n = (Panicked "index out of range", n)
  else safe gen (handleInbound handleSyncMessage conn) n
    \/ (answers conn /\ n_chs n <> None /\ waits gen (handleInbound handleSyncMessage conn) n).
Proof.
  intros Hn. destruct conn as [raw_|e]; [|left; by apply safe_ret]. cbn [too_short].
  case_bool_decide as Hshort; [by destruct Hshort as [-> | ->]|].
  unfold handleInbound. destruct (_ <? _); [left; by apply safe_ret|]. destruct raw_ as [|k rest]; [tauto|].
  destruct (bool_decide (k = HelloMessage)); [left; by apply safe_keeps; [|apply handleJoin_run, Hn]|].
  destruct (bool_decide (k = WelcomeMessage)); [left; by apply safe_keeps; [|apply handleWelcome_run, Hn]|].
  unfold handleSyncMessage. destruct (bool_decide (k = SyncMessage)) eqn:Ek; cbn [negb]; [|left; by apply safe_ret].
  apply bool_decide_eq_true in Ek as ->. destruct rest as [|kind body]; [tauto|].
  destruct (bool_decide (kind = TxMsg)); [left; by apply safe_handleTx|].
  destruct (bool_decide (kind = BlockRequestMessage)); [left; by apply safe_handleBlockReq|].
  destruct (bool_decide (kind = BlockResponseMessage)) eqn:Er; [|left; by apply safe_ret].
  apply bool_decide_eq_true in Er as ->.
  destruct (handleBlockRes_ends gen body n Hn) as [Hs|[Hc Hw]]; [by left|right].
  split; [by exists body|by split].
Qed.

(** Connections, in the order in which they are served. *)
Inductive arrival := FromClient (conn : list bytes) | FromPeer (conn : result bytes).

Definition crashing (a : arrival) : bool :=
  match a with FromClient _ => false | FromPeer conn => too_short conn end.

(** How the goroutine of a connection stands: it returned, with the errors it
    reports, or it waits. *)
Inductive handled := HReturned (errs : list error) | HWaiting.

Definition receive (a : arrival) : M Node handled :=
  match a with
  | FromClient conn =>
      detach HWaiting (
        let* r := handleRpc conn in ret (HReturned match r with Err e => [e] | Ok _ => [] end))
  | FromPeer conn =>
      detach HWaiting (
        let* err := handleInbound handleSyncMessage conn in
        ret (HReturned match err with Some e => [e] | None => [] end))
  end.

Fixpoint receive_all (l : list arrival) : M Node (list handled) :=
  match l with
  | [] => ret []
  | a :: l' => let* h := receive a in let* hs := receive_all l' in ret (h :: hs)
  end.

(** Only a peer's block waits, and only while a sync runs that asked for blocks. *)
Definition excused (n : Node) (a : arrival) (h : handled) : Prop :=
  h = HWaiting -> n_chs n <> None /\ exists conn, a = FromPeer conn /\ answers conn.

Lemma safe_detach {A} gen (m : M Node A) (f : A -> handled) n : safe gen m n ->
  exists r n', detach HWaiting (bind m (fun a => ret (f a))) n = (Done (f r), n') /\ sound gen n' /\ harmless n n'.
Proof.
  intros (r & n' & Hm & Hn). exists r, n'. split; [|exact Hn]. unfold detach. by rewrite (bind_done _ _ _ _ _ Hm).
Qed.

Lemma receive_run gen a n : sound gen n ->
  if crashing a then receive a n = (Panicked "index out of range", n)
  else exists h n', receive a n = (Done h, n') /\ sound gen n' /\ harmless n n' /\ excused n a h.
Proof.
  intros Hn. destruct a as [conn|conn]; cbn [crashing receive].
  - destruct (safe_detach gen _ (fun r => HReturned match r with Err e => [e] | Ok _ => [] end) n
      (safe_handleRpc gen conn n Hn)) as (r & n' & Hr & Hn' & Hh).
    eexists _, n'. split; [exact Hr|by split_and!].
  - pose proof (safe_inbound gen conn n Hn) as Hi. destruct (too_short conn).
    { unfold detach. unfold bind at 1. by rewrite Hi. }
    destruct Hi as [Hs|(Ha & Hc & w & n' & Hw & Hn' & Hh)].
    + destruct (safe_detach gen _ (fun err => HReturned match err with Some e => [e] | None => [] end) n Hs)
        as (r & n' & Hr & Hn' & Hh). eexists _, n'. split; [exact Hr|by split_and!].
    + exists HWaiting, n'. split; [unfold detach; by rewrite (bind_blocked _ _ _ _ _ Hw)|].
      split_and!; [done..|]. intros _. split; [done|by exists conn].
Qed.
End network.

(** * Property *)

(** C9: what arrives at the RPC and the sync port cannot harm a node.  Whatever
    bytes clients and peers send there, over however many connections, each
    handled in a goroutine of its own: unless some peer's message is empty or
    consists of the one byte of sync messages, which panics, every goroutine
    returns, but for one with a peer's block, which may wait to hand it over,
    and this only if a sync has asked for blocks; and at the end, or when
    it panics, ledger, database, position in the chain and identity of the node
    are as before, the node is ready for its next operation, its peers are in
    order, and the pool has what it had and besides only transactions that
    verify.  The consensus port is not part of this. *)
Theorem network_input_harmless
  `{Sha3, Ed25519, Base58, ExpSlices, MapOrder, Bolt, !Sha3Laws, !Ed25519Laws, !Base58Laws, !ExpSlicesLaws, !MapOrderLaws, !BoltLaws}
  gen l n : sound gen n ->
  exists o n', receive_all l n = (o, n') /\ sound gen n' /\ harmless n n'
    /\ if existsb crashing l then o = Panicked "index out of range"
       else exists hs, o = Done hs /\ Forall2 (excused n) l hs.
Proof.
  revert n. induction l as [|a l IH]; intros n Hn.
  { exists (Done []), n. split_and!; try done. by exists []. }
  pose proof (receive_run gen a n Hn) as Ha. cbn [existsb receive_all]. destruct (crashing a); cbn [orb].
  - exists (Panicked "index out of range"), n. unfold bind. rewrite Ha. by split_and!.
  - destruct Ha as (h & n1 & Ha & Hn1 & Hh & He). destruct (IH n1 Hn1) as (o & n2 & Hl & Hn2 & Hh2 & Ho).
    rewrite (bind_done _ _ _ _ _ Ha). unfold bind. rewrite Hl.
    assert (harmless n n2) as Hhn by (by etransitivity).
    destruct (existsb crashing l); [subst o; by exists (Panicked "index out of range"), n2|].
    destruct Ho as (hs & -> & Hf). exists (Done (h :: hs)), n2. split_and!; try done.
    exists (h :: hs). split; [done|]. constructor; [exact He|].
    eapply Forall2_impl; [exact Hf|]. intros a' h' He' ->. destruct (ha_syncing _ _ Hh) as (_ & <- & _). by apply He'.
Qed.

Section network_runs.
Import Toy.

Lemma behind_sound : sound gen_key behind.
Proof.
  split.
  - split; [apply node_settled|vm_compute; reflexivity|apply Nat.leb_le; vm_compute; reflexivity].
  - split; [apply NoDup_singleton| |apply Forall_singleton; vm_compute; reflexivity].
    intros Hin%list_elem_of_singleton. vm_compute in Hin. discriminate Hin.
Qed.

(** A client that closes at once, one that sends rubbish, and a peer's hello. *)
Definition demo_arrivals : list arrival :=
  [FromClient []; FromClient [bstr "rubbish"]; FromPeer (Ok (bstr "hello")); FromPeer (Err "connection reset"%string)].

Lemma network_input_harmless_witness :
  exists hs n', receive_all demo_arrivals behind = (Done hs, n') /\ ~ HWaiting ∈ hs
    /\ ndb n' = ndb behind /\ nledger n' = nledger behind.
Proof.
  destruct (network_input_harmless gen_key demo_arrivals behind) as (o & n' & Hr & _ & Hh & Ho).
  - apply behind_sound.
  - assert (existsb crashing demo_arrivals = false) as E by (vm_compute; reflexivity).
    rewrite E in Ho. destruct Ho as (hs & -> & Hf). exists hs, n'. split; [exact Hr|]. split.
    + intros Hin. apply list_elem_of_lookup in Hin as [i Hi].
      destruct (Forall2_lookup_r _ _ _ _ _ Hf Hi) as (a & _ & He). destruct (He eq_refl) as [Hc _].
      apply Hc. reflexivity.
    + split; [exact (ha_db _ _ Hh)|exact (ha_ledger _ _ Hh)].
Defined.
End network_runs.
