(* ===== verification/Cli.v ===== *)
(** Package [cli]: the command line (cli/cli.go), with the part of Go's
    packages [flag] and [strconv] it relies on.

    [Run] chooses a command from [os.Args] ([choose]) and performs it on the
    world: the directory of key files and databases, the machines it dials, and
    what it printed. *)
From S2P Require Import Prelude Json JsonLaws Common External Accounts Txs Blocks Memory Storage.
From S2P Require Import Executers P2p Node Server ConsensusMsgs Consensus FullNode.
From Stdlib Require Import Ascii.
Open Scope Z_scope.

(** ** [strconv.ParseUint(s, 0, 64)] *)
Definition lower (c : byte) : byte := byte_of_Z (Z.lor (Z_of_byte c) 0x20).

(** The base a literal announces, and its digits. *)
Definition number_base (s : bytes) : Z * bytes :=
  match s with
  | x30 :: p :: d :: s' =>
      if bool_decide (lower p = x62) then (2, d :: s')
      else if bool_decide (lower p = x6f) then (8, d :: s')
      else if bool_decide (lower p = x78) then (16, d :: s')
      else (8, p :: d :: s')
  | x30 :: s' => (8, s')
  | _ => (10, s)
  end.

Definition digit_value (c : byte) : option Z :=
  if between 48 57 c then Some (Z_of_byte c - 48)
  else if between 97 122 (lower c) then Some (Z_of_byte (lower c) - 97 + 10)
  else None.

(** The loop over the digits: the number, and whether an underscore was met. *)
Fixpoint parse_digits (base : Z) (s : bytes) (n : Z) (underscores : bool) : result (Z * bool) :=
  match s with
  | [] => Ok (n, underscores)
  | c :: s' =>
      if bool_decide (c = x5f) then parse_digits base s' n true
      else
        match digit_value c with
        | None => Err "invalid syntax"
        | Some d =>
            if base <=? d then Err "invalid syntax"
            else
              let cutoff := Z.quot (2 ^ 64 - 1) base + 1 in
              if cutoff <=? n then Err "value out of range"
              else
                let n := u64 (n * base) in
                let n1 := u64 (n + d) in
                if n1 <? n then Err "value out of range"
                else parse_digits base s' n1 underscores
        end
  end.

(** What [underscoreOK] remembers of the character before. *)
Inductive seen := Start | Digit | Underscore | Other.

Fixpoint underscores_between (hex : bool) (i : seen) (s : bytes) : bool :=
  match s with
  | [] => match i with Underscore => false | _ => true end
  | c :: s' =>
      if between 48 57 c || (hex && between 97 102 (lower c)) then underscores_between hex Digit s'
      else if bool_decide (c = x5f) then
        match i with Digit => underscores_between hex Underscore s' | _ => false end
      else match i with Underscore => false | _ => underscores_between hex Other s' end
  end.

Definition underscoreOK (s : bytes) : bool :=
  let s := match s with c :: s' => if bool_decide (c = x2d \/ c = x2b) then s' else s | [] => s end in
  match s with
  | x30 :: p :: s' =>
      if bool_decide (lower p = x62 \/ lower p = x6f) then underscores_between false Digit s'
      else if bool_decide (lower p = x78) then underscores_between true Digit s'
      else underscores_between false Start s
  | _ => underscores_between false Start s
  end.

Definition ParseUint (s : bytes) : result Z :=
  match s with
  | [] => Err "invalid syntax"
  | _ =>
      let '(base, ds) := number_base s in
      let? r := parse_digits base ds 0 false in
      if snd r && negb (underscoreOK s) then Err "invalid syntax" else Ok (fst r)
  end.

(** ** Package [flag]: a set of flags, each with its present value *)
Inductive FlagValue := StringFlag (s : string) | Uint64Flag (z : Z).

Abbreviation FlagSet := (list (string * FlagValue)).

Definition Set_flag (v : FlagValue) (s : string) : result FlagValue :=
  match v with
  | StringFlag _ => Ok (StringFlag s)
  | Uint64Flag _ => let? z := ParseUint (bstr s) in Ok (Uint64Flag z)
  end.

Fixpoint flag_lookup (name : string) (f : FlagSet) : option FlagValue :=
  match f with
  | [] => None
  | (n, v) :: f' => if bool_decide (n = name) then Some v else flag_lookup name f'
  end.

Fixpoint flag_update (name : string) (v : FlagValue) (f : FlagSet) : FlagSet :=
  match f with
  | [] => []
  | (n, v0) :: f' => if bool_decide (n = name) then (n, v) :: f' else (n, v0) :: flag_update name v f'
  end.

(** What an argument is: [name=value] is cut at the first [=] after the first
    character of the name. *)
Inductive argument := NotFlag | Terminator | BadSyntax | Flag (name : string) (value : option string).

Fixpoint cut_equals (s : string) : string * option string :=
  match s with
  | EmptyString => (EmptyString, None)
  | String c s' =>
      if bool_decide (c = "="%char) then (EmptyString, Some s')
      else let '(n, v) := cut_equals s' in (String c n, v)
  end.

Definition flag_named (name : string) : argument :=
  match name with
  | EmptyString => BadSyntax
  | String c name' =>
      if bool_decide (c = "-"%char \/ c = "="%char) then BadSyntax
      else let '(n, v) := cut_equals name' in Flag (String c n) v
  end.

Definition argument_of (s : string) : argument :=
  match s with
  | String c0 (String c1 s' as name) =>
      if negb (bool_decide (c0 = "-"%char)) then NotFlag
      else if bool_decide (c1 = "-"%char) then
        match s' with EmptyString => Terminator | _ => flag_named s' end
      else flag_named name
  | _ => NotFlag
  end.

Inductive flag_error := ErrHelp | ErrFlag (msg : string).

(** [parseOne] until it stops. *)
Fixpoint parse_flags (f : FlagSet) (arguments : list string) : flag_error + FlagSet :=
  match arguments with
  | [] => inr f
  | s :: args =>
      match argument_of s with
      | NotFlag | Terminator => inr f
      | BadSyntax => inl (ErrFlag "bad flag syntax")
      | Flag name value =>
          match flag_lookup name f with
          | None =>
              if bool_decide (name = "help"%string \/ name = "h"%string) then inl ErrHelp
              else inl (ErrFlag "flag provided but not defined")
          | Some v =>
              let set s' args := match Set_flag v s' with
                                 | Err _ => inl (ErrFlag "invalid value")
                                 | Ok v' => parse_flags (flag_update name v' f) args
                                 end in
              match value, args with
              | Some s', _ => set s' args
              | None, s' :: args' => set s' args'
              | None, [] => inl (ErrFlag "flag needs an argument")
              end
          end
      end
  end.

(** [Parse] with [flag.ExitOnError]: the exit code, or the flags. *)
Definition Parse (f : FlagSet) (arguments : list string) : Z + FlagSet :=
  match parse_flags f arguments with
  | inr f' => inr f'
  | inl ErrHelp => inl 0
  | inl (ErrFlag _) => inl 2
  end.

Definition flag_string (name : string) (f : FlagSet) : string :=
  match flag_lookup name f with Some (StringFlag s) => s | _ => EmptyString end.

Definition flag_uint64 (name : string) (f : FlagSet) : Z :=
  match flag_lookup name f with Some (Uint64Flag z) => z | _ => 0 end.

(** ** The commands *)
Definition nodeCmd : FlagSet :=
  [("n", StringFlag "mynode"); ("s", StringFlag "3000"); ("c", StringFlag "5000"); ("r", StringFlag "8000")]%string.
Definition genesisCmd : FlagSet := [("n", StringFlag "mynode")]%string.
Definition clientNewCmd : FlagSet := [("n", StringFlag "default")]%string.
Definition addressCmd : FlagSet := [("n", StringFlag "default")]%string.
Definition balanceCmd : FlagSet := [("n", StringFlag "default"); ("p", StringFlag "8000")]%string.
Definition airdropCmd : FlagSet :=
  [("n", StringFlag "default"); ("a", Uint64Flag 1); ("p", StringFlag "8000")]%string.
Definition transferCmd : FlagSet :=
  [("n", StringFlag "default"); ("a", Uint64Flag 1); ("t", StringFlag "default"); ("p", StringFlag "8000")]%string.

Inductive command :=
| CmdGenesis (name : string)
| CmdNode (name syncPort consPort rpcPort : string)
| CmdNew (name : string)
| CmdAddress (name : string)
| CmdBalance (name port : string)
| CmdAirdrop (name : string) (amount : Z) (port : string)
| CmdTransfer (name : string) (amount : Z) (to port : string)
| CmdNone.

(** The process ends with an exit code before it did anything, or goes on to a
    command. *)
Inductive choice := Exit (code : Z) | Go (c : command).

Definition parsed (f : FlagSet) (arguments : list string) (k : FlagSet -> command) : outcome choice :=
  match Parse f arguments with
  | inl code => Done (Exit code)
  | inr f => Done (Go (k f))
  end.

(** [os.Args[2]]. *)
Definition args_2 (os_Args : list string) : outcome string :=
  match os_Args !! 2%nat with
  | Some s => Done s
  | None => Panicked "index out of range"
  end.

Definition choose (os_Args : list string) : outcome choice :=
  if bool_decide (os_Args !! 1%nat = Some "node"%string) then
    let^ sub := args_2 os_Args in
    if bool_decide (sub = "genesis"%string) then
      parsed genesisCmd (drop 3 os_Args) (fun f => CmdGenesis (flag_string "n" f))
    else
      parsed nodeCmd (drop 2 os_Args) (fun f =>
        CmdNode (flag_string "n" f) (flag_string "s" f) (flag_string "c" f) (flag_string "r" f))
  else if bool_decide (os_Args !! 1%nat = Some "client"%string) then
    let^ sub := args_2 os_Args in
    let args := drop 3 os_Args in
    if bool_decide (sub = "new"%string) then
      parsed clientNewCmd args (fun f => CmdNew (flag_string "n" f))
    else if bool_decide (sub = "address"%string) then
      parsed addressCmd args (fun f => CmdAddress (flag_string "n" f))
    else if bool_decide (sub = "balance"%string) then
      parsed balanceCmd args (fun f => CmdBalance (flag_string "n" f) (flag_string "p" f))
    else if bool_decide (sub = "airdrop"%string) then
      parsed airdropCmd args (fun f =>
        CmdAirdrop (flag_string "n" f) (flag_uint64 "a" f) (flag_string "p" f))
    else if bool_decide (sub = "transfer"%string) then
      parsed transferCmd args (fun f =>
        CmdTransfer (flag_string "n" f) (flag_uint64 "a" f) (flag_string "t" f) (flag_string "p" f))
    else Done (Go CmdNone)
  else Done (Go CmdNone).

(** ** Performing them *)

(** What the machine answers during one command: random bytes for keys and for
    the genesis block, errors of files, the clock. *)
Record Machine := mkMachine {
  m_seed : result bytes; m_io_err : option error; m_open_err : option error;
  m_prev : result bytes; m_state : result bytes; m_now : Z
}.

(** [Serving]: the node runs until an error reaches it. *)
Inductive ending `{Bolt} :=
| Returned (err : option error)
| Exited (code : Z)
| Serving (fn : ConsensusService).

Section cli.
Context `{Sha3, Ed25519, Base58, ExpSlices, MapOrder, Bolt}.

(** [w_net] is what lies behind the ports that [dial] reaches. *)
Context {S : Type} (dial : string -> bytes -> M S (result (list bytes))).

Record World := mkWorld {
  w_files : gmap string bytes;
  w_dbs : gmap string DB;
  w_net : S;
  w_out : list string
}.

Definition set_files (x : gmap string bytes) (w : World) : World :=
  mkWorld x (w_dbs w) (w_net w) (w_out w).
Definition set_dbs (x : gmap string DB) (w : World) : World :=
  mkWorld (w_files w) x (w_net w) (w_out w).
Definition set_net (x : S) (w : World) : World :=
  mkWorld (w_files w) (w_dbs w) x (w_out w).

Definition Println (s : string) : M World unit :=
  modify (fun w => mkWorld (w_files w) (w_dbs w) (w_net w) (w_out w ++ [s])).

Definition save_db (name : string) (d : DB) : M World unit :=
  modify (fun w => set_dbs (<[DatabaseFileName name := d]> (w_dbs w)) w).

(** Opening the storage leaves its file, also when what follows fails. *)
Definition open_storage (m : Machine) (name : string) : M World unit :=
  let* w := get in
  match NewStorageService (w_dbs w !! DatabaseFileName name) (m_open_err m) with
  | Done (Ok d) => save_db name d
  | _ => ret tt
  end.

Definition cli_NewWallet (m : Machine) (name : string) : M World (result Wallet) :=
  fun w => let '(r, files) := NewWallet (m_seed m) (m_io_err m) name (w_files w) in
           (Done r, set_files files w).

Definition cli_NewClient (m : Machine) (name : string) : M World (result Client) :=
  fun w => let '(r, files) := NewClient (m_seed m) (m_io_err m) name (w_files w) in
           (Done r, set_files files w).

Definition genesis_command (m : Machine) (name : string) : M World ending :=
  let* w := get in
  let existing := w_dbs w !! DatabaseFileName name in
  let '(gen, files) := NewGenerator existing (m_open_err m) (m_seed m) (m_io_err m) name (w_files w) in
  let* _ := modify (set_files files) in
  let* _ := match existing with Some _ => ret tt | None => open_storage m name end in
  let* gen := lift gen in
  match gen with
  | Err e => ret (Returned (Some e))
  | Ok gen =>
      let '(err, gen) := Generate (m_now m) (m_prev m) (m_state m) gen in
      let* _ := save_db name (gen_storage gen) in
      let* err := lift err in
      match err with
      | Some e => ret (Returned (Some e))
      | None => ret (Exited 0)
      end
  end.

(** The RPC port plays no part: it is given to the node's listener. *)
Definition node_command (m : Machine) (name syncPort consPort rpcPort : string) : M World ending :=
  let* w := get in
  let existing := w_dbs w !! DatabaseFileName name in
  let '(n, files) := NewFullNode existing (m_open_err m) (m_seed m) (m_io_err m) name syncPort consPort (w_files w) in
  let* _ := modify (set_files files) in
  let* _ := open_storage m name in
  let* n := lift n in
  match n with
  | Err e => ret (Returned (Some e))
  | Ok n =>
      let '(r, n) := FullNode_Run (m_now m) n in
      let* _ := save_db name (env_db (exe_env (n_exe (cs_node n)))) in
      let* _ := lift r in
      ret (Serving n)
  end.

Definition new_command (m : Machine) (name : string) : M World ending :=
  let* w := cli_NewWallet m name in
  match w with
  | Err e => ret (Returned (Some e))
  | Ok _ => ret (Returned None)
  end.

Definition address_command (m : Machine) (name : string) : M World ending :=
  let* w := cli_NewWallet m name in
  match w with
  | Err e => ret (Returned (Some e))
  | Ok w =>
      let* _ := Println (Encode (raw (Wallet_PublicKey w))) in
      ret (Returned None)
  end.

(** Call a client's method, which talks to the network. *)
Definition on_net {A} (f : M S A) : M World A := zoom w_net set_net f.

Definition balance_command (m : Machine) (name port : string) : M World ending :=
  let* c := cli_NewClient m name in
  match c with
  | Err e => ret (Returned (Some e))
  | Ok c =>
      let* state := on_net (GetAccountInfo dial port c) in
      match state with
      | Err e => ret (Returned (Some e))
      | Ok state =>
          let* _ := Println (String.string_of_list_byte (format_uint (st_Balance state))) in
          ret (Returned None)
      end
  end.

(** [res, err := ...; fmt.Println(res); return err]: an error comes with an
    empty [res]. *)
Definition print_and_return (r : result string) : M World ending :=
  match r with
  | Ok res => let* _ := Println res in ret (Returned None)
  | Err e => let* _ := Println EmptyString in ret (Returned (Some e))
  end.

Definition airdrop_command (m : Machine) (name : string) (amount : Z) (port : string) : M World ending :=
  let* c := cli_NewClient m name in
  match c with
  | Err e => ret (Returned (Some e))
  | Ok c =>
      let* r := on_net (Client_Airdrop dial (m_now m) amount port c) in
      print_and_return (fst r)
  end.

Definition transfer_command (m : Machine) (name : string) (amount : Z) (to port : string) : M World ending :=
  let* c := cli_NewClient m name in
  match c with
  | Err e => ret (Returned (Some e))
  | Ok c =>
      let* r := on_net (Client_Transfer dial (m_now m) amount to port c) in
      print_and_return (fst r)
  end.

Definition perform (m : Machine) (c : command) : M World ending :=
  match c with
  | CmdGenesis name => genesis_command m name
  | CmdNode name syncPort consPort rpcPort => node_command m name syncPort consPort rpcPort
  | CmdNew name => new_command m name
  | CmdAddress name => address_command m name
  | CmdBalance name port => balance_command m name port
  | CmdAirdrop name amount port => airdrop_command m name amount port
  | CmdTransfer name amount to port => transfer_command m name amount to port
  | CmdNone => ret (Returned None)
  end.

Definition printUsage : M World unit :=
  let* _ := Println "" in
  let* _ := Println "usage:" in
  let* _ := Println " node -n name -s SyncPort -c ConsensusPort -r RpcPort" in
  let* _ := Println "  genesis -n name" in
  let* _ := Println " client" in
  let* _ := Println "  new -n Name" in
  let* _ := Println "  address -n Name" in
  let* _ := Println "  balance -n Name -p Port" in
  let* _ := Println "  airdrop -n Name -a Amount -p Port" in
  Println "  transfer -n Name -a Amount -t To -p Port".

(** A parse error exits inside [Parse], so [exit] runs for missing arguments
    only. *)
Definition Run (m : Machine) (os_Args : list string) : M World ending :=
  if len os_Args <? 2 then let* _ := printUsage in ret (Exited 0)
  else
    let* _ := Println "" in
    let* c := lift (choose os_Args) in
    match c with
    | Exit code => ret (Exited code)
    | Go c => perform m c
    end.

(** [main]: an error of [Run] panics. *)
Definition main (m : Machine) (os_Args : list string) : M World ending :=
  let* e := Run m os_Args in
  match e with
  | Returned (Some err) => panic err
  | e => ret e
  end.
End cli.
