(* ===== verification/CliProps.v ===== *)
(** The command line: which command a line selects, with which values, and
    what the commands do to the machine and to the nodes they reach. *)
From S2P Require Import Prelude Json JsonLaws Common External Accounts Txs Blocks Memory MemoryFacts.
From S2P Require Import Ledger Storage StorageFacts StorageProps Executers ExecuterFacts BlockExec Settlement.
From S2P Require Import ExecutionProps ProducerProps P2p P2pProps Node NodeFacts SyncProps Server.
From S2P Require Import ServerProps NetworkProps.
From S2P Require Import Consensus ConsensusFacts FullNode FullNodeProps Cli.
Open Scope Z_scope.

(** ** Numbers *)
Lemma is_digit_value c : is_digit c = true -> digit_value c = Some (Z_of_byte c - 48) /\ c <> x5f
  /\ 0 <= Z_of_byte c - 48 < 10.
Proof.
  intros Hd. unfold digit_value. fold (is_digit c). rewrite Hd. split; [done|].
  unfold is_digit, between in Hd. split_andb. split; [|lia]. intros ->. cbn in *. lia.
Qed.

Definition dec_from (n : Z) (l : bytes) : Z := fold_left (fun acc c => acc * 10 + (Z_of_byte c - 48)) l n.

Lemma dec_from_ge l n : Forall (fun c => is_digit c = true) l -> 0 <= n -> n <= dec_from n l.
Proof.
  revert n. induction l as [|c l IH]; intros n Hl Hn; [unfold dec_from; cbn; lia|].
  inversion Hl as [|? ? Hc Hl']; subst. destruct (is_digit_value c Hc) as (_ & _ & Hd).
  change (dec_from n (c :: l)) with (dec_from (n * 10 + (Z_of_byte c - 48)) l).
  etransitivity; [|apply IH; [done|lia]]. lia.
Qed.

Lemma parse_digits_dec l n : Forall (fun c => is_digit c = true) l -> in_u64 n ->
  parse_digits 10 l n false
  = if dec_from n l <? 2 ^ 64 then Ok (dec_from n l, false) else Err "value out of range".
Proof.
  revert n. induction l as [|c l IH]; intros n Hl Hn.
  { cbn. unfold in_u64 in Hn. by rewrite (proj2 (Z.ltb_lt n (2 ^ 64)) (proj2 Hn)). }
  inversion Hl as [|? ? Hc Hl']; subst. destruct (is_digit_value c Hc) as (Hv & Hu & Hd).
  change (dec_from n (c :: l)) with (dec_from (n * 10 + (Z_of_byte c - 48)) l).
  set (d := Z_of_byte c - 48) in *. pose proof (dec_from_ge l (n * 10 + d) Hl' ltac:(unfold in_u64 in *; lia)) as Hge.
  cbn [parse_digits]. rewrite bool_decide_false by done. rewrite Hv.
  destruct (10 <=? d) eqn:E; [lia|]. clear E. change (Z.quot (2 ^ 64 - 1) 10 + 1) with 1844674407370955162.
  unfold in_u64 in Hn. destruct (1844674407370955162 <=? n) eqn:E.
  { destruct (dec_from _ l <? 2 ^ 64) eqn:E'; [lia|done]. }
  rewrite (u64_small (n * 10)) by (unfold in_u64; lia).
  destruct (Z_lt_dec (n * 10 + d) (2 ^ 64)) as [Hlt|Hge'].
  - rewrite u64_small by (unfold in_u64; lia). destruct (n * 10 + d <? n * 10) eqn:E'; [lia|].
    apply IH; [done|unfold in_u64; lia].
  - assert (u64 (n * 10 + d) = n * 10 + d - 2 ^ 64) as ->
      by (unfold u64; rewrite <- (Z.mod_add _ (-1)), Z.mod_small by lia; lia).
    destruct (_ <? n * 10) eqn:E'; [|lia]. destruct (dec_from _ l <? 2 ^ 64) eqn:E''; [lia|done].
Qed.

(** A decimal number as [strconv] reads it: every [uint64], and nothing above. *)
Lemma ParseUint_dec z : 0 <= z ->
  ParseUint (format_uint z) = if z <? 2 ^ 64 then Ok z else Err "value out of range".
Proof.
  intros Hz. destruct (format_uint_spec z Hz) as (Hall & (c & l & Heq & H0) & Hval).
  assert (number_base (format_uint z) = (10, format_uint z) \/ z = 0) as [Hb| ->].
  { rewrite Heq. destruct (decide (c = x30)) as [->|Hne]; [|left; by destruct c].
    rewrite H0 in Heq by done. right. rewrite Heq in Hval. by rewrite <- Hval. }
  2: { by vm_compute. }
  unfold ParseUint. rewrite Hb. rewrite parse_digits_dec by (done || unfold in_u64; lia).
  change (dec_from 0 (format_uint z)) with (dec_value (format_uint z)). rewrite Hval, Heq.
  by destruct (z <? 2 ^ 64).
Qed.

(** ** Flags *)

(** A value as a user writes it. *)
Definition printed (v : FlagValue) : string :=
  match v with StringFlag s => s | Uint64Flag z => String.string_of_list_byte (format_uint z) end.

(** [v] can be written for a flag whose value was [v0]. *)
Definition fits (v v0 : FlagValue) : Prop :=
  match v, v0 with
  | StringFlag _, StringFlag _ => True
  | Uint64Flag z, Uint64Flag _ => in_u64 z
  | _, _ => False
  end.

Lemma Set_flag_printed v v0 : fits v v0 -> Set_flag v0 (printed v) = Ok v.
Proof.
  destruct v as [s|z], v0 as [s0|z0]; try done. intros Hz. unfold Set_flag, printed, bstr.
  rewrite String.list_byte_of_string_of_list_byte, ParseUint_dec by apply Hz.
  by rewrite (proj2 (Z.ltb_lt _ _) (proj2 Hz)).
Qed.

(** The arguments that set flags, one after the other; the last setting of a
    flag is the one that counts. *)
Fixpoint option_args (l : list (string * FlagValue)) : list string :=
  match l with
  | [] => []
  | (n, v) :: l' => ("-" ++ n)%string :: printed v :: option_args l'
  end.

Fixpoint set_all (l : list (string * FlagValue)) (f : FlagSet) : FlagSet :=
  match l with
  | [] => f
  | (n, v) :: l' => set_all l' (flag_update n v f)
  end.

Definition settable (f : FlagSet) (o : string * FlagValue) : Prop :=
  argument_of ("-" ++ o.1)%string = Flag o.1 None
  /\ exists v0, flag_lookup o.1 f = Some v0 /\ fits o.2 v0.

Lemma flag_lookup_update n n' v f : flag_lookup n (flag_update n' v f)
  = if bool_decide (n' = n) then (fun _ => v) <$> flag_lookup n f else flag_lookup n f.
Proof.
  induction f as [|[n0 v0] f IH]; cbn; [by case_bool_decide|].
  destruct (decide (n0 = n')) as [->|Hne].
  - rewrite !(bool_decide_true (n' = n')) by done. cbn. by case_bool_decide.
  - rewrite (bool_decide_false (n0 = n')) by done. cbn. destruct (decide (n0 = n)) as [->|Hn].
    + rewrite !(bool_decide_true (n = n)) by done. by rewrite bool_decide_false by done.
    + rewrite !(bool_decide_false (n0 = n)) by done. exact IH.
Qed.

Lemma fits_trans v v0 v1 : fits v v0 -> fits v1 v0 -> fits v1 v.
Proof. by destruct v, v0, v1. Qed.

Lemma settable_update f o n v v0 : flag_lookup n f = Some v0 -> fits v v0 ->
  settable f o -> settable (flag_update n v f) o.
Proof.
  intros Hl Hf (Ha & v1 & Hv1 & Hf1). split; [done|]. rewrite flag_lookup_update.
  case_bool_decide as E; [subst|by exists v1]. rewrite Hv1. exists v. split; [done|].
  rewrite Hl in Hv1. injection Hv1 as <-. by eapply fits_trans.
Qed.

Lemma parse_option_args l f rest : Forall (settable f) l ->
  parse_flags f (option_args l ++ rest) = parse_flags (set_all l f) rest.
Proof.
  revert f. induction l as [|[n v] l IH]; intros f Hl; [done|].
  inversion Hl as [|? ? (Ha & v0 & Hv0 & Hfit) Hl']; subst. cbn [fst snd] in *.
  cbn [option_args app parse_flags set_all]. rewrite Ha, Hv0, Set_flag_printed by done.
  apply IH. eapply Forall_impl; [exact Hl'|]. intros o. by apply settable_update with v0.
Qed.

(** The value a flag ends with. *)
Definition given (n : string) (l : list (string * FlagValue)) (f : FlagSet) : option FlagValue :=
  match last (List.filter (fun o => bool_decide (o.1 = n)) l) with
  | Some o => Some o.2
  | None => flag_lookup n f
  end.

Lemma set_all_lookup n l f : Forall (settable f) l -> flag_lookup n (set_all l f) = given n l f.
Proof.
  revert f. induction l as [|[n' v] l IH]; intros f Hl; [done|].
  inversion Hl as [|? ? (Ha & v0 & Hv0 & Hfit) Hl']; subst. cbn [fst snd] in *. cbn [set_all].
  rewrite IH by (eapply Forall_impl; [exact Hl'|]; intros o; by apply settable_update with v0).
  unfold given. cbn [List.filter fst]. rewrite flag_lookup_update. case_bool_decide as E; [subst|done].
  rewrite Hv0. destruct (List.filter _ l) as [|o l0]; [done|]. rewrite last_cons_cons.
  destruct (last (o :: l0)) eqn:El; [done|by apply last_None in El].
Qed.

(** A number stays one. *)
Lemma settable_number n l f : (exists z, flag_lookup n f = Some (Uint64Flag z)) -> Forall (settable f) l ->
  exists z, flag_lookup n (set_all l f) = Some (Uint64Flag z).
Proof.
  revert f. induction l as [|[n' v] l IH]; intros f [z Hz] Hl; [by exists z|].
  inversion Hl as [|? ? (Ha & v0 & Hv0 & Hfit) Hl']; subst. cbn [fst snd set_all] in *. apply IH.
  - rewrite flag_lookup_update. case_bool_decide as E; [subst|by exists z].
    rewrite Hz in Hv0 |- *. injection Hv0 as <-. destruct v as [|z']; [done|by exists z'].
  - eapply Forall_impl; [exact Hl'|]. intros o. by apply settable_update with v0.
Qed.

(** ** Commands *)
Inductive verb := VGenesis | VNode | VNew | VAddress | VBalance | VAirdrop | VTransfer.

Definition verb_words (v : verb) : list string :=
  match v with
  | VGenesis => ["node"; "genesis"]
  | VNode => ["node"]
  | VNew => ["client"; "new"]
  | VAddress => ["client"; "address"]
  | VBalance => ["client"; "balance"]
  | VAirdrop => ["client"; "airdrop"]
  | VTransfer => ["client"; "transfer"]
  end%string.

Definition verb_flags (v : verb) : FlagSet :=
  match v with
  | VGenesis => genesisCmd
  | VNode => nodeCmd
  | VNew => clientNewCmd
  | VAddress => addressCmd
  | VBalance => balanceCmd
  | VAirdrop => airdropCmd
  | VTransfer => transferCmd
  end.

Definition as_string (v : option FlagValue) : string :=
  match v with Some (StringFlag s) => s | _ => EmptyString end.
Definition as_uint64 (v : option FlagValue) : Z :=
  match v with Some (Uint64Flag z) => z | _ => 0 end.

(** The command of a verb whose flags have the values [val]. *)
Definition verb_command (v : verb) (val : string -> option FlagValue) : command :=
  let s n := as_string (val n) in
  match v with
  | VGenesis => CmdGenesis (s "n")
  | VNode => CmdNode (s "n") (s "s") (s "c") (s "r")
  | VNew => CmdNew (s "n")
  | VAddress => CmdAddress (s "n")
  | VBalance => CmdBalance (s "n") (s "p")
  | VAirdrop => CmdAirdrop (s "n") (as_uint64 (val "a")) (s "p")
  | VTransfer => CmdTransfer (s "n") (as_uint64 (val "a")) (s "t") (s "p")
  end%string.

(** [node] alone, without any flag, is a line of two words. *)
Definition enough (v : verb) (args : list string) : Prop := v = VNode -> args <> [].

Lemma choose_verb v prog args : enough v args -> (v = VNode -> hd EmptyString args <> "genesis"%string) ->
  choose (prog :: verb_words v ++ args)
  = parsed (verb_flags v) args (fun f => verb_command v (fun n => flag_lookup n f)).
Proof.
  intros He Hg. destruct v; try reflexivity. destruct args as [|a args]; [by destruct (He eq_refl)|].
  transitivity (if bool_decide (a = "genesis"%string)
    then parsed genesisCmd args (fun f => CmdGenesis (flag_string "n" f))
    else parsed nodeCmd (a :: args) (fun f =>
           CmdNode (flag_string "n" f) (flag_string "s" f) (flag_string "c" f) (flag_string "r" f))); [reflexivity|].
  by rewrite bool_decide_false by (by apply Hg).
Qed.

Lemma option_args_node l : hd EmptyString (option_args l) <> "genesis"%string.
Proof. destruct l as [|[n v] l]; done. Qed.

Lemma enough_options v (l : list (string * FlagValue)) rest : enough v (map fst l) -> enough v (option_args l ++ rest).
Proof. intros He E. destruct l as [|[] ?]; [by destruct (He E)|done]. Qed.

Lemma choose_options v prog l : Forall (settable (verb_flags v)) l -> enough v (map fst l) ->
  choose (prog :: verb_words v ++ option_args l)
  = Done (Go (verb_command v (fun n => given n l (verb_flags v)))).
Proof.
  intros Hl He. rewrite <- (app_nil_r (option_args l)).
  rewrite choose_verb by (by apply enough_options || (intros _; rewrite app_nil_r; apply option_args_node)).
  unfold parsed, Parse. rewrite parse_option_args by done. cbn [parse_flags]. do 2 f_equal.
  by destruct v; cbn; unfold as_string, as_uint64; rewrite ?set_all_lookup.
Qed.

(** Every declared flag can be written with one dash. *)
Lemma declared_plain v n v0 : flag_lookup n (verb_flags v) = Some v0 -> argument_of ("-" ++ n)%string = Flag n None.
Proof. intros Hl. destruct v; cbn in Hl; repeat (case_bool_decide; [by subst|]); done. Qed.

(** Options a user may give to a verb: declared, and numbers in range. *)
Definition options_ok (v : verb) (l : list (string * FlagValue)) : Prop :=
  Forall (fun o => exists v0, flag_lookup o.1 (verb_flags v) = Some v0 /\ fits o.2 v0) l.

(** Options written out: their flags are declared, and strings fit. *)
Ltac solve_options :=
  try (intros ?; discriminate); unfold options_ok; repeat (apply Forall_cons; split; [eexists; split; [reflexivity|]|]);
  try apply Forall_nil_2; try exact I.

Lemma options_settable v l : options_ok v l -> Forall (settable (verb_flags v)) l.
Proof.
  intros Hl. eapply Forall_impl; [exact Hl|]. intros o (v0 & Hv0 & Hf). split; [by eapply declared_plain|by exists v0].
Qed.

Lemma set_all_undeclared n l f : flag_lookup n f = None -> flag_lookup n (set_all l f) = None.
Proof.
  revert f. induction l as [|[n' v] l IH]; intros f Hn; [done|]. cbn [set_all]. apply IH.
  rewrite flag_lookup_update, Hn. by case_bool_decide.
Qed.

Lemma set_all_declared n l f : is_Some (flag_lookup n f) -> is_Some (flag_lookup n (set_all l f)).
Proof.
  revert f. induction l as [|[n' v] l IH]; intros f Hn; [done|]. cbn [set_all]. apply IH.
  rewrite flag_lookup_update. case_bool_decide; [|done]. destruct Hn as [v0 ->]. by eexists.
Qed.

(** A line that names no verb, and is not cut short, selects nothing. *)
Lemma choose_unnamed args : (forall v prog rest, args <> prog :: verb_words v ++ rest) ->
  (forall prog, args <> [prog; "client"%string]) -> choose args = Done (Go CmdNone).
Proof.
  intros Hv Hc. destruct args as [|p [|a rest]]; [done|done|]. unfold choose.
  change ((p :: a :: rest) !! 1%nat) with (Some a). rewrite bool_decide_false by (intros [= ->]; by apply (Hv VNode p rest)).
  destruct (decide (a = "client"%string)) as [->|Ha]; [|by rewrite bool_decide_false by congruence].
  rewrite bool_decide_true by done. destruct rest as [|b rest]; [by destruct (Hc p)|].
  change (args_2 (p :: "client"%string :: b :: rest)) with (@Done string b). cbn [outcome_bind].
  rewrite bool_decide_false by (intros ->; by apply (Hv VNew p rest)).
  rewrite bool_decide_false by (intros ->; by apply (Hv VAddress p rest)).
  rewrite bool_decide_false by (intros ->; by apply (Hv VBalance p rest)).
  rewrite bool_decide_false by (intros ->; by apply (Hv VAirdrop p rest)).
  by rewrite bool_decide_false by (intros ->; by apply (Hv VTransfer p rest)).
Qed.

(** ** Performing commands *)
Section cli_facts.
Context `{Sha3, Ed25519, Base58, ExpSlices, MapOrder, Bolt}.
Context `{!Sha3Laws, !Ed25519Laws, !Base58Laws, !ExpSlicesLaws, !MapOrderLaws, !BoltLaws}.
Context {S : Type} (dial : string -> bytes -> M S (result (list bytes))).

Definition printing (l : list string) (w : World (S := S)) : World :=
  mkWorld (w_files w) (w_dbs w) (w_net w) (w_out w ++ l).

Lemma printing_app l l' w : printing l' (printing l w) = printing (l ++ l') w.
Proof. unfold printing. cbn. by rewrite app_assoc. Qed.

Definition usage : list string :=
  [""; "usage:"; " node -n name -s SyncPort -c ConsensusPort -r RpcPort"; "  genesis -n name"; " client";
   "  new -n Name"; "  address -n Name"; "  balance -n Name -p Port"; "  airdrop -n Name -a Amount -p Port";
   "  transfer -n Name -a Amount -t To -p Port"]%string.

Lemma printUsage_run w : printUsage w = (Done tt, printing usage w).
Proof.
  assert (forall s w, Println s w = (Done tt, printing [s] w)) as Hp by done.
  unfold printUsage. do 9 rewrite (bind_done _ _ _ _ _ (Hp _ _)). by rewrite Hp, !printing_app.
Qed.

Lemma Run_chosen m args (w : World (S := S)) : 2 <= len args ->
  Run dial m args w = (let* c := lift (choose args) in
                       match c with Exit code => ret (Exited code) | Go c => perform dial m c end)
                      (printing [""%string] w).
Proof. intros Hl. unfold Run. rewrite (proj2 (Z.ltb_ge _ _) Hl). done. Qed.

Lemma Run_verb m v prog l (w : World (S := S)) : options_ok v l -> enough v (map fst l) ->
  Run dial m (prog :: verb_words v ++ option_args l) w
  = perform dial m (verb_command v (fun n => given n l (verb_flags v))) (printing [""%string] w).
Proof.
  intros Hl He. rewrite Run_chosen.
  - unfold bind, lift. by rewrite choose_options by (by try apply options_settable).
  - unfold len. destruct v; cbn; lia.
Qed.

(** What the arguments after a verb lead to. *)
Definition obey (m : Machine) (v : verb) (r : flag_error + FlagSet) : M (World (S := S)) ending :=
  match r with
  | inl ErrHelp => ret (Exited 0)
  | inl (ErrFlag _) => ret (Exited 2)
  | inr f => perform dial m (verb_command v (fun n => flag_lookup n f))
  end.

Lemma Run_parsed m v prog args (w : World (S := S)) : enough v args ->
  (v = VNode -> hd EmptyString args <> "genesis"%string) ->
  Run dial m (prog :: verb_words v ++ args) w = obey m v (parse_flags (verb_flags v) args) (printing [""%string] w).
Proof.
  intros He Hg. rewrite Run_chosen.
  - unfold bind, lift. rewrite choose_verb by done. unfold parsed, Parse, obey.
    destruct (parse_flags _ _) as [[|msg]|f]; done.
  - unfold len. destruct v; cbn; lia.
Qed.

(** After options that can be set, the next argument decides. *)
Lemma Run_after m v prog l s rest (w : World (S := S)) : options_ok v l -> argument_of s <> NotFlag ->
  Run dial m (prog :: verb_words v ++ option_args l ++ s :: rest) w
  = obey m v (parse_flags (set_all l (verb_flags v)) (s :: rest)) (printing [""%string] w).
Proof.
  intros Hl Hs. rewrite Run_parsed.
  - by rewrite parse_option_args by (by apply options_settable).
  - intros _. by destruct l as [|[]].
  - intros _. destruct l as [|[n v'] l]; [|done]. cbn. by intros ->.
Qed.

(** The key file of an account, as [NewWallet] writes it. *)
Definition account_file (name : string) (kp : KeyPair) (files : gmap string bytes) : Prop :=
  (exists seed, GenerateKey (Ok seed) = Ok kp)
  /\ exists enc, Marshal kp = Ok enc /\ files !! (name ++ ".key")%string = Some enc.

Lemma NewWallet_file seed name kp files : account_file name kp files ->
  NewWallet seed None name files = (Ok (fromKeyPair kp), files) /\ wallet_ok (fromKeyPair kp).
Proof.
  intros [Hk (enc & Hm & Hf)]. split; [|exact Hk]. unfold NewWallet. rewrite Hf.
  assert (Unmarshal enc = Ok kp) as -> by (by apply Unmarshal_Marshal). done.
Qed.

Lemma cli_NewClient_run m name kp (w : World (S := S)) : m_io_err m = None -> account_file name kp (w_files w) ->
  cli_NewClient m name w = (Done (Ok (mkClient name (fromKeyPair kp))), w).
Proof.
  intros Hio Hf. unfold cli_NewClient, NewClient. rewrite Hio.
  destruct (NewWallet_file (m_seed m) name kp _ Hf) as [-> _]. by destruct w.
Qed.

Lemma on_net_run {A} (f : M S A) w a s : f (w_net w) = (Done a, s) -> on_net f w = (Done a, set_net s w).
Proof. intros Hf. unfold on_net, zoom. by rewrite Hf. Qed.

Lemma transfer_run m name amount to port kp (w : World (S := S)) res c' s : m_io_err m = None ->
  account_file name kp (w_files w) ->
  Client_Transfer dial (m_now m) amount to port (mkClient name (fromKeyPair kp)) (w_net w)
    = (Done (Ok res, c'), s) ->
  transfer_command dial m name amount to port w = (Done (Returned None), set_net s (printing [res] w)).
Proof.
  intros Hio Hf Hc. unfold transfer_command.
  rewrite (bind_done _ _ _ _ _ (cli_NewClient_run _ _ _ _ Hio Hf)).
  by rewrite (bind_done _ _ _ _ _ (on_net_run _ _ _ _ Hc)).
Qed.

Lemma balance_run m name port kp (w : World (S := S)) st s : m_io_err m = None -> account_file name kp (w_files w) ->
  GetAccountInfo dial port (mkClient name (fromKeyPair kp)) (w_net w) = (Done (Ok st), s) ->
  balance_command dial m name port w
  = (Done (Returned None), set_net s (printing [printed (Uint64Flag (st_Balance st))] w)).
Proof.
  intros Hio Hf Hc. unfold balance_command.
  rewrite (bind_done _ _ _ _ _ (cli_NewClient_run _ _ _ _ Hio Hf)).
  by rewrite (bind_done _ _ _ _ _ (on_net_run _ _ _ _ Hc)).
Qed.

(** A first command on a new name leaves its key file. *)
Lemma NewWallet_writes seed name files wal files1 : files !! (name ++ ".key")%string = None ->
  NewWallet seed None name files = (Ok wal, files1) ->
  account_file name (keyPair wal) files1 /\ wal = fromKeyPair (keyPair wal).
Proof.
  unfold NewWallet. intros Hf Hn. rewrite Hf in Hn. destruct seed as [s|]; [|done].
  destruct (GenerateKey (Ok s)) as [key|] eqn:Ek; [|done].
  destruct (Marshal key) as [enc|] eqn:Em; [|done]. injection Hn as <- <-. split; [|done].
  split; [by exists s|]. exists enc. split; [done|]. apply lookup_insert_eq.
Qed.

Lemma genesis_command_run m name (w : World (S := S)) gen files gen' : m_io_err m = None -> m_open_err m = None ->
  w_dbs w !! DatabaseFileName name = None ->
  NewGenerator None None (m_seed m) None name (w_files w) = (Done (Ok gen), files) ->
  Generate (m_now m) (m_prev m) (m_state m) gen = (Done None, gen') ->
  exists w', genesis_command m name w = (Done (Exited 0), w') /\ w_files w' = files /\ w_net w' = w_net w
    /\ w_out w' = w_out w /\ w_dbs w' = <[DatabaseFileName name := gen_storage gen']> (w_dbs w).
Proof.
  intros Hio Hop Hdb Hgen Hrun. unfold genesis_command. unfold bind at 1, get. rewrite Hdb, Hio, Hop, Hgen.
  destruct (NewStorageService None None) as [[d|]| |] eqn:Hd; try (unfold NewGenerator in Hgen; by rewrite Hd in Hgen).
  unfold bind at 1, modify. unfold bind at 1, open_storage. unfold bind at 1, get. cbn [set_files w_dbs].
  rewrite Hdb, Hop, Hd. unfold bind at 1, lift. unfold save_db, modify. rewrite Hrun. unfold bind, lift, ret.
  eexists. split; [done|]. cbn. split_and!; try done. by rewrite insert_insert_eq.
Qed.

Lemma node_command_run m name sp cp rp (w : World (S := S)) d fn files fn' : m_io_err m = None -> m_open_err m = None ->
  w_dbs w !! DatabaseFileName name = Some d ->
  NewFullNode (Some d) None (m_seed m) None name sp cp (w_files w) = (Done (Ok fn), files) ->
  FullNode_Run (m_now m) fn = (Done tt, fn') ->
  exists w', node_command m name sp cp rp w = (Done (Serving fn'), w') /\ w_files w' = files
    /\ w_net w' = w_net w /\ w_out w' = w_out w
    /\ w_dbs w' = <[DatabaseFileName name := ndb (cs_node fn')]> (w_dbs w).
Proof.
  intros Hio Hop Hdb Hnew Hrun. unfold node_command. unfold bind at 1, get. rewrite Hdb, Hio, Hop, Hnew.
  unfold bind at 1, modify. unfold bind at 1, open_storage. unfold bind at 1, get. cbn [set_files w_dbs].
  rewrite Hdb, Hop. unfold bind at 1, save_db, lift, modify. cbn. rewrite Hrun. unfold bind, ret.
  eexists. split; [done|]. cbn. split_and!; try done. by rewrite insert_insert_eq.
Qed.

(** The name is taken once the database is there. *)
Lemma genesis_taken m name (w : World (S := S)) d : w_dbs w !! DatabaseFileName name = Some d ->
  genesis_command m name w = (Done (Returned (Some "file already exist"%string)), w).
Proof.
  intros Hdb. unfold genesis_command. unfold bind at 1, get. rewrite Hdb. unfold NewGenerator.
  unfold bind, modify, lift, ret. by destruct w.
Qed.
End cli_facts.

(** * Properties *)
Section cli_properties.
Context `{Sha3, Ed25519, Base58, ExpSlices, MapOrder, Bolt}.
Context `{!Sha3Laws, !Ed25519Laws, !Base58Laws, !ExpSlicesLaws, !MapOrderLaws, !BoltLaws}.

(** C14: the command line is read back as it was written: the words of a
    command followed by any of its flags, in any order, each as often as one
    likes, select that command with the last value given to each flag, and the
    default of a flag that was not given.  Strings are taken as they are, and a
    number in decimal stands for itself. *)
Theorem usage_selects_command v prog l : options_ok v l -> (v = VNode -> l <> []) ->
  choose (prog :: verb_words v ++ option_args l)
  = Done (Go (verb_command v (fun n => given n l (verb_flags v)))).
Proof.
  intros Hl He. apply choose_options; [by apply options_settable|].
  intros E. specialize (He E). by destruct l.
Qed.

(** C27: what a wrong command line does.  Without a command the usage is printed
    and the process exits with 0; [node] or [client] alone panics; a line that
    names no command ends without an error; and none of these does anything
    else than print.  A line that names a command exits, when its flags cannot
    be read, before anything is done: with 0 when it asks for help, with 2 when
    a flag is not declared, lacks its value, or is given a number of [2^64] or
    more. *)
Theorem command_line_errors {S} (dial : string -> bytes -> M S (result (list bytes))) m w :
  (forall args, len args < 2 -> Run dial m args w = (Done (Exited 0), printing usage w))
  /\ (forall prog word, word = "node"%string \/ word = "client"%string ->
        Run dial m [prog; word] w = (Panicked "index out of range", printing [""%string] w))
  /\ (forall args, 2 <= len args -> (forall v prog rest, args <> prog :: verb_words v ++ rest) ->
        (forall prog, args <> [prog; "client"%string]) ->
        Run dial m args w = (Done (Returned None), printing [""%string] w))
  /\ forall v prog l, options_ok v l ->
      let line args := prog :: verb_words v ++ option_args l ++ args in
      (forall n val s rest, argument_of s = Flag n val -> flag_lookup n (verb_flags v) = None ->
         let code := if bool_decide (n = "help"%string \/ n = "h"%string) then 0 else 2 in
         Run dial m (line (s :: rest)) w = (Done (Exited code), printing [""%string] w))
      /\ (forall n, is_Some (flag_lookup n (verb_flags v)) ->
            Run dial m (line ["-" ++ n]%string) w = (Done (Exited 2), printing [""%string] w))
      /\ (forall z rest, v = VAirdrop \/ v = VTransfer -> 2 ^ 64 <= z ->
            Run dial m (line ("-a"%string :: String.string_of_list_byte (format_uint z) :: rest)) w
            = (Done (Exited 2), printing [""%string] w)).
Proof.
  split_and!.
  - intros args Hl. unfold Run. rewrite (proj2 (Z.ltb_lt _ _) Hl). by rewrite (bind_done _ _ _ _ _ (printUsage_run w)).
  - intros prog word Hw. rewrite Run_chosen by done. by destruct Hw as [-> | ->].
  - intros args Hl Hv Hc. rewrite Run_chosen by done. by rewrite choose_unnamed.
  - intros v prog l Hl line. unfold line. split_and!.
    + intros n val s rest Hs Hn. rewrite Run_after by congruence. cbn [parse_flags].
      rewrite Hs, set_all_undeclared by done. by case_bool_decide.
    + intros n Hn. pose proof Hn as [v0 Hv0]. rewrite Run_after by (by rewrite ?(declared_plain _ _ _ Hv0)).
      cbn [parse_flags]. rewrite (declared_plain _ _ _ Hv0).
      by destruct (set_all_declared n l _ Hn) as [v1 ->].
    + intros z rest Hv Hz. rewrite Run_after by done. cbn [parse_flags].
      change (argument_of "-a") with (Flag "a" None). cbv iota.
      destruct (settable_number "a" l (verb_flags v)) as [z0 ->];
        [by destruct Hv as [-> | ->]; eexists|by apply options_settable|].
      unfold Set_flag, bstr. rewrite String.list_byte_of_string_of_list_byte, ParseUint_dec by lia.
      by rewrite (proj2 (Z.ltb_ge _ _)) by lia.
Qed.

(** C13: what a client's commands do, over a connection that delivers each
    side's bytes in one piece: [balance] prints the balance the node's database
    has for the key in the account's file; [transfer] makes the node take a
    transaction that verifies, carries this key and the next nonce and asks for
    the transfer on the command line, and prints [ok], or an empty line if the
    pool has this transaction already.  The node's ledger and the files are
    untouched. *)
Theorem client_lines_served m prog name amount to port kp n gen key (w : World (S := Node)) :
  node_ok n gen -> peers_ok (n_p2p n) -> w_net w = n ->
  account_file name kp (w_files w) -> PublicKey kp = Some key -> m_io_err m = None ->
  (forall v, bolt_get (ndb n) accountsBucket key = Some v -> len v < 2 ^ 31) ->
  is_key (Decode to) -> 0 < amount < GeneratorBalance -> in_s64 (m_now m) -> 0 < m_now m ->
  let st := stored (ndb n) key in
  let decimal z := String.string_of_list_byte (format_uint z) in
  Run dial_node m [prog; "client"; "balance"; "-n"; name; "-p"; port]%string w
    = (Done (Returned None), printing [""%string; decimal (st_Balance st)] w)
  /\ exists tx, Transaction_Verify tx = Done (Ok true) /\ td_PublicKey (tx_InnerData tx) = Some key
    /\ td_Nonce (tx_InnerData tx) = st_Nonce st /\ decode_op tx = Some (OpTransfer (Decode to) amount)
    /\ let run := Run dial_node m [prog; "client"; "transfer"; "-n"; name; "-a"; decimal amount;
                                    "-t"; to; "-p"; port]%string w in
       if ContainsTx (tx_Hash tx) (nmem n) then run = (Done (Returned None), printing [""; ""]%string w)
       else exists s', run = (Done (Returned None), set_net (submitted tx s' n) (printing [""; "ok"]%string w))
            /\ node_ok (submitted tx s' n) gen /\ ledger s' = nledger n
            /\ pool_of s' = Mempool_Append tx (pool_of (nmem n)).
Proof.
  intros Hn Hps Hw Hf Hpk Hio Hsmall Kto Ha Hs64 Hnow st decimal.
  destruct (NewWallet_file (m_seed m) name kp _ Hf) as [_ Hwok]. pose proof (no_settled _ _ Hn) as Hs.
  assert (is_key key) as Kk by (destruct (SignRaw_ok (fromKeyPair kp) None Hwok) as (pk & _ & Hpk' & Kpk & _);
    unfold Wallet_PublicKey in Hpk'; cbn in Hpk'; congruence).
  set (c := mkClient name (fromKeyPair kp)).
  assert (GetAccountInfo dial_node port c n = (Done (Ok st), n)) as Hinfo.
  { apply (GetAccountInfo_run port c n key st Hpk Kk (proj1 (q_db _ (se_quiet _ _ Hs)))); [|done].
    by apply stored_ok; [apply (q_db _ (se_quiet _ _ Hs))|]. }
  assert (forall l, set_net n (printing l w) = printing l w) as Hsame by (intros l; destruct w; cbn in Hw; by subst).
  split.
  - rewrite (Run_verb dial_node m VBalance prog [("n", StringFlag name); ("p", StringFlag port)]%string w)
      by (solve_options || done).
    cbn [verb_command]. change (as_string (given "n" _ _)) with name. change (as_string (given "p" _ _)) with port.
    cbn [perform]. rewrite (balance_run dial_node m name port kp (printing [""%string] w) st n Hio Hf) by (cbn; by rewrite Hw).
    by rewrite printing_app, Hsame.
  - destruct (client_transfer_run (m_now m) amount to port c n gen key) as (tx & Hv & Hk & Hno & Hop & Hr); try done.
    exists tx. split_and!; try done. cbv zeta.
    rewrite (Run_verb dial_node m VTransfer prog [("n", StringFlag name); ("a", Uint64Flag amount); ("t", StringFlag to);
      ("p", StringFlag port)]%string w)
      by (solve_options; cbn; unfold in_u64, GeneratorBalance in *; lia).
    cbn [verb_command]. change (as_string (given "n" _ _)) with name. change (as_string (given "p" _ _)) with port.
    change (as_string (given "t" _ _)) with to. change (as_uint64 (given "a" _ _)) with amount. cbn [perform].
    destruct (ContainsTx (tx_Hash tx) (nmem n)).
    + erewrite (transfer_run dial_node m name amount to port kp (printing [""%string] w) _ _ _ Hio Hf) by (cbn; rewrite Hw; exact Hr).
      by rewrite printing_app, Hsame.
    + destruct Hr as (s' & Hr & Hrest). exists s'. split; [|exact Hrest].
      erewrite (transfer_run dial_node m name amount to port kp (printing [""%string] w) _ _ _ Hio Hf) by (cbn; rewrite Hw; exact Hr).
      by rewrite printing_app.
Qed.

(** C11: a chain from the command line: under a name that has no files,
    [node genesis] makes the key file and the database with the genesis block
    and exits with 0; [node] then serves from these files with that wallet, at
    height 1 behind the genesis hash, its ledger the generator's account with
    everything that will ever be issued, and without an error; and the name
    cannot be used for another genesis. *)
Theorem node_lines_start_chain {S} (dial : string -> bytes -> M S (result (list bytes)))
  m1 m2 prog name sp cp rp prev state wal files1 w :
  (forall db, bolt_commit db = None) -> m_io_err m1 = None -> m_open_err m1 = None ->
  m_io_err m2 = None -> m_open_err m2 = None ->
  w_dbs w !! DatabaseFileName name = None -> w_files w !! (name ++ ".key")%string = None ->
  in_s64 (m_now m1) -> m_prev m1 = Ok prev -> m_state m1 = Ok state -> length prev = 32%nat -> length state = 32%nat ->
  NewWallet (m_seed m1) None name (w_files w) = (Ok wal, files1) ->
  let genesis := [prog; "node"; "genesis"; "-n"; name]%string in
  exists w1 w2 fn pk,
    Run dial m1 genesis w = (Done (Exited 0), w1)
    /\ Run dial m2 [prog; "node"; "-n"; name; "-s"; sp; "-c"; cp; "-r"; rp]%string w1 = (Done (Serving fn), w2)
    /\ (forall m, Run dial m genesis w2 = (Done (Returned (Some "file already exist"%string)), printing [""%string] w2))
    /\ account_file name (keyPair wal) (w_files w2) /\ w_dbs w2 !! DatabaseFileName name = Some (ndb (cs_node fn))
    /\ nodeWallet fn = wal /\ Wallet_PublicKey wal = Some pk
    /\ info fn = mkBlockchain 1 0 1 (Some (Sum256 (prev ++ state))) /\ node_ok (cs_node fn) pk
    /\ (forall k, is_key k -> nledger (cs_node fn) !! Encode k
          = if decide (k = pk) then Some (mkAccountState 0 GeneratorBalance) else None)
    /\ cs_errs fn = [] /\ n_errs (cs_node fn) = [].
Proof.
  intros Hc Hio1 Hop1 Hio2 Hop2 Hdb Hf Hnow Hprev Hstate Lp Lst Hwal genesis.
  destruct (NewStorageService_new Hc) as (db0 & Hdb0 & _).
  assert (NewGenerator None None (m_seed m1) None name (w_files w) = (Done (Ok (mkGenerator wal db0)), files1)) as Hgen
    by (unfold NewGenerator; by rewrite Hdb0, Hwal).
  destruct (genesis_chain (m_now m1) (m_now m2) prev state (m_seed m1) (m_seed m2) name sp cp (w_files w) _ files1
    Hc Hf Hnow Lp Lst Hgen) as (gen' & pk & fn & fn' & b & enc & R1 & R2 & R3 & R4 & R5 & R6 & R7 & R8 & R9 & R10 & _).
  destruct (NewWallet_writes _ _ _ _ _ Hf Hwal) as [Hfile _].
  destruct (genesis_command_run m1 name (printing [""%string] w) _ _ gen' Hio1 Hop1 Hdb Hgen) as (w1 & G1 & F1 & _ & _ & D1);
    [by rewrite Hprev, Hstate|].
  destruct (node_command_run m2 name sp cp rp (printing [""%string] w1) (gen_storage gen') fn files1 fn' Hio2 Hop2)
    as (w2 & G2 & F2 & _ & _ & D2); [cbn; rewrite D1; apply lookup_insert_eq|cbn; by rewrite F1|exact R4|].
  assert (w_dbs w2 !! DatabaseFileName name = Some (ndb (cs_node fn'))) as Hd2 by (rewrite D2; apply lookup_insert_eq).
  exists w1, w2, fn', pk. unfold genesis. split_and!; try done.
  - intros m. rewrite (Run_verb dial m VGenesis prog [("n", StringFlag name)]%string w2) by solve_options.
    by apply (genesis_taken m name _ (ndb (cs_node fn'))).
  - by rewrite F2.
Qed.
End cli_properties.

(** *** Witnesses: Alice looks at her account and sends 5 to Bob; a chain is
    started under the name [node] *)
Section cli_runs.
Import Toy.

Definition machine : Machine := mkMachine (Ok [x05]) None None (Ok demo_prev) (Ok demo_state) 9.

Lemma usage_selects_command_witness :
  choose ["prog"; "client"; "transfer"; "-p"; "9000"; "-t"; "bob"; "-p"; "8001"; "-a"; "5"]%string
  = Done (Go (CmdTransfer "default" 5 "bob" "8001")).
Proof.
  exact (usage_selects_command VTransfer "prog" [("p", StringFlag "9000"); ("t", StringFlag "bob");
    ("p", StringFlag "8001"); ("a", Uint64Flag 5)]%string ltac:(solve_options; cbn; unfold in_u64; lia) ltac:(discriminate)).
Defined.

Definition empty_world : World (S := Node) := mkWorld ∅ ∅ behind [].

Lemma command_line_errors_witness :
  Run dial_node machine ["prog"; "node"]%string empty_world
    = (Panicked "index out of range", printing [""%string] empty_world)
  /\ Run dial_node machine ["prog"; "client"; "bogus"]%string empty_world
    = (Done (Returned None), printing [""%string] empty_world)
  /\ Run dial_node machine ["prog"; "client"; "airdrop"; "-n"; "bob"; "-x"; "5"]%string empty_world
    = (Done (Exited 2), printing [""%string] empty_world)
  /\ Run dial_node machine ["prog"; "client"; "airdrop"; "-n"; "bob"; "-a"; "18446744073709551616"]%string empty_world
    = (Done (Exited 2), printing [""%string] empty_world).
Proof.
  destruct (command_line_errors dial_node machine empty_world) as (_ & Hshort & Hnone & Hbad).
  destruct (Hbad VAirdrop "prog"%string [("n", StringFlag "bob")]%string ltac:(solve_options)) as (Hx & _ & Ha).
  split; [exact (Hshort "prog" "node" (or_introl eq_refl))%string|]. split; [|split].
  - apply Hnone; [vm_compute; discriminate|intros [] prog rest; discriminate|intros prog; discriminate].
  - exact (Hx "x" None "-x" ["5"] eq_refl eq_refl)%string.
  - exact (Ha (2 ^ 64) [] (or_introl eq_refl) (Z.le_refl _)).
Defined.

Definition alice_world : World (S := Node) :=
  mkWorld {[ "alice.key"%string := bytes_of (keyPair demo_wallet) ]} ∅ behind [].

Lemma alice_file : account_file "alice" (keyPair demo_wallet) (w_files alice_world).
Proof. split; [by exists [x05]|]. exists (bytes_of (keyPair demo_wallet)). split; [by vm_compute|reflexivity]. Qed.

Lemma client_lines_served_witness :
  Run dial_node machine ["prog"; "client"; "balance"; "-n"; "alice"; "-p"; "8000"]%string alice_world
    = (Done (Returned None), printing [""; "100"]%string alice_world)
  /\ exists tx s', Run dial_node machine ["prog"; "client"; "transfer"; "-n"; "alice"; "-a"; "5"; "-t"; Encode bob;
         "-p"; "8000"]%string alice_world
       = (Done (Returned None), set_net (submitted tx s' behind) (printing [""; "ok"]%string alice_world))
     /\ pool_of s' = Mempool_Append tx ∅.
Proof.
  destruct (client_lines_served machine "prog" "alice" 5 (Encode bob) "8000" (keyPair demo_wallet) behind gen_key alice
    alice_world) as [Hbal (tx & _ & _ & _ & _ & Hr)].
  - apply behind_sound.
  - apply behind_sound.
  - reflexivity.
  - apply alice_file.
  - reflexivity.
  - reflexivity.
  - intros v Hv. vm_compute in Hv. injection Hv as <-. vm_compute. reflexivity.
  - vm_compute. reflexivity.
  - unfold GeneratorBalance. lia.
  - unfold in_s64. cbn. lia.
  - cbn. lia.
  - assert (stored (ndb behind) alice = mkAccountState 3 100) as Es by (vm_compute; reflexivity).
    rewrite Es in Hbal. split; [exact Hbal|].
    change (nmem behind) with (xmem node) in Hr. cbv zeta in Hr.
    assert (ContainsTx (tx_Hash tx) (xmem node) = false) as E by reflexivity.
    rewrite E in Hr. destruct Hr as (s' & Hrun & _ & _ & Hp). exists tx, s'. split; [exact Hrun|exact Hp].
Defined.

Definition wallet_made : bool :=
  match NewWallet (Ok [x05]) None "node" ∅ with (Ok _, _) => true | _ => false end.

Lemma node_lines_start_chain_witness : exists w1 w2 fn,
  Run dial_node machine ["prog"; "node"; "genesis"; "-n"; "node"]%string empty_world = (Done (Exited 0), w1)
  /\ Run dial_node machine ["prog"; "node"; "-n"; "node"; "-s"; "3000"; "-c"; "5000"; "-r"; "8000"]%string w1
     = (Done (Serving fn), w2) /\ nextHeight (info fn) = 1.
Proof.
  assert (wallet_made = true) as K by (vm_compute; reflexivity). unfold wallet_made in K.
  destruct (NewWallet (Ok [x05]) None "node" ∅) as [[wal|e] files1] eqn:E; [|discriminate K].
  destruct (node_lines_start_chain dial_node machine machine "prog" "node" "3000" "5000" "8000" demo_prev demo_state wal
    files1 empty_world) as (w1 & w2 & fn & pk & R1 & R2 & _ & _ & _ & _ & _ & R3 & _);
    [reflexivity|reflexivity|reflexivity|reflexivity|reflexivity|reflexivity|reflexivity|..].
  - unfold in_s64. cbn. lia.
  - reflexivity.
  - reflexivity.
  - reflexivity.
  - reflexivity.
  - exact E.
  - exists w1, w2, fn. rewrite R3. split; [exact R1|]. split; [exact R2|reflexivity].
Defined.
End cli_runs.
