(* ===== verification/Wires.v ===== *)
(** How an error stops a node: the TCP server (p2p/server.go), the transporter
    (p2p/transporter.go) and the channels that carry errors from them up to
    [FullNode.Run] (the [catch] methods of p2p/p2pService.go, nodes/sync,
    nodes/node.go, consensus/ and fullnode/).

    Every error channel is unbuffered, so a goroutine that reports an error
    waits until someone receives it.  Every [catch] goroutine receives one
    error, sends it on and ends.  The goroutine of [FullNode.Run] first starts
    the services and the node; in this it may fail, and then it sends its error
    itself, or hang; only after that it receives. *)
From S2P Require Import Prelude Json Common External Accounts Txs Blocks Memory Storage Executers.
From S2P Require Import P2p Node Sync Server ConsensusMsgs Consensus.
Open Scope Z_scope.

(** ** The server and the transporter

    [C] is a connection, as the handler sees it. *)
Section tcp.
Context {S C : Type}.

(** The errors sent on [eCh], in order. *)
Definition Server_handle (f : C -> M S (option error)) (conn : C) : M S (list error) :=
  let* err := f conn in
  match err with
  | Some e => ret [e]
  | None => ret []
  end.

(** What [listener.Accept] returns, call after call.  Every connection has a
    goroutine of its own, so one whose handler waits does not stop the loop. *)
Fixpoint accept_loop (f : C -> M S (option error)) (accepts : list (result C)) : M S (list error) :=
  match accepts with
  | [] => ret []
  | Err e :: _ => ret [e]
  | Ok conn :: accepts' =>
      let* es := detach [] (Server_handle f conn) in
      let* es' := accept_loop f accepts' in
      ret (es ++ es')
  end.

(** [listen_err] is the error of [net.Listen], if any. *)
Definition Server_listen (listen_err : option error) (f : C -> M S (option error))
  (accepts : list (result C)) : M S (list error) :=
  match listen_err with
  | Some e => ret [e]
  | None => accept_loop f accepts
  end.

(** A dial that fails goes to [failCh], which [onFail] of the service serves;
    a write that fails is an error. *)
Definition Transporter_send (onFail : NodeInfo -> M S unit) (to : NodeInfo)
  (dial_err write_err : option error) : M S (list error) :=
  match dial_err with
  | Some _ => let* _ := onFail to in ret []
  | None =>
      match write_err with
      | Some e => ret [e]
      | None => ret []
      end
  end.
End tcp.

(** ** The channels *)
Inductive channel :=
| SyncServerE | SyncTransporterE | SyncP2pE | SyncE
| ConsServerE | ConsTransporterE | ConsP2pE | ConsE
| RpcServerE | NodeE | FullE.

Inductive catcher := SyncP2pCatch | SyncCatch | ConsP2pCatch | ConsCatch | NodeCatch | FullCatch.

#[export] Instance channel_eq_dec : EqDecision channel.
Proof. solve_decision. Defined.
#[export] Instance catcher_eq_dec : EqDecision catcher.
Proof. solve_decision. Defined.

(** The channels a [catch] selects from, and the one it sends on. *)
Record Catch := mkCatch { c_from : list channel; c_to : channel }.

Definition P2pService_catch (server transporter eCh : channel) : Catch := mkCatch [server; transporter] eCh.
Definition SyncService_catch (p2pECh eCh : channel) : Catch := mkCatch [p2pECh] eCh.
Definition ConsensusService_catch (p2pECh eCh : channel) : Catch := mkCatch [p2pECh] eCh.
Definition Node_catch (sysECh rpcECh eCh : channel) : Catch := mkCatch [sysECh; rpcECh] eCh.
Definition FullNode_catch (nodeECh consECh eCh : channel) : Catch := mkCatch [nodeECh; consECh] eCh.

Definition catch_of (c : catcher) : Catch :=
  match c with
  | SyncP2pCatch => P2pService_catch SyncServerE SyncTransporterE SyncP2pE
  | SyncCatch => SyncService_catch SyncP2pE SyncE
  | ConsP2pCatch => P2pService_catch ConsServerE ConsTransporterE ConsP2pE
  | ConsCatch => ConsensusService_catch ConsP2pE ConsE
  | NodeCatch => Node_catch SyncE RpcServerE NodeE
  | FullCatch => FullNode_catch NodeE ConsE FullE
  end.

Definition sources (c : catcher) : list channel := c_from (catch_of c).
Definition target (c : catcher) : channel := c_to (catch_of c).

(** Where the goroutine of [FullNode.Run] is: in the start-up; sending an error
    of the start-up on the node's channel; waiting in the start-up for ever;
    receiving, or returned. *)
Inductive MainState :=
| Starting
| FailedStart (e : error)
| Hung
| Receiving
| RunReturned (e : error).

(** [sending]: the other goroutines that wait to send, [waiting]: the [catch]es
    that have not received yet. *)
Record Wires := mkWires {
  sending : list (channel * error);
  waiting : list catcher;
  main : MainState
}.

Definition connected : Wires :=
  mkWires [] [SyncP2pCatch; SyncCatch; ConsP2pCatch; ConsCatch; NodeCatch; FullCatch] Starting.

(** The channels on which errors come up; the others carry them on. *)
Definition origins : list channel :=
  [SyncServerE; SyncTransporterE; SyncE; ConsServerE; ConsTransporterE; ConsE; RpcServerE].

(** [ch <- err] in some goroutine. *)
Definition raise (ch : channel) (e : error) (w : Wires) : Wires :=
  mkWires (sending w ++ [(ch, e)]) (waiting w) (main w).

Fixpoint raise_all (ch : channel) (es : list error) (w : Wires) : Wires :=
  match es with
  | [] => w
  | e :: es' => raise_all ch es' (raise ch e w)
  end.

(** The start-up is over, or as far as it goes. *)
Definition started (o : outcome (option error)) (w : Wires) : Wires :=
  mkWires (sending w) (waiting w)
    match o with
    | Done None => Receiving
    | Done (Some e) => FailedStart e
    | _ => Hung
    end.

(** One exchange on a channel: a [catch] takes an error and sends it on; or the
    error of the start-up, upon which [Node.Run] returns; or [FullNode.Run]
    takes the last one and returns it. *)
Inductive exchange : Wires -> Wires -> Prop :=
| exchange_catch c ch e l1 l2 c1 c2 m : ch ∈ sources c ->
    exchange (mkWires (l1 ++ (ch, e) :: l2) (c1 ++ c :: c2) m)
             (mkWires (l1 ++ l2 ++ [(target c, e)]) (c1 ++ c2) m)
| exchange_start c e l c1 c2 : NodeE ∈ sources c ->
    exchange (mkWires l (c1 ++ c :: c2) (FailedStart e))
             (mkWires (l ++ [(target c, e)]) (c1 ++ c2) Receiving)
| exchange_run e l1 l2 cs :
    exchange (mkWires (l1 ++ (FullE, e) :: l2) cs Receiving) (mkWires (l1 ++ l2) cs (RunReturned e)).

(** What may happen to the channels. *)
Inductive wire_step : Wires -> Wires -> Prop :=
| step_raise w ch e : ch ∈ origins -> wire_step w (raise ch e w)
| step_start w o : main w = Starting -> wire_step w (started o w)
| step_exchange w w' : exchange w w' -> wire_step w w'.

(** ** The connections of a node *)
Section connections.
Context `{Sha3, Ed25519, Base58, ExpSlices, MapOrder, Bolt}.

(** [handleRpc] to its end: what was written to the connection, and the error
    returned.  [write_err] is the error of [conn.Write], and [read_err] that of
    waiting for the client to close. *)
Definition serveRpc (write_err read_err : option error) (conn : list bytes)
  : M Node (gobytes * option error) :=
  let* res := handleRpc conn in
  match res with
  | Err e => ret (None, Some e)
  | Ok None => ret (None, None)
  | Ok (Some data) =>
      match write_err with
      | Some e => ret (None, Some e)
      | None => ret (Some data, read_err)
      end
  end.

(** The start-up in [FullNode.Run], with the error that [Node.Run] sends.  Its
    two [Discover]s have none ([localDiscovery_run]). *)
Definition start_up (now : Z) : M ConsensusService (option error) :=
  let* _ := Consensus_Run in
  in_node (let* _ := Node_open in Node_restore now).

(** A node at work: its state, and the errors under way. *)
Record Running := mkRunning { fn : ConsensusService; wires : Wires }.

(** The start-up runs, a connection arrives at one of the three servers, a
    message goes out, another goroutine of the services reports an error or
    changes the state, in whatever way, or an error moves on.  A panic ends the
    process, and is no step. *)
Inductive at_work : Running -> Running -> Prop :=
| work_start now o s s' w : main w = Starting -> start_up now s = (o, s') -> (forall p, o <> Panicked p) ->
    at_work (mkRunning s w) (mkRunning s' (started o w))
| work_rpc write_err read_err accept es s s' w :
    in_node (accept_loop (fun conn => let* r := serveRpc write_err read_err conn in ret (snd r)) [accept]) s
      = (Done es, s') ->
    at_work (mkRunning s w) (mkRunning s' (raise_all RpcServerE es w))
| work_sync accept es s s' w :
    in_node (accept_loop (handleInbound handleSyncMessage) [accept]) s = (Done es, s') ->
    at_work (mkRunning s w) (mkRunning s' (raise_all SyncServerE es w))
| work_cons now accept es s s' w :
    accept_loop (handleInbound (handleConsensusMessage now)) [accept] s = (Done es, s') ->
    at_work (mkRunning s w) (mkRunning s' (raise_all ConsServerE es w))
| work_sync_send to dial_err write_err es s s' w :
    in_node (Transporter_send (onFail None) to dial_err write_err) s = (Done es, s') ->
    at_work (mkRunning s w) (mkRunning s' (raise_all SyncTransporterE es w))
| work_cons_send to dial_err write_err es s s' w :
    Transporter_send (onFail (Some onPeerDisapear)) to dial_err write_err s = (Done es, s') ->
    at_work (mkRunning s w) (mkRunning s' (raise_all ConsTransporterE es w))
| work_report ch e s w : ch = SyncE \/ ch = ConsE ->
    at_work (mkRunning s w) (mkRunning s (raise ch e w))
| work_other s s' w : at_work (mkRunning s w) (mkRunning s' w)
| work_exchange s w w' : exchange w w' -> at_work (mkRunning s w) (mkRunning s w').
End connections.
