(* ===== verification/WiresProps.v ===== *)
(** One error, wherever it comes from, ends [FullNode.Run]; and who may cause
    one. *)
From S2P Require Import Prelude Json Common External Accounts Txs Blocks Memory Storage Executers.
From S2P Require Import P2p P2pProps Node Sync SyncProps Server ConsensusMsgs Consensus ConsensusProps.
From S2P Require Import ExecutionProps ProducerProps RoundProps FullNode FullNodeProps Wires.
Open Scope Z_scope.

(** ** The channels form a tree *)
Definition consumer (ch : channel) : option catcher :=
  match ch with
  | SyncServerE | SyncTransporterE => Some SyncP2pCatch
  | SyncP2pE => Some SyncCatch
  | ConsServerE | ConsTransporterE => Some ConsP2pCatch
  | ConsP2pE => Some ConsCatch
  | SyncE | RpcServerE => Some NodeCatch
  | NodeE | ConsE => Some FullCatch
  | FullE => None
  end.

Lemma consumer_sources ch c : ch ∈ sources c <-> consumer ch = Some c.
Proof.
  rewrite <- (bool_decide_eq_true (ch ∈ sources c)), <- (bool_decide_eq_true (consumer ch = Some c)).
  by destruct ch, c.
Qed.

(** The number of channels an error on [ch] has before it. *)
Definition distance (ch : channel) : nat :=
  match ch with
  | FullE => 0
  | NodeE | ConsE => 1
  | SyncE | RpcServerE | ConsP2pE => 2
  | SyncP2pE | ConsServerE | ConsTransporterE => 3
  | SyncServerE | SyncTransporterE => 4
  end.

Lemma distance_target ch c : consumer ch = Some c -> distance ch = S (distance (target c)).
Proof. by destruct ch; intros [= <-]. Qed.

(** ** The invariant *)

(** An error waits to be received from [ch]. *)
Definition offered (w : Wires) (ch : channel) : Prop :=
  (exists e, (ch, e) ∈ sending w) \/ (ch = NodeE /\ exists e, main w = FailedStart e).

(** What was received from [ch] has gone on. *)
Definition taken (w : Wires) (ch : channel) : Prop :=
  match consumer ch with
  | Some c => c ∉ waiting w
  | None => exists e, main w = RunReturned e
  end.

(** An error was sent on [ch] at some time. *)
Definition used (w : Wires) (ch : channel) : Prop := offered w ch \/ taken w ch.

Record wires_ok (l : list (channel * error)) (w : Wires) : Prop := {
  wo_nodup : NoDup (waiting w);
  wo_used : forall c, c ∉ waiting w -> used w (target c);
  wo_all : forall ch e, (ch, e) ∈ l -> used w ch;
  wo_from : forall ch e, (ch, e) ∈ sending w -> exists ch', (ch', e) ∈ l;
  wo_start : forall e, main w = FailedStart e -> (NodeE, e) ∈ l;
  wo_returned : forall e, main w = RunReturned e -> exists ch, (ch, e) ∈ l
}.

(** The errors that came up so far, with the channels they were first sent on. *)
Definition start_error (o : outcome (option error)) : list (channel * error) :=
  match o with Done (Some e) => [(NodeE, e)] | _ => [] end.

Inductive wired : list (channel * error) -> Wires -> Prop :=
| wired_connected : wired [] connected
| wired_raise l w ch e : wired l w -> ch ∈ origins -> wired ((ch, e) :: l) (raise ch e w)
| wired_start l w o : wired l w -> main w = Starting -> wired (start_error o ++ l) (started o w)
| wired_exchange l w w' : wired l w -> exchange w w' -> wired l w'.

Lemma used_mono w w' ch : (offered w ch -> offered w' ch \/ taken w' ch) -> (taken w ch -> taken w' ch) ->
  used w ch -> used w' ch.
Proof. intros Hs Ht [Ho|Hu]; [by apply Hs|right; by apply Ht]. Qed.

Lemma used_raise w ch e ch' : used w ch' -> used (raise ch e w) ch'.
Proof.
  apply used_mono; [|done]. intros [[e' He]|Hm]; [|left; by right].
  left. left. exists e'. apply elem_of_app. by left.
Qed.

Lemma used_started w o ch : main w = Starting -> used w ch -> used (started o w) ch.
Proof.
  intros Hm. apply used_mono.
  - intros [[e He]|[_ [e He]]]; [left; left; by exists e|congruence].
  - unfold taken. destruct (consumer ch); [done|]. intros [e He]. congruence.
Qed.

(** The [catch] that received is gone. *)
Lemma NoDup_gone (c : catcher) c1 c2 : NoDup (c1 ++ c :: c2) -> c ∉ c1 ++ c2.
Proof.
  intros (_ & Hd & [Hc _]%NoDup_cons)%NoDup_app [Hin|Hin]%elem_of_app; [|done]. apply (Hd c Hin). by left.
Qed.

Lemma used_exchange w w' ch : NoDup (waiting w) -> exchange w w' -> used w ch -> used w' ch.
Proof.
  intros Hnd Hx. destruct Hx as [c ch0 e l1 l2 c1 c2 m Hs|c e l c1 c2 Hs|e l1 l2 cs];
    apply used_mono; unfold offered, taken; cbn in *.
  - intros [[e' He]|Hm]; [|by left; right]. destruct (decide (ch = ch0)) as [->|Hne].
    + right. apply consumer_sources in Hs. rewrite Hs. by apply NoDup_gone.
    + left. left. exists e'. set_solver.
  - destruct (consumer ch) as [c'|]; [set_solver|done].
  - intros [[e' He]|[-> _]]; [left; left; exists e'; set_solver|].
    right. apply consumer_sources in Hs. rewrite Hs. by apply NoDup_gone.
  - destruct (consumer ch) as [c'|]; [set_solver|by intros []].
  - intros [[e' He]|[_ [e' He]]]; [|discriminate He].
    destruct (decide (ch = FullE)) as [->|Hne]; [right; by exists e|]. left. left. exists e'. set_solver.
  - destruct (consumer ch); [done|by intros []].
Qed.

Lemma connected_ok : wires_ok [] connected.
Proof.
  split; cbn; try done.
  - apply (bool_decide_unpack _). by vm_compute.
  - intros [] Hn; exfalso; apply Hn; set_solver.
  - by intros ? ? Hin%elem_of_nil.
  - by intros ? ? Hin%elem_of_nil.
Qed.

Lemma raise_ok l w ch e : wires_ok l w -> wires_ok ((ch, e) :: l) (raise ch e w).
Proof.
  intros [Hn Hu Ha Hf Hs Hr]. split; [done|..].
  - intros c Hc. by apply used_raise, Hu.
  - intros ch' e' [[= -> ->]|Hin]%elem_of_cons; [|by eapply used_raise, Ha].
    left. left. exists e. apply elem_of_app. right. by left.
  - intros ch' e' [Hin|Hin]%elem_of_app.
    + destruct (Hf _ _ Hin) as [ch0 ?]. exists ch0. by right.
    + apply list_elem_of_singleton in Hin as [= -> ->]. exists ch. by left.
  - intros e' He. right. by apply Hs.
  - intros e' He. destruct (Hr _ He) as [ch0 ?]. exists ch0. by right.
Qed.

Lemma begun_ok l w o : wires_ok l w -> main w = Starting -> wires_ok (start_error o ++ l) (started o w).
Proof.
  intros [Hn Hu Ha Hf Hs Hr] Hm. split; [done|..].
  - intros c Hc. by apply used_started, Hu.
  - intros ch e [Hin|Hin]%elem_of_app; [|by eapply used_started, Ha].
    destruct o as [[e0|]|p|p]; cbn in Hin; try (by apply elem_of_nil in Hin).
    apply list_elem_of_singleton in Hin as [= -> ->]. left. right. split; [done|]. by exists e0.
  - intros ch e Hin. destruct (Hf _ _ Hin) as [ch0 ?]. exists ch0. apply elem_of_app. by right.
  - intros e He. destruct o as [[e0|]|p|p]; try discriminate He. injection He as ->. apply elem_of_app. left. by left.
  - intros e He. by destruct o as [[e0|]|p|p].
Qed.

Lemma exchange_ok l w w' : wires_ok l w -> exchange w w' -> wires_ok l w'.
Proof.
  intros [Hn Hu Ha Hf Hs Hr] Hx.
  assert (NoDup (waiting w') /\ forall c, c ∈ waiting w -> c ∉ waiting w' -> offered w' (target c)) as [Hn' Hgone].
  { destruct Hx as [c0 ch0 e l1 l2 c1 c2 m Hc|c0 e l0 c1 c2 Hc|e l1 l2 cs]; cbn in *.
    3: split; [done|tauto].
    all: split; [apply NoDup_app in Hn as (H1 & Hd & [_ H2]%NoDup_cons); apply NoDup_app; split_and!;
        [done|intros x Hx Hin; apply (Hd x Hx); by right|done]|].
    all: intros c Hin Hout; assert (c = c0) as -> by set_solver; left; exists e; cbn; set_solver. }
  split; [done|..].
  - intros c Hc. destruct (decide (c ∈ waiting w)) as [Hin|Hin]; [left; by apply Hgone|by eapply used_exchange, Hu].
  - intros ch e Hin. by eapply used_exchange, Ha.
  - intros ch e Hin. destruct Hx as [c0 ch0 e0 l1 l2 c1 c2 m Hc|c0 e0 l0 c1 c2 Hc|e0 l1 l2 cs]; cbn in *.
    + apply elem_of_app in Hin as [Hin|[Hin|Hin]%elem_of_app]; [apply (Hf ch e); set_solver..|].
      apply list_elem_of_singleton in Hin as [= -> ->]. apply (Hf ch0 e0). set_solver.
    + apply elem_of_app in Hin as [Hin|Hin]; [by apply (Hf ch e)|].
      apply list_elem_of_singleton in Hin as [= -> ->]. exists NodeE. by apply Hs.
    + apply (Hf ch e). set_solver.
  - intros e He. destruct Hx; cbn in *; [by apply Hs|discriminate He..].
  - intros e He. destruct Hx as [| |e0 l1 l2 cs]; cbn in *; [by apply Hr|discriminate He|].
    injection He as <-. apply (Hf FullE e0). set_solver.
Qed.

Lemma wired_ok l w : wired l w -> wires_ok l w.
Proof.
  induction 1 as [|l w ch e _ IH _|l w o _ IH Hm|l w w' _ IH Hx].
  - apply connected_ok.
  - by apply raise_ok.
  - by apply begun_ok.
  - by eapply exchange_ok.
Qed.

(** ** Progress and termination *)
Lemma exchange_possible w ch c : offered w ch -> consumer ch = Some c -> c ∈ waiting w -> exists w', exchange w w'.
Proof.
  intros Ho Hc (c1 & c2 & Hw)%list_elem_of_split. destruct w as [s ws m]. unfold offered in Ho. cbn in *. subst ws.
  destruct Ho as [[e (l1 & l2 & ->)%list_elem_of_split]|[-> [e ->]]]; eexists.
  - apply exchange_catch. by apply consumer_sources.
  - apply exchange_start. by apply consumer_sources.
Qed.

(** An error that came up moves on until it gets to the end. *)
Lemma used_end l w ch : wires_ok l w -> used w ch -> used w FullE \/ exists w', exchange w w'.
Proof.
  intros Hok. remember (distance ch) as n eqn:En. revert ch En.
  induction n as [|n IH]; intros ch En Hu; [left; by destruct ch|].
  destruct (consumer ch) as [c|] eqn:Ec; [|by destruct ch].
  assert (n = distance (target c)) as Hn by (rewrite (distance_target _ _ Ec) in En; congruence).
  destruct (decide (c ∈ waiting w)) as [Hin|Hin]; [|by apply (IH (target c)), (wo_used _ _ Hok)].
  destruct Hu as [Ho|Ht]; [right; by eapply exchange_possible|].
  unfold taken in Ht. by rewrite Ec in Ht.
Qed.

Definition moves_left (w : Wires) : nat :=
  length (waiting w) + match main w with RunReturned _ => 0 | _ => 1 end.

Lemma exchange_counts w w' : exchange w w' -> (moves_left w' < moves_left w)%nat.
Proof. intros [c ch e l1 l2 c1 c2 []| |]; unfold moves_left; cbn; rewrite ?length_app; cbn; lia. Qed.

Lemma exchanges_counts n w w' : nsteps exchange n w w' -> (n + moves_left w' <= moves_left w)%nat.
Proof. induction 1 as [|n w w1 w2 Hx _ IH]; [done|]. apply exchange_counts in Hx. lia. Qed.

Lemma wired_bound l w : wired l w -> (moves_left w <= 7)%nat.
Proof.
  induction 1 as [|l w ch e _ IH _|l w o _ IH Hm|l w w' _ IH Hx]; [by vm_compute; lia|done| |].
  - unfold moves_left in *. cbn. rewrite Hm in IH. by destruct o as [[]| |].
  - apply exchange_counts in Hx. lia.
Qed.

Lemma wired_rtc l w w' : wired l w -> rtc exchange w w' -> wired l w'.
Proof. intros Hw Hr. induction Hr as [|w w1 w2 Hx _ IH]; [done|]. apply IH. by eapply wired_exchange. Qed.

(** *** Where an error ends *)

(** [FullNode.Run] has returned one of the errors. *)
Definition reported (l : list (channel * error)) (w : Wires) : Prop :=
  exists ch e, (ch, e) ∈ l /\ main w = RunReturned e.

(** [FullNode.Run] has not got to receiving, or waits to send for ever. *)
Definition unavailable (w : Wires) : Prop :=
  main w = Starting \/ main w = Hung \/ (exists e, main w = FailedStart e /\ FullCatch ∉ waiting w).

Lemma wired_end l w : wired l w -> l <> [] -> used w FullE \/ exists w', exchange w w'.
Proof.
  intros Hw Hl. pose proof (wired_ok l w Hw) as Hok. destruct l as [|[ch e] l]; [done|].
  apply (used_end _ _ ch Hok), (wo_all _ _ Hok ch e). by left.
Qed.

Lemma wired_stuck l w : wired l w -> l <> [] -> nf exchange w ->
  reported l w \/ (unavailable w /\ exists e, (FullE, e) ∈ sending w).
Proof.
  intros Hw Hl Hnf. pose proof (wired_ok l w Hw) as Hok.
  destruct (wired_end l w Hw Hl) as [[[He|[Hc _]]|[e He]]|Hx]; [|discriminate Hc| |by destruct Hnf].
  - destruct (main w) as [|e0| | |e0] eqn:Em.
    1-3: right; split; [unfold unavailable; rewrite Em|exact He].
    + by left.
    + right. right. exists e0. split; [done|]. intros Hin. destruct Hnf.
      eapply (exchange_possible w NodeE); [right; split; [done|by exists e0]|reflexivity|exact Hin].
    + right. by left.
    + destruct Hnf. destruct He as [e (l1 & l2 & Hs)%list_elem_of_split]. destruct w as [s ws m]. cbn in *. subst.
      eexists. apply exchange_run.
    + left. destruct (wo_returned _ _ Hok e0 Em) as [ch ?]. by exists ch, e0.
  - left. destruct (wo_returned _ _ Hok e He) as [ch ?]. by exists ch, e.
Qed.

(** [FullNode.Run] receives or has received. *)
Definition available (w : Wires) : Prop := main w = Receiving \/ exists e, main w = RunReturned e.

Lemma available_exchange w w' : exchange w w' -> available w -> available w'.
Proof.
  unfold available. intros [| |]; cbn; try tauto. intros _. right. by eexists.
Qed.

Lemma available_exchanges w w' : rtc exchange w w' -> available w -> available w'.
Proof. induction 1 as [|w w1 w2 Hx _ IH]; [done|]. intros Ha. by eapply IH, available_exchange. Qed.

Lemma unavailable_not w : available w -> ~ unavailable w.
Proof. intros [Ha|[e Ha]] [Hu|[Hu|[e' [Hu _]]]]; congruence. Qed.

Lemma wired_reported l w : wired l w -> l <> [] -> available w -> nf exchange w -> reported l w.
Proof.
  intros Hw Hl Ha Hnf. destruct (wired_stuck l w Hw Hl Hnf) as [Hr|[Hu _]]; [done|].
  by destruct (unavailable_not w Ha).
Qed.

(** An error under way arrives, whatever is received first. *)
Lemma wired_arrives l w : wired l w -> l <> [] -> available w -> exists w', rtc exchange w w' /\ reported l w'.
Proof.
  intros Hw Hl. remember (moves_left w) as n eqn:En. revert w En Hw.
  induction n as [n IH] using lt_wf_ind. intros w En Hw Ha.
  assert (reported l w \/ exists w', exchange w w') as [Hr|[w1 Hx]]; [|by exists w|].
  - pose proof (wired_ok l w Hw) as Hok. destruct Ha as [Hm|[e Hm]].
    + destruct (wired_end l w Hw Hl) as [[[[e He]|[Hc _]]|[e He]]|Hx]; [|discriminate Hc|cbn in He; congruence|by right].
      right. apply list_elem_of_split in He as (l1 & l2 & Hs). destruct w as [s ws m]. cbn in *. subst.
      eexists. apply exchange_run.
    + left. destruct (wo_returned _ _ Hok e Hm) as [ch ?]. by exists ch, e.
  - destruct (IH (moves_left w1)) with (w := w1) as (w' & Hr & He);
      [apply exchange_counts in Hx; lia|done|by eapply wired_exchange|by eapply available_exchange|].
    exists w'. split; [by eapply rtc_l|done].
Qed.

(** A start-up that fails after the [catch] of the full node is gone waits for
    ever. *)
Lemma failed_start_step w w' e : wire_step w w' -> main w = FailedStart e -> FullCatch ∉ waiting w ->
  main w' = FailedStart e /\ FullCatch ∉ waiting w'.
Proof.
  intros [w0 ch e0 _|w0 o Hm|w0 w1 [c ch e0 l1 l2 c1 c2 m Hc|c e0 l0 c1 c2 Hc|]] He Hn; cbn in *; [done|congruence|..].
  - split; [done|]. set_solver.
  - apply consumer_sources in Hc. injection Hc as <-. destruct Hn. set_solver.
  - discriminate He.
Qed.

Lemma failed_start_stays w w' e : rtc wire_step w w' -> main w = FailedStart e -> FullCatch ∉ waiting w ->
  main w' = FailedStart e.
Proof.
  induction 1 as [|w w1 w2 Hs _ IH]; [done|]. intros He Hn.
  destruct (failed_start_step _ _ _ Hs He Hn). by apply IH.
Qed.

(** ** Nodes at work *)
Section at_work.
Context `{Sha3, Ed25519, Base58, ExpSlices, MapOrder, Bolt}.

(** The start-up is what [FullNode.Run] does before it receives. *)
Lemma FullNode_Run_start_up now s : FullNode_Run now s
  = (let* err := start_up now in match err with Some e => in_node (report e) | None => ret tt end) s.
Proof.
  unfold FullNode_Run, start_up, Node_Run. rewrite bind_assoc. unfold bind at 1. unfold bind at 3.
  destruct (Consensus_Run s) as [[[]|p|p] s1]; [|done..]. unfold in_node, zoom, bind.
  destruct (Node_open _) as [[[]|p|p] n1]; [|done..].
  destruct (Node_restore now n1) as [[[e|]|p|p] n2]; done.
Qed.

Lemma wired_raise_all ch es l w : wired l w -> ch ∈ origins ->
  exists l', wired (l' ++ l) (raise_all ch es w) /\ main (raise_all ch es w) = main w.
Proof.
  revert l w. induction es as [|e es IH]; intros l w Hw Hch; [by exists []|].
  destruct (IH _ _ (wired_raise l w ch e Hw Hch) Hch) as (l' & Hw' & Hm). exists (l' ++ [(ch, e)]).
  rewrite <- app_assoc. split; [exact Hw'|exact Hm].
Qed.

Lemma at_work_wired l r r' : at_work r r' -> wired l (wires r) ->
  (exists l', wired (l' ++ l) (wires r')) /\ (available (wires r) -> available (wires r')).
Proof.
  intros Hs Hw. destruct Hs; cbn in *;
    try match goal with |- context [raise_all ?ch ?es _] =>
      destruct (wired_raise_all ch es l _ Hw) as (l' & Hl' & Hm); [set_solver|];
      split; [by exists l'|unfold available; by rewrite Hm] end.
  - split; [exists (start_error o); by apply wired_start|]. intros [Ha|[e Ha]]; congruence.
  - split; [exists [(ch, e)]; apply wired_raise; [done|set_solver]|done].
  - split; [by exists []|done].
  - split; [exists []; by eapply wired_exchange|by apply available_exchange].
Qed.

Lemma works_wired l r r' : rtc at_work r r' -> wired l (wires r) ->
  (exists l', wired (l' ++ l) (wires r')) /\ (available (wires r) -> available (wires r')).
Proof.
  intros Hr. revert l. induction Hr as [r|r r1 r2 Hs _ IH]; intros l Hw; [split; [by exists []|done]|].
  destruct (at_work_wired _ _ _ Hs Hw) as [[l1 H1'] A1]. destruct (IH _ H1') as [[l2 H2'] A2].
  split; [exists (l2 ++ l1); by rewrite <- app_assoc|by auto].
Qed.

(** A client that connects and closes again. *)
Lemma closed_connection write_err read_err s :
  in_node (accept_loop (fun conn => let* r := serveRpc write_err read_err conn in ret (snd r)) [Ok []]) s
  = (Done ["EOF"%string], s).
Proof. unfold in_node, zoom. by destruct s. Qed.
End at_work.

(** * Properties *)

(** C15: one error stops a node that has started.  Whatever was reported so far,
    on whichever channels, at most seven exchanges follow, in whatever order;
    and when no more is possible, [FullNode.Run] has returned one of the errors
    that were reported, or else an error waits in front of it while it is not
    done with the start-up, hangs there, or waits to send an error of its own
    that nobody will receive.  The last cannot be if it has begun to receive;
    but if the start-up fails when the full node's [catch] has already taken
    another error, [FullNode.Run] never returns. *)
Theorem error_stops_node l w : wired l w -> l <> [] ->
  (forall n w', nsteps exchange n w w' -> (n <= 7)%nat)
  /\ (forall w', rtc exchange w w' -> nf exchange w' ->
       (reported l w' \/ (unavailable w' /\ exists e, (FullE, e) ∈ sending w'))
       /\ (available w -> reported l w'))
  /\ forall e, main w = FailedStart e -> FullCatch ∉ waiting w ->
       forall w', rtc wire_step w w' -> main w' = FailedStart e.
Proof.
  intros Hw Hl. split_and!.
  - intros n w' Hn. apply exchanges_counts in Hn. pose proof (wired_bound l w Hw). lia.
  - intros w' Hr Hnf. pose proof (wired_rtc _ _ _ Hw Hr) as Hw'. split; [by apply wired_stuck|].
    intros Ha. apply wired_reported; [done|done|by eapply available_exchanges|done].
  - intros e He Hn w' Hr. by eapply failed_start_stays.
Qed.

(** C16: anybody can stop a node: at any time after its start-up, a client that
    connects to the RPC port and closes the connection again changes nothing in
    the node's state but raises an error, and whatever the node and its peers do
    afterwards, this or another error reaches [FullNode.Run], which returns it. *)
Theorem closed_connection_stops_node `{Sha3, Ed25519, Base58, ExpSlices, MapOrder, Bolt} s0 r :
  rtc at_work (mkRunning s0 connected) r -> main (wires r) = Receiving ->
  at_work r (mkRunning (fn r) (raise RpcServerE "EOF" (wires r)))
  /\ forall r', rtc at_work (mkRunning (fn r) (raise RpcServerE "EOF" (wires r))) r' ->
      (exists w' e, rtc exchange (wires r') w' /\ main w' = RunReturned e)
      /\ (nf exchange (wires r') -> exists e, main (wires r') = RunReturned e).
Proof.
  intros Hr Hm. destruct (works_wired _ _ _ Hr wired_connected) as [[l Hw] _]. rewrite app_nil_r in Hw. split.
  - destruct r as [s w]. apply (work_rpc None None (Ok [])  ["EOF"%string]). apply closed_connection.
  - intros r' Hr'. apply (wired_raise _ _ RpcServerE "EOF"%string) in Hw; [|set_solver].
    destruct (works_wired _ _ _ Hr' Hw) as [[l' Hw'] Ha]. specialize (Ha (or_introl Hm)).
    assert (l' ++ (RpcServerE, "EOF"%string) :: l <> []) as Hne by (by destruct l'). split.
    + destruct (wired_arrives _ _ Hw' Hne Ha) as (w' & Hx & ch & e & _ & He). by exists w', e.
    + intros Hnf. destruct (wired_reported _ _ Hw' Hne Ha Hnf) as (ch & e & _ & He). by exists e.
Qed.

(** *** Witnesses: an error of a peer's connection, and a closed connection *)
Section wires_runs.
Import Toy.

(** A peer's connection breaks when the node has started. *)
Definition broken : Wires := raise SyncServerE "connection reset" (started (Done None) connected).

(** A client closes its connection while the node starts, which then fails. *)
Definition too_early : Wires := mkWires [(FullE, "EOF"%string)] [SyncP2pCatch; SyncCatch; ConsP2pCatch; ConsCatch] Starting.

Lemma too_early_wired : wired [(RpcServerE, "EOF"%string)] too_early.
Proof.
  pose proof (wired_raise [] connected RpcServerE "EOF"%string wired_connected ltac:(set_solver)) as H1.
  pose proof (wired_exchange _ _ _ H1 (exchange_catch NodeCatch RpcServerE "EOF"%string [] []
    [SyncP2pCatch; SyncCatch; ConsP2pCatch; ConsCatch] [FullCatch] Starting ltac:(set_solver))) as H2.
  exact (wired_exchange _ _ _ H2 (exchange_catch FullCatch NodeE "EOF"%string [] []
    [SyncP2pCatch; SyncCatch; ConsP2pCatch; ConsCatch] [] Starting ltac:(set_solver))).
Qed.

Lemma error_stops_node_witness :
  (forall n w', nsteps exchange n broken w' -> (n <= 7)%nat)
  /\ (forall w', rtc exchange broken w' -> nf exchange w' -> main w' = RunReturned "connection reset")
  /\ forall w', rtc wire_step (started (Done (Some "unexpected end of JSON input"%string)) too_early) w' ->
      main w' = FailedStart "unexpected end of JSON input".
Proof.
  assert (wired [(SyncServerE, "connection reset"%string)] broken) as Hb.
  { apply wired_raise; [|set_solver]. exact (wired_start [] connected (Done None) wired_connected eq_refl). }
  destruct (error_stops_node _ _ Hb ltac:(discriminate)) as (Hn & Hr & _).
  destruct (error_stops_node _ _ (wired_start _ _ (Done (Some "unexpected end of JSON input"%string)) too_early_wired eq_refl)
    ltac:(discriminate)) as (_ & _ & Hs).
  split; [exact Hn|]. split.
  - intros w' Hx Hnf. destruct (Hr w' Hx Hnf) as [_ Ha]. destruct (Ha (or_introl eq_refl)) as (ch & e & Hin & He).
    apply list_elem_of_singleton in Hin as [= -> ->]. exact He.
  - apply (Hs _ eq_refl). cbn. set_solver.
Defined.

Definition idle_node : Running := mkRunning (NewConsensusService "5000" behind demo_wallet) connected.

Definition up_run := start_up 11 (NewConsensusService "5000" behind demo_wallet).
Definition up : Running := mkRunning (snd up_run) (started (Done None) connected).

Lemma up_starts : at_work idle_node up.
Proof.
  assert ((match fst up_run with Done None => true | _ => false end) = true) as K by (vm_compute; reflexivity).
  unfold up, idle_node, up_run in *.
  destruct (start_up 11 (NewConsensusService "5000" behind demo_wallet)) as [[[e|]|p|p] s'] eqn:E; try discriminate K.
  by apply (work_start 11 (Done None) _ s' connected eq_refl E).
Qed.

Lemma closed_connection_stops_node_witness :
  at_work up (mkRunning (fn up) (raise RpcServerE "EOF" (wires up)))
  /\ exists w' e, rtc exchange (raise RpcServerE "EOF" (wires up)) w' /\ main w' = RunReturned e.
Proof.
  destruct (closed_connection_stops_node (fn idle_node) up (rtc_once _ _ up_starts) eq_refl) as [Hs Hr].
  split; [exact Hs|]. apply (Hr _ (rtc_refl _ _)).
Defined.
End wires_runs.
