(* ===== verification/Service.v ===== *)
(** The storage service under concurrency (storage/storage_service.go: the
    request channel, [Get], [Put] and the loop [run]): any number of goroutines
    that call it, the buffered channel of requests, the goroutine that serves
    them, and the unbuffered channel of each reply.

    [concurrent] is how the goroutines may interleave, [atomic] what the rest
    of the library assumes: a request is a call. *)
From S2P Require Import Prelude Json JsonLaws Common External Merkle Accounts Txs Blocks Memory Storage.
Open Scope Z_scope.

(** What is put: the two types that implement [DbContent] under src/. *)
Inductive DbValue := BlockValue (b : Block) | AccountValue (a : Account).

#[export] Instance DbValue_content `{Sha3} : DbContent DbValue := {|
  ToBytes v := match v with BlockValue b => ToBytes b | AccountValue a => ToBytes a end;
  GetKey v := match v with BlockValue b => GetKey b | AccountValue a => GetKey a end;
  GetIndex v := match v with BlockValue b => GetIndex b | AccountValue a => GetIndex a end
|}.

Inductive RequestKind := ReqGet | ReqPut.

(** [C] is the channel made for the reply.  Only the caller receives from it, so
    the number of the caller names it. *)
Record StorageRequest := mkStorageRequest {
  rq_Kind : RequestKind;
  rq_Bucket : BucketKind;
  rq_Content : option DbValue;
  rq_RefKind : ReferenceKind;
  rq_Reference : gobytes;
  rq_C : chan
}.

(** The call a goroutine is about to make. *)
Inductive StorageCall :=
| CallGet (bucket : BucketKind) (refKind : ReferenceKind) (ref : gobytes)
| CallPut (bucket : BucketKind) (content : option DbValue).

(** The request that [Get] or [Put] sends. *)
Definition request (call : StorageCall) (c : chan) : StorageRequest :=
  match call with
  | CallGet bucket refKind ref => mkStorageRequest ReqGet bucket None refKind ref c
  | CallPut bucket content => mkStorageRequest ReqPut bucket content RefOther None c
  end.

(** [make(chan StorageRequest, 10)]. *)
Definition reqCh_cap : nat := 10.

(** A goroutine, as the service sees it: it ends, or calls and goes on with the
    reply. *)
Inductive Client :=
| Finished
| Calls (call : StorageCall) (k : Result gobytes -> Client).

(** Running, or waiting on the channel of the call it made. *)
Inductive Goroutine :=
| Running (p : Client)
| Awaiting (call : StorageCall) (k : Result gobytes -> Client).

Section service.
Context `{Sha3, Base58, ExpSlices, MapOrder, Bolt}.

(** The body of the loop of [run]: the reply to one request. *)
Definition answer (req : StorageRequest) : M DB (Result gobytes) :=
  match rq_Kind req with
  | ReqPut =>
      let* err := storage_put (rq_Bucket req) (rq_Content req) in
      ret (mkResult None err)
  | ReqGet =>
      let* r := storage_get (rq_Bucket req) (rq_RefKind req) (rq_Reference req) in
      match r with
      | Ok v => ret (mkResult v None)
      | Err e => ret (mkResult None (Some e))
      end
  end.

(** [replying]: what the loop waits to send, and on which channel. *)
Record StorageService := mkStorageService {
  st_db : DB;
  reqCh : list StorageRequest;
  replying : option (chan * Result gobytes);
  goroutines : list Goroutine
}.

Definition started (db : DB) (ps : list Client) : StorageService :=
  mkStorageService db [] None (map Running ps).

(** A goroutine sends its request, the loop takes one and serves it, or it hands
    over the reply. *)
Inductive step : StorageService -> StorageService -> Prop :=
| step_send db q h gs c call k :
    gs !! c = Some (Running (Calls call k)) -> (length q < reqCh_cap)%nat ->
    step (mkStorageService db q h gs)
         (mkStorageService db (q ++ [request call c]) h (<[c := Awaiting call k]> gs))
| step_serve db db' req q gs res :
    answer req db = (Done res, db') ->
    step (mkStorageService db (req :: q) None gs)
         (mkStorageService db' q (Some (rq_C req, res)) gs)
| step_reply db q gs c res call k :
    gs !! c = Some (Awaiting call k) ->
    step (mkStorageService db q (Some (c, res)) gs)
         (mkStorageService db q None (<[c := Running (k res)]> gs)).

(** What the accounts' own transactions ([FetchAccounts], [PushAccounts]) do to
    the database, next to the loop: writes to the accounts bucket, together or
    not at all. *)
Fixpoint put_accounts (kvs : list (bytes * bytes)) : M DB (result unit) :=
  match kvs with
  | [] => ret (Ok tt)
  | (k, v) :: kvs' =>
      let* err := b_Put accountsBucket k v in
      match err with
      | Some e => ret (Err e)
      | None => put_accounts kvs'
      end
  end.

Definition account_txn (db db' : DB) : Prop :=
  db' = db \/ exists kvs, Update_db (put_accounts kvs) db = (Done None, db').

Inductive other_txn : StorageService -> StorageService -> Prop :=
| other db db' q h gs : account_txn db db' ->
    other_txn (mkStorageService db q h gs) (mkStorageService db' q h gs).

Definition concurrent (s s' : StorageService) : Prop := step s s' \/ other_txn s s'.

(** ** The specification: calls that take effect at once *)
Definition do_call (call : StorageCall) : M DB (Result gobytes) :=
  match call with
  | CallGet bucket refKind ref => Storage_Get bucket refKind ref
  | CallPut bucket content => Storage_Put bucket content
  end.

Inductive atomic : DB * list Client -> DB * list Client -> Prop :=
| atomic_call db db' ps c call k res :
    ps !! c = Some (Calls call k) -> do_call call db = (Done res, db') ->
    atomic (db, ps) (db', <[c := k res]> ps)
| atomic_txn db db' ps : account_txn db db' -> atomic (db, ps) (db', ps).

(** What has taken effect: a goroutine whose reply is ready is past its call. *)
Definition effect (h : option (chan * Result gobytes)) (c : chan) (g : Goroutine) : Client :=
  match g with
  | Running p => p
  | Awaiting call k =>
      match h with
      | Some (c', res) => if decide (c = c') then k res else Calls call k
      | None => Calls call k
      end
  end.

Definition abstraction (s : StorageService) : DB * list Client :=
  (st_db s, imap (effect (replying s)) (goroutines s)).
End service.
