(* ===== verification/ServiceProps.v ===== *)
(** The storage service serves its callers one after another, whatever the
    interleaving: every run of the goroutines is a run of calls that take effect
    at once, no goroutine waits for ever, and all of them end. *)
From S2P Require Import Prelude Json JsonLaws Common External Merkle Accounts Txs Blocks Memory Storage.
From S2P Require Import StorageProps Service.
Open Scope Z_scope.

(** ** One of many moves: termination of a list of goroutines *)
Section moves.
Context {A : Type} (R : A -> A -> Prop).

(** Exactly one entry goes down. *)
Definition moved (l' l : list A) : Prop := exists i x y, l !! i = Some x /\ l' = <[i := y]> l /\ R y x.

Lemma moved_Acc l : Forall (Acc R) l -> Acc moved l.
Proof.
  induction l as [|x l IH]; intros Hl.
  { constructor. intros l' (i & x & y & Hi & _). done. }
  apply Forall_cons in Hl as [Hx Hl]. specialize (IH Hl). clear Hl. revert l IH.
  induction Hx as [x _ IHx]. intros l Hl. pose proof Hl as Hacc. induction Hl as [l _ IHl].
  constructor. intros l' ([|i] & x0 & y & Hi & -> & HR); cbn in *.
  - injection Hi as <-. by apply IHx.
  - assert (moved (<[i := y]> l) l) as Hm by (by exists i, x0, y). apply IHl; [done|by apply Acc_inv with l].
Qed.
End moves.

Section service.
Context `{Sha3, Base58, ExpSlices, MapOrder, Bolt}.

Lemma answer_call call c : answer (request call c) = do_call call.
Proof. by destruct call. Qed.

(** ** The invariant: who waits is served, once *)
Definition inflight (q : list StorageRequest) (h : option (chan * Result gobytes)) : list chan :=
  match h with Some (c, _) => [c] | None => [] end ++ map rq_C q.
#[local] Arguments inflight : simpl never.

Record service_ok (s : StorageService) : Prop := {
  so_nodup : NoDup (inflight (reqCh s) (replying s));
  so_waits c : c ∈ inflight (reqCh s) (replying s) <-> exists call k, goroutines s !! c = Some (Awaiting call k);
  so_reqs req : req ∈ reqCh s ->
    exists call k, goroutines s !! rq_C req = Some (Awaiting call k) /\ req = request call (rq_C req)
}.

Lemma started_ok db ps : service_ok (started db ps).
Proof.
  split; cbn.
  - constructor.
  - intros c. split; [by intros ?%elem_of_nil|]. intros (call & k & Hc).
    rewrite list_lookup_fmap in Hc. by destruct (ps !! c).
  - by intros req ?%elem_of_nil.
Qed.

(** A goroutine that runs has no request under way. *)
Lemma running_idle s c p : service_ok s -> goroutines s !! c = Some (Running p) ->
  c ∉ inflight (reqCh s) (replying s).
Proof. intros Hok Hc (call & k & Hk)%(so_waits _ Hok). congruence. Qed.

Lemma rq_C_request call c : rq_C (request call c) = c.
Proof. by destruct call. Qed.

Lemma step_ok s s' : service_ok s -> step s s' -> service_ok s'.
Proof.
  intros Hok Hs. destruct Hs as [db q h gs c call k Hc Hq|db db' req q gs res Hr|db q gs c res call k Hc].
  - pose proof (running_idle _ _ _ Hok Hc) as Hn. destruct Hok as [Hd Hw Hr]. cbn in *.
    assert (inflight (q ++ [request call c]) h = inflight q h ++ [c]) as Hi
      by (unfold inflight; by rewrite map_app, app_assoc; cbn; rewrite rq_C_request).
    pose proof (lookup_lt_Some _ _ _ Hc) as Hlt. split; cbn.
    + rewrite Hi. apply NoDup_app. split_and!; [done| |apply NoDup_singleton].
      intros x Hx ->%list_elem_of_singleton. done.
    + intros c'. rewrite Hi, elem_of_app, list_elem_of_singleton, Hw, list_lookup_insert.
      case_decide as Hcc; [destruct Hcc as [<- _]; split; [eauto|by right]|].
      split; [intros [?| ->]; [done|tauto]|by left].
    + intros req [Hin| ->%list_elem_of_singleton]%elem_of_app.
      * destruct (Hr _ Hin) as (call' & k' & Hg & He). exists call', k'. split; [|done].
        rewrite list_lookup_insert_ne; [done|]. intros E. rewrite E in Hc. congruence.
      * rewrite rq_C_request, list_lookup_insert_eq by done. eauto.
  - destruct Hok as [Hd Hw Hrq]. split; cbn in *; [done|done|]. intros req' Hin. apply Hrq. by right.
  - destruct Hok as [Hd Hw Hr]. cbn in *. apply NoDup_cons in Hd as [Hn Hd].
    pose proof (lookup_lt_Some _ _ _ Hc) as Hlt. split; cbn.
    + done.
    + intros c'. rewrite list_lookup_insert. case_decide as Hcc.
      * destruct Hcc as [<- _]. split; [done|by intros (? & ? & ?)].
      * rewrite <- Hw. split; [by right|]. intros [->|]%elem_of_cons; [tauto|done].
    + intros req Hin. rewrite list_lookup_insert_ne; [by apply Hr|].
      intros ->. apply Hn. apply list_elem_of_fmap. eauto.
Qed.

(** ** The simulation *)
Lemma abs_insert h c g g' gs : gs !! c = Some g -> effect h c g' = effect h c g ->
  imap (effect h) (<[c := g']> gs) = imap (effect h) gs.
Proof.
  intros Hc He. apply list_eq. intros i. rewrite !list_lookup_imap, list_lookup_insert.
  case_decide as Hi; [|done]. destruct Hi as [<- _]. rewrite Hc. cbn. by rewrite He.
Qed.

Lemma abs_hand h h' c g gs : gs !! c = Some g ->
  (forall i g', i <> c -> effect h' i g' = effect h i g') ->
  imap (effect h') gs = <[c := effect h' c g]> (imap (effect h) gs).
Proof.
  intros Hc He. apply list_eq. intros i. rewrite list_lookup_insert, !list_lookup_imap, length_imap.
  pose proof (lookup_lt_Some _ _ _ Hc) as Hlt. case_decide as Hi.
  - destruct Hi as [<- _]. by rewrite Hc.
  - destruct (gs !! i) as [g'|]; [|done]. cbn. f_equal. apply He. intros ->. tauto.
Qed.

Lemma effect_other c res i g : i <> c -> effect (Some (c, res)) i g = effect None i g.
Proof. intros Hi. destruct g; [done|]. cbn. by rewrite decide_False. Qed.

(** Serving is the moment at which a call takes effect. *)
Lemma step_simulated s s' : service_ok s -> step s s' -> rtc atomic (abstraction s) (abstraction s').
Proof.
  intros Hok Hs. destruct Hs as [db q h gs c call k Hc Hq|db db' req q gs res Hr|db q gs c res call k Hc].
  - unfold abstraction. cbn. rewrite (abs_insert h c _ _ gs Hc); [done|]. cbn.
    destruct h as [[c' res]|]; [|done]. rewrite decide_False; [done|]. intros <-.
    apply (running_idle _ _ _ Hok Hc). by left.
  - destruct (so_reqs _ Hok req) as (call & k & Hg & He); [by left|]. cbn in Hg.
    rewrite He, answer_call in Hr. apply rtc_once. unfold abstraction. cbn.
    rewrite (abs_hand None (Some (rq_C req, res)) (rq_C req) _ gs Hg) by apply effect_other.
    cbn. rewrite decide_True by done. apply (atomic_call _ _ _ _ call); [|done].
    rewrite list_lookup_imap, Hg. done.
  - unfold abstraction. cbn. assert (imap (effect None) (<[c := Running (k res)]> gs)
      = imap (effect (Some (c, res))) gs) as ->; [|done].
    rewrite <- (abs_insert (Some (c, res)) c _ (Running (k res)) gs Hc) by (cbn; by rewrite decide_True).
    apply list_eq. intros i. rewrite !list_lookup_imap, list_lookup_insert. case_decide as Hi; [done|].
    destruct (gs !! i) as [g|] eqn:Hg; [|done]. cbn. f_equal. symmetry. apply effect_other.
    intros ->. apply lookup_lt_Some in Hg. tauto.
Qed.

Lemma other_txn_ok s s' : service_ok s -> other_txn s s' -> service_ok s'.
Proof. intros [Hd Hw Hr] Ht. destruct Ht. by split. Qed.

Lemma concurrent_simulated s s' : service_ok s -> concurrent s s' ->
  service_ok s' /\ rtc atomic (abstraction s) (abstraction s').
Proof.
  intros Hok [Hs|Ht].
  - split; [by eapply step_ok|by apply step_simulated].
  - split; [by eapply other_txn_ok|]. destruct Ht. apply rtc_once. by apply atomic_txn.
Qed.

Lemma started_abstraction db ps : abstraction (started db ps) = (db, ps).
Proof.
  unfold abstraction. cbn. f_equal. apply list_eq. intros i. rewrite list_lookup_imap, list_lookup_fmap.
  by destruct (ps !! i).
Qed.

Lemma run_simulated s s' : rtc concurrent s s' -> service_ok s ->
  service_ok s' /\ rtc atomic (abstraction s) (abstraction s').
Proof.
  induction 1 as [s|s s1 s' Hs _ IH]; intros Hok; [done|].
  destruct (concurrent_simulated s s1 Hok Hs) as [Hok1 Ha]. destruct (IH Hok1) as [Hok' Ha'].
  split; [done|]. by transitivity (abstraction s1).
Qed.

(** ** Termination: a call is sent, served, answered *)
Inductive stage :=
| Idle (p : Client)
| Queued (call : StorageCall) (k : Result gobytes -> Client)
| Served (p : Client).

Inductive next_stage : stage -> stage -> Prop :=
| next_queued call k : next_stage (Queued call k) (Idle (Calls call k))
| next_served call k res : next_stage (Served (k res)) (Queued call k)
| next_idle p : next_stage (Idle p) (Served p).

Lemma next_stage_Acc st : Acc next_stage st.
Proof.
  assert (forall p, Acc next_stage (Idle p)) as Hidle.
  { induction p as [|call k IH]; constructor; intros st' Hs; inversion Hs; subst.
    constructor. intros st' Hs'. inversion Hs'; subst.
    constructor. intros st' Hs''. inversion Hs''; subst. apply IH. }
  assert (forall p, Acc next_stage (Served p)) as Hserved.
  { intros p. constructor. intros st' Hs. inversion Hs; subst. apply Hidle. }
  destruct st; [apply Hidle| |apply Hserved].
  constructor. intros st' Hs. inversion Hs; subst. apply Hserved.
Qed.

Definition stage_of (h : option (chan * Result gobytes)) (c : chan) (g : Goroutine) : stage :=
  match g with
  | Running p => Idle p
  | Awaiting call k =>
      match h with
      | Some (c', res) => if decide (c = c') then Served (k res) else Queued call k
      | None => Queued call k
      end
  end.

Definition stages (s : StorageService) : list stage := imap (stage_of (replying s)) (goroutines s).

(** Goroutine [c] goes from [g] to [g'], the others are where they were. *)
Lemma stages_moved h h' c g g' gs : gs !! c = Some g ->
  (forall i x, i <> c -> stage_of h' i x = stage_of h i x) ->
  next_stage (stage_of h' c g') (stage_of h c g) ->
  moved next_stage (imap (stage_of h') (<[c := g']> gs)) (imap (stage_of h) gs).
Proof.
  intros Hc He Hn. exists c, (stage_of h c g), (stage_of h' c g'). split_and!; [by rewrite list_lookup_imap, Hc| |done].
  apply list_eq. intros i. rewrite list_lookup_insert, !list_lookup_imap, length_imap, list_lookup_insert.
  case_decide as Hi; [by destruct Hi as [<- _]|]. destruct (gs !! i) as [x|] eqn:Hx; [|done]. cbn. f_equal. apply He.
  intros ->. apply lookup_lt_Some in Hx. tauto.
Qed.

Lemma step_moved s s' : service_ok s -> step s s' -> moved next_stage (stages s') (stages s).
Proof.
  intros Hok Hs. destruct Hs as [db q h gs c call k Hc Hq|db db' req q gs res Hr|db q gs c res call k Hc].
  - apply (stages_moved h h c _ (Awaiting call k) gs Hc); [done|]. cbn.
    destruct h as [[c' res]|]; [|constructor]. rewrite decide_False; [constructor|]. intros <-.
    apply (running_idle _ _ _ Hok Hc). by left.
  - destruct (so_reqs _ Hok req) as (call & k & Hg & He); [by left|]. cbn in Hg.
    unfold stages. cbn. rewrite <- (list_insert_id gs _ _ Hg) at 1.
    apply (stages_moved None (Some (rq_C req, res)) (rq_C req) _ (Awaiting call k) gs Hg).
    + intros i x Hi. destruct x; [done|]. cbn. by rewrite decide_False.
    + cbn. rewrite decide_True by done. constructor.
  - apply (stages_moved (Some (c, res)) None c _ (Running (k res)) gs Hc).
    + intros i x Hi. destruct x; [done|]. cbn. by rewrite decide_False.
    + cbn. rewrite decide_True by done. constructor.
Qed.

(** A step, after transactions that do not concern the goroutines. *)
Definition busy (s' s : StorageService) : Prop := exists s1, rtc other_txn s s1 /\ step s1 s'.

Lemma other_txns s s1 : rtc other_txn s s1 -> stages s1 = stages s /\ (service_ok s -> service_ok s1).
Proof.
  induction 1 as [s|s s1 s2 Ht _ [IHs IHo]]; [done|]. split.
  - rewrite IHs. by destruct Ht.
  - intros Hok. by eapply IHo, other_txn_ok.
Qed.

Lemma busy_Acc s : service_ok s -> Acc busy s.
Proof.
  intros Hok. assert (Acc (moved next_stage) (stages s)) as Hacc.
  { apply moved_Acc. apply Forall_forall. intros st _. apply next_stage_Acc. }
  remember (stages s) as l eqn:El. revert s Hok El.
  induction Hacc as [l _ IH]. intros s Hok ->. constructor. intros s' (s1 & Ht & Hs).
  destruct (other_txns _ _ Ht) as [Hst Hok1]. apply (IH (stages s')); [|by apply (step_ok s1); [apply Hok1|]|done].
  rewrite <- Hst. by apply step_moved; [apply Hok1|].
Qed.
End service.

(** ** The database: the loop never panics *)
Create HintDb keeps discriminated.

Section database.
Context `{Sha3, Base58, ExpSlices, MapOrder, Bolt, !BoltLaws}.

Definition usable (db : DB) : Prop :=
  bolt_has_bucket db blocksBucket = true /\ bolt_has_bucket db accountsBucket = true.

(** Returns, and leaves the buckets. *)
Definition keeps {A} (m : M DB A) : Prop :=
  forall db, usable db -> exists a db', m db = (Done a, db') /\ usable db'.

Lemma keeps_ret {A} (a : A) : keeps (ret a).
Proof. intros db Hdb. by exists a, db. Qed.

Lemma keeps_bind {A B} (m : M DB A) (k : A -> M DB B) : keeps m -> (forall a, keeps (k a)) -> keeps (bind m k).
Proof.
  intros Hm Hk db Hdb. destruct (Hm db Hdb) as (a & db1 & Hr & Hdb1).
  rewrite (bind_done _ _ _ _ _ Hr). by apply Hk.
Qed.

Lemma keeps_Bucket b : b = blocksBucket \/ b = accountsBucket -> keeps (Bucket b).
Proof. intros Hb db Hdb. exists tt, db. unfold Bucket. by destruct Hdb as [Ha Hc], Hb as [-> | ->]; rewrite ?Ha, ?Hc. Qed.

Lemma keeps_b_Get b k : keeps (b_Get b k).
Proof. intros db Hdb. by eexists _, db. Qed.

Lemma keeps_b_Put b k v : keeps (b_Put b k v).
Proof.
  intros db Hdb. unfold b_Put. destruct (bolt_put db b k v) as [db'|e] eqn:E; [|by eexists _, db].
  exists None, db'. split; [done|]. unfold usable. by rewrite !(bolt_put_bucket _ _ _ _ _ _ E).
Qed.

Lemma keeps_Update (m : M DB (result unit)) : keeps m -> keeps (Update_db m).
Proof.
  intros Hm db Hdb. destruct (Hm db Hdb) as (r & db1 & Hr & Hdb1).
  unfold Update_db, bind, Update. rewrite Hr. destruct r as [[]|e]; [|by eexists _, db].
  destruct (bolt_commit db1); by eexists _, _.
Qed.

#[local] Hint Resolve keeps_ret keeps_Bucket keeps_b_Get keeps_b_Put : keeps.

(** Down to the operations of the database. *)
Ltac keeps :=
  repeat match goal with
    | |- forall _, _ => intros ?
    | |- keeps (match ?x with _ => _ end) => destruct x
    | |- keeps (bind _ _) => apply keeps_bind
    | |- keeps (Update_db _) => apply keeps_Update
    | _ => solve [auto with keeps]
    end.

Lemma keeps_StorageDb_Put {C} `{DbContent C} b (c : C) :
  b = blocksBucket \/ b = accountsBucket -> keeps (StorageDb_Put b c).
Proof. intros Hb. unfold StorageDb_Put. keeps. Qed.

Lemma keeps_answer req : keeps (answer req).
Proof.
  unfold answer, storage_put, storage_get, GetByKey, GetByIndex, GetLatest, GetLatestKey, GetLatestIndex.
  pose proof @keeps_StorageDb_Put. cbv zeta. keeps.
Qed.

Lemma account_txn_keeps db db' : usable db -> account_txn db db' -> usable db'.
Proof.
  intros Hdb [->|[kvs Hu]]; [done|]. assert (keeps (put_accounts kvs)) as Hk.
  { clear Hu. induction kvs as [|[k v] kvs IH]; cbn [put_accounts]; keeps. }
  destruct (keeps_Update _ Hk db Hdb) as (r & db1 & Hr & Hdb1). congruence.
Qed.

Lemma concurrent_usable s s' : rtc concurrent s s' -> usable (st_db s) -> usable (st_db s').
Proof.
  induction 1 as [s|s s1 s' [Hs|Ht] _ IH]; [done| |]; intros Hdb; apply IH.
  - destruct Hs as [|db db' req q gs res Hr|]; [done| |done].
    destruct (keeps_answer req db Hdb) as (a & db1 & Hr1 & Hdb1). cbn in *. congruence.
  - destruct Ht. by eapply account_txn_keeps.
Qed.

(** ** Progress *)
Lemma all_ended gs : Forall (fun g => g = Running Finished) gs
  \/ exists c g, gs !! c = Some g /\ g <> Running Finished.
Proof.
  induction gs as [|g gs [IH|(c & g' & Hc & Hg)]]; [by left| |right; by exists (S c), g'].
  destruct g as [[|call k]|call k]; [left; by constructor|right; by eexists 0%nat, _..].
Qed.

Lemma step_possible s : service_ok s -> usable (st_db s) ->
  Forall (fun g => g = Running Finished) (goroutines s) \/ exists s', step s s'.
Proof.
  intros Hok Hdb. destruct s as [db q [[c res]|] gs].
  { destruct (proj1 (so_waits _ Hok c)) as (call & k & Hc); [by left|]. cbn in Hc. right.
    eexists. by eapply step_reply. }
  destruct q as [|req q].
  2:{ destruct (keeps_answer req db Hdb) as (res & db' & Hr & _). right. eexists. by apply step_serve. }
  destruct (all_ended gs) as [Hall|(c & g & Hc & Hg)]; [by left|right].
  destruct g as [[|call k]|call k]; [done|eexists; apply (step_send _ _ _ _ c call k Hc); unfold reqCh_cap; cbn; lia|].
  assert (c ∈ inflight [] None) as Hin by (apply (so_waits _ Hok); eauto). by apply elem_of_nil in Hin.
Qed.

(** ** The transactions of the accounts *)
Lemma in_mem_db {A} (m : M MemoryService A) e : env_db (snd (in_mem m e)) = env_db e.
Proof. unfold in_mem, zoom. by destruct (m (env_mem e)). Qed.

Lemma push_each_txn pks : forall chs e e', push_each pks chs e = (Done (Ok tt), e') ->
  exists kvs, put_accounts kvs (env_db e) = (Done (Ok tt), env_db e').
Proof.
  induction pks as [|pk pks IH]; intros chs e e' Hr; [injection Hr as <-; by exists []|].
  destruct chs as [|ch chs]; [injection Hr as <-; by exists []|]. cbn [push_each] in Hr.
  unfold bind at 1 in Hr. pose proof (in_mem_db (recv_state ch) e) as D1.
  destruct (in_mem (recv_state ch) e) as [[res|w|w] e1]; [|done..]. destruct res as [res|]; [|done].
  destruct (ResErr res); [done|]. unfold bind at 1 in Hr. pose proof (in_mem_db (deref (Value res)) e1) as D2.
  destruct (in_mem (deref (Value res)) e1) as [[v|w|w] e2]; [|done..]. destruct (Marshal v) as [enc|]; [|done].
  unfold bind at 1, in_db at 1, zoom at 1 in Hr. cbn [fst snd] in *.
  destruct (b_Put accountsBucket (raw pk) enc (env_db e2)) as [[[er|]|w|w] db1] eqn:E; [done| |done..].
  apply IH in Hr as (kvs & Hk). exists ((raw pk, enc) :: kvs). cbn [put_accounts].
  rewrite D2, D1 in E. by rewrite (bind_done _ _ _ _ _ E).
Qed.

(** Code that leaves the database alone. *)
Definition unmoved {A} (m : M Env A) : Prop := forall e, env_db (snd (m e)) = env_db e.

Lemma unmoved_bind {A B} (m : M Env A) (k : A -> M Env B) : unmoved m -> (forall a, unmoved (k a)) -> unmoved (bind m k).
Proof.
  intros Hm Hk e. specialize (Hm e). unfold bind. destruct (m e) as [[a|w|w] e1]; [|done..].
  by rewrite (Hk a e1).
Qed.

Lemma unmoved_Bucket b : unmoved (in_db (Bucket b)).
Proof. intros e. unfold in_db, zoom, Bucket. by destruct (bolt_has_bucket _ _). Qed.

Lemma unmoved_fetch_keys pks : unmoved (fetch_keys pks).
Proof.
  induction pks as [|pk pks IH]; cbn [fetch_keys]; [done|]. apply unmoved_bind; [done|]. intros r.
  case_match; [|done]. do 2 (apply unmoved_bind; [intros e; apply in_mem_db|intros ?]).
  apply unmoved_bind; [exact IH|done].
Qed.

Lemma FetchAccounts_txn pks e : account_txn (env_db e) (env_db (snd (FetchAccounts pks e))).
Proof.
  left. apply unmoved_bind.
  - intros e1. assert (unmoved (let* _ := in_db (Bucket accountsBucket) in fetch_keys pks)) as Hu
      by (apply unmoved_bind; [apply unmoved_Bucket|intros; apply unmoved_fetch_keys]).
    specialize (Hu e1). unfold Update. destruct (bind _ _ e1) as [[[a|er]|w|w] e2]; [|done..].
    by destruct (bolt_commit (env_db e2)).
  - intros [chs|er]; [|done]. apply unmoved_bind; [intros e1; apply in_mem_db|done].
Qed.

Lemma PushAccounts_txn pks e : account_txn (env_db e) (env_db (snd (PushAccounts pks e))).
Proof.
  unfold PushAccounts, bind at 1. pose proof (in_mem_db (get_all pks) e) as D1.
  destruct (in_mem (get_all pks) e) as [[chs|w|w] e1]; cbn [snd] in D1; [|by left..].
  rewrite <- D1. unfold bind at 1, Update, bind at 1.
  pose proof (unmoved_Bucket accountsBucket e1) as D2.
  destruct (in_db (Bucket accountsBucket) e1) as [[[]|w|w] e2]; cbn [snd] in D2; [|by left..].
  destruct (push_each pks chs e2) as [[[[]|er]|w|w] e3] eqn:E; [|by left..].
  apply push_each_txn in E as [kvs Hk]. rewrite D2 in Hk.
  destruct (bolt_commit (env_db e3)) eqn:Ec; [by left|right]. exists kvs.
  unfold Update_db, bind, Update. by rewrite Hk, Ec.
Qed.
End database.

(** ** Running a schedule *)
Inductive move := MSend (c : chan) | MServe | MReply.

Section schedules.
Context `{Sha3, Base58, ExpSlices, MapOrder, Bolt}.

Definition run_move (m : move) (s : StorageService) : option StorageService :=
  let '(mkStorageService db q h gs) := s in
  match m, q, h with
  | MSend c, _, _ =>
      match gs !! c with
      | Some (Running (Calls call k)) =>
          if (length q <? reqCh_cap)%nat
          then Some (mkStorageService db (q ++ [request call c]) h (<[c := Awaiting call k]> gs)) else None
      | _ => None
      end
  | MServe, req :: q, None =>
      match answer req db with
      | (Done res, db') => Some (mkStorageService db' q (Some (rq_C req, res)) gs)
      | _ => None
      end
  | MReply, _, Some (c, res) =>
      match gs !! c with
      | Some (Awaiting call k) => Some (mkStorageService db q None (<[c := Running (k res)]> gs))
      | _ => None
      end
  | _, _, _ => None
  end.

Lemma run_move_iff s s' : step s s' <-> exists m, run_move m s = Some s'.
Proof.
  split.
  - intros Hs. destruct Hs as [db q h gs c call k Hc Hq|db db' req q gs res Hr|db q gs c res call k Hc].
    + exists (MSend c). unfold run_move. rewrite Hc. by apply Nat.ltb_lt in Hq as ->.
    + exists MServe. cbn. by rewrite Hr.
    + exists MReply. cbn. by rewrite Hc; destruct q.
  - intros [m Hm]. destruct s as [db q h gs], m as [c| |]; unfold run_move in Hm.
    + destruct (gs !! c) as [[[|call k]|]|] eqn:Hc; [done| |done..].
      destruct (length q <? reqCh_cap)%nat eqn:Hq; [|done]. injection Hm as <-.
      apply step_send; [done|by apply Nat.ltb_lt].
    + destruct q as [|req q], h; [done..|done|]. destruct (answer req db) as [[res|w|w] db'] eqn:Hr; [|done..].
      injection Hm as <-. by apply step_serve.
    + destruct h as [[c res]|]; [|by destruct q]. destruct (gs !! c) as [[|call k]|] eqn:Hc; [by destruct q| |by destruct q].
      destruct q; injection Hm as <-; by eapply step_reply.
Qed.

(** The moves that are possible, in order; the others are skipped. *)
Definition schedule (ms : list move) (s : StorageService) : StorageService :=
  fold_left (fun s m => default s (run_move m s)) ms s.

Lemma schedule_concurrent ms : forall s, rtc concurrent s (schedule ms s).
Proof.
  induction ms as [|m ms IH]; intros s; [done|]. cbn. destruct (run_move m s) as [s1|] eqn:Hm; [|apply IH].
  apply rtc_l with s1; [|apply IH]. left. apply run_move_iff. eauto.
Qed.
End schedules.

(** * Properties *)
Section service_properties.
Context `{Sha3, Base58, ExpSlices, MapOrder, Bolt}.

End service_properties.

Section service_witnesses.
Import Toy.

(** A goroutine stores a block, another one asks for the latest block. *)
Definition writer : Client := Calls (CallPut BlocksKind (Some (BlockValue demo_block))) (fun _ => Finished).
Definition reader : Client := Calls (CallGet BlocksKind RefLatest None) (fun _ => Finished).

Definition halfway : StorageService :=
  schedule [MSend 0; MSend 1; MServe; MReply] (started empty_db [writer; reader]).

End service_witnesses.
